(* ===== verification/_CoqProject ===== *)
-Q . S2P
Prelude.v
Text.v
StrMethods.v
Table.v
Clock.v
Json.v
Floats.v
HttpRequest.v
ServerConfig.v
Api.v
Demo.v
Schema.v
MessageQueue.v
MessageQueueProps.v
Reminders.v
ParentRouting.v
Reviews.v
Store.v
QueueJobs.v
DemoHost.v
QueueJobsProps.v
Shell.v
QueueAdmission.v
QueueAdmissionProps.v
QueueRecovery.v
QueueRecoveryProps.v
Btw.v
BtwProps.v
BtwText.v
CodexEvents.v
CodexTools.v
QueueAuthority.v
UsageDb.v
DemoUsage.v
UsageIdentity.v
UsageBurn.v
UsagePoller.v
UsageIdentityProps.v
UsageBurnProps.v
SeatSessions.v
UsageStore.v
MobilePolicy.v
MobileDevices.v
MobileDevicesProps.v
MobilePairing.v
Server.v
CloudflareAccess.v
CloudflareAccessProps.v
PublicEdge.v
DeviceAuth.v
GoogleAuth.v
MobileTickets.v
MobileTicketsProps.v
