(* ===== verification/Prelude.v ===== *)
(** * Session Manager: the verified core of the Rust server

    The server (crates/sm-server/src) supervises coding agents that run in terminal
    sessions.  Agents and people talk to each other through queued messages, reminders,
    wake registrations and side questions; long commands run as queue jobs under an
    admission policy.  All of that state lives in SQLite files that several threads and
    processes open, so the correctness of the server rests on what each store operation
    does to its tables, in every order.  Phones reach the server through a tunnel: they
    are paired once, pass an access gate, and open terminals with short-lived tickets.
    This library models the message and job queue (queue.rs), side questions (btw.rs), the
    usage accounts (usage_identity.rs, usage_burn.rs, seat_sessions.rs), the readers of
    Codex state (codex_*.rs, tool_usage.rs), the queue authority (queue_authority.rs), the
    pairing of devices (mobile_devices.rs), access control (cloudflare_access.rs,
    google_auth.rs and its part of http.rs) and the mobile terminal (http.rs).

    ** The parts and how they fit

    - [Prelude]: the state-and-error monad (a Rust [Result] function on a database is
      [S -> outcome A * S]; [Panic] is a third outcome), transactions, the two-state
      specifications [steps R m] ("every run of [m], however it ends, moves the state along
      [R]") with the tactics [step_through] and [db_steps], and record update.
    - [Text], [Table], [Clock]: Rust and SQLite text functions byte by byte; tables as lists
      of rows with [SELECT .. ORDER BY], [UPDATE], [INSERT OR IGNORE/REPLACE] and unique
      keys; the date helpers of queue.rs.  The [time] crate, libc's local time, the clock
      and the random source are the classes [TimeCrate] and [Env]; the documented laws of
      the crate are [TimeLaws].  Reading [k] of a resource is the value the class gives at
      index [k], so clocks may jump in any way.  The random source gives bytes
      ([fill_bytes]), which may repeat: that two ids drawn at different readings differ is a
      hypothesis ([distinct_ids]) of the theorems that need it.
    - [Schema]: the six tables of the message database and the migration of [init_schema],
      run by every [with_connection].  [mq_wf] is the uniqueness of every declared key,
      [mq_safe] what an operation guarantees: the keys stay, delivered messages too.
    - [MessageQueue], [MessageQueueProps]: enqueueing (plain, with a chosen id, with
      metadata), the pending lists with expiry, delivery with its four side effects, status
      reminders, parent wakes, stop notifications, cancelling by category.
    - [Reminders]: scheduling, cancelling, listing and claiming one-shot and recurring
      reminders.
    - [ParentRouting]: the hand-over of a child session to another parent: snapshot,
      quiesce, retarget.
    - [Reviews]: the requests for code reviews: create with ownership and supersession,
      polling marks, retry, completion with its wake message.
    - [Store]: the operations of these four components ([store_op], each run by
      [run_store_op] as the functions of queue.rs that it names), and the executions of the
      whole message store as a step relation.
    - [QueueJobs], [QueueJobsProps]: the job table, creation with the wrapper script,
      completion, the completion message and its retry.  The runner's state is the job
      table, the message database and the list of requests made to the host; the host's
      answers are the class [Host], JSON lists the class [Serde].
    - [Shell]: an independent reader of shell text, and the wrapper script read back.
    - [QueueAdmission], [QueueAdmissionProps]: the admission loop: capacities per type and
      in all, the quiet window of performance runs, displacement, the service reserve.
    - [QueueRecovery], [QueueRecoveryProps]: cancelling, recovery after a restart, one turn
      of the monitor thread and one of the polling thread, and the executions of the runner
      as a step relation that interleaves them with the message store.
    - [Btw], [BtwProps], [BtwText]: the store of side questions, its executions, the prompt
      check and the extraction of an answer from a terminal snapshot.
    - [StrMethods], [Json], [Floats]: the string methods of Rust, JSON values as serde_json
      has them with the parser as the class [JsonParser], IEEE doubles and their parser.
    - [UsageDb], [UsageIdentity], [UsagePoller], [UsageIdentityProps]: who was logged in
      when: observations, the timeline of accounts, its use for a message, the two identity
      files and the poller.  [UsageBurn], [UsageBurnProps]: the samples of rate limits.
      [SeatSessions]: which seat holds which provider session.  [UsageStore]: the executions
      of these three on their common database.
    - [CodexEvents], [CodexTools], [QueueAuthority]: pages of events, projections of tool
      events, the classification of tool calls; the socket service that answers for a job.
    - [MobileDevices], [MobileDevicesProps]: the device database (tokens, devices, audit).
      [MobilePolicy]: the calls that keep the access policy of the tunnel in step.
      [MobilePairing]: the two pairing handlers, over the database, the policy service and
      openssl.
    - [HttpRequest], [ServerConfig], [Api], [Server]: headers and encodings, the
      configuration the checks read, handlers (errors, atomic sections, threads), and the
      state handlers share.
    - [CloudflareAccess], [CloudflareAccessProps], [PublicEdge], [DeviceAuth], [GoogleAuth]:
      the access gate with its key caches, the signed assertions of the edge with their
      nonces, cookies and device tokens, the exchange of a Google token for a device token.
    - [MobileTickets], [MobileTicketsProps]: tickets, attaches, switching off, revoking.
      A handler is a program [prog] whose sections are what it does under one lock; a pool
      of handlers interleaves between sections ([pool_step]).  Reads and calls that touch
      nothing another handler changes are part of the section beside them.
    - [Demo], [DemoHost], [DemoUsage]: concrete instances of the classes, on which the
      model is run.

    Code outside the repository is a class: [TimeCrate], [UsageTime], [LocalTime] (time
    crate, local offset), [JsonParser], [Base64], [DeviceCrypto], [Signing], [Sha1] (hashes
    and encodings), [Jwt] with [JwtLaws] (jsonwebtoken: claims are returned only for a token
    signed by the key, of an accepted issuer and audience), [HttpAgent], [CertTools],
    [UriCrate], [Monotonic], [Sessions], [TerminalServices].  Each class of laws has an
    instance among the concrete runs.

    A definition keeps the name of the function it models.  A loop or a statement that is
    a definition of its own here is named after what it does.

    ** What the theorems show

    - Messages: a delivery runs its side effects once, exactly those the message asks for and
      no others, all or none; an id is enqueued once; the pending list is what is left after expiry, in
      order; metadata comes back as it was sent; a timeout ends on time.
    - Reminders: a claim queues one message and moves the reminder on; a one-shot reminder
      fires once, a cancelled one never; claiming a reminder listed as due queues its message
      when the generated id is unused and the next firing time can be written.
    - Routing: quiesce and retarget rewrite exactly the rows of the snapshot, can be resumed
      after a failure, and compose to a hand-over.
    - Reviews: at most one active request per pull request, as long as no requester id is
      white space only; the outcome of every creation; completion wakes the requester once.
    - Jobs: a finished job is notified, or marked for the retry, which notifies every job;
      the wrapper runs what was asked, whatever bytes it holds.
    - Admission: it ends; it never exceeds a capacity; a performance job runs alone while
      the clock stands; jobs start oldest first; the service reserve is kept or nothing
      changes.
    - Ends: terminal jobs are frozen in every execution; cancelling ends as cancelled; a
      restart deals with every running job; a forced end wins over what a thread saw.
    - Side questions: one active request per target, the life of a request, exclusive
      creation, the failure of a session's requests, the extracted answer.

    - Usage: the stored timeline is a refinement of the list of polls; keys, references and
      the one open interval hold in every execution; nothing recorded is lost; appending a
      session adds exactly its claim.
    - Readers: paging is reading at once; a request on the socket is the text before the first
      newline however it is cut, and more text in the piece with the newline is refused; the authority only reads, and gives out only the asked job.
    - Devices: a token pairs one device and survives few failures; enrolling and revoking
      change one device; a pairing request enrolls the device it presents or nothing; the
      access policy follows as a set of names and loses every rule that lets in all
      certificates.
    - Access: who passes the gate showed a genuine assertion; an edge nonce counts once
      until the clock reads its expiry; signed texts are unambiguous; a Google exchange
      reads what it relies on from the token that Google signed, and its device token works; percent-encoding is undone by decoding.
    - Terminal, for every interleaving of handlers: revoking a device and switching off are
      final, a redeemed ticket is gone, limits on attaches hold; for the first and the third the
      random source must not have given a ticket id twice.

    Eight theorems state behaviour that the code does not mean to have, each as a concrete
    run: [blank_requester_two_active], [stale_completion_blocks_retry],
    [perf_started_beside_tests], [huge_window_panics], [seat_claim_lost],
    [expired_token_accepted], [placeholder_device_not_revoked], [edge_replay_accepted].

    ** Bounds and fuel

    The only recursion of the server that is not structural is the admission loop.  Its fuel is one more
    than twice the pending jobs plus the running jobs, which every further turn lowers;
    [admission_terminates] shows that any larger fuel gives the same run.  The client of
    [following_is_complete] makes as many requests as there are events at most.  The endless
    loops of the two threads are modelled by their turns.  Integers are [Z] with the
    checked conversions of the source written out ([u64_to_i64], [i64_to_u64],
    saturating and checked additions); byte and row counts are [nat].

    ** What is not modelled

    An operation is one step of an execution; the interleaving of single SQL statements of
    two operations is not modelled (every statement separately keeps the invariants, since
    [steps] is proved statement by statement).  SQLite itself is taken to run its statements
    as documented and not to fail; opening a database may fail where the code handles it.
    Waiting for a process group to die is one step.  Of the HTTP server only the parts
    named above are modelled; poisoned locks are not.  The session registry (sessions.rs)
    appears as the class [Sessions]; the terminal runtime, the email bridge, the ledger and
    reports of usage (usage_ledger.rs, usage_report.rs), reading the configuration, and the
    command line client are outside this library so far; the next parts to model are the
    session records of sessions.rs, the ledger, and the address and routing rules of
    email.rs. *)

From Stdlib Require Import ZArith Lia Bool String Ascii List Sorted Permutation.
From stdpp Require Import base tactics list strings relations.

#[global] Set Default Goal Selector "!".
Open Scope Z_scope.

(** ** Outcomes and the state-and-error monad

    A Rust function returning [anyhow::Result<A>] that works on a database
    or another external resource is a function [S -> outcome A * S].  [Err]
    is a returned error with its text; [Panic] is an unwinding panic, which
    no [match] on the result and no [let _ =] intercepts.  An error keeps the
    state reached so far: statements executed before the [?] stay executed. *)
Inductive outcome (A : Type) : Type :=
| Ok (a : A)
| Err (message : string)
| Panic.
Arguments Ok {A} _.
Arguments Err {A} _.
Arguments Panic {A}.

Definition M (S A : Type) : Type := S -> outcome A * S.

Section Monad.
Context {S : Type}.

Definition ret {A} (a : A) : M S A := fun s => (Ok a, s).
Definition bail {A} (message : string) : M S A := fun s => (Err message, s).
Definition panic {A} : M S A := fun s => (Panic, s).
Definition bind {A B} (m : M S A) (k : A -> M S B) : M S B :=
  fun s =>
    match m s with
    | (Ok a, s') => k a s'
    | (Err e, s') => (Err e, s')
    | (Panic, s') => (Panic, s')
    end.
Definition gets {A} (f : S -> A) : M S A := fun s => (Ok (f s), s).
Definition modify (f : S -> S) : M S unit := fun s => (Ok tt, f s).
(** [match m { Ok(v) => .., Err(e) => .. }]: the error becomes a value. *)
Definition attempt {A} (m : M S A) : M S (A + string) :=
  fun s =>
    match m s with
    | (Ok a, s') => (Ok (inl a), s')
    | (Err e, s') => (Ok (inr e), s')
    | (Panic, s') => (Panic, s')
    end.
(** [let _ = m;]: an error is dropped. *)
Definition discard {A} (m : M S A) : M S unit :=
  bind (attempt m) (fun _ => ret tt).
(** [opt.context(message)?] and [opt.ok_or_else(..)?]. *)
Definition expect {A} (message : string) (o : option A) : M S A :=
  match o with Some a => ret a | None => bail message end.
Definition lift {A} (r : outcome A) : M S A := fun s => (r, s).
(** A [for] loop whose body may return early with an error. *)
Fixpoint for_each {A} (l : list A) (body : A -> M S unit) : M S unit :=
  match l with
  | [] => ret tt
  | x :: l' => bind (body x) (fun _ => for_each l' body)
  end.
(** A [for] loop that updates an accumulator. *)
Fixpoint fold_each {A B} (l : list A) (acc : B) (body : B -> A -> M S B) : M S B :=
  match l with
  | [] => ret acc
  | x :: l' => bind (body acc x) (fun acc' => fold_each l' acc' body)
  end.
End Monad.

Declare Scope sm_scope.
Delimit Scope sm_scope with sm.
Notation "x <- m ;; k" := (bind m (fun x => k))
  (at level 100, m at next level, right associativity,
   format "'[v' x  <-  m  ;; '/' k ']'") : sm_scope.
Notation "'let*' p ':=' m 'in' k" := (bind m (fun x => match x with p => k end))
  (at level 100, p pattern, m at next level, right associativity) : sm_scope.
Notation "m ;;; k" := (bind m (fun _ => k))
  (at level 100, right associativity,
   format "'[v' m  ;;; '/' k ']'") : sm_scope.
Notation "a =?s b" := (String.eqb a b) (at level 70) : sm_scope.
Open Scope sm_scope.

(** *** Inverting a successful run *)
Lemma bind_Ok_inv {S A B} (m : M S A) (k : A -> M S B) s b s' :
  bind m k s = (Ok b, s') -> exists a s1, m s = (Ok a, s1) /\ k a s1 = (Ok b, s').
Proof. unfold bind. destruct (m s) as [[a|e|] s1]; [|done..]. eauto. Qed.
Lemma ret_Ok_inv {S A} (a b : A) (s s' : S) : ret a s = (Ok b, s') -> a = b /\ s = s'.
Proof. by intros [= -> ->]. Qed.
Lemma lift_Ok_inv {S A} (r : outcome A) b (s s' : S) : lift r s = (Ok b, s') -> r = Ok b /\ s = s'.
Proof. by intros [= -> ->]. Qed.
Lemma gets_Ok_inv {S A} (f : S -> A) b (s s' : S) : gets f s = (Ok b, s') -> b = f s /\ s' = s.
Proof. by intros [= <- <-]. Qed.
Lemma expect_Ok_inv {S A} e (o : option A) b (s s' : S) :
  expect e o s = (Ok b, s') -> o = Some b /\ s = s'.
Proof. destruct o; cbn; [by intros [= -> ->]|done]. Qed.

(** [inv_ok H]: splits a successful run [H] of a monadic block into the runs of its
    actions. *)
Ltac inv_ok H :=
  match type of H with
  | bind _ _ _ = (Ok _, _) =>
      let a := fresh "a" in let s := fresh "s" in let H1 := fresh "Hrun" in
      apply bind_Ok_inv in H; destruct H as (a & s & H1 & H); cbv beta in H; inv_ok H1; inv_ok H
  | ret _ _ = (Ok _, _) => apply ret_Ok_inv in H; destruct H as [? ?]; subst
  | lift _ _ = (Ok _, _) =>
      let E := fresh "Hval" in apply lift_Ok_inv in H; destruct H as [E ?]; subst
  | gets _ _ = (Ok _, _) => apply gets_Ok_inv in H; destruct H as [? ?]; subst
  | expect _ _ _ = (Ok _, _) =>
      let E := fresh "Hval" in apply expect_Ok_inv in H; destruct H as [E ?]; subst
  | bail _ _ = (Ok _, _) => discriminate H
  | panic _ = (Ok _, _) => discriminate H
  | _ => idtac
  end.

(** ** The world of a database component

    A component's tables, and the number of readings of the outside world
    (clock, random source, file system, processes) made so far.  Reading [k]
    of a resource is the value the environment gives at index [k]: the model
    puts no condition on how those values evolve. *)
Record world (D : Type) : Type := World { w_db : D; w_tick : nat }.
Arguments World {D} _ _.
Arguments w_db {D} _.
Arguments w_tick {D} _.

Section World.
Context {D : Type}.

Definition query {A} (f : D -> A) : M (world D) A := gets (fun w => f (w_db w)).
(** An [UPDATE]/[INSERT]/[DELETE]: the new tables and the count of changed rows. *)
Definition execute (f : D -> D * nat) : M (world D) nat :=
  fun w => let r := f (w_db w) in (Ok (snd r), World (fst r) (w_tick w)).
(** One reading of the outside world. *)
Definition tick : M (world D) nat :=
  fun w => (Ok (w_tick w), World (w_db w) (S (w_tick w))).
(** [BEGIN IMMEDIATE] .. [COMMIT], or [ROLLBACK] when the action fails.  A panic
    drops the connection, which rolls the open transaction back as well. *)
Definition transaction {A} (m : M (world D) A) : M (world D) A :=
  fun w =>
    match m w with
    | (Ok a, w') => (Ok a, w')
    | (Err e, w') => (Err e, World (w_db w) (w_tick w'))
    | (Panic, w') => (Panic, World (w_db w) (w_tick w'))
    end.

Lemma execute_Ok_inv (f : D -> D * nat) n w w' :
  execute f w = (Ok n, w') ->
  n = snd (f (w_db w)) /\ w_db w' = fst (f (w_db w)) /\ w_tick w' = w_tick w.
Proof. by intros [= <- <-]. Qed.

Lemma transaction_Ok_inv {A} (m : M (world D) A) a w w' :
  transaction m w = (Ok a, w') -> m w = (Ok a, w').
Proof. unfold transaction. by destruct (m w) as [[] ?]. Qed.

(** A run that does not return leaves the tables as they were. *)
Lemma transaction_atomic {A} (m : M (world D) A) w :
  (forall a, fst (transaction m w) <> Ok a) -> w_db (snd (transaction m w)) = w_db w.
Proof.
  unfold transaction. destruct (m w) as [[a|e|] w']; cbn; [|done..].
  intros H. by destruct (H a).
Qed.
End World.

(** ** Two-state specifications of monadic code

    [steps R m]: every run of [m], whether it returns, fails or panics, moves
    the state along [R]. *)
Definition steps {S A} (R : S -> S -> Prop) (m : M S A) : Prop :=
  forall s, R s (snd (m s)).

Create HintDb steps discriminated.

Section Steps.
Context {S : Type} (R : S -> S -> Prop) `{HR : !PreOrder R}.

Lemma steps_ret {A} (a : A) : steps R (ret a).
Proof. intros s. cbn. reflexivity. Qed.
Lemma steps_bail {A} e : steps R (@bail S A e).
Proof. intros s. cbn. reflexivity. Qed.
Lemma steps_panic {A} : steps R (@panic S A).
Proof. intros s. cbn. reflexivity. Qed.
Lemma steps_gets {A} (f : S -> A) : steps R (gets f).
Proof. intros s. cbn. reflexivity. Qed.
Lemma steps_lift {A} (r : outcome A) : steps R (lift r).
Proof. intros s. cbn. reflexivity. Qed.
Lemma steps_expect {A} e (o : option A) : steps R (expect e o).
Proof. destruct o; [apply steps_ret|apply steps_bail]. Qed.
Lemma steps_bind {A B} (m : M S A) (k : A -> M S B) :
  steps R m -> (forall a, steps R (k a)) -> steps R (bind m k).
Proof.
  intros Hm Hk s. unfold bind. specialize (Hm s).
  destruct (m s) as [[a|e|] s']; cbn in *; [|done..].
  etransitivity; [exact Hm|apply Hk].
Qed.
(** The same when the continuation relies on what [m] returns. *)
Lemma steps_bind_post {A B} (P : A -> Prop) (m : M S A) (k : A -> M S B) :
  steps R m -> (forall s a s', m s = (Ok a, s') -> P a) -> (forall a, P a -> steps R (k a)) -> steps R (bind m k).
Proof.
  intros Hm Hp Hk s. unfold bind. specialize (Hm s).
  destruct (m s) as [[a|e|] s'] eqn:E; cbn in *; [|done..].
  etransitivity; [exact Hm|]. by eapply Hk, Hp.
Qed.
Lemma steps_attempt {A} (m : M S A) : steps R m -> steps R (attempt m).
Proof. intros Hm s. unfold attempt. specialize (Hm s). by destruct (m s) as [[] ?]. Qed.
Lemma steps_discard {A} (m : M S A) : steps R m -> steps R (discard m).
Proof. intros Hm. apply steps_bind; [by apply steps_attempt|intros; apply steps_ret]. Qed.
Lemma steps_for_each {A} (l : list A) (body : A -> M S unit) :
  (forall a, In a l -> steps R (body a)) -> steps R (for_each l body).
Proof.
  induction l as [|x l IH]; intros H; cbn; [apply steps_ret|].
  apply steps_bind; [apply H; by left|]. intros _. apply IH. intros a Ha. apply H. by right.
Qed.
Lemma steps_fold_each {A B} (l : list A) (b : B) (body : B -> A -> M S B) :
  (forall b a, In a l -> steps R (body b a)) -> steps R (fold_each l b body).
Proof.
  revert b. induction l as [|x l IH]; intros b H; cbn; [apply steps_ret|].
  apply steps_bind; [apply H; by left|]. intros b'. apply IH.
  intros b0 a Ha. apply H. by right.
Qed.
End Steps.

#[export] Hint Resolve steps_ret steps_bail steps_panic steps_gets steps_lift steps_expect
  steps_bind steps_attempt steps_discard : steps.

(** [step_through]: walks a monadic definition down to its primitive actions,
    splitting its conditionals, and leaves the goals the hints do not close. *)
Ltac step_through :=
  repeat first
    [ progress intros
    | assumption
    | solve [eauto 3 with steps]
    | match goal with
      | |- steps _ (ret _) => apply steps_ret; [typeclasses eauto]
      | |- steps _ (bail _) => apply steps_bail; [typeclasses eauto]
      | |- steps _ panic => apply steps_panic; [typeclasses eauto]
      | |- steps _ (gets _) => apply steps_gets; [typeclasses eauto]
      | |- steps _ (lift _) => apply steps_lift; [typeclasses eauto]
      | |- steps _ (expect _ _) => apply steps_expect; [typeclasses eauto]
      | |- steps _ (bind _ _) => apply steps_bind; [typeclasses eauto| |]
      | |- steps _ (discard _) => apply steps_discard; [typeclasses eauto|]
      | |- steps _ (attempt _) => apply steps_attempt
      | |- steps _ (for_each _ _) => apply steps_for_each; [typeclasses eauto|intros]
      | |- steps _ (fold_each _ _ _) => apply steps_fold_each; [typeclasses eauto|intros]
      | |- steps _ (match ?x with _ => _ end) => destruct x
      | |- steps _ (let _ := _ in _) => cbv zeta
      end ].

(** Specifications on the tables of a world. *)
Definition on_db {D} (Q : D -> D -> Prop) (w w' : world D) : Prop := Q (w_db w) (w_db w').
(** Readings leave the tables alone. *)
Definition db_eq {D} : world D -> world D -> Prop := on_db (fun d d' => d' = d).
(** [keeps I]: the invariant [I] of the tables survives. *)
Definition keeps {D} (I : D -> Prop) : D -> D -> Prop := fun d d' => I d -> I d'.

#[export] Instance on_db_preorder {D} (Q : D -> D -> Prop) : PreOrder Q -> PreOrder (on_db Q).
Proof. intros [Hr Ht]. split; [intros w; apply Hr|intros w1 w2 w3; apply Ht]. Qed.
#[export] Instance db_eq_preorder {D} : PreOrder (@db_eq D).
Proof. split; [done|]. intros ??? H1 H2. unfold db_eq, on_db in *. congruence. Qed.
#[export] Instance keeps_preorder {D} (I : D -> Prop) : PreOrder (keeps I).
Proof. split; [intros d; exact id|intros d1 d2 d3 H1 H2 H; auto]. Qed.

Lemma steps_frame {D A} (Q : D -> D -> Prop) `{!PreOrder Q} (m : M (world D) A) :
  steps db_eq m -> steps (on_db Q) m.
Proof. intros H w. unfold on_db. rewrite (H w). reflexivity. Qed.
Lemma steps_query {D A} (Q : D -> D -> Prop) `{!PreOrder Q} (f : D -> A) : steps (on_db Q) (query f).
Proof. apply steps_gets. tc_solve. Qed.
Lemma steps_execute {D} (Q : D -> D -> Prop) (f : D -> D * nat) :
  (forall d, Q d (fst (f d))) -> steps (on_db Q) (execute f).
Proof. intros H w. apply H. Qed.
Lemma steps_transaction {D A} (Q : D -> D -> Prop) `{!PreOrder Q} (m : M (world D) A) :
  steps (on_db Q) m -> steps (on_db Q) (transaction m).
Proof.
  intros H w. specialize (H w). unfold transaction, on_db in *.
  destruct (m w) as [[a|e|] w']; cbn in *; [done|reflexivity..].
Qed.
#[export] Hint Resolve steps_query : steps.

(** [db_steps]: like [step_through] for specifications on the tables; leaves one
    goal per [execute]. *)
Ltac db_steps :=
  repeat first
    [ progress step_through
    | match goal with
      | |- steps _ (query _) => apply steps_query; [typeclasses eauto]
      | |- steps _ (execute _) => apply steps_execute; intros
      | |- steps _ (transaction _) => apply steps_transaction; [typeclasses eauto|]
      | |- steps _ _ => apply steps_frame; [typeclasses eauto|solve [eauto 3 with steps]]
      end ].

(** ** Record update: [r <| f := v |>] *)
Class Eta (T : Type) : Type := eta : T -> T.
Class Setter {T A : Type} (f : T -> A) : Type := set_field : (A -> A) -> T -> T.
Ltac build_setter :=
  match goal with
  | |- @Setter ?T ?A ?f =>
      let i := constr:(_ : Eta T) in
      let b := eval hnf in i in
      match eval pattern f in b with
      | ?s _ => exact (fun (g : A -> A) => s (fun r => g (f r)))
      end
  end.
#[export] Hint Extern 1 (Setter _) => build_setter : typeclass_instances.
Notation "r <| f := v |>" := (set_field (f := f) (fun _ => v) r)
  (at level 1, left associativity, f at level 10, v at level 200) : sm_scope.

(** ** Booleans and strings *)
Definition str_in (x : string) (l : list string) : bool := existsb (String.eqb x) l.
Definition opt_str_eqb (a b : option string) : bool :=
  match a, b with
  | Some x, Some y => x =?s y
  | None, None => true
  | _, _ => false
  end.
Definition is_some {A} (o : option A) : bool := match o with Some _ => true | None => false end.
Definition is_none {A} (o : option A) : bool := negb (is_some o).
Definition unwrap_or {A} (d : A) (o : option A) : A := match o with Some a => a | None => d end.

Lemma opt_str_eqb_eq a b : opt_str_eqb a b = true <-> a = b.
Proof.
  destruct a, b; cbn; [rewrite String.eqb_eq|..]; split; congruence.
Qed.
Lemma str_in_In x l : str_in x l = true <-> In x l.
Proof.
  unfold str_in. rewrite existsb_exists. split.
  - intros (y & Hy & ->%String.eqb_eq). done.
  - intros H. exists x. by rewrite String.eqb_refl.
Qed.

(** [bool_simpl]: turns boolean tests in hypotheses into propositions. *)
Ltac bool_simpl :=
  repeat match goal with
  | H : andb _ _ = true |- _ => apply andb_true_iff in H; destruct H
  | H : orb _ _ = false |- _ => apply orb_false_iff in H; destruct H
  | H : negb _ = true |- _ => apply negb_true_iff in H
  | H : negb _ = false |- _ => apply negb_false_iff in H
  | H : String.eqb _ _ = true |- _ => apply String.eqb_eq in H
  | H : String.eqb _ _ = false |- _ => apply String.eqb_neq in H
  | H : opt_str_eqb _ _ = true |- _ => apply opt_str_eqb_eq in H
  end.

(** ** Machine integers *)
Definition I64_MAX : Z := 9223372036854775807.
Definition I64_MIN : Z := -9223372036854775808.
Definition U64_MAX : Z := 18446744073709551615.
Definition in_i64 (z : Z) : bool := (I64_MIN <=? z) && (z <=? I64_MAX).
Definition in_u64 (z : Z) : bool := (0 <=? z) && (z <=? U64_MAX).
(** [u64::saturating_add]. *)
Definition u64_saturating_add (a b : Z) : Z := Z.min (a + b) U64_MAX.
