(* ===== verification/Text.v ===== *)
(** * Byte strings: the part of Rust's [str] the server uses

    A Rust [str] is its UTF-8 bytes, a [string] here.  This file models the
    standard-library string functions that queue.rs and btw.rs call
    ([str::trim], [chars().take(n)], [is_char_boundary], integer formatting and
    parsing, [str::replace] of one quote), SQLite's [trim], and the text helpers
    of the server itself: [truncate_chars], [bound_utf8], [shell_quote]. *)
From Stdlib Require Import ZArith Lia Bool String Ascii List.
From Stdlib Require DecimalString HexadecimalString.
From stdpp Require Import base tactics list strings.
From S2P Require Import Prelude.

Definition bytes_of (s : string) : list ascii := list_ascii_of_string s.
Definition of_bytes (l : list ascii) : string := string_of_list_ascii l.

Lemma of_bytes_of s : of_bytes (bytes_of s) = s.
Proof. apply string_of_list_ascii_of_string. Qed.
Lemma bytes_of_bytes l : bytes_of (of_bytes l) = l.
Proof. apply list_ascii_of_string_of_list_ascii. Qed.
Lemma bytes_of_app a b : bytes_of (a +:+ b) = (bytes_of a ++ bytes_of b)%list.
Proof.
  induction a as [|c a IH]; [done|].
  change (c :: bytes_of (a +:+ b) = c :: bytes_of a ++ bytes_of b)%list. by rewrite IH.
Qed.

(** ** [str::trim]: Unicode [White_Space], byte sequence by byte sequence *)
Definition ws1 (c : ascii) : bool :=
  let n := N_of_ascii c in ((9 <=? n) && (n <=? 13) || (n =? 32))%N.
(** U+0085 and U+00A0. *)
Definition ws2 (c d : ascii) : bool :=
  let m := N_of_ascii c in let n := N_of_ascii d in
  ((m =? 194) && ((n =? 133) || (n =? 160)))%N.
(** U+1680, U+2000-200A, U+2028, U+2029, U+202F, U+205F, U+3000. *)
Definition ws3 (c d e : ascii) : bool :=
  let l := N_of_ascii c in let m := N_of_ascii d in let n := N_of_ascii e in
  ((l =? 225) && (m =? 154) && (n =? 128)
   || (l =? 226) && (m =? 128)
        && ((128 <=? n) && (n <=? 138) || (n =? 168) || (n =? 169) || (n =? 175))
   || (l =? 226) && (m =? 129) && (n =? 159)
   || (l =? 227) && (m =? 128) && (n =? 128))%N.

Fixpoint trim_start (l : list ascii) : list ascii :=
  match l with
  | [] => []
  | c :: r =>
      if ws1 c then trim_start r else
      match r with
      | [] => l
      | d :: r2 =>
          if ws2 c d then trim_start r2 else
          match r2 with
          | [] => l
          | e :: r3 => if ws3 c d e then trim_start r3 else l
          end
      end
  end.
(** The same from the end, on the reversed bytes. *)
Fixpoint trim_end_rev (l : list ascii) : list ascii :=
  match l with
  | [] => []
  | c :: r =>
      if ws1 c then trim_end_rev r else
      match r with
      | [] => l
      | d :: r2 =>
          if ws2 d c then trim_end_rev r2 else
          match r2 with
          | [] => l
          | e :: r3 => if ws3 e d c then trim_end_rev r3 else l
          end
      end
  end.
Definition trim (s : string) : string :=
  of_bytes (rev (trim_end_rev (rev (trim_start (bytes_of s))))).
(** [value.trim().is_empty()]. *)
Definition is_blank (s : string) : bool := trim s =?s "".
(** [opt.filter(|value| !value.trim().is_empty())]. *)
Definition filter_nonblank (o : option string) : option string :=
  match o with Some s => if is_blank s then None else Some s | None => None end.

(** SQLite's one-argument [trim]: spaces only. *)
Fixpoint drop_spaces (l : list ascii) : list ascii :=
  match l with
  | c :: r => if (N_of_ascii c =? 32)%N then drop_spaces r else l
  | [] => []
  end.
Definition sqlite_trim (s : string) : string :=
  of_bytes (rev (drop_spaces (rev (drop_spaces (bytes_of s))))).

(** ** Integer formatting and parsing *)
(** [Display] of an integer. *)
Definition show_Z (z : Z) : string := DecimalString.NilZero.string_of_int (Z.to_int z).
(** [{:x}] of an unsigned integer. *)
Definition show_hex (z : Z) : string :=
  HexadecimalString.NilZero.string_of_uint (N.to_hex_uint (Z.to_N z)).
Definition hex_digit (n : N) : ascii :=
  ascii_of_N (if (n <? 10)%N then 48 + n else 87 + n)%N.
(** [{:02x}] of a byte. *)
Definition show_hex2 (b : N) : string :=
  String (hex_digit (b / 16)) (String (hex_digit (b mod 16)) "").

Fixpoint parse_digits (l : list ascii) (acc : Z) : option Z :=
  match l with
  | [] => Some acc
  | c :: r =>
      let n := Z.of_N (N_of_ascii c) in
      if (48 <=? n) && (n <=? 57) then parse_digits r (10 * acc + (n - 48)) else None
  end.
(** [str::parse::<i64>]: an optional sign, one or more digits, in range. *)
Definition parse_i64 (s : string) : option Z :=
  let checked (neg : bool) (digits : list ascii) :=
    match digits with
    | [] => None
    | _ =>
        match parse_digits digits 0 with
        | Some n => let z := if neg then - n else n in if in_i64 z then Some z else None
        | None => None
        end
    end in
  match bytes_of s with
  | c :: r =>
      if (N_of_ascii c =? 45)%N then checked true r
      else if (N_of_ascii c =? 43)%N then checked false r
      else checked false (c :: r)
  | [] => None
  end.

(** ** UTF-8 character boundaries *)
(** A continuation byte [10xxxxxx]. *)
Definition is_cont (c : ascii) : bool :=
  let n := N_of_ascii c in ((128 <=? n) && (n <? 192))%N.
(** [chars().take(n)] and what the iterator still holds. *)
Fixpoint take_chars (n : nat) (l : list ascii) : list ascii * list ascii :=
  match l with
  | [] => ([], [])
  | c :: r =>
      if is_cont c then
        let '(t, rest) := take_chars n r in (c :: t, rest)
      else
        match n with
        | O => ([], l)
        | S n' => let '(t, rest) := take_chars n' r in (c :: t, rest)
        end
  end.
Definition truncate_chars (value : string) (max_chars : nat) : string :=
  let '(t, rest) := take_chars max_chars (bytes_of value) in
  match rest with
  | [] => of_bytes t
  | _ => of_bytes t +:+ "..."
  end.

(** [str::is_char_boundary]. *)
Definition is_char_boundary (l : list ascii) (i : nat) : bool :=
  match i with
  | O => true
  | _ => match l !! i with
         | Some c => negb (is_cont c)
         | None => Nat.eqb i (length l)
         end
  end.
(** [while !value.is_char_boundary(end) { end -= 1; }]. *)
Fixpoint floor_char_boundary (l : list ascii) (end_ : nat) : nat :=
  match end_ with
  | O => O
  | S m => if is_char_boundary l end_ then end_ else floor_char_boundary l m
  end.
Definition bound_utf8 (value : string) (max_bytes : nat) : string :=
  let l := bytes_of value in
  if Nat.leb (length l) max_bytes then value
  else of_bytes (take (floor_char_boundary l max_bytes) l).

(** [String::from_utf8_lossy]: a maximal broken prefix becomes U+FFFD. *)
Definition byte_in (lo hi : N) (c : ascii) : bool :=
  let n := N_of_ascii c in ((lo <=? n) && (n <=? hi))%N.
Definition replacement_char : list ascii := map ascii_of_N [239; 191; 189]%N.
Definition second_of_3 (c d : ascii) : bool :=
  match N_of_ascii c with
  | 224%N => byte_in 160 191 d
  | 237%N => byte_in 128 159 d
  | _ => is_cont d
  end.
Definition second_of_4 (c d : ascii) : bool :=
  match N_of_ascii c with
  | 240%N => byte_in 144 191 d
  | 244%N => byte_in 128 143 d
  | _ => is_cont d
  end.
Fixpoint utf8_lossy (l : list ascii) : list ascii :=
  match l with
  | [] => []
  | c :: r =>
      if byte_in 0 127 c then c :: utf8_lossy r
      else if byte_in 194 223 c then
        match r with
        | d :: r' => if is_cont d then c :: d :: utf8_lossy r' else replacement_char ++ utf8_lossy r
        | [] => replacement_char
        end
      else if byte_in 224 239 c then
        match r with
        | d :: r' =>
            if second_of_3 c d then
              match r' with
              | e :: r'' => if is_cont e then c :: d :: e :: utf8_lossy r''
                            else replacement_char ++ utf8_lossy r'
              | [] => replacement_char
              end
            else replacement_char ++ utf8_lossy r
        | [] => replacement_char
        end
      else if byte_in 240 244 c then
        match r with
        | d :: r' =>
            if second_of_4 c d then
              match r' with
              | e :: r'' =>
                  if is_cont e then
                    match r'' with
                    | f :: r3 => if is_cont f then c :: d :: e :: f :: utf8_lossy r3
                                 else replacement_char ++ utf8_lossy r''
                    | [] => replacement_char
                    end
                  else replacement_char ++ utf8_lossy r'
              | [] => replacement_char
              end
            else replacement_char ++ utf8_lossy r
        | [] => replacement_char
        end
      else replacement_char ++ utf8_lossy r
  end%list.

(** The newline and the double quote as texts. *)
Definition NL : string := String (ascii_of_N 10) "".
Definition QT : string := String (ascii_of_N 34) "".

(** ** Shell quoting *)
Definition SQ : ascii := "'"%char.
Definition DQ : ascii := ascii_of_N 34.
(** What [value.replace('\'', ..)] puts for one quote: close, a quote in double
    quotes, open. *)
Definition quoted_quote : list ascii := [SQ; DQ; SQ; DQ; SQ].
Definition replace_quote (l : list ascii) : list ascii :=
  flat_map (fun c => if Ascii.eqb c SQ then quoted_quote else [c]) l.
Definition shell_quote (value : string) : string :=
  match bytes_of value with
  | [] => of_bytes [SQ; SQ]
  | l => of_bytes (SQ :: replace_quote l ++ [SQ])
  end.
(** [parts.join(sep)]. *)
Fixpoint join (sep : string) (parts : list string) : string :=
  match parts with
  | [] => ""
  | [p] => p
  | p :: rest => p +:+ sep +:+ join sep rest
  end.
