(* ===== verification/StrMethods.v ===== *)
(** * More methods of Rust's [str]

    The searching, splitting and replacing methods that the parsers and printers of the
    server use, on the UTF-8 bytes of a text. *)
From Stdlib Require Import ZArith Lia Bool String Ascii List.
From stdpp Require Import base tactics list strings.
From S2P Require Import Prelude Text.

(** ** Lines, words, patterns *)
(** [str::lines]; the carriage return of a line ending is left to [trim]. *)
Fixpoint lines_of (l : list ascii) : list (list ascii) :=
  match l with
  | [] => []
  | c :: r =>
      if Ascii.eqb c (ascii_of_N 10) then [] :: lines_of r
      else match lines_of r with
           | [] => [[c]]
           | first :: rest => (c :: first) :: rest
           end
  end.
Definition lines (s : string) : list string := map of_bytes (lines_of (bytes_of s)).
Definition contains (s pattern : string) : bool := is_some (String.index 0 pattern s).
Definition starts_with (s pattern : string) : bool := String.prefix pattern s.
Definition ends_with (s pattern : string) : bool :=
  String.prefix (of_bytes (rev (bytes_of pattern))) (of_bytes (rev (bytes_of s))).
(** [str::split_whitespace]: [cur] is the word being read, backwards. *)
Definition push_word (cur : list ascii) (words : list string) : list string :=
  match cur with [] => words | _ => of_bytes (rev cur) :: words end.
Fixpoint split_ws (cur l : list ascii) : list string :=
  match l with
  | [] => push_word cur []
  | c :: r =>
      if ws1 c then push_word cur (split_ws [] r)
      else match r with
           | d :: r2 =>
               if ws2 c d then push_word cur (split_ws [] r2)
               else match r2 with
                    | e :: r3 => if ws3 c d e then push_word cur (split_ws [] r3) else split_ws (c :: cur) r
                    | [] => split_ws (c :: cur) r
                    end
           | [] => split_ws (c :: cur) r
           end
  end.
Definition split_whitespace (s : string) : list string := split_ws [] (bytes_of s).

(** ** Single characters *)
Definition in_range (lo hi : N) (c : ascii) : bool := byte_in lo hi c.
Definition is_ascii_uppercase : ascii -> bool := in_range 65 90.
Definition is_ascii_lowercase : ascii -> bool := in_range 97 122.
Definition is_ascii_digit : ascii -> bool := in_range 48 57.
Definition is_ascii_alphanumeric (c : ascii) : bool :=
  is_ascii_uppercase c || is_ascii_lowercase c || is_ascii_digit c.
Definition is_ascii_hexdigit (c : ascii) : bool := is_ascii_digit c || in_range 65 70 c || in_range 97 102 c.
(** [u8::is_ascii_whitespace]: space, tab, line feed, form feed, carriage return. *)
Definition is_ascii_whitespace (c : ascii) : bool :=
  existsb (Ascii.eqb c) (map ascii_of_N [32; 9; 10; 12; 13]%N).
Definition ascii_lower (c : ascii) : ascii :=
  if is_ascii_uppercase c then ascii_of_N (N_of_ascii c + 32) else c.
Definition ascii_upper (c : ascii) : ascii :=
  if is_ascii_lowercase c then ascii_of_N (N_of_ascii c - 32) else c.
Definition to_ascii_lowercase (s : string) : string := of_bytes (map ascii_lower (bytes_of s)).
Definition to_ascii_uppercase (s : string) : string := of_bytes (map ascii_upper (bytes_of s)).
Definition eq_ignore_ascii_case (a b : string) : bool := to_ascii_lowercase a =?s to_ascii_lowercase b.

(** ** Splitting and trimming at a character *)
Fixpoint split_bytes (sep : ascii) (l : list ascii) : list (list ascii) :=
  match l with
  | [] => [[]]
  | c :: r =>
      if Ascii.eqb c sep then [] :: split_bytes sep r
      else match split_bytes sep r with
           | [] => [[c]]
           | first :: rest => (c :: first) :: rest
           end
  end.
(** [s.split(sep)]. *)
Definition split_char (sep : ascii) (s : string) : list string := map of_bytes (split_bytes sep (bytes_of s)).
Fixpoint drop_byte (ch : ascii) (l : list ascii) : list ascii :=
  match l with c :: r => if Ascii.eqb c ch then drop_byte ch r else l | [] => [] end.
(** [trim_start_matches(ch)], [trim_end_matches(ch)]. *)
Definition trim_start_char (ch : ascii) (s : string) : string := of_bytes (drop_byte ch (bytes_of s)).
Definition trim_end_char (ch : ascii) (s : string) : string := of_bytes (rev (drop_byte ch (rev (bytes_of s)))).
(** [s.replace(ch, with)]. *)
Definition replace_char (ch : ascii) (with_ : string) (s : string) : string :=
  of_bytes (flat_map (fun c => if Ascii.eqb c ch then bytes_of with_ else [c]) (bytes_of s)).
(** [s.strip_prefix(pattern)]. *)
Definition strip_prefix (pattern s : string) : option string :=
  if String.prefix pattern s then Some (of_bytes (drop (String.length pattern) (bytes_of s))) else None.
(** [s.strip_suffix(pattern)]. *)
Definition strip_suffix (pattern s : string) : option string :=
  if ends_with s pattern
  then Some (of_bytes (take (String.length s - String.length pattern) (bytes_of s))) else None.
(** [s.split_once(sep)], [s.rsplit_once(sep)]. *)
Fixpoint split_once_bytes (sep : ascii) (l : list ascii) : option (list ascii * list ascii) :=
  match l with
  | [] => None
  | c :: r =>
      if Ascii.eqb c sep then Some ([], r)
      else match split_once_bytes sep r with Some (a, b) => Some (c :: a, b) | None => None end
  end.
Definition split_once (sep : ascii) (s : string) : option (string * string) :=
  match split_once_bytes sep (bytes_of s) with Some (a, b) => Some (of_bytes a, of_bytes b) | None => None end.
Definition rsplit_once (sep : ascii) (s : string) : option (string * string) :=
  match split_once_bytes sep (rev (bytes_of s)) with
  | Some (b, a) => Some (of_bytes (rev a), of_bytes (rev b))
  | None => None
  end.
(** [String::from_utf8(bytes).ok()]: nothing is broken. *)
Definition from_utf8 (l : list ascii) : option string :=
  if decide (utf8_lossy l = l) then Some (of_bytes l) else None.
(** [s.chars().take(n).collect()]. *)
Definition chars_take (n : nat) (s : string) : string := of_bytes (fst (take_chars n (bytes_of s))).

(** ** Padded numbers *)
Definition zeros (n : nat) : string := of_bytes (repeat "0"%char n).
(** [{:0width$}] of an integer: the sign counts. *)
Definition show_padded (width : nat) (z : Z) : string :=
  let digits := show_Z (Z.abs z) in
  let sign := if z <? 0 then "-"%string else ""%string in
  sign +:+ zeros (width - String.length sign - String.length digits) +:+ digits.

Lemma split_bytes_nonempty sep l : split_bytes sep l <> [].
Proof. destruct l as [|c l]; cbn; [done|]. destruct (Ascii.eqb c sep); [done|]. by destruct (split_bytes sep l). Qed.
Lemma split_bytes_no_sep sep l part : In part (split_bytes sep l) -> ~ In sep part.
Proof.
  revert part. induction l as [|c l IH]; intros part; cbn; [intros [<-|[]] []|].
  destruct (Ascii.eqb_spec c sep) as [->|Hne].
  - intros [<-|Hin]; [intros []|by apply IH].
  - destruct (split_bytes sep l) as [|first rest] eqn:E; [by apply split_bytes_nonempty in E|].
    intros [<-|Hin]; [|apply IH; by right]. intros [->|Hin]; [done|]. by apply (IH first); [left|].
Qed.
Lemma of_bytes_inj a b : of_bytes a = of_bytes b -> a = b.
Proof. intros H. rewrite <- (bytes_of_bytes a), <- (bytes_of_bytes b). by rewrite H. Qed.
Lemma of_bytes_app a b : of_bytes (a ++ b) = of_bytes a +:+ of_bytes b.
Proof. rewrite <- (of_bytes_of (of_bytes a +:+ of_bytes b)), bytes_of_app, !bytes_of_bytes. done. Qed.

Lemma split_once_bytes_app sep a b : ~ In sep a -> split_once_bytes sep (a ++ sep :: b) = Some (a, b).
Proof.
  induction a as [|c a IH]; cbn; intros H; [by rewrite Ascii.eqb_refl|].
  destruct (Ascii.eqb_spec c sep) as [->|]; [exfalso; apply H; by left|]. rewrite IH; [done|]. intros Hin. apply H. by right.
Qed.
Lemma split_once_app sep a b : ~ In sep (bytes_of a) ->
  split_once sep (a +:+ String sep b) = Some (a, b).
Proof.
  intros H. unfold split_once. rewrite bytes_of_app. cbn. rewrite split_once_bytes_app by done. by rewrite !of_bytes_of.
Qed.
Lemma split_once_joined sep a b : ~ In sep (bytes_of a) ->
  split_once sep (a +:+ String sep "" +:+ b) = Some (a, b).
Proof. apply split_once_app. Qed.
