(* ===== verification/Table.v ===== *)
(** * SQL tables as lists of rows

    A table is the list of its rows in rowid order: [INSERT] appends, [UPDATE]
    rewrites in place, [DELETE] removes, a scan without [ORDER BY] reads them in
    this order, and [ORDER BY] sorts them stably.  Every statement of the modelled
    stores is one of the operations below, with the [WHERE] clause as a boolean
    predicate on the row. *)
From Stdlib Require Import ZArith Lia Bool String List Sorted Permutation.
From stdpp Require Import base tactics list strings.
From S2P Require Import Prelude.

Section Statements.
Context {row : Type}.
Implicit Types (t : list row) (p : row -> bool).

Definition select p t : list row := List.filter p t.
(** Rows an [UPDATE]/[DELETE] reports as changed. *)
Definition changes p t : nat := length (List.filter p t).
Definition update p (f : row -> row) t : list row :=
  map (fun r => if p r then f r else r) t.
Definition delete_rows p t : list row := List.filter (fun r => negb (p r)) t.
Definition insert t (r : row) : list row := (t ++ [r])%list.

(** *** Stable sorting *)
Fixpoint sorted_insert (leb : row -> row -> bool) (r : row) (t : list row) : list row :=
  match t with
  | [] => [r]
  | r' :: t' => if leb r r' then r :: t else r' :: sorted_insert leb r t'
  end.
Definition order_by (leb : row -> row -> bool) t : list row :=
  fold_right (sorted_insert leb) [] t.

(** *** Lemmas on statements *)
Lemma in_select p t r : In r (select p t) <-> In r t /\ p r = true.
Proof. apply filter_In. Qed.

Lemma in_delete_rows p t r : In r (delete_rows p t) <-> In r t /\ p r = false.
Proof. unfold delete_rows. by rewrite filter_In, negb_true_iff. Qed.

Lemma in_update p f t r :
  In r (update p f t) <-> exists r0, In r0 t /\ r = (if p r0 then f r0 else r0).
Proof.
  unfold update. rewrite in_map_iff. split; intros (r0 & H1 & H2); exists r0; auto.
Qed.

Lemma update_length p f t : length (update p f t) = length t.
Proof. apply length_map. Qed.

(** An [UPDATE] whose [WHERE] matches nothing leaves the table alone. *)
Lemma update_none p f t : changes p t = O -> update p f t = t.
Proof.
  unfold changes, update. induction t as [|r t IH]; cbn; [done|].
  destruct (p r); cbn; [done|]. intros H. by rewrite IH.
Qed.

Lemma changes_zero p t : changes p t = O <-> forall r, In r t -> p r = false.
Proof.
  unfold changes. induction t as [|r t IH]; cbn; [done|].
  destruct (p r) eqn:E; cbn.
  - split; [done|]. intros H. specialize (H r (or_introl eq_refl)). congruence.
  - rewrite IH. split; [intros H r' [<-|?]; auto|auto].
Qed.

Lemma changes_pos p t r : In r t -> p r = true -> (0 < changes p t)%nat.
Proof.
  intros Hin Hp. destruct (changes p t) eqn:E; [|lia].
  rewrite changes_zero in E. specialize (E r Hin). congruence.
Qed.

Lemma changes_ext p q t : (forall r, p r = q r) -> changes p t = changes q t.
Proof. intros H. unfold changes. f_equal. by apply filter_ext. Qed.

Lemma changes_mono p q t : (forall r, p r = true -> q r = true) -> (changes p t <= changes q t)%nat.
Proof.
  intros H. unfold changes. induction t as [|r t IH]; cbn; [done|].
  destruct (p r) eqn:E; [rewrite (H r E); cbn; lia|destruct (q r); cbn; lia].
Qed.

Lemma changes_exists p t : changes p t <> O -> exists r, In r t /\ p r = true.
Proof.
  unfold changes. destruct (List.filter p t) as [|r l] eqn:E; [done|]. intros _.
  exists r. rewrite <- filter_In, E. by left.
Qed.

Lemma delete_rows_none p t : changes p t = O -> delete_rows p t = t.
Proof.
  rewrite changes_zero. unfold delete_rows.
  induction t as [|r t IH]; cbn; [done|]. intros H.
  rewrite (H r) by (by left). cbn. f_equal. apply IH. intros r' Hr'. apply H. by right.
Qed.

Lemma delete_rows_ext p q t : (forall r, In r t -> p r = q r) -> delete_rows p t = delete_rows q t.
Proof.
  intros H. unfold delete_rows. induction t as [|r t IH]; cbn; [done|].
  rewrite (H r) by (by left). rewrite IH; [done|]. intros r' Hr'. apply H. by right.
Qed.
Lemma delete_rows_twice p q t :
  delete_rows q (delete_rows p t) = delete_rows (fun r => p r || q r) t.
Proof.
  unfold delete_rows. induction t as [|r t IH]; cbn; [done|].
  destruct (p r); cbn; [done|]. destruct (q r); cbn; by rewrite IH.
Qed.

Lemma filter_false p t : (forall r, In r t -> p r = false) -> List.filter p t = [].
Proof.
  induction t as [|r t IH]; intros H; cbn; [done|].
  rewrite (H r) by (by left). apply IH. intros r' Hr'. apply H. by right.
Qed.

(** A second [UPDATE] with the same [WHERE], when the first makes its clause false. *)
Lemma update_idem p f t :
  (forall r, p r = true -> p (f r) = false) -> update p f (update p f t) = update p f t.
Proof.
  intros H. unfold update. rewrite map_map. apply map_ext. intros r.
  destruct (p r) eqn:E; [by rewrite (H r E)|by rewrite E].
Qed.

(** *** Sorting *)
Lemma sorted_insert_perm leb r t : Permutation (r :: t) (sorted_insert leb r t).
Proof.
  induction t as [|r' t IH]; cbn; [done|]. destruct (leb r r'); [done|].
  rewrite perm_swap. by apply perm_skip.
Qed.

Lemma order_by_perm leb t : Permutation t (order_by leb t).
Proof.
  induction t as [|r t IH]; cbn; [done|].
  etransitivity; [apply perm_skip, IH|apply sorted_insert_perm].
Qed.

Lemma in_order_by leb t r : In r (order_by leb t) <-> In r t.
Proof.
  split; apply Permutation_in; [symmetry|]; apply order_by_perm.
Qed.

Lemma order_by_length leb t : length (order_by leb t) = length t.
Proof. symmetry. apply Permutation_length, order_by_perm. Qed.

Lemma sorted_insert_sorted leb r t :
  (forall a b, leb a b = true \/ leb b a = true) ->
  Sorted (fun a b => leb a b = true) t ->
  Sorted (fun a b => leb a b = true) (sorted_insert leb r t).
Proof.
  intros Htot. induction t as [|r' t IH]; cbn; [repeat constructor|].
  intros Hs. destruct (leb r r') eqn:E; [by constructor; [|constructor]|].
  assert (leb r' r = true) as E' by (destruct (Htot r r'); congruence).
  inversion Hs as [|? ? Hs' Hhd]; subst. constructor; [by apply IH|].
  destruct t as [|r'' t]; cbn; [by constructor|].
  destruct (leb r r''); constructor; [done|]. by inversion Hhd.
Qed.

Lemma order_by_sorted leb t :
  (forall a b, leb a b = true \/ leb b a = true) ->
  Sorted (fun a b => leb a b = true) (order_by leb t).
Proof.
  intros Htot. induction t as [|r t IH]; cbn; [constructor|].
  by apply sorted_insert_sorted.
Qed.
End Statements.

(** ** Tables with a text primary key *)
Section Keyed.
Context {row : Type} (key : row -> string).
Implicit Types (t : list row).

(** The [PRIMARY KEY] (or [UNIQUE]) constraint. *)
Definition unique t : Prop := NoDup (map key t).

Definition has_key (k : string) (r : row) : bool := key r =?s k.
(** [SELECT .. WHERE id = ?1 LIMIT 1], with [.optional()]. *)
Definition lookup_row (k : string) t : option row := List.find (has_key k) t.
(** [INSERT OR IGNORE] and the count of inserted rows. *)
Definition insert_or_ignore t (r : row) : list row * nat :=
  if existsb (has_key (key r)) t then (t, O) else (insert t r, 1%nat).
(** [INSERT OR REPLACE], where [clash] are the rows the constraints conflict with. *)
Definition insert_or_replace (clash : row -> bool) t (r : row) : list row :=
  insert (delete_rows clash t) r.

Lemma lookup_row_Some k t r :
  lookup_row k t = Some r -> In r t /\ key r = k.
Proof.
  intros H. apply find_some in H as [Hin Hk]. unfold has_key in Hk. by bool_simpl.
Qed.

Lemma lookup_row_None k t :
  lookup_row k t = None <-> forall r, In r t -> key r <> k.
Proof.
  unfold lookup_row. split.
  - intros H r Hin <-. pose proof (find_none _ _ H r Hin) as Hn.
    unfold has_key in Hn. by rewrite String.eqb_refl in Hn.
  - intros H. destruct (List.find _ t) eqn:E; [|done].
    apply find_some in E as [Hin Hk]. unfold has_key in Hk. bool_simpl. by destruct (H _ Hin).
Qed.

Lemma unique_inj t r1 r2 :
  unique t -> In r1 t -> In r2 t -> key r1 = key r2 -> r1 = r2.
Proof.
  unfold unique. induction t as [|r t IH]; cbn; [done|].
  intros Hnd H1 H2 Hk. apply NoDup_cons in Hnd as [Hni Hnd].
  rewrite list_elem_of_In, in_map_iff in Hni.
  destruct H1 as [->|H1], H2 as [->|H2]; auto.
  - destruct Hni. by exists r2.
  - destruct Hni. by exists r1.
Qed.

Lemma lookup_row_unique t r : unique t -> In r t -> lookup_row (key r) t = Some r.
Proof.
  intros Hu Hin. destruct (lookup_row (key r) t) as [r'|] eqn:E.
  - apply lookup_row_Some in E as [Hin' Hk]. f_equal. by eapply unique_inj.
  - rewrite lookup_row_None in E. by destruct (E r Hin).
Qed.

Lemma unique_update p f t :
  (forall r, p r = true -> key (f r) = key r) -> unique t -> unique (update p f t).
Proof.
  intros Hf. unfold unique, update. rewrite map_map.
  rewrite (map_ext (fun r => key (if p r then f r else r)) key); [done|].
  intros r. destruct (p r) eqn:E; auto.
Qed.

Lemma unique_delete p t : unique t -> unique (delete_rows p t).
Proof.
  unfold unique, delete_rows. induction t as [|r t IH]; cbn; [done|].
  intros [Hni Hnd]%NoDup_cons. destruct (p r); cbn; [by apply IH|].
  apply NoDup_cons. split; [|by apply IH].
  rewrite list_elem_of_In, in_map_iff in *. intros (r' & Hk & Hin). destruct Hni.
  exists r'. split; [done|]. by apply filter_In in Hin as [? _].
Qed.

(** The keys a [SELECT .. ORDER BY] lists are distinct. *)
Lemma unique_listing leb p t : unique t -> NoDup (map key (order_by leb (select p t))).
Proof.
  intros Hu. assert (unique (select p t)) as Hs.
  { replace (select p t) with (delete_rows (fun r => negb (p r)) t); [by apply unique_delete|].
    unfold delete_rows, select. apply filter_ext. intros r. apply negb_involutive. }
  unfold unique in Hs. rewrite NoDup_ListNoDup in *.
  eapply Permutation_NoDup; [|exact Hs]. apply Permutation_map, order_by_perm.
Qed.

Lemma unique_insert t r :
  unique t -> (forall r', In r' t -> key r' <> key r) -> unique (insert t r).
Proof.
  unfold unique, insert. intros Hu Hf. rewrite map_app. apply NoDup_app.
  split; [done|]. split; [|by repeat constructor; intros ?%elem_of_nil].
  intros k. rewrite list_elem_of_In, in_map_iff. intros (r' & <- & Hin) [Hk|[]%elem_of_nil]%elem_of_cons.
  by destruct (Hf r' Hin).
Qed.

Lemma unique_insert_or_replace clash t r :
  (forall r', key r' = key r -> clash r' = true) ->
  unique t -> unique (insert_or_replace clash t r).
Proof.
  intros Hc Hu. unfold insert_or_replace. apply unique_insert; [by apply unique_delete|].
  intros r' [_ Hf]%in_delete_rows Hk. rewrite (Hc _ Hk) in Hf. done.
Qed.

(** The keys after [INSERT OR REPLACE] with two unique columns. *)
Lemma unique_replace_l q t r :
  unique t -> unique (insert_or_replace (fun x => has_key (key r) x || q x) t r).
Proof. apply unique_insert_or_replace. intros r' Hk. unfold has_key. by rewrite Hk, String.eqb_refl. Qed.
Lemma unique_replace_r q t r :
  unique t -> unique (insert_or_replace (fun x => q x || has_key (key r) x) t r).
Proof.
  apply unique_insert_or_replace. intros r' Hk. unfold has_key.
  by rewrite Hk, String.eqb_refl, orb_true_r.
Qed.

Lemma existsb_has_key k t :
  existsb (has_key k) t = is_some (lookup_row k t).
Proof.
  unfold lookup_row. induction t as [|r t IH]; cbn; [done|].
  destruct (has_key k r); [done|]. apply IH.
Qed.

Lemma unique_insert_or_ignore t r : unique t -> unique (fst (insert_or_ignore t r)).
Proof.
  intros Hu. unfold insert_or_ignore. rewrite existsb_has_key.
  destruct (lookup_row (key r) t) eqn:E; cbn; [done|].
  rewrite lookup_row_None in E. by apply unique_insert.
Qed.

Lemma lookup_row_update k p f t :
  (forall r, p r = true -> key (f r) = key r) ->
  lookup_row k (update p f t) =
  option_map (fun r => if p r then f r else r) (lookup_row k t).
Proof.
  intros Hf. unfold lookup_row, update. induction t as [|r t IH]; cbn; [done|].
  assert (has_key k (if p r then f r else r) = has_key k r) as Hk
    by (unfold has_key; destruct (p r) eqn:E; by rewrite ?Hf).
  rewrite Hk. by destruct (has_key k r).
Qed.

Lemma lookup_row_insert_ne k t r :
  key r <> k -> lookup_row k (insert t r) = lookup_row k t.
Proof.
  intros Hne. unfold lookup_row, insert. induction t as [|r' t IH]; cbn.
  - unfold has_key. by destruct (String.eqb_spec (key r) k).
  - by destruct (has_key k r').
Qed.

Lemma lookup_row_insert_eq t r :
  lookup_row (key r) t = None -> lookup_row (key r) (insert t r) = Some r.
Proof.
  unfold lookup_row, insert. induction t as [|r' t IH]; cbn.
  - unfold has_key. by rewrite String.eqb_refl.
  - by destruct (has_key (key r) r').
Qed.

Lemma lookup_row_delete_ne k p t :
  (forall r, In r t -> key r = k -> p r = false) ->
  lookup_row k (delete_rows p t) = lookup_row k t.
Proof.
  intros Hp. unfold lookup_row, delete_rows. induction t as [|r t IH]; cbn; [done|].
  destruct (has_key k r) eqn:Hk.
  - rewrite (Hp r) by (unfold has_key in Hk; bool_simpl; auto using in_eq).
    cbn. by rewrite Hk.
  - destruct (p r); cbn; [|rewrite Hk]; apply IH; auto using in_cons.
Qed.

(** With a unique key, [WHERE id = ?1] matches at most one row. *)
Lemma changes_key_le1 k p t : unique t -> (changes (fun r => has_key k r && p r) t <= 1)%nat.
Proof.
  unfold unique, changes. induction t as [|r t IH]; cbn; [lia|].
  intros [Hni Hnd]%NoDup_cons. specialize (IH Hnd).
  destruct (has_key k r) eqn:Hk; cbn; [|done]. destruct (p r); cbn; [|done].
  enough (List.filter (fun r => has_key k r && p r) t = []) as -> by done.
  unfold has_key in Hk. bool_simpl. subst k.
  rewrite list_elem_of_In, in_map_iff in Hni.
  clear IH Hnd. induction t as [|r' t IH]; cbn; [done|].
  destruct (has_key (key r) r') eqn:Hk; cbn.
  - unfold has_key in Hk. bool_simpl. destruct Hni. exists r'. auto using in_eq.
  - apply IH. intros (x & ? & ?). destruct Hni. exists x. auto using in_cons.
Qed.

Lemma changes_key k p t :
  unique t ->
  changes (fun r => has_key k r && p r) t =
  match lookup_row k t with Some r => if p r then 1%nat else O | None => O end.
Proof.
  intros Hu. pose proof (changes_key_le1 k p t Hu) as Hle.
  destruct (lookup_row k t) as [r|] eqn:E.
  - apply lookup_row_Some in E as [Hin Hk]. destruct (p r) eqn:Hp.
    + enough (0 < changes (fun r => has_key k r && p r) t)%nat by lia.
      apply changes_pos with r; [done|]. unfold has_key. by rewrite Hk, String.eqb_refl, Hp.
    + apply changes_zero. intros r' Hin'. unfold has_key.
      destruct (String.eqb_spec (key r') k); [|done]. cbn.
      by rewrite (unique_inj t r' r) by congruence.
  - apply changes_zero. intros r Hin. rewrite lookup_row_None in E.
    unfold has_key. by destruct (String.eqb_spec (key r) k) as [?%(E r Hin)|].
Qed.
End Keyed.

(** ** Keys of an [ORDER BY] *)
Definition text_leb (a b : string) : bool := String.leb a b.
Definition text2_leb (a b : string * string) : bool :=
  match String.compare (fst a) (fst b) with
  | Lt => true
  | Gt => false
  | Eq => String.leb (snd a) (snd b)
  end.
(** [NULL] sorts before every text. *)
Definition null_text2_leb (a b : option string * string) : bool :=
  match fst a, fst b with
  | None, None => String.leb (snd a) (snd b)
  | None, Some _ => true
  | Some _, None => false
  | Some x, Some y => text2_leb (x, snd a) (y, snd b)
  end.

Lemma text_leb_total a b : text_leb a b = true \/ text_leb b a = true.
Proof. apply String.leb_total. Qed.
Lemma text2_leb_total a b : text2_leb a b = true \/ text2_leb b a = true.
Proof.
  unfold text2_leb. rewrite (String.compare_antisym (fst b) (fst a)).
  destruct (String.compare (fst a) (fst b)); cbn; auto using String.leb_total.
Qed.
Lemma null_text2_leb_total a b : null_text2_leb a b = true \/ null_text2_leb b a = true.
Proof.
  unfold null_text2_leb. destruct (fst a), (fst b); auto using text2_leb_total, String.leb_total.
Qed.

Lemma string_compare_refl a : String.compare a a = Eq.
Proof. pose proof (String.compare_antisym a a) as H. by destruct (String.compare a a). Qed.
Lemma string_compare_trans a b c :
  String.compare a b <> Gt -> String.compare b c <> Gt -> String.compare a c <> Gt.
Proof.
  revert b c. induction a as [|x a IH]; intros [|y b] [|z c]; cbn; try done.
  unfold Ascii.compare. destruct (N.compare_spec (Ascii.N_of_ascii x) (Ascii.N_of_ascii y)) as [H1|H1|H1];
    destruct (N.compare_spec (Ascii.N_of_ascii y) (Ascii.N_of_ascii z)) as [H2|H2|H2]; try done;
    destruct (N.compare_spec (Ascii.N_of_ascii x) (Ascii.N_of_ascii z)) as [H3|H3|H3]; try lia; try done.
  apply IH.
Qed.
Lemma text_leb_trans a b c : text_leb a b = true -> text_leb b c = true -> text_leb a c = true.
Proof.
  unfold text_leb, String.leb. intros H1 H2. pose proof (string_compare_trans a b c) as H.
  destruct (String.compare a b), (String.compare b c), (String.compare a c); try done;
    exfalso; by apply H.
Qed.
Lemma text2_leb_trans a b c : text2_leb a b = true -> text2_leb b c = true -> text2_leb a c = true.
Proof.
  unfold text2_leb. intros H1 H2. pose proof (string_compare_trans (fst a) (fst b) (fst c)) as H.
  destruct (String.compare (fst a) (fst b)) eqn:E1; [| |done];
    destruct (String.compare (fst b) (fst c)) eqn:E2; try done.
  - apply String.compare_eq_iff in E1, E2. rewrite E1, E2, string_compare_refl.
    by apply (text_leb_trans _ (snd b)).
  - apply String.compare_eq_iff in E1. by rewrite E1, E2.
  - apply String.compare_eq_iff in E2. by rewrite <- E2, E1.
  - destruct (String.compare (fst a) (fst c)) eqn:E3; [|done|by destruct H].
    apply String.compare_eq_iff in E3. rewrite E3, String.compare_antisym, E2 in E1. done.
Qed.

Lemma filter_sorted {row} (R : row -> row -> Prop) (p : row -> bool) (Htr : Transitive R) t :
  Sorted R t -> Sorted R (List.filter p t).
Proof.
  intros Hs%(Sorted_StronglySorted Htr). apply StronglySorted_Sorted.
  induction Hs as [|r t Hs IH Hall]; cbn; [constructor|].
  destruct (p r); [|done]. constructor; [done|]. rewrite List.Forall_forall in *.
  intros x [Hx _]%filter_In. by apply Hall.
Qed.

(** ** Selections, updates and composite keys *)
Lemma filter_and {A} (p q : A -> bool) l : List.filter (fun x => p x && q x) l = List.filter q (List.filter p l).
Proof. induction l as [|x l IH]; cbn; [done|]. destruct (p x); cbn; [|done]. by destruct (q x); rewrite IH. Qed.
Lemma filter_map {A B} (f : A -> B) (q : B -> bool) l :
  List.filter q (map f l) = map f (List.filter (fun x => q (f x)) l).
Proof. induction l as [|x l IH]; cbn; [done|]. by destruct (q (f x)); cbn; rewrite IH. Qed.
Lemma find_head {A} (q : A -> bool) l : List.find q l = head (List.filter q l).
Proof. induction l as [|x l IH]; cbn; [done|]. by destruct (q x). Qed.
Lemma select_update {row} (c p : row -> bool) f t :
  (forall r, p r = true -> c (f r) = c r) -> select c (update p f t) = update p f (select c t).
Proof.
  intros H. unfold select, update. rewrite filter_map. rewrite (filter_ext _ c); [done|].
  intros r. destruct (p r) eqn:E; auto.
Qed.
Lemma order_by_one {row} (leb : row -> row -> bool) t : (length t <= 1)%nat -> order_by leb t = t.
Proof. destruct t as [|r [|r' t]]; cbn; [done..|lia]. Qed.
Lemma one_rev {A} (l : list A) : (length l <= 1)%nat -> rev l = l.
Proof. destruct l as [|x [|y l]]; cbn; [done..|lia]. Qed.
Lemma map_filter_update {row K} (g : row -> K) (c p : row -> bool) f t :
  (forall r, p r = true -> c (f r) = c r /\ g (f r) = g r) ->
  map g (List.filter c (update p f t)) = map g (List.filter c t).
Proof.
  intros H. unfold update. induction t as [|r t IH]; cbn; [done|]. destruct (p r) eqn:E.
  - destruct (H r E) as [-> Hg]. destruct (c r); cbn; by rewrite ?Hg, IH.
  - destruct (c r); cbn; by rewrite IH.
Qed.
(** An update that takes its rows out of a selection. *)
Lemma filter_update_drop {row} (c p : row -> bool) f t :
  (forall r, p r = true -> c (f r) = false) ->
  List.filter c (update p f t) = List.filter (fun r => negb (p r)) (List.filter c t).
Proof.
  intros H. unfold update. induction t as [|r t IH]; cbn; [done|].
  destruct (p r) eqn:E; [rewrite H by done|]; destruct (c r); cbn; rewrite ?E; cbn; by rewrite ?IH.
Qed.
Lemma existsb_false {A} (p : A -> bool) l : existsb p l = false -> forall x, In x l -> p x = false.
Proof.
  intros H x Hin. destruct (p x) eqn:E; [|done].
  assert (existsb p l = true) by (apply existsb_exists; by exists x). congruence.
Qed.
Lemma NoDup_map_update {row K} (key : row -> K) p f t :
  (forall r, p r = true -> key (f r) = key r) -> NoDup (map key t) -> NoDup (map key (update p f t)).
Proof.
  intros Hf. unfold update. rewrite map_map. rewrite (map_ext (fun r => key (if p r then f r else r)) key); [done|].
  intros r. destruct (p r) eqn:E; auto.
Qed.
Lemma NoDup_map_insert {row K} (key : row -> K) t r :
  NoDup (map key t) -> (forall r', In r' t -> key r' <> key r) -> NoDup (map key (insert t r)).
Proof.
  intros Hn Hf. unfold insert. rewrite map_app. apply NoDup_app. split; [done|].
  split; [|by repeat constructor; intros ?%elem_of_nil].
  intros k. rewrite list_elem_of_In, in_map_iff. intros (r' & <- & Hin) [Hk|[]%elem_of_nil]%elem_of_cons.
  by destruct (Hf r' Hin).
Qed.
Lemma NoDup_map_filter {row K} (key : row -> K) p t : NoDup (map key t) -> NoDup (map key (List.filter p t)).
Proof.
  induction t as [|r t IH]; cbn; [done|]. intros [Hni Hnd]%NoDup_cons.
  destruct (p r); cbn; [|by apply IH]. apply NoDup_cons. split; [|by apply IH].
  rewrite list_elem_of_In, in_map_iff in *. intros (r' & Hk & Hin). destruct Hni. exists r'.
  by apply filter_In in Hin as [? _].
Qed.
(** Rows that are changed one for one: the keys after the change are still distinct when the
    new keys were not in use. *)
Lemma NoDup_map_rekey {row K} (key : row -> K) p f k t :
  NoDup (map key t) -> (changes p t <= 1)%nat -> (forall r, In r t -> key r <> k) ->
  (forall r, p r = true -> key (f r) = k) -> NoDup (map key (update p f t)).
Proof.
  unfold changes, update. intros Hnd Hone Hk Hf. induction t as [|r t IH]; cbn; [done|].
  cbn in Hnd, Hone. apply NoDup_cons in Hnd as [Hni Hnd].
  assert (forall r', In r' t -> key r' <> k) as Hk' by (intros; apply Hk; by right).
  destruct (p r) eqn:E; cbn in Hone.
  - rewrite (map_ext_in (fun r => if p r then f r else r) id t).
    + rewrite map_id. apply NoDup_cons. split; [|done]. rewrite Hf, list_elem_of_In, in_map_iff by done.
      intros (r' & <- & Hin). by destruct (Hk' _ Hin).
    + intros r' Hin. destruct (p r') eqn:E'; [|done].
      assert (In r' (List.filter p t)) as Hin' by (by apply filter_In). destruct (List.filter p t); cbn in *; [done|lia].
  - apply NoDup_cons. split; [|by apply IH]. rewrite list_elem_of_In, in_map_iff.
    intros (r' & Hr' & Hin). apply in_map_iff in Hin as (r0 & <- & Hin). destruct (p r0) eqn:E0.
    + rewrite Hf in Hr' by done. by destruct (Hk r (or_introl eq_refl)).
    + apply Hni. apply list_elem_of_In, in_map_iff. by exists r0.
Qed.
Lemma changes_key_once {row K} (key : row -> K) k p t :
  NoDup (map key t) -> (forall r, p r = true -> key r = k) -> (changes p t <= 1)%nat.
Proof.
  intros Hnd Hp. unfold changes. apply (NoDup_map_filter key p) in Hnd.
  destruct (List.filter p t) as [|r [|r' l]] eqn:E; cbn; try lia.
  assert (forall x, In x (List.filter p t) -> key x = k) as Hk by (intros x [_ ?]%filter_In; auto).
  rewrite E in Hk. cbn in Hnd. rewrite (Hk r), (Hk r') in Hnd by (cbn; auto).
  apply NoDup_cons in Hnd as [Hni _]. destruct Hni. constructor.
Qed.

Create HintDb table discriminated.
#[export] Hint Resolve unique_update unique_delete unique_insert unique_insert_or_ignore : table.
#[global] Arguments select : simpl never.
#[global] Arguments update : simpl never.
#[global] Arguments delete_rows : simpl never.
#[global] Arguments changes : simpl never.
#[global] Arguments insert : simpl never.
#[global] Arguments order_by : simpl never.
#[global] Arguments lookup_row : simpl never.
#[global] Arguments insert_or_ignore : simpl never.
#[global] Arguments insert_or_replace : simpl never.
