(* ===== verification/Clock.v ===== *)
(** * Time, identifiers and the readings of the outside world

    The [time] crate and libc's [localtime_r] are not part of the repository:
    they are the operations of the class [TimeCrate], with instants as
    nanoseconds since the Unix epoch ([OffsetDateTime]) and civil date-times as
    nanoseconds since 1970-01-01T00:00 on the same wall clock
    ([PrimitiveDateTime]).  The class [Env] gives the clock, the random source
    and the process id at each reading.  On top of them stand the date helpers of
    queue.rs and btw.rs. *)
From Stdlib Require Import ZArith Lia Bool String Ascii List.
From stdpp Require Import base tactics list strings.
From S2P Require Import Prelude Text.

(** The fields of libc's [struct tm] the code reads. *)
Record tm : Type := Tm
  { tm_year : Z; tm_yday : Z; tm_hour : Z; tm_min : Z; tm_sec : Z }.

Class TimeCrate : Type := {
  (** [OffsetDateTime::parse(value, &Rfc3339)]. *)
  parse_rfc3339 : string -> option Z;
  (** [instant.format(&Rfc3339)]. *)
  format_rfc3339 : Z -> option string;
  (** The text of [time::error::Format]. *)
  format_error : string;
  (** [PrimitiveDateTime::parse] with and without a subsecond part. *)
  parse_naive_subsecond : string -> option Z;
  parse_naive_second : string -> option Z;
  (** [.format("..T..:..:..[subsecond digits:6]")]. *)
  format_naive_micros : Z -> option string;
  (** [OffsetDateTime::checked_add], [PrimitiveDateTime::checked_add]. *)
  instant_checked_add : Z -> Z -> option Z;
  naive_checked_add : Z -> Z -> option Z;
  (** [localtime_r]. *)
  localtime_r : Z -> option tm;
  (** [Date::from_ordinal_date] as a day number, [Time::from_hms_nano] as
      nanoseconds of the day. *)
  date_from_ordinal : Z -> Z -> option Z;
  time_from_hms_nano : Z -> Z -> Z -> Z -> option Z;
}.

(** What the code relies on: a formatted instant parses back to itself and is not
    surrounded by white space, and a successful addition adds. *)
Class TimeLaws (T : TimeCrate) : Prop := {
  parse_format_rfc3339 : forall t s, format_rfc3339 t = Some s -> parse_rfc3339 s = Some t;
  format_rfc3339_trimmed : forall t s, format_rfc3339 t = Some s -> trim s = s /\ s <> ""%string;
  instant_checked_add_Some : forall t d z, instant_checked_add t d = Some z -> z = t + d;
  naive_checked_add_Some : forall t d z, naive_checked_add t d = Some z -> z = t + d;
}.

Class Env : Type := {
  (** [OffsetDateTime::now_utc()] at reading [k]. *)
  env_now : nat -> Z;
  (** [std::process::id()]. *)
  env_process_id : Z;
  (** What the random source gives for byte [i] of a buffer filled at reading [k]. *)
  env_random : nat -> nat -> N;
}.

(** [OsRng.fill_bytes] of a buffer of [n] bytes at reading [k]. *)
Definition fill_bytes `{E : Env} (k n : nat) : list N := map (fun i => (env_random k i mod 256)%N) (seq 0 n).
Arguments fill_bytes : simpl never.

Definition NANOS : Z := 1000000000.
(** [Duration::seconds]. *)
Definition seconds (s : Z) : Z := s * NANOS.
(** [Duration::whole_seconds]: truncation towards zero. *)
Definition whole_seconds (d : Z) : Z := Z.quot d NANOS.
(** [i32::checked_add], [u16::try_from], [u8::try_from]. *)
Definition i32_checked_add (a b : Z) : option Z :=
  let z := a + b in if (-2147483648 <=? z) && (z <=? 2147483647) then Some z else None.
Definition try_u16 (z : Z) : option Z := if (0 <=? z) && (z <=? 65535) then Some z else None.
Definition try_u8 (z : Z) : option Z := if (0 <=? z) && (z <=? 255) then Some z else None.
Definition bind_opt {A B} (o : option A) (k : A -> option B) : option B :=
  match o with Some a => k a | None => None end.

(** [i64::try_from(value).context(..)] and [u64::try_from(value).unwrap_or(0)]. *)
Definition u64_to_i64 (value : Z) : outcome Z :=
  if value <=? I64_MAX then Ok value else Err "queue metadata seconds value is too large".
Definition i64_to_u64 (value : Z) : Z := if 0 <=? value then value else 0.

Lemma u64_to_i64_Ok v z : u64_to_i64 v = Ok z -> z = v /\ v <= I64_MAX.
Proof. unfold u64_to_i64. destruct (Z.leb_spec v I64_MAX); [|done]. by intros [= <-]. Qed.

(** [opt.map(u64_to_i64).transpose()?]. *)
Definition map_u64_to_i64 (o : option Z) : outcome (option Z) :=
  match o with
  | None => Ok None
  | Some v => match u64_to_i64 v with Ok z => Ok (Some z) | Err e => Err e | Panic => Panic end
  end.

Section Dates.
Context `{T : TimeCrate}.

Definition parse_python_naive_datetime (value : string) : option Z :=
  match parse_naive_subsecond value with
  | Some t => Some t
  | None => parse_naive_second value
  end.

(** Local wall-clock time of an instant; [None] when libc cannot convert it. *)
Definition local_now_naive (now_utc : Z) : option Z :=
  let timestamp := now_utc / NANOS in
  bind_opt (localtime_r timestamp) (fun local =>
  bind_opt (i32_checked_add (tm_year local) 1900) (fun year =>
  bind_opt (bind_opt (i32_checked_add (tm_yday local) 1) try_u16) (fun ordinal =>
  bind_opt (date_from_ordinal year ordinal) (fun date =>
  bind_opt (try_u8 (tm_hour local)) (fun hour =>
  bind_opt (try_u8 (tm_min local)) (fun minute =>
  bind_opt (try_u8 (Z.min (tm_sec local) 59)) (fun second =>
  bind_opt (time_from_hms_nano hour minute second (now_utc mod NANOS)) (fun time =>
  Some (date * (86400 * NANOS) + time))))))))).

(** An error text when formatting fails. *)
Definition python_compatible_reminder_timestamp (value : Z) : outcome string :=
  match format_naive_micros value with Some s => Ok s | None => Err format_error end.

Definition queue_elapsed_since (value : string) (now_utc : Z) : option Z :=
  let value := trim value in
  if value =?s "" then None
  else match parse_rfc3339 value with
  | Some parsed => Some (whole_seconds (now_utc - parsed))
  | None =>
      bind_opt (parse_python_naive_datetime value) (fun parsed =>
      bind_opt (local_now_naive now_utc) (fun now =>
      Some (whole_seconds (now - parsed))))
  end.

Definition parse_queue_datetime (value : string) : option Z :=
  let value := trim value in
  if value =?s "" then None
  else match parse_rfc3339 value with
  | Some t => Some t
  | None => parse_python_naive_datetime value
  end.

Definition queue_duration_text (start end_ : option string) : string :=
  match bind_opt start parse_queue_datetime with
  | None => "-"
  | Some s =>
      match bind_opt end_ parse_queue_datetime with
      | None => "-"
      | Some e => show_Z (Z.max (whole_seconds (e - s)) 0) +:+ "s"
      end
  end.

Definition timeout_is_expired (timeout_at : string) (now_utc : Z) (now_local : option Z) : bool :=
  let timeout_at := trim timeout_at in
  if timeout_at =?s "" then false
  else match parse_rfc3339 timeout_at with
  | Some parsed => parsed <=? now_utc
  | None =>
      match parse_python_naive_datetime timeout_at with
      | Some parsed => match now_local with Some l => parsed <=? l | None => false end
      | None => false
      end
  end.

Definition scheduled_reminder_elapsed_seconds (fire_at : string) (now_utc : Z) : option Z :=
  match parse_rfc3339 (trim fire_at) with
  | Some parsed => Some (whole_seconds (now_utc - parsed))
  | None =>
      bind_opt (parse_python_naive_datetime (trim fire_at)) (fun parsed =>
      bind_opt (local_now_naive now_utc) (fun now => Some (whole_seconds (now - parsed))))
  end.

Definition scheduled_reminder_is_due (fire_at : string) (now_utc : Z) : bool :=
  match scheduled_reminder_elapsed_seconds fire_at now_utc with
  | Some elapsed => 0 <=? elapsed
  | None => false
  end.
End Dates.

Section Readings.
Context `{T : TimeCrate} `{E : Env} {D : Type}.

(** [OffsetDateTime::now_utc()]. *)
Definition now_utc : M (world D) Z := k <- tick ;; ret (env_now k).

Definition now_rfc3339 : M (world D) string :=
  now <- now_utc ;;
  ret (unwrap_or "1970-01-01T00:00:00Z"%string (format_rfc3339 now)).

(** [format!("{prefix}{:x}{:x}", process::id(), nanos as u128)]. *)
Definition generate_record_id (prefix : string) : M (world D) string :=
  nanos <- now_utc ;;
  ret (prefix +:+ show_hex env_process_id +:+ show_hex (nanos mod 2 ^ 128)).

(** Lower-case hexadecimal of [n] random bytes. *)
Definition random_hex (n : nat) : M (world D) string :=
  k <- tick ;;
  ret (String.concat "" (map show_hex2 (fill_bytes k n))).
Definition generate_queue_job_id : M (world D) string :=
  suffix <- random_hex 6 ;; ret ("job_" +:+ suffix).
Definition generate_codex_review_request_id : M (world D) string := random_hex 6.
Definition generate_scheduled_reminder_id : M (world D) string := random_hex 6.

(** [None] for no or a zero timeout; [instant + Duration] panics out of range. *)
Definition timeout_at_rfc3339 (timeout_seconds : option Z) : M (world D) (option string) :=
  match timeout_seconds with
  | None => ret None
  | Some s =>
      if 0 <? s then
        now <- now_utc ;;
        s <- lift (u64_to_i64 s) ;;
        match instant_checked_add now (seconds s) with
        | None => panic
        | Some timeout_at =>
            text <- expect format_error (format_rfc3339 timeout_at) ;;
            ret (Some text)
        end
      else ret None
  end.

Definition codex_review_next_retry_at (posted_at : string) (retry_interval_seconds : Z)
    : M (world D) string :=
  base <-
    match parse_queue_datetime posted_at with
    | Some t => ret t
    | None =>
        match parse_python_naive_datetime posted_at with
        | Some t => ret t
        | None => now_utc
        end
    end ;;
  match instant_checked_add base (seconds (Z.max retry_interval_seconds 1)) with
  | None => panic
  | Some next_retry_at => expect format_error (format_rfc3339 next_retry_at)
  end.
End Readings.

(** ** Timestamps written by this program are read back exactly *)
Section Written.
Context `{T : TimeCrate} `{L : !TimeLaws T}.

Lemma queue_elapsed_since_written t s now :
  format_rfc3339 t = Some s -> queue_elapsed_since s now = Some (whole_seconds (now - t)).
Proof.
  intros H. unfold queue_elapsed_since.
  destruct (format_rfc3339_trimmed _ _ H) as [-> Hne].
  destruct (String.eqb_spec s ""); [done|]. by rewrite (parse_format_rfc3339 _ _ H).
Qed.

Lemma timeout_is_expired_written t s now local :
  format_rfc3339 t = Some s -> timeout_is_expired s now local = (t <=? now).
Proof.
  intros H. unfold timeout_is_expired.
  destruct (format_rfc3339_trimmed _ _ H) as [-> Hne].
  destruct (String.eqb_spec s ""); [done|]. by rewrite (parse_format_rfc3339 _ _ H).
Qed.

Lemma whole_seconds_nonneg d : 0 <= d -> 0 <= whole_seconds d.
Proof. intros H. apply Z.quot_pos; unfold NANOS; lia. Qed.
End Written.

(** ** Readings leave the tables alone *)
Section ReadingsFrame.
Context `{T : TimeCrate} `{E : Env} {D : Type}.

Lemma tick_frame : steps (@db_eq D) tick.
Proof. done. Qed.
#[local] Hint Resolve tick_frame : steps.
Lemma now_utc_frame : steps (@db_eq D) now_utc.
Proof. unfold now_utc. step_through. Qed.
#[local] Hint Resolve now_utc_frame : steps.
Lemma now_rfc3339_frame : steps (@db_eq D) now_rfc3339.
Proof. unfold now_rfc3339. step_through. Qed.
Lemma generate_record_id_frame p : steps (@db_eq D) (generate_record_id p).
Proof. unfold generate_record_id. step_through. Qed.
Lemma random_hex_frame n : steps (@db_eq D) (random_hex n).
Proof. unfold random_hex. step_through. Qed.
Lemma timeout_at_frame s : steps (@db_eq D) (timeout_at_rfc3339 s).
Proof. unfold timeout_at_rfc3339. step_through. Qed.
Lemma next_retry_at_frame p r : steps (@db_eq D) (codex_review_next_retry_at p r).
Proof. unfold codex_review_next_retry_at. step_through. Qed.
End ReadingsFrame.
Section ReadingsRun.
Context {T : TimeCrate} {E : Env}.

Lemma now_rfc3339_run {D} (w : world D) :
  exists s, now_rfc3339 w = (Ok s, World (w_db w) (S (w_tick w))).
Proof. eexists. reflexivity. Qed.

Lemma now_rfc3339_db {D} (w w' : world D) s : now_rfc3339 w = (Ok s, w') -> w_db w' = w_db w.
Proof. by intros [= <- <-]. Qed.
End ReadingsRun.

#[export] Hint Resolve tick_frame now_utc_frame now_rfc3339_frame generate_record_id_frame
  random_hex_frame timeout_at_frame next_retry_at_frame : steps.
