(* ===== verification/Json.v ===== *)
(** * JSON values

    [serde_json::Value] with its accessors, as the server uses them on files, events
    and the replies of services.  The crate is built without [preserve_order], so an
    object is a [BTreeMap]: a list of fields in key order.  A number is what the crate
    keeps of it, an unsigned or a negative integer or a binary64 float
    ([SpecFloat.spec_float], the IEEE formats of the Standard Library).  Parsing and
    printing a text belong to the crate: they are the class [JsonParser]. *)
From Stdlib Require Import ZArith Lia Bool String List SpecFloat.
From stdpp Require Import base tactics list strings.
From S2P Require Import Prelude Text Table Clock.

Inductive number : Type :=
| PosInt (n : Z)
| NegInt (n : Z)
| Float (f : spec_float).

#[warnings="-register-all"]
Inductive json : Type :=
| JNull
| JBool (b : bool)
| JNumber (n : number)
| JString (s : string)
| JArray (items : list json)
| JObject (fields : list (string * json)).

Class JsonParser : Type := {
  (** [serde_json::from_str::<Value>]; [from_slice] is the same on bytes. *)
  parse_json : string -> option json;
  (** [Value::to_string]. *)
  json_text : json -> string }.

(** ** Binary64 *)
Abbreviation f64 := spec_float.
(** [n as f64]: rounded to the nearest, ties to even. *)
Definition f64_of_Z (n : Z) : f64 := binary_normalize 53 1024 n 0 false.
Definition f64_is_finite (f : f64) : bool :=
  match f with S754_zero _ | S754_finite _ _ _ => true | _ => false end.
(** [a == b], [a <= b]: false on a NaN. *)
Definition f64_eqb : f64 -> f64 -> bool := SFeqb.
Definition f64_leb : f64 -> f64 -> bool := SFleb.

(** ** Accessors *)
(** [Map::get]. *)
Definition field (key : string) (fields : list (string * json)) : option json :=
  option_map snd (List.find (fun kv => fst kv =?s key) fields).
Definition as_object (v : json) : option (list (string * json)) :=
  match v with JObject fields => Some fields | _ => None end.
Definition as_array (v : json) : option (list json) :=
  match v with JArray items => Some items | _ => None end.
Definition as_str (v : json) : option string := match v with JString s => Some s | _ => None end.
Definition as_bool (v : json) : option bool := match v with JBool b => Some b | _ => None end.
(** [value.get(key)]: [None] unless an object. *)
Definition get_field (key : string) (v : json) : option json := bind_opt (as_object v) (field key).
Definition as_i64 (v : json) : option Z :=
  match v with
  | JNumber (PosInt n) => if n <=? I64_MAX then Some n else None
  | JNumber (NegInt n) => Some n
  | _ => None
  end.
Definition as_u64 (v : json) : option Z := match v with JNumber (PosInt n) => Some n | _ => None end.
Definition as_f64 (v : json) : option f64 :=
  match v with
  | JNumber (PosInt n) | JNumber (NegInt n) => Some (f64_of_Z n)
  | JNumber (Float f) => Some f
  | _ => None
  end.
(** [Option::or_else]. *)
Definition or_else {A} (a b : option A) : option A := match a with Some _ => a | None => b end.
(** [.map(str::trim).filter(|value| !value.is_empty())]. *)
Definition trimmed (o : option string) : option string :=
  match o with
  | Some s => let t := trim s in if t =?s "" then None else Some t
  | None => None
  end.

(** ** Building objects *)
(** [Map::insert]: in key order, an old value replaced. *)
Fixpoint map_insert {V} (key : string) (value : V) (fields : list (string * V)) : list (string * V) :=
  match fields with
  | [] => [(key, value)]
  | (k, v) :: rest =>
      match String.compare key k with
      | Lt => (key, value) :: fields
      | Eq => (key, value) :: rest
      | Gt => (k, v) :: map_insert key value rest
      end
  end.
(** [json!({ .. })]. *)
Definition json_object (fields : list (string * json)) : json :=
  JObject (fold_left (fun m kv => map_insert (fst kv) (snd kv) m) fields []).
(** [Map::contains_key]. *)
Definition contains_key (key : string) (fields : list (string * json)) : bool := is_some (field key fields).
(** [get_mut(key)] and an assignment through it: a key that is not there stays absent. *)
Definition set_existing (key : string) (value : json) (fields : list (string * json)) : list (string * json) :=
  map (fun kv => if fst kv =?s key then (fst kv, value) else kv) fields.

Lemma field_insert_eq key v l : field key (map_insert key v l) = Some v.
Proof.
  unfold field. induction l as [|[k v0] l IH]; cbn; [by rewrite String.eqb_refl|].
  destruct (String.compare key k) eqn:E; cbn; rewrite ?String.eqb_refl; [done..|].
  destruct (String.eqb_spec k key) as [->|]; [by rewrite string_compare_refl in E|done].
Qed.
Lemma field_insert_ne key key' v l : key' <> key -> field key' (map_insert key v l) = field key' l.
Proof.
  intros Hne. unfold field. induction l as [|[k v0] l IH]; cbn.
  - by destruct (String.eqb_spec key key'); subst.
  - destruct (String.compare key k) eqn:E; cbn.
    + apply String.compare_eq_iff in E as ->. by destruct (String.eqb_spec k key'); subst.
    + by destruct (String.eqb_spec key key'); subst.
    + by destruct (k =?s key').
Qed.
Lemma field_set_existing key v l :
  field key (set_existing key v l) = option_map (fun _ => v) (field key l).
Proof.
  unfold field, set_existing. induction l as [|[k v0] l IH]; cbn; [done|].
  destruct (String.eqb_spec k key) as [->|Hne]; cbn; [by rewrite String.eqb_refl|].
  by destruct (String.eqb_spec k key).
Qed.
Lemma field_set_existing_ne key key' v l : key' <> key -> field key' (set_existing key v l) = field key' l.
Proof.
  intros Hne. unfold field, set_existing. induction l as [|[k v0] l IH]; cbn; [done|].
  destruct (String.eqb_spec k key) as [->|]; cbn; [by destruct (String.eqb_spec key key')|].
  by destruct (k =?s key').
Qed.

Lemma trimmed_Some o t : trimmed o = Some t -> exists s, o = Some s /\ t = trim s /\ t <> ""%string.
Proof.
  destruct o as [s|]; cbn; [|done]. destruct (String.eqb_spec (trim s) ""); [done|].
  intros [= <-]. eauto.
Qed.
