(* ===== verification/Floats.v ===== *)
(** * Binary64 numbers

    What the access checks use of [f64]: reading a decimal text, subtraction, comparison,
    and rounding up to an integer.  A result is the exact one, rounded once, as the
    functions of [SpecFloat] give it. *)
From Stdlib Require Import ZArith Lia Bool String Ascii List SpecFloat.
From stdpp Require Import base tactics list strings.
From S2P Require Import Prelude Text StrMethods Clock Json.

Definition f64_sub (a b : f64) : f64 := SFsub 53 1024 a b.
Definition f64_add (a b : f64) : f64 := SFadd 53 1024 a b.
Definition f64_abs (a : f64) : f64 := SFabs a.
Definition f64_ltb (a b : f64) : bool := SFltb a b.
(** [x.ceil() as i64]: the least integer above, kept within the range; a NaN is zero. *)
Definition f64_ceil (x : f64) : Z :=
  match x with
  | S754_finite s m e =>
      if 0 <=? e then cond_Zopp s (Zpos m) * 2 ^ e else - ((- cond_Zopp s (Zpos m)) / 2 ^ (- e))
  | _ => 0
  end.
Definition saturate_i64 (z : Z) : Z := Z.max I64_MIN (Z.min I64_MAX z).
Definition f64_ceil_i64 (x : f64) : Z :=
  match x with
  | S754_infinity s => if s then I64_MIN else I64_MAX
  | _ => saturate_i64 (f64_ceil x)
  end.

(** ** [str::parse::<f64>] *)
Fixpoint digits (l : list ascii) : list ascii * list ascii :=
  match l with
  | c :: r => if is_ascii_digit c then let '(d, rest) := digits r in (c :: d, rest) else ([], l)
  | [] => ([], [])
  end.
Definition digits_value (l : list ascii) : Z :=
  fold_left (fun acc c => 10 * acc + (Z.of_N (N_of_ascii c) - 48)) l 0.
Definition take_sign (l : list ascii) : bool * list ascii :=
  match l with
  | c :: r => if Ascii.eqb c "-" then (true, r) else if Ascii.eqb c "+" then (false, r) else (false, l)
  | [] => (false, [])
  end.
(** [m * 10 ^ e], rounded to the nearest, ties to even. *)
Definition f64_of_decimal (negative : bool) (m e : Z) : f64 :=
  match m with
  | Zpos p =>
      if 0 <=? e then binary_normalize 53 1024 (cond_Zopp negative (m * 10 ^ e)) 0 negative
      else match 10 ^ (- e) with
           | Zpos q => SFdiv 53 1024 (S754_finite negative p 0) (S754_finite false q 0)
           | _ => S754_nan
           end
  | _ => S754_zero negative
  end.
(** The exponent, after the mantissa. *)
Definition parse_exponent (l : list ascii) : option Z :=
  match l with
  | [] => Some 0
  | c :: r =>
      if Ascii.eqb c "e" || Ascii.eqb c "E" then
        let '(negative, r) := take_sign r in
        match digits r with
        | (d :: ds, []) => let n := digits_value (d :: ds) in Some (if negative then - n else n)
        | _ => None
        end
      else None
  end.
Definition parse_decimal (negative : bool) (l : list ascii) : option f64 :=
  let '(whole, rest) := digits l in
  let '(fraction, rest) :=
    match rest with
    | c :: r => if Ascii.eqb c "." then digits r else ([], rest)
    | [] => ([], rest)
    end in
  match (whole ++ fraction)%list with
  | [] => None
  | ds => bind_opt (parse_exponent rest) (fun e =>
          Some (f64_of_decimal negative (digits_value ds) (e - Z.of_nat (length fraction))))
  end.
Definition parse_f64 (s : string) : option f64 :=
  let '(negative, l) := take_sign (bytes_of s) in
  let word := to_ascii_lowercase (of_bytes l) in
  if (word =?s "inf") || (word =?s "infinity") then Some (S754_infinity negative)
  else if word =?s "nan" then Some S754_nan
  else parse_decimal negative l.

(** ** Examples *)
Lemma parse_f64_examples :
  parse_f64 "1700000000" = Some (f64_of_Z 1700000000) /\ parse_f64 "" = None /\ parse_f64 "." = None
  /\ parse_f64 "1e3" = Some (f64_of_Z 1000) /\ parse_f64 "-2.50" = Some (SFdiv 53 1024 (f64_of_Z (-5)) (f64_of_Z 2))
  /\ parse_f64 "1 " = None /\ parse_f64 "0.1" = Some (S754_finite false 7205759403792794 (-56))
  /\ option_map f64_ceil_i64 (parse_f64 "1.2") = Some 2 /\ option_map f64_ceil_i64 (parse_f64 "-1.2") = Some (-1)
  /\ parse_f64 "-Infinity" = Some (S754_infinity true) /\ option_map f64_ceil_i64 (parse_f64 "1e30") = Some I64_MAX.
Proof. vm_compute. done. Qed.
