(* ===== verification/HttpRequest.v ===== *)
(** * HTTP requests as the access checks see them (http.rs)

    Header lookup, the host name of a request and the test for a local client; the
    percent encoding of query values and the escaping of page text. *)
From Stdlib Require Import ZArith Lia Bool String Ascii List.
From stdpp Require Import base tactics list strings.
From S2P Require Import Prelude Text StrMethods Clock Json.

(** ** Headers *)
(** A [HeaderMap]: lower-case names with the bytes of their values, in arrival order. *)
Abbreviation headers := (list (string * string)).
(** [HeaderValue::to_str]: visible ASCII and tabs. *)
Definition visible (c : ascii) : bool := in_range 32 126 c || Ascii.eqb c (ascii_of_N 9).
Definition to_str (value : string) : option string :=
  if forallb visible (bytes_of value) then Some value else None.
Definition header_get (name : string) (h : headers) : option string :=
  option_map snd (List.find (fun kv => fst kv =?s name) h).
Definition header_get_all (name : string) (h : headers) : list string :=
  map snd (List.filter (fun kv => fst kv =?s name) h).
Definition header_text (h : headers) (name : string) : option string :=
  trimmed (bind_opt (header_get name h) to_str).

(** ** The client *)
Inductive ip_addr : Type := V4 (a b c d : N) | V6 (segments : list N).
Definition is_loopback (ip : ip_addr) : bool :=
  match ip with
  | V4 a _ _ _ => (a =? 127)%N
  | V6 segments => bool_decide (segments = [0; 0; 0; 0; 0; 0; 0; 1]%N)
  end.

(** The text before the first [sep]. *)
Definition first_part (sep : ascii) (s : string) : string :=
  match split_char sep s with first :: _ => first | [] => ""%string end.
(** A header value is ASCII: [to_lowercase] changes ASCII letters only. *)
Definition request_hostname (h : headers) : option string :=
  bind_opt (bind_opt (header_get "host" h) to_str) (fun value =>
  let host := to_ascii_lowercase (trim value) in
  if starts_with host "[" then Some (trim_start_char "[" (first_part "]" host))
  else Some (first_part ":" host)).

Definition is_local_bypass_request (h : headers) (peer : option ip_addr) (public_host : option string) : bool :=
  match peer with
  | None => false
  | Some ip =>
      if negb (is_loopback ip) then false
      else
        match request_hostname h with
        | None => false
        | Some hostname =>
            match trimmed public_host with
            | Some public => if eq_ignore_ascii_case hostname public then false
                             else str_in hostname ["127.0.0.1"; "localhost"; "::1"; "testserver"]%string
            | None => str_in hostname ["127.0.0.1"; "localhost"; "::1"; "testserver"]%string
            end
        end
  end.

(** [cookie_value]: the first non-empty cookie of that name, over all cookie headers. *)
Definition cookie_of_part (name part : string) : option string :=
  match split_once "=" (trim part) with
  | Some (cookie_name, cookie_value) =>
      if trim cookie_name =?s name then
        let v := trim cookie_value in if v =?s "" then None else Some v
      else None
  | None => None
  end.
Fixpoint first_some {A B} (f : A -> option B) (l : list A) : option B :=
  match l with
  | [] => None
  | x :: r => match f x with Some y => Some y | None => first_some f r end
  end.
Definition cookie_value (h : headers) (name : string) : option string :=
  first_some (fun header =>
    match to_str header with
    | None => None
    | Some value => first_some (cookie_of_part name) (split_char ";" value)
    end) (header_get_all "cookie" h).
Definition request_bearer_token (h : headers) : option string :=
  bind_opt (bind_opt (header_get "authorization" h) to_str) (fun value =>
  match split_once " " (trim value) with
  | Some (scheme, token) =>
      if negb (eq_ignore_ascii_case scheme "bearer") then None
      else let token := trim token in if token =?s "" then None else Some token
  | None => None
  end).

(** ** Percent encoding *)
Definition upper_hex (n : N) : ascii := ascii_of_N (if (n <? 10)%N then 48 + n else 55 + n)%N.
Definition unreserved (c : ascii) : bool :=
  is_ascii_alphanumeric c || existsb (Ascii.eqb c) ["-"; "."; "_"; "~"]%char.
Definition encode_byte (c : ascii) : list ascii :=
  if unreserved c then [c]
  else let n := N_of_ascii c in ["%"%char; upper_hex (n / 16); upper_hex (n mod 16)].
Definition percent_encode_query_value (value : string) : string := of_bytes (flat_map encode_byte (bytes_of value)).
Definition percent_encode_path (path : string) : string := of_bytes (flat_map encode_byte (bytes_of path)).
Definition google_login_redirect (path : string) : string := "/auth/google/login?next=" +:+ percent_encode_path path.

Definition hex_value (c : ascii) : option N :=
  let n := N_of_ascii c in
  if in_range 48 57 c then Some (n - 48)%N
  else if in_range 97 102 c then Some (n - 97 + 10)%N
  else if in_range 65 70 c then Some (n - 65 + 10)%N
  else None.
Fixpoint percent_decode_bytes (l : list ascii) : option (list ascii) :=
  match l with
  | [] => Some []
  | c :: r =>
      if Ascii.eqb c "+" then option_map (cons " "%char) (percent_decode_bytes r)
      else if Ascii.eqb c "%" then
        match r with
        | d :: e :: r' =>
            bind_opt (hex_value d) (fun high =>
            bind_opt (hex_value e) (fun low =>
            option_map (cons (ascii_of_N (high * 16 + low))) (percent_decode_bytes r')))
        | _ => None
        end
      else option_map (cons c) (percent_decode_bytes r)
  end.
Definition percent_decode_query_component (value : string) : option string :=
  bind_opt (percent_decode_bytes (bytes_of value)) from_utf8.

(** ** Escaping *)
Definition escape_html (value : string) : string :=
  replace_char ">" "&gt;" (replace_char "<" "&lt;" (replace_char "&" "&amp;" value)).
Definition escape_html_attr (value : string) : string := replace_char DQ "&quot;" (escape_html value).

(** ** What they give *)
(** All bytes one by one. *)
Definition all_bytes : list ascii := map (fun n => ascii_of_N (N.of_nat n)) (seq 0 256).
Lemma in_all_bytes c : In c all_bytes.
Proof.
  unfold all_bytes. apply in_map_iff. exists (N.to_nat (N_of_ascii c)). rewrite N2Nat.id. split; [apply ascii_N_embedding|].
  apply in_seq. pose proof (N_ascii_bounded c). lia.
Qed.
Lemma forall_bytes (P : ascii -> bool) : forallb P all_bytes = true -> forall c, P c = true.
Proof. intros H c. rewrite forallb_forall in H. apply H, in_all_bytes. Qed.

Lemma decode_encode_byte c r : percent_decode_bytes (encode_byte c ++ r) = option_map (cons c) (percent_decode_bytes r).
Proof.
  assert (forall c, (if unreserved c then negb (Ascii.eqb c "+") && negb (Ascii.eqb c "%")
    else match hex_value (upper_hex (N_of_ascii c / 16)), hex_value (upper_hex (N_of_ascii c mod 16)) with
         | Some h, Some l => Ascii.eqb (ascii_of_N (h * 16 + l)) c | _, _ => false end) = true) as Hall.
  { apply forall_bytes. vm_compute. reflexivity. }
  specialize (Hall c). unfold encode_byte. destruct (unreserved c).
  - apply andb_true_iff in Hall as [H1%negb_true_iff H2%negb_true_iff]. cbn [app percent_decode_bytes]. by rewrite H1, H2.
  - cbn [app percent_decode_bytes]. change (Ascii.eqb "%" "+") with false. change (Ascii.eqb "%" "%") with true. cbv iota.
    destruct (hex_value (upper_hex (N_of_ascii c / 16))) as [h|]; [|done].
    destruct (hex_value (upper_hex (N_of_ascii c mod 16))) as [l|]; [|done]. cbn [bind_opt].
    by apply Ascii.eqb_eq in Hall as ->.
Qed.
Lemma decode_encode l : percent_decode_bytes (flat_map encode_byte l) = Some l.
Proof. induction l as [|c l IH]; cbn; [done|]. by rewrite decode_encode_byte, IH. Qed.

(** C34: The percent codec is lossless and its output inert: an encoded value decodes to
    itself, and holds only unreserved characters, percent signs and hexadecimal digits,
    so that it can end neither a quoted attribute nor a script. *)
Theorem percent_roundtrip value : utf8_lossy (bytes_of value) = bytes_of value ->
  percent_decode_query_component (percent_encode_query_value value) = Some value
  /\ forallb (fun c => unreserved c || Ascii.eqb c "%") (bytes_of (percent_encode_query_value value)) = true.
Proof.
  intros Hv. unfold percent_decode_query_component, percent_encode_query_value. rewrite bytes_of_bytes. split.
  - rewrite decode_encode. cbn [bind_opt]. unfold from_utf8. rewrite decide_True by done. by rewrite of_bytes_of.
  - assert (forall c, forallb (fun c => unreserved c || Ascii.eqb c "%") (encode_byte c) = true) as Hb.
    { apply forall_bytes. vm_compute. reflexivity. }
    clear Hv. induction (bytes_of value) as [|c l IH]; cbn [flat_map]; [done|]. by rewrite forallb_app, Hb, IH.
Qed.
Lemma percent_roundtrip_witness :
  percent_decode_query_component (percent_encode_query_value "http://a b/<x>") = Some "http://a b/<x>"%string.
Proof. apply (percent_roundtrip "http://a b/<x>"). vm_compute. reflexivity. Defined.

(** Escaped text holds no markup characters; each escape of an ampersand is one of the
    four entities. *)
Fixpoint unescape (l : list ascii) : list ascii :=
  match l with
  | "&"%char :: "a"%char :: "m"%char :: "p"%char :: ";"%char :: r => "&"%char :: unescape r
  | "&"%char :: "l"%char :: "t"%char :: ";"%char :: r => "<"%char :: unescape r
  | "&"%char :: "g"%char :: "t"%char :: ";"%char :: r => ">"%char :: unescape r
  | "&"%char :: "q"%char :: "u"%char :: "o"%char :: "t"%char :: ";"%char :: r => DQ :: unescape r
  | c :: r => c :: unescape r
  | [] => []
  end.
Definition entity (c : ascii) : list ascii :=
  if Ascii.eqb c "&" then bytes_of "&amp;" else if Ascii.eqb c "<" then bytes_of "&lt;"
  else if Ascii.eqb c ">" then bytes_of "&gt;" else if Ascii.eqb c DQ then bytes_of "&quot;" else [c].
Lemma escape_attr_entities value : bytes_of (escape_html_attr value) = flat_map entity (bytes_of value).
Proof.
  unfold escape_html_attr, escape_html, replace_char. rewrite !bytes_of_bytes.
  induction (bytes_of value) as [|c l IH]; [done|]. cbn [flat_map]. rewrite !flat_map_app, IH. f_equal. clear IH.
  revert c. assert (forall c, (fun c => bool_decide (flat_map (fun c0 => if Ascii.eqb c0 DQ then bytes_of "&quot;" else [c0])
     (flat_map (fun c0 => if Ascii.eqb c0 ">" then bytes_of "&gt;" else [c0])
       (flat_map (fun c0 => if Ascii.eqb c0 "<" then bytes_of "&lt;" else [c0])
         (if Ascii.eqb c "&" then bytes_of "&amp;" else [c]))) = entity c)) c = true) as Hb.
  { apply forall_bytes. vm_compute. reflexivity. }
  intros c. specialize (Hb c). cbv beta in Hb. by apply bool_decide_eq_true in Hb.
Qed.
Lemma unescape_entity c r : unescape (entity c ++ r) = c :: unescape r.
Proof.
  unfold entity. destruct (Ascii.eqb_spec c "&") as [->|H1]; [done|]. destruct (Ascii.eqb_spec c "<") as [->|H2]; [done|].
  destruct (Ascii.eqb_spec c ">") as [->|H3]; [done|]. destruct (Ascii.eqb_spec c DQ) as [->|H4]; [done|].
  cbn [app]. destruct c as [[] [] [] [] [] [] [] []]; first [done|reflexivity].
Qed.
(** Escaping an attribute is lossless, and nothing in it can end the attribute or open a tag. *)
Lemma escape_attr_safe value :
  unescape (bytes_of (escape_html_attr value)) = bytes_of value
  /\ (forall c, In c (bytes_of (escape_html_attr value)) -> c <> DQ /\ c <> "<"%char /\ c <> ">"%char).
Proof.
  rewrite escape_attr_entities. split.
  - induction (bytes_of value) as [|c l IH]; [done|]. cbn [flat_map]. by rewrite unescape_entity, IH.
  - intros c Hc. apply in_flat_map in Hc as (d & _ & Hc). unfold entity in Hc.
    assert (forall e, (fun e => negb (Ascii.eqb e DQ) && negb (Ascii.eqb e "<") && negb (Ascii.eqb e ">")) e = true ->
      e <> DQ /\ e <> "<"%char /\ e <> ">"%char) as Hok.
    { intros e He. repeat split; intros ->; done. }
    apply Hok. clear Hok.
    destruct (Ascii.eqb_spec d "&"); [|destruct (Ascii.eqb_spec d "<"); [|destruct (Ascii.eqb_spec d ">");
      [|destruct (Ascii.eqb_spec d DQ) as [|Hd]]]].
    1-4: repeat (destruct Hc as [<-|Hc]; [done|]); done.
    destruct Hc as [<-|[]]. rewrite !andb_true_iff, !negb_true_iff, !Ascii.eqb_neq. done.
Qed.
