(* ===== verification/ServerConfig.v ===== *)
(** * The configuration of the access checks (config.rs)

    The sections of the configuration file that decide who may call the server. *)
From Stdlib Require Import ZArith Lia Bool String Ascii List.
From stdpp Require Import base tactics list strings gmap.
From S2P Require Import Prelude Text StrMethods Clock Json.

Record CloudflareAccessApplicationConfig : Type := MkAccessApp {
  ap_enabled : bool; ap_app_id : option string; ap_hostname : option string; ap_jwt_audience : option string }.
Record CloudflareAccessConfig : Type := MkAccessConfig {
  account_id : option string; zone_id : option string; api_token : option string; team_domain : option string;
  browser : CloudflareAccessApplicationConfig; mobile_app : CloudflareAccessApplicationConfig;
  node_fallback : CloudflareAccessApplicationConfig; email_worker : CloudflareAccessApplicationConfig;
  mobile_device_policy_id : option string; mobile_device_ca_certificate_id : option string;
  node_policy_id : option string }.
Definition expected_audience (app : CloudflareAccessApplicationConfig) : option string := trimmed (ap_jwt_audience app).
Definition expected_issuer (config : CloudflareAccessConfig) : option string :=
  option_map (fun value =>
    if starts_with value "https://" then trim_end_char "/" value else "https://" +:+ trim_end_char "/" value)
    (trimmed (team_domain config)).

Record GoogleAuthConfig : Type := MkGoogleAuth {
  ga_enabled : bool; ga_public_host : option string; ga_public_path_prefix : option string;
  ga_client_id : option string; ga_android_client_id : option string; ga_client_secret : option string;
  ga_redirect_uri : option string; ga_allowlist_emails : list string; ga_session_cookie_secret : option string }.
Definition has_text (value : option string) : bool := is_some (trimmed value).
Definition requested (auth : GoogleAuthConfig) : bool := ga_enabled auth.
Definition ready (auth : GoogleAuthConfig) : bool :=
  ga_enabled auth && has_text (ga_client_id auth) && has_text (ga_client_secret auth)
  && has_text (ga_session_cookie_secret auth) && has_text (ga_public_host auth) && has_text (ga_redirect_uri auth)
  && existsb (fun value => negb (trim value =?s "")) (ga_allowlist_emails auth).

Record PublicEdgeConfig : Type := MkPublicEdge {
  pe_enabled : bool; pe_assertion_secret : option string; pe_assertion_max_skew_seconds : Z }.
Record ExternalAccessConfig : Type := MkExternalAccess {
  ex_public_http_host : option string; ex_public_http_path_prefix : option string }.

Record MobileTerminalDeviceKeyConfig : Type := MkDeviceKey { dk_id : string; dk_public_key : string; dk_enabled : bool }.
Record MobileTerminalUserConfig : Type := MkUserConfig {
  us_email : option string; us_aliases : list string; interactive_shell_access : bool; us_mobile_terminal_owner : bool;
  us_can_disable_mobile_terminal : bool; us_owner : bool; registered_device_keys : list MobileTerminalDeviceKeyConfig }.
(** The users in the order of their names, as the map of the configuration gives them. *)
Record MobileTerminalConfig : Type := MkMobileTerminal {
  mt_enabled : bool; mt_ws_url : option string; mt_public_path_prefix : option string; mt_require_tls : bool;
  mt_allowed_users : list (string * MobileTerminalUserConfig); mt_ticket_ttl_seconds : Z;
  mt_device_signature_max_skew_seconds : Z; mt_max_concurrent_attaches_per_user : Z;
  mt_max_concurrent_attaches_per_session : Z; mt_max_concurrent_attaches_global : Z }.
Definition find_user (user_id : string) (config : MobileTerminalConfig) : option MobileTerminalUserConfig :=
  option_map snd (List.find (fun kv => fst kv =?s user_id) (mt_allowed_users config)).

Record AppConfig : Type := MkAppConfig {
  cf_access : CloudflareAccessConfig; google_auth : GoogleAuthConfig; public_edge : PublicEdgeConfig;
  external_access : ExternalAccessConfig; mobile_terminal : MobileTerminalConfig }.

(** [value.clamp(minimum, maximum)], a zero standing for the fallback. *)
Definition clamp_u64 (value minimum maximum fallback : Z) : Z :=
  Z.min maximum (Z.max minimum (if value =? 0 then fallback else value)).
Definition clamp_usize (value minimum maximum fallback : Z) : Z := clamp_u64 value minimum maximum fallback.
Lemma clamp_range value minimum maximum fallback : minimum <= maximum ->
  minimum <= clamp_u64 value minimum maximum fallback <= maximum.
Proof. unfold clamp_u64. lia. Qed.
