(* ===== verification/Api.v ===== *)
(** * Request handlers: errors, atomic sections and threads (http.rs)

    A handler answers a value or an [ApiError].  Handlers run at once on several threads and
    share the server's state through locks: a handler is a program whose steps are the
    sections it runs without letting go of the state, and threads interleave between them. *)
From Stdlib Require Import ZArith Lia Bool String List.
From stdpp Require Import base tactics list strings relations.
From S2P Require Import Prelude.

(** ** Errors *)
Inductive api_error : Type :=
| ApiStatus (status : Z) (detail : string)
| ApiNotFound (detail : string)
| ApiAuth (status : Z) (detail : string) (login_url : option string)
| ApiInternal (error : string).
Definition api_error_detail (error : api_error) : string :=
  match error with
  | ApiStatus _ detail | ApiNotFound detail | ApiAuth _ detail _ => detail
  | ApiInternal error => error
  end.

(** A computation that ends with a value or an [ApiError]. *)
Definition AM (S A : Type) : Type := S -> (A + api_error) * S.
Section Results.
Context {S : Type}.
Definition ok {A} (a : A) : AM S A := fun s => (inl a, s).
Definition fail {A} (e : api_error) : AM S A := fun s => (inr e, s).
Definition try {A B} (m : AM S A) (k : A -> AM S B) : AM S B :=
  fun s => match m s with (inl a, s') => k a s' | (inr e, s') => (inr e, s') end.
Definition read {A} (f : S -> A) : AM S A := fun s => (inl (f s), s).
Definition change (f : S -> S) : AM S unit := fun s => (inl tt, f s).
(** [opt.ok_or_else(|| error)?]. *)
Definition need {A} (e : api_error) (o : option A) : AM S A := match o with Some a => ok a | None => fail e end.
Definition check (b : bool) (e : api_error) : AM S unit := if b then ok tt else fail e.
Definition of_result {A} (r : A + api_error) : AM S A := fun s => (r, s).
End Results.
Notation "x <-! m ;; k" := (try m (fun x => k))
  (at level 100, m at next level, right associativity) : sm_scope.
Notation "m ;!; k" := (try m (fun _ => k)) (at level 100, right associativity) : sm_scope.

Lemma try_inl_inv {S A B} (m : AM S A) (k : A -> AM S B) s b s' :
  try m k s = (inl b, s') -> exists a s1, m s = (inl a, s1) /\ k a s1 = (inl b, s').
Proof. unfold try. destruct (m s) as [[a|e] s1]; [|done]. eauto. Qed.
Lemma check_inl_inv {S} b e (s s' : S) u : check b e s = (inl u, s') -> b = true /\ s' = s.
Proof. unfold check. destruct b; [|done]. by intros [= _ <-]. Qed.
Lemma need_inl_inv {S A} e (o : option A) a (s s' : S) : need e o s = (inl a, s') -> o = Some a /\ s' = s.
Proof. destruct o; [|done]. by intros [= <- <-]. Qed.
(** [inv_api H]: splits a successful run. *)
Ltac inv_api H :=
  match type of H with
  | try _ _ _ = (inl _, _) =>
      let a := fresh "a" in let s := fresh "s" in let H1 := fresh "Hrun" in
      apply try_inl_inv in H; destruct H as (a & s & H1 & H); cbv beta in H; inv_api H1; inv_api H
  | ok _ _ = (inl _, _) => injection H as ? ?; subst
  | read _ _ = (inl _, _) => injection H as ? ?; subst
  | of_result _ _ = (inl _, _) => let E := fresh "Hval" in injection H as E ?; subst
  | check _ _ _ = (inl _, _) => let E := fresh "Hval" in apply check_inl_inv in H; destruct H as [E ?]; subst
  | need _ _ _ = (inl _, _) => let E := fresh "Hval" in apply need_inl_inv in H; destruct H as [E ?]; subst
  | fail _ _ = (inl _, _) => discriminate H
  | _ => idtac
  end.

(** ** Two-state specifications *)
(** [asteps R m]: every run of [m], whether it answers or fails, moves the state along [R]. *)
Definition asteps {S A} (R : S -> S -> Prop) (m : AM S A) : Prop := forall s, R s (snd (m s)).
Section ApiSteps.
Context {S : Type} (R : S -> S -> Prop) `{HR : !PreOrder R}.
Lemma asteps_ok {A} (a : A) : asteps R (ok a).
Proof. intros s. cbn. reflexivity. Qed.
Lemma asteps_fail {A} e : asteps R (@fail S A e).
Proof. intros s. cbn. reflexivity. Qed.
Lemma asteps_read {A} (f : S -> A) : asteps R (read f).
Proof. intros s. cbn. reflexivity. Qed.
Lemma asteps_need {A} e (o : option A) : asteps R (need e o).
Proof. destruct o; [apply asteps_ok|apply asteps_fail]. Qed.
Lemma asteps_check b e : asteps R (check b e).
Proof. destruct b; [apply asteps_ok|apply asteps_fail]. Qed.
Lemma asteps_of_result {A} (r : A + api_error) : asteps R (of_result r).
Proof. intros s. cbn. reflexivity. Qed.
Lemma asteps_try {A B} (m : AM S A) (k : A -> AM S B) :
  asteps R m -> (forall a, asteps R (k a)) -> asteps R (try m k).
Proof.
  intros Hm Hk s. unfold try. specialize (Hm s). destruct (m s) as [[a|e] s']; cbn in *; [|done].
  etransitivity; [exact Hm|apply Hk].
Qed.
Lemma asteps_change (f : S -> S) : (forall s, R s (f s)) -> asteps R (change f).
Proof. intros H s. apply H. Qed.
End ApiSteps.
Create HintDb asteps discriminated.
(** [api_steps]: walks a handler down to its changes of the state. *)
Ltac api_steps :=
  repeat first
    [ progress intros
    | assumption
    | solve [eauto 3 with asteps]
    | match goal with
      | |- asteps _ (ok _) => apply asteps_ok; [typeclasses eauto]
      | |- asteps _ (fail _) => apply asteps_fail; [typeclasses eauto]
      | |- asteps _ (read _) => apply asteps_read; [typeclasses eauto]
      | |- asteps _ (need _ _) => apply asteps_need; [typeclasses eauto]
      | |- asteps _ (check _ _) => apply asteps_check; [typeclasses eauto]
      | |- asteps _ (of_result _) => apply asteps_of_result; [typeclasses eauto]
      | |- asteps _ (try _ _) => apply asteps_try; [typeclasses eauto| |]
      | |- asteps _ (change _) => apply asteps_change
      | |- asteps _ (match ?x with _ => _ end) => destruct x
      | |- asteps _ (let _ := _ in _) => cbv zeta
      end ].

(** ** Programs *)
(** [Step next after]: a section, which from a state [s] leaves [after s] and goes on as
    [next s]. *)
Inductive prog (S A : Type) : Type :=
| Ret (a : A)
| Step (next : S -> prog S A) (after : S -> S).
Arguments Ret {S A} _.
Arguments Step {S A} _ _.

Section Programs.
Context {S : Type}.

Fixpoint pbind {A B} (p : prog S A) (k : A -> prog S B) : prog S B :=
  match p with
  | Ret a => k a
  | Step next after => Step (fun s => pbind (next s) k) after
  end.
(** A section of a handler: what follows it runs unless it fails. *)
Definition atomically {A B} (m : AM S A) (k : A -> prog S (B + api_error)) : prog S (B + api_error) :=
  Step (fun s => match fst (m s) with inl a => k a | inr e => Ret (inr e) end) (fun s => snd (m s)).
(** A handler that runs alone. *)
Fixpoint run_alone {A} (p : prog S A) (s : S) : A * S :=
  match p with
  | Ret a => (a, s)
  | Step next after => run_alone (next s) (after s)
  end.

(** ** Threads *)
(** The threads and the state they share: a thread makes one section at a time, and a
    thread may start running a request of [requests] at any time. *)
Definition pool (A : Type) : Type := (list (prog S A) * S)%type.
Inductive pool_step {A} (requests : prog S A -> Prop) : pool A -> pool A -> Prop :=
| pool_section i next after ps s :
    ps !! i = Some (Step next after) -> pool_step requests (ps, s) (<[i := next s]> ps, after s)
| pool_arrive p ps s : requests p -> pool_step requests (ps, s) (ps ++ [p], s).
(** A schedule: the thread to run next, or a request to accept. *)
Inductive choice (A : Type) : Type := Run (i : nat) | Accept (p : prog S A).
Arguments Run {A} _.
Arguments Accept {A} _.
Definition choose {A} (c : choice A) (x : pool A) : pool A :=
  match c with
  | Run i => match fst x !! i with
             | Some (Step next after) => (<[i := next (snd x)]> (fst x), after (snd x))
             | _ => x
             end
  | Accept p => (fst x ++ [p], snd x)
  end.
Definition schedule {A} (cs : list (choice A)) (x : pool A) : pool A := fold_left (fun x c => choose c x) cs x.
Lemma schedule_steps {A} (requests : prog S A -> Prop) cs x :
  (forall p, In (Accept p) cs -> requests p) -> rtc (pool_step requests) x (schedule cs x).
Proof.
  revert x. induction cs as [|c cs IH]; intros x Hr; cbn; [done|].
  transitivity (choose c x); [|apply IH; intros p Hin; apply Hr; by right]. destruct x as [ps s].
  destruct c as [i|p]; cbn.
  - destruct (ps !! i) as [[a|next after]|] eqn:E; [done| |done]. apply rtc_once. by constructor.
  - apply rtc_once. constructor. apply Hr. by left.
Qed.

(** [keeps_all I Q w p]: every section of [p] keeps the invariant [I], whatever other threads
    that keep it do between the sections, and its answer satisfies [Q].  [I] and [Q] may
    speak of a history [w] that grows along [le]; what [Q] says stays true. *)
Section Invariants.
Context {W A : Type} (le : W -> W -> Prop) `{Hle : !PreOrder le} (I : W -> S -> Prop) (Q : W -> A -> Prop).
Context (Q_mono : forall w w' a, le w w' -> Q w a -> Q w' a).

Fixpoint keeps_all (w : W) (p : prog S A) : Prop :=
  match p with
  | Ret a => Q w a
  | Step next after => forall w1 s, le w w1 -> I w1 s ->
      exists w2, le w1 w2 /\ keeps_all w2 (next s) /\ I w2 (after s)
  end.
Lemma keeps_all_mono w w' (p : prog S A) : le w w' -> keeps_all w p -> keeps_all w' p.
Proof. destruct p as [a|next after]; cbn; [by apply Q_mono|]. intros Hw Hp w1 s H1. apply Hp. by transitivity w'. Qed.
Lemma pool_keeps (requests : prog S A -> Prop) w ps s ps' s' :
  (forall w p, requests p -> keeps_all w p) -> (forall p, In p ps -> keeps_all w p) -> I w s ->
  rtc (pool_step requests) (ps, s) (ps', s') ->
  exists w', le w w' /\ (forall p, In p ps' -> keeps_all w' p) /\ I w' s'.
Proof.
  intros Hreq Hps Hs Hsteps. remember (ps, s) as c eqn:Ec. remember (ps', s') as c' eqn:Ec'.
  revert w ps s Hps Hs Ec. induction Hsteps as [c|c1 c2 c3 Hstep _ IH]; intros w ps s Hps Hs ->.
  { injection Ec' as <- <-. by exists w. }
  inversion Hstep as [i next after ps0 s0 Hi E1 E2|p ps0 s0 Hp E1 E2]; subst.
  - pose proof (Hps _ (proj1 (list_elem_of_In _ _) (list_elem_of_lookup_2 _ _ _ Hi))) as Hk. cbn in Hk.
    destruct (Hk w s (reflexivity w) Hs) as (w2 & H2 & Hn & Hs2).
    destruct (IH eq_refl w2 (<[i:=next s]> ps) (after s)) as (w' & H' & Hps' & Hs'); [|done..|].
    + intros p Hin%list_elem_of_In. apply list_elem_of_lookup in Hin as (j & Hj).
      apply list_lookup_insert_Some in Hj as [(_ & <- & _)|[_ Hj]]; [done|].
      eapply keeps_all_mono; [done|]. apply Hps, list_elem_of_In. by eapply list_elem_of_lookup_2.
    + exists w'. split; [by transitivity w2|done].
  - apply (IH eq_refl w (ps ++ [p]) s); [|done..]. intros q [Hin|[<-|[]]]%in_app_iff; auto.
Qed.
End Invariants.

(** A section of a handler. *)
Lemma keeps_all_atomically {W A B} (le : W -> W -> Prop) (I : W -> S -> Prop) (Q : W -> B + api_error -> Prop) w
    (m : AM S A) (k : A -> prog S (B + api_error)) :
  (forall w e, Q w (inr e)) ->
  (forall w1 s, le w w1 -> I w1 s -> exists w2, le w1 w2 /\ I w2 (snd (m s))
     /\ forall a, fst (m s) = inl a -> keeps_all le I Q w2 (k a)) ->
  keeps_all le I Q w (atomically m k).
Proof.
  intros He Hm. cbn. intros w1 s H1 Hs. destruct (Hm w1 s H1 Hs) as (w2 & H2 & Hs2 & Hk). exists w2. split; [done|].
  split; [|done]. destruct (fst (m s)) as [a|e]; [by apply Hk|apply He].
Qed.
(** A section that leaves alone what the invariant is about. *)
Lemma keeps_all_frame {W A B} (le : W -> W -> Prop) `{!PreOrder le} (I : W -> S -> Prop) (Q : W -> B + api_error -> Prop)
    (R : S -> S -> Prop) w (m : AM S A) (k : A -> prog S (B + api_error)) :
  (forall w e, Q w (inr e)) -> (forall w s s', R s s' -> I w s -> I w s') -> asteps R m ->
  (forall w' a, le w w' -> keeps_all le I Q w' (k a)) -> keeps_all le I Q w (atomically m k).
Proof.
  intros He Hi Hm Hk. apply keeps_all_atomically; [done|]. intros w1 s H1 Hs. exists w1. split; [done|].
  split; [by eapply Hi; [apply Hm|]|]. intros a _. by apply Hk.
Qed.
End Programs.
Arguments Run {S A} _.
Arguments Accept {S A} _.
Notation "x <-- m ;; k" := (atomically m (fun x => k))
  (at level 100, m at next level, right associativity) : sm_scope.
