(* ===== verification/Demo.v ===== *)
(** * A concrete environment

    An instance of the external interfaces, used to evaluate the model on concrete
    inputs: instants are written as decimal nanosecond counts, civil time is UTC,
    the clock advances by one second per reading, and the random source returns the
    reading's index. *)
From Stdlib Require Import ZArith Lia Bool String Ascii List.
From Stdlib Require Import DecimalFacts DecimalZ DecimalString.
From stdpp Require Import base tactics list strings.
From S2P Require Import Prelude Text Clock.

Definition demo_format (t : Z) : option string := Some (show_Z t).
(** A count with a mark before it is the fixed-width format. *)
Definition demo_parse_fixed (s : string) : option Z :=
  match bytes_of s with c :: r => if Ascii.eqb c "#" then parse_digits r 0 else None | [] => None end.
Definition demo_parse (s : string) : option Z :=
  match NilZero.int_of_string s with Some i => Some (Z.of_int i) | None => demo_parse_fixed s end.

#[export] Instance demo_time : TimeCrate := {|
  parse_rfc3339 := demo_parse;
  format_rfc3339 := demo_format;
  format_error := "format error"%string;
  parse_naive_subsecond := fun _ => None;
  parse_naive_second := fun _ => None;
  format_naive_micros := demo_format;
  instant_checked_add := fun t d =>
    let z := t + d in if Z.abs z <=? 377705116800 * NANOS then Some z else None;
  naive_checked_add := fun t d =>
    let z := t + d in if Z.abs z <=? 377705116800 * NANOS then Some z else None;
  localtime_r := fun t =>
    Some (Tm (1970 - 1900 + t / 31536000) ((t mod 31536000) / 86400)
            ((t mod 86400) / 3600) ((t mod 3600) / 60) (t mod 60));
  date_from_ordinal := fun y o => Some ((y - 1970) * 365 + (o - 1));
  time_from_hms_nano := fun h m s n => Some (((h * 60 + m) * 60 + s) * NANOS + n);
|}.

#[export] Instance demo_env : Env := {|
  env_now := fun k => (1700000000 + Z.of_nat k) * NANOS;
  env_process_id := 77;
  env_random := fun k _ => N.of_nat k;
|}.

(** ** The laws of the time crate hold for it *)
Lemma demo_roundtrip t : demo_parse (show_Z t) = Some t.
Proof.
  unfold demo_parse, show_Z. rewrite NilZero.isi.
  - cbn. by rewrite DecimalZ.of_to.
  - destruct t as [|p|p]; cbn; [done| |done]. intros [= H]. by apply (DecimalPos.Unsigned.to_uint_nonnil p).
  - destruct t as [|p|p]; cbn; [done|done|]. intros [= H]. by apply (DecimalPos.Unsigned.to_uint_nonnil p).
Qed.

(** Bytes that cannot open or close a white-space sequence. *)
Definition plain (c : ascii) : bool :=
  negb (ws1 c) && (N_of_ascii c <? 128)%N.

Lemma plain_ws2 c d : plain c = true \/ plain d = true -> ws2 c d = false.
Proof.
  unfold plain, ws2. intros [H|H]; apply andb_true_iff in H as [_ H%N.ltb_lt].
  - destruct (N.eqb_spec (N_of_ascii c) 194); [lia|done].
  - destruct (N.eqb_spec (N_of_ascii d) 133), (N.eqb_spec (N_of_ascii d) 160);
      [lia..|]. by rewrite andb_false_r.
Qed.
Lemma plain_ws3 c d e : plain c = true \/ plain e = true -> ws3 c d e = false.
Proof.
  unfold plain, ws3. intros [H|H]; apply andb_true_iff in H as [_ H%N.ltb_lt].
  - destruct (N.eqb_spec (N_of_ascii c) 225), (N.eqb_spec (N_of_ascii c) 226),
      (N.eqb_spec (N_of_ascii c) 227); lia.
  - assert (forall k, (128 <= k)%N -> (N_of_ascii e =? k)%N = false) as Hk
      by (intros k ?; apply N.eqb_neq; lia).
    rewrite !Hk by lia. destruct (N.leb_spec 128 (N_of_ascii e)); [lia|]. cbn.
    by rewrite !andb_false_r.
Qed.

Lemma trim_start_plain c l : plain c = true -> trim_start (c :: l) = c :: l.
Proof.
  intros H. cbn. pose proof H as Hp. unfold plain in H. apply andb_true_iff in H as [H%negb_true_iff _].
  rewrite H. destruct l as [|d l]; [done|]. rewrite plain_ws2 by auto.
  destruct l as [|e l]; [done|]. by rewrite plain_ws3 by auto.
Qed.
Lemma trim_end_rev_plain c l : plain c = true -> trim_end_rev (c :: l) = c :: l.
Proof.
  intros H. cbn. pose proof H as Hp. unfold plain in H. apply andb_true_iff in H as [H%negb_true_iff _].
  rewrite H. destruct l as [|d l]; [done|]. rewrite plain_ws2 by auto.
  destruct l as [|e l]; [done|]. by rewrite plain_ws3 by auto.
Qed.

Lemma trim_plain s : forallb plain (bytes_of s) = true -> trim s = s.
Proof.
  intros H. unfold trim. destruct (bytes_of s) as [|c l] eqn:E.
  - cbn. rewrite <- (of_bytes_of s), E. done.
  - cbn in H. apply andb_true_iff in H as [Hc Hl]. rewrite trim_start_plain by done.
    destruct (rev (c :: l)) as [|d r] eqn:Er.
    { apply (f_equal (@length _)) in Er. rewrite length_rev in Er. done. }
    rewrite trim_end_rev_plain.
    + by rewrite <- Er, rev_involutive, <- E, of_bytes_of.
    + assert (In d (c :: l)) as Hin by (rewrite in_rev, Er; by left).
      assert (forallb plain (c :: l) = true) as Hall by (cbn; by rewrite Hc, Hl).
      rewrite forallb_forall in Hall. by apply Hall.
Qed.

Lemma show_uint_plain u : forallb plain (bytes_of (NilEmpty.string_of_uint u)) = true.
Proof. induction u; cbn; auto. Qed.
Lemma show_Z_plain z : forallb plain (bytes_of (show_Z z)) = true.
Proof.
  unfold show_Z, NilZero.string_of_int, NilZero.string_of_uint.
  destruct (Z.to_int z) as [u|u]; destruct u; first [reflexivity|apply show_uint_plain].
Qed.

#[export] Instance demo_laws : TimeLaws demo_time.
Proof.
  split; cbn; unfold demo_format.
  - intros t s [= <-]. apply demo_roundtrip.
  - intros t s [= <-]. split; [apply trim_plain, show_Z_plain|]. intros H.
    pose proof (demo_roundtrip t) as Hr. rewrite H in Hr. done.
  - intros t d z. destruct (_ <=? _); [by intros [= <-]|done].
  - intros t d z. destruct (_ <=? _); [by intros [= <-]|done].
Qed.
