(* ===== verification/Schema.v ===== *)
(** * The message database: tables, rows and the schema migration

    One SQLite file holds the six tables queue.rs creates in [init_schema]:
    queued messages, one-shot and recurring reminders, status reminders, parent
    wakes, armed stop notifications and Codex review requests.  A row type has the
    columns of its [CREATE TABLE]; a nullable column that is read as nullable is an
    [option], an integer column used as a flag stays an integer. *)
From Stdlib Require Import ZArith Lia Bool String List.
From stdpp Require Import base tactics list strings.
From S2P Require Import Prelude Text Table Clock.

(** A nullable integer flag as the readers decode it:
    [row.get::<_, Option<i64>>(i)?.unwrap_or(default) != 0]. *)
Definition flag (default : Z) (column : option Z) : bool := negb (unwrap_or default column =? 0).
(** A Rust [bool] bound as an SQL parameter. *)
Definition sql_bool (b : bool) : option Z := Some (if b then 1 else 0).
Lemma flag_sql_bool d b : flag d (sql_bool b) = b.
Proof. by destruct b. Qed.

(** ** [message_queue] *)
Record message_row : Type := MessageRow {
  msg_id : string;
  msg_target_session_id : string;
  msg_sender_session_id : option string;
  msg_sender_name : option string;
  msg_text : string;
  msg_delivery_mode : string;
  msg_from_sm_send : option Z;
  msg_queued_at : string;
  msg_timeout_at : option string;
  msg_notify_on_delivery : option Z;
  msg_notify_after_seconds : option Z;
  msg_notify_on_stop : option Z;
  msg_delivered_at : option string;
  msg_remind_soft_threshold : option Z;
  msg_remind_hard_threshold : option Z;
  msg_remind_cancel_on_reply_session_id : option string;
  msg_parent_session_id : option string;
  msg_message_category : option string;
  msg_response_relay_source : option string }.
#[export] Instance eta_message_row : Eta message_row := fun r =>
  MessageRow (msg_id r) (msg_target_session_id r) (msg_sender_session_id r)
    (msg_sender_name r) (msg_text r) (msg_delivery_mode r) (msg_from_sm_send r)
    (msg_queued_at r) (msg_timeout_at r) (msg_notify_on_delivery r)
    (msg_notify_after_seconds r) (msg_notify_on_stop r) (msg_delivered_at r)
    (msg_remind_soft_threshold r) (msg_remind_hard_threshold r)
    (msg_remind_cancel_on_reply_session_id r) (msg_parent_session_id r)
    (msg_message_category r) (msg_response_relay_source r).

(** ** [scheduled_reminders] *)
Record reminder_row : Type := ReminderRow {
  rem_id : string;
  rem_target_session_id : string;
  rem_message : string;
  rem_fire_at : string;
  rem_task_type : option string;
  rem_fired : option Z;
  rem_recurring_interval_seconds : option Z;
  rem_is_active : option Z }.
#[export] Instance eta_reminder_row : Eta reminder_row := fun r =>
  ReminderRow (rem_id r) (rem_target_session_id r) (rem_message r) (rem_fire_at r)
    (rem_task_type r) (rem_fired r) (rem_recurring_interval_seconds r) (rem_is_active r).

(** ** [remind_registrations]: [target_session_id] is [UNIQUE] *)
Record remind_row : Type := RemindRow {
  rmd_id : string;
  rmd_target_session_id : string;
  rmd_soft_threshold_seconds : Z;
  rmd_hard_threshold_seconds : Z;
  rmd_registered_at : string;
  rmd_last_reset_at : string;
  rmd_cancel_on_reply_session_id : option string;
  rmd_soft_fired : Z;
  rmd_is_active : Z;
  rmd_tracked_status_nudge_fired : Z;
  rmd_persistent_tracking : Z }.
#[export] Instance eta_remind_row : Eta remind_row := fun r =>
  RemindRow (rmd_id r) (rmd_target_session_id r) (rmd_soft_threshold_seconds r)
    (rmd_hard_threshold_seconds r) (rmd_registered_at r) (rmd_last_reset_at r)
    (rmd_cancel_on_reply_session_id r) (rmd_soft_fired r) (rmd_is_active r)
    (rmd_tracked_status_nudge_fired r) (rmd_persistent_tracking r).

(** ** [parent_wake_registrations]: [child_session_id] is [UNIQUE] *)
Record wake_row : Type := WakeRow {
  wake_id : string;
  wake_child_session_id : string;
  wake_parent_session_id : string;
  wake_period_seconds : Z;
  wake_registered_at : string;
  wake_last_wake_at : option string;
  wake_last_status_at_prev_wake : option string;
  wake_escalated : Z;
  wake_is_active : Z }.
#[export] Instance eta_wake_row : Eta wake_row := fun r =>
  WakeRow (wake_id r) (wake_child_session_id r) (wake_parent_session_id r)
    (wake_period_seconds r) (wake_registered_at r) (wake_last_wake_at r)
    (wake_last_status_at_prev_wake r) (wake_escalated r) (wake_is_active r).

(** ** [rust_stop_notify_states]: one row per session *)
Record stop_row : Type := StopRow {
  stop_session_id : string;
  stop_sender_session_id : string;
  stop_sender_name : option string;
  stop_delay_seconds : Z;
  stop_armed_at : string }.
#[export] Instance eta_stop_row : Eta stop_row := fun r =>
  StopRow (stop_session_id r) (stop_sender_session_id r) (stop_sender_name r)
    (stop_delay_seconds r) (stop_armed_at r).

(** ** [codex_review_request_registrations] *)
(** A value of SQLite's dynamic typing; a real is its IEEE bit pattern. *)
Inductive sql_value : Type :=
| SqlNull
| SqlInteger (z : Z)
| SqlReal (bits : Z)
| SqlText (s : string)
| SqlBlob (s : string).

Record review_row : Type := ReviewRow {
  rev_id : string;
  rev_repo : string;
  rev_pr_number : Z;
  rev_requester_session_id : option string;
  rev_notify_session_id : string;
  rev_steer : option string;
  rev_requested_head_sha : option string;
  rev_superseded_by_request_id : option string;
  rev_superseded_at : option string;
  rev_requested_at : string;
  rev_latest_request_comment_id : option Z;
  rev_latest_request_comment_url : option string;
  rev_latest_request_posted_at : option string;
  rev_attempt_count : Z;
  rev_next_retry_at : option string;
  rev_poll_interval_seconds : Z;
  rev_retry_interval_seconds : Z;
  rev_pickup_detected_at : option string;
  rev_pickup_source : option string;
  rev_review_landed_at : option string;
  rev_review_source : option string;
  rev_review_comment_id : sql_value;
  rev_review_url : option string;
  rev_last_polled_at : option string;
  rev_last_error : option string;
  rev_state : string;
  rev_is_active : option Z }.
#[export] Instance eta_review_row : Eta review_row := fun r =>
  ReviewRow (rev_id r) (rev_repo r) (rev_pr_number r) (rev_requester_session_id r)
    (rev_notify_session_id r) (rev_steer r) (rev_requested_head_sha r)
    (rev_superseded_by_request_id r) (rev_superseded_at r) (rev_requested_at r)
    (rev_latest_request_comment_id r) (rev_latest_request_comment_url r)
    (rev_latest_request_posted_at r) (rev_attempt_count r) (rev_next_retry_at r)
    (rev_poll_interval_seconds r) (rev_retry_interval_seconds r)
    (rev_pickup_detected_at r) (rev_pickup_source r) (rev_review_landed_at r)
    (rev_review_source r) (rev_review_comment_id r) (rev_review_url r)
    (rev_last_polled_at r) (rev_last_error r) (rev_state r) (rev_is_active r).

(** ** The database *)
Record mqdb : Type := MqDb {
  messages : list message_row;
  reminders : list reminder_row;
  reminds : list remind_row;
  wakes : list wake_row;
  stops : list stop_row;
  reviews : list review_row }.
#[export] Instance eta_mqdb : Eta mqdb := fun d =>
  MqDb (messages d) (reminders d) (reminds d) (wakes d) (stops d) (reviews d).
Definition empty_mqdb : mqdb := MqDb [] [] [] [] [] [].

(** An operation of the message store. *)
Abbreviation MQ := (M (world mqdb)).

(** [is_active = k] on a nullable column: [NULL] is not equal to anything. *)
Definition col_is (k : Z) (column : option Z) : bool :=
  match column with Some z => z =? k | None => false end.

(** What [init_schema] does to the rows of an existing database: after the
    [CREATE .. IF NOT EXISTS] and the added columns, reminders without an
    [is_active] value become active, and fired one-shot reminders inactive. *)
Definition init_schema (d : mqdb) : mqdb :=
  d <| reminders :=
    update (fun r => col_is 1 (rem_fired r)
                     && is_none (rem_recurring_interval_seconds r)
                     && col_is 1 (rem_is_active r))
           (fun r => r <| rem_is_active := Some 0 |>)
      (update (fun r => is_none (rem_is_active r))
              (fun r => r <| rem_is_active := Some 1 |>) (reminders d)) |>.

(** [self.with_connection(f)]: open, migrate, run. *)
Definition with_connection {A} (f : M (world mqdb) A) : M (world mqdb) A :=
  fun w => f (World (init_schema (w_db w)) (w_tick w)).

(** ** Well-formed databases: the declared keys *)
Record mq_wf (d : mqdb) : Prop := MqWf {
  wf_messages : unique msg_id (messages d);
  wf_reminders : unique rem_id (reminders d);
  wf_reminds_id : unique rmd_id (reminds d);
  wf_reminds_target : unique rmd_target_session_id (reminds d);
  wf_wakes_id : unique wake_id (wakes d);
  wf_wakes_child : unique wake_child_session_id (wakes d);
  wf_stops : unique stop_session_id (stops d);
  wf_reviews : unique rev_id (reviews d) }.

Lemma empty_mqdb_wf : mq_wf empty_mqdb.
Proof. split; constructor. Qed.

Lemma init_schema_wf d : mq_wf d -> mq_wf (init_schema d).
Proof. intros []. split; cbn; auto with table. Qed.

(** The migration runs once: a migrated database is left as it is. *)
Lemma init_schema_idem d : init_schema (init_schema d) = init_schema d.
Proof.
  unfold init_schema. destruct d as [ms rs ????]; cbn. unfold set_field; cbn. f_equal.
  unfold update. rewrite !map_map. apply map_ext. intros [i t m f ty fi iv [a|]]; cbn.
  - destruct (col_is 1 fi && is_none iv && (a =? 1)) eqn:E; cbn; [by rewrite andb_false_r|].
    by rewrite E.
  - destruct (col_is 1 fi && is_none iv && true) eqn:E; cbn; [by rewrite andb_false_r|].
    by rewrite E.
Qed.

Lemma init_schema_migrated d d0 :
  reminders d = reminders (init_schema d0) -> init_schema d = d.
Proof.
  intros Hr. pose proof (f_equal reminders (init_schema_idem d0)) as Hi.
  destruct d as [a b c e f g]. cbn in Hr. subst b. unfold init_schema at 1, set_field. cbn. f_equal. exact Hi.
Qed.

Lemma init_schema_other d :
  messages (init_schema d) = messages d /\ reminds (init_schema d) = reminds d /\
  wakes (init_schema d) = wakes d /\ stops (init_schema d) = stops d /\
  reviews (init_schema d) = reviews d.
Proof. done. Qed.

Lemma steps_with_connection {A} (Q : mqdb -> mqdb -> Prop) `{!PreOrder Q} (f : M (world mqdb) A) :
  (forall d, Q d (init_schema d)) -> steps (on_db Q) f -> steps (on_db Q) (with_connection f).
Proof.
  intros Hi Hf w. unfold with_connection, on_db. etransitivity; [apply Hi|].
  apply (Hf (World (init_schema (w_db w)) (w_tick w))).
Qed.

(** ** What every operation of the store guarantees

    [mq_safe]: the keys stay unique, and a delivered message is neither removed
    nor changed. *)
Definition delivered_stable (d d' : mqdb) : Prop :=
  forall r, In r (messages d) -> is_some (msg_delivered_at r) = true -> In r (messages d').
Definition mq_safe (d d' : mqdb) : Prop := keeps mq_wf d d' /\ delivered_stable d d'.
#[export] Instance mq_safe_preorder : PreOrder mq_safe.
Proof.
  split.
  - intros d. split; [apply keeps_preorder|by intros r].
  - intros d1 d2 d3 [H1 H2] [H3 H4]. split; [intros H; auto|intros r Hr Hd; auto].
Qed.

Lemma init_schema_safe d : mq_safe d (init_schema d).
Proof. split; [intros H; by apply init_schema_wf|by intros r]. Qed.

Lemma with_connection_safe {A} (f : MQ A) :
  steps (on_db mq_safe) f -> steps (on_db mq_safe) (with_connection f).
Proof. apply steps_with_connection; [tc_solve|apply init_schema_safe]. Qed.
#[export] Hint Resolve with_connection_safe : steps.

(** A statement that leaves the message table alone is safe when it keeps the keys. *)
Lemma safe_other_table d d' :
  messages d' = messages d -> (mq_wf d -> mq_wf d') -> mq_safe d d'.
Proof. intros Hm Hw. split; [done|]. intros r. by rewrite Hm. Qed.

(** [safe_table]: closes [mq_safe] goals of statements outside the message table. *)
Ltac safe_table :=
  apply safe_other_table; [done|]; intros []; split; cbn; auto with table;
  try (apply unique_update; [done|auto with table]).
