(* ===== verification/MessageQueue.v ===== *)
(** * The message queue

    Messages for sessions, their delivery with its side effects, status reminders,
    parent wakes and armed stop notifications: the [message_queue],
    [remind_registrations], [parent_wake_registrations] and
    [rust_stop_notify_states] operations of [RetainedQueueStore] in queue.rs. *)
From Stdlib Require Import ZArith Lia Bool String List Sorted.
From stdpp Require Import base tactics list strings.
From S2P Require Import Prelude Text Table Clock Schema.

(** ** Data *)
Record QueueMessageMetadata : Type := Metadata {
  md_sender_session_id : option string;
  md_sender_name : option string;
  md_from_sm_send : bool;
  md_timeout_seconds : option Z;
  md_notify_on_delivery : bool;
  md_notify_after_seconds : option Z;
  md_notify_on_stop : bool;
  md_remind_soft_threshold : option Z;
  md_remind_hard_threshold : option Z;
  md_remind_cancel_on_reply_session_id : option string;
  md_parent_session_id : option string;
  md_message_category : option string;
  md_response_relay_source : option string }.
Definition default_metadata : QueueMessageMetadata :=
  Metadata None None false None false None false None None None None None None.
#[export] Instance eta_metadata : Eta QueueMessageMetadata := fun r =>
  Metadata (md_sender_session_id r) (md_sender_name r) (md_from_sm_send r)
    (md_timeout_seconds r) (md_notify_on_delivery r) (md_notify_after_seconds r)
    (md_notify_on_stop r) (md_remind_soft_threshold r) (md_remind_hard_threshold r)
    (md_remind_cancel_on_reply_session_id r) (md_parent_session_id r)
    (md_message_category r) (md_response_relay_source r).

(** [QueueMessageMetadata::has_delivery_side_effects]. *)
Definition has_delivery_side_effects (md : QueueMessageMetadata) : bool :=
  md_notify_on_delivery md
  || is_some (md_notify_after_seconds md)
  || md_notify_on_stop md
  || is_some (md_remind_soft_threshold md)
  || is_some (md_remind_hard_threshold md)
  || match md_remind_cancel_on_reply_session_id md with
     | Some value => negb (is_blank value) | None => false end
  || match md_parent_session_id md with
     | Some value => negb (is_blank value) | None => false end.

Record PendingMessage : Type := Pending {
  pm_id : string;
  pm_target_session_id : string;
  pm_text : string;
  pm_delivery_mode : string;
  pm_has_delivery_side_effects : bool;
  pm_sender_session_id : option string;
  pm_sender_name : option string;
  pm_from_sm_send : bool;
  pm_notify_on_delivery : bool;
  pm_notify_after_seconds : option Z;
  pm_notify_on_stop : bool;
  pm_remind_soft_threshold : option Z;
  pm_remind_hard_threshold : option Z;
  pm_remind_cancel_on_reply_session_id : option string;
  pm_parent_session_id : option string;
  pm_message_category : option string;
  pm_response_relay_source : option string }.

(** The [CASE WHEN .. THEN 1 ELSE 0 END] column of the pending-message queries:
    a [NULL] comparison does not satisfy the [WHEN]. *)
Definition sql_ne_zero (c : option Z) : bool := match c with Some z => negb (z =? 0) | None => false end.
Definition sql_nonblank (c : option string) : bool :=
  match c with Some s => negb (sqlite_trim s =?s "") | None => false end.
Definition sql_has_delivery_side_effects (r : message_row) : bool :=
  sql_ne_zero (msg_notify_on_delivery r)
  || is_some (msg_notify_after_seconds r)
  || sql_ne_zero (msg_notify_on_stop r)
  || is_some (msg_remind_soft_threshold r)
  || is_some (msg_remind_hard_threshold r)
  || sql_nonblank (msg_remind_cancel_on_reply_session_id r)
  || sql_nonblank (msg_parent_session_id r).

(** The row decoder the three pending-message queries share. *)
Definition pending_message_from_row (r : message_row) : PendingMessage := {|
  pm_id := msg_id r;
  pm_target_session_id := msg_target_session_id r;
  pm_text := msg_text r;
  pm_delivery_mode := msg_delivery_mode r;
  pm_has_delivery_side_effects := sql_has_delivery_side_effects r;
  pm_sender_session_id := msg_sender_session_id r;
  pm_sender_name := msg_sender_name r;
  pm_from_sm_send := flag 0 (msg_from_sm_send r);
  pm_notify_on_delivery := flag 0 (msg_notify_on_delivery r);
  pm_notify_after_seconds := option_map i64_to_u64 (msg_notify_after_seconds r);
  pm_notify_on_stop := flag 0 (msg_notify_on_stop r);
  pm_remind_soft_threshold := option_map i64_to_u64 (msg_remind_soft_threshold r);
  pm_remind_hard_threshold := option_map i64_to_u64 (msg_remind_hard_threshold r);
  pm_remind_cancel_on_reply_session_id := msg_remind_cancel_on_reply_session_id r;
  pm_parent_session_id := msg_parent_session_id r;
  pm_message_category := msg_message_category r;
  pm_response_relay_source := msg_response_relay_source r |}.

Record StopNotifyState : Type := StopNotify {
  sn_session_id : string;
  sn_sender_session_id : string;
  sn_sender_name : string;
  sn_delay_seconds : Z }.

(** ** Texts *)
Definition delivery_notification_text (m : PendingMessage) : string :=
  "[sm] Message delivered to " +:+ pm_target_session_id m +:+ NL
  +:+ "Original: " +:+ QT +:+ truncate_chars (pm_text m) 100 +:+ QT.

Definition followup_notification_text (m : PendingMessage) : option string :=
  match pm_notify_after_seconds m with
  | None => None
  | Some seconds => Some
      ("[sm] Reminder: " +:+ show_Z seconds +:+ "s since your message to "
       +:+ pm_target_session_id m +:+ " was delivered" +:+ NL
       +:+ "Original: " +:+ QT +:+ truncate_chars (pm_text m) 100 +:+ QT +:+ NL
       +:+ "You can check status with: sm output " +:+ pm_target_session_id m)
  end.

Definition undelivered (r : message_row) : bool := is_none (msg_delivered_at r).
Definition message_order (a b : message_row) : bool :=
  text2_leb (msg_queued_at a, msg_id a) (msg_queued_at b, msg_id b).

Section Operations.
Context `{T : TimeCrate} `{E : Env}.

(** ** Enqueueing *)
(** The inserted row; the seconds columns go through the checked [u64_to_i64]. *)
Definition enqueue_message_with_id_and_metadata_conn
    (id target_session_id text delivery_mode : string) (md : QueueMessageMetadata) : MQ bool :=
  timeout_at <- timeout_at_rfc3339 (md_timeout_seconds md) ;;
  let response_relay_source :=
    match md_response_relay_source md with
    | Some s => Some s
    | None => if md_from_sm_send md then Some "sm-send"%string else None
    end in
  queued_at <- now_rfc3339 ;;
  notify_after <- lift (map_u64_to_i64 (md_notify_after_seconds md)) ;;
  soft <- lift (map_u64_to_i64 (md_remind_soft_threshold md)) ;;
  hard <- lift (map_u64_to_i64 (md_remind_hard_threshold md)) ;;
  let row := {|
    msg_id := id;
    msg_target_session_id := target_session_id;
    msg_sender_session_id := md_sender_session_id md;
    msg_sender_name := md_sender_name md;
    msg_text := text;
    msg_delivery_mode := delivery_mode;
    msg_from_sm_send := sql_bool (md_from_sm_send md);
    msg_queued_at := queued_at;
    msg_timeout_at := timeout_at;
    msg_notify_on_delivery := sql_bool (md_notify_on_delivery md);
    msg_notify_after_seconds := notify_after;
    msg_notify_on_stop := sql_bool (md_notify_on_stop md);
    msg_delivered_at := None;
    msg_remind_soft_threshold := soft;
    msg_remind_hard_threshold := hard;
    msg_remind_cancel_on_reply_session_id := md_remind_cancel_on_reply_session_id md;
    msg_parent_session_id := md_parent_session_id md;
    msg_message_category := md_message_category md;
    msg_response_relay_source := response_relay_source |} in
  inserted <- execute (fun d =>
    let '(t, n) := insert_or_ignore msg_id (messages d) row in (d <| messages := t |>, n)) ;;
  ret (Nat.ltb 0 inserted).

Definition enqueue_message_with_metadata_conn
    (target_session_id text delivery_mode : string) (md : QueueMessageMetadata) : MQ string :=
  id <- generate_record_id "msg" ;;
  inserted <- enqueue_message_with_id_and_metadata_conn id target_session_id text delivery_mode md ;;
  if negb inserted then bail ("generated duplicate queue message id " +:+ id)
  else ret id.

Definition enqueue_message_with_metadata
    (target_session_id text delivery_mode : string) (md : QueueMessageMetadata) : MQ string :=
  with_connection (enqueue_message_with_metadata_conn target_session_id text delivery_mode md).

Definition enqueue_message (target_session_id text delivery_mode : string)
    (message_category : option string) : MQ string :=
  enqueue_message_with_metadata target_session_id text delivery_mode
    (default_metadata <| md_message_category := message_category |>).

(** The content comparison of the once-only insert. *)
Definition same_content (id target text mode : string) (category : option string)
    (r : message_row) : bool :=
  (msg_id r =?s id) && (msg_target_session_id r =?s target) && (msg_text r =?s text)
  && (msg_delivery_mode r =?s mode) && opt_str_eqb (msg_message_category r) category.

Definition enqueue_message_once_with_metadata
    (id target_session_id text delivery_mode : string) (md : QueueMessageMetadata) : MQ unit :=
  with_connection (
    inserted <- enqueue_message_with_id_and_metadata_conn id target_session_id text delivery_mode md ;;
    if inserted : bool then ret tt
    else
      count <- query (fun d =>
        changes (same_content id target_session_id text delivery_mode (md_message_category md))
          (messages d)) ;;
      if Nat.ltb 0 count then ret tt
      else bail ("queue message id " +:+ id +:+ " already exists with different content")).

(** ** Pending messages *)
(** The rows whose timeout has passed are deleted, one statement per row. *)
Definition expire_pending_messages_for_target (target_session_id : string) : MQ unit :=
  rows <- query (fun d =>
    select (fun r => (msg_target_session_id r =?s target_session_id) && undelivered r
                     && is_some (msg_timeout_at r)) (messages d)) ;;
  now <- now_utc ;;
  let now_local := local_now_naive now in
  for_each rows (fun row =>
    match msg_timeout_at row with
    | Some timeout_at =>
        if timeout_is_expired timeout_at now now_local then
          execute (fun d =>
            let p r := has_key msg_id (msg_id row) r && undelivered r in
            (d <| messages := delete_rows p (messages d) |>, changes p (messages d))) ;;;
          ret tt
        else ret tt
    | None => ret tt
    end).

(** [limit.max(1) as i64] of a [usize]: a limit above the signed range wraps to a negative
    one, and a negative [LIMIT] is none. *)
Definition sql_limit (limit : Z) : Z := let n := Z.max limit 1 in if n <=? I64_MAX then n else n - 2 ^ 64.
Definition limited {A} (limit : Z) (l : list A) : list A :=
  if limit <? 0 then l else take (Z.to_nat limit) l.
Definition pending_query (p : message_row -> bool) (limit : Z) (d : mqdb) : list PendingMessage :=
  map pending_message_from_row
    (limited (sql_limit limit)
       (order_by message_order (select (fun r => p r && undelivered r) (messages d)))).

Definition pending_messages_for_target (target_session_id : string) (limit : Z)
    : MQ (list PendingMessage) :=
  with_connection (
    expire_pending_messages_for_target target_session_id ;;;
    query (pending_query (fun r => msg_target_session_id r =?s target_session_id) limit)).

Definition pending_messages_for_target_by_mode (target_session_id delivery_mode : string)
    (limit : Z) : MQ (list PendingMessage) :=
  with_connection (
    expire_pending_messages_for_target target_session_id ;;;
    query (pending_query (fun r => (msg_target_session_id r =?s target_session_id)
                                   && (msg_delivery_mode r =?s delivery_mode)) limit)).

Definition pending_messages_for_target_by_category (target_session_id message_category : string)
    (limit : Z) : MQ (list PendingMessage) :=
  with_connection (
    expire_pending_messages_for_target target_session_id ;;;
    query (pending_query (fun r => (msg_target_session_id r =?s target_session_id)
                                   && opt_str_eqb (msg_message_category r) (Some message_category))
             limit)).

(** [SELECT target .. GROUP BY target ORDER BY MIN(queued_at), target]. *)
Definition min_text (a b : string) : string := if text_leb a b then a else b.
Fixpoint group_min (rows : list message_row) : list (string * string) :=
  match rows with
  | [] => []
  | r :: rest =>
      let groups := group_min rest in
      let t := msg_target_session_id r in
      if existsb (fun g => fst g =?s t) groups then
        map (fun g => if fst g =?s t then (t, min_text (msg_queued_at r) (snd g)) else g) groups
      else (t, msg_queued_at r) :: groups
  end.
Definition pending_target_session_ids_by_category (message_category : string) : MQ (list string) :=
  with_connection (query (fun d =>
    map fst (order_by (fun a b => text2_leb (snd a, fst a) (snd b, fst b))
      (group_min (select (fun r => undelivered r
                                   && opt_str_eqb (msg_message_category r) (Some message_category)
                                   && negb (sqlite_trim (msg_target_session_id r) =?s ""))
                         (messages d)))))).

(** ** Registrations *)
Definition register_remind_conn (target_session_id : string)
    (soft_threshold_seconds hard_threshold_seconds : Z)
    (cancel_on_reply_session_id : option string) : MQ string :=
  id <- generate_record_id "remind" ;;
  now <- now_rfc3339 ;;
  execute (fun d =>
    let p r := rmd_target_session_id r =?s target_session_id in
    (d <| reminds := update p (fun r => r <| rmd_is_active := 0 |>) (reminds d) |>,
     changes p (reminds d))) ;;;
  soft <- lift (u64_to_i64 soft_threshold_seconds) ;;
  hard <- lift (u64_to_i64 hard_threshold_seconds) ;;
  execute (fun d =>
    (d <| reminds :=
       insert_or_replace (fun r => has_key rmd_id id r
                                   || has_key rmd_target_session_id target_session_id r)
         (reminds d)
         (RemindRow id target_session_id soft hard now now cancel_on_reply_session_id 0 1 0 0) |>,
     1%nat)) ;;;
  ret id.

Definition cancel_parent_wake_conn (child_session_id : string) : MQ unit :=
  execute (fun d =>
    let p r := wake_child_session_id r =?s child_session_id in
    (d <| wakes := update p (fun r => r <| wake_is_active := 0 |>) (wakes d) |>,
     changes p (wakes d))) ;;;
  ret tt.

Definition register_parent_wake_conn (child_session_id parent_session_id : string)
    (period_seconds : Z) : MQ string :=
  cancel_parent_wake_conn child_session_id ;;;
  id <- generate_record_id "wake" ;;
  now <- now_rfc3339 ;;
  execute (fun d =>
    (d <| wakes :=
       insert_or_replace (fun r => has_key wake_id id r
                                   || has_key wake_child_session_id child_session_id r)
         (wakes d)
         (WakeRow id child_session_id parent_session_id period_seconds now None None 0 1) |>,
     1%nat)) ;;;
  ret id.

(** [INSERT .. ON CONFLICT(session_id) DO UPDATE]. *)
Definition upsert_stop_notify_conn (session_id sender_session_id sender_name : string)
    (delay_seconds : Z) : MQ unit :=
  now <- now_rfc3339 ;;
  execute (fun d =>
    let p := has_key stop_session_id session_id in
    let row := StopRow session_id sender_session_id (Some sender_name) delay_seconds now in
    (d <| stops :=
       if existsb p (stops d) then update p (fun _ => row) (stops d)
       else insert (stops d) row |>,
     1%nat)) ;;;
  ret tt.

Definition register_parent_wake (child parent : string) (period : Z) : MQ string :=
  with_connection (register_parent_wake_conn child parent period).
Definition register_remind (target : string) (soft hard : Z) (cancel : option string) : MQ string :=
  with_connection (register_remind_conn target soft hard cancel).
Definition cancel_parent_wake (child : string) : MQ unit :=
  with_connection (cancel_parent_wake_conn child).
Definition cancel_remind (target_session_id : string) : MQ unit :=
  with_connection (
    execute (fun d =>
      let p r := rmd_target_session_id r =?s target_session_id in
      (d <| reminds := update p (fun r => r <| rmd_is_active := 0 |>) (reminds d) |>,
       changes p (reminds d))) ;;;
    ret tt).
Definition upsert_stop_notify (session_id sender_session_id sender_name : string) (delay : Z) : MQ unit :=
  with_connection (upsert_stop_notify_conn session_id sender_session_id sender_name delay).
Definition stop_notify_state (session_id : string) : MQ (option StopNotifyState) :=
  with_connection (query (fun d =>
    option_map (fun r => StopNotify (stop_session_id r) (stop_sender_session_id r)
                           (unwrap_or "" (stop_sender_name r)) (stop_delay_seconds r))
      (lookup_row stop_session_id session_id (stops d)))).
Definition clear_stop_notify (session_id : string) : MQ unit :=
  with_connection (
    execute (fun d =>
      let p := has_key stop_session_id session_id in
      (d <| stops := delete_rows p (stops d) |>, changes p (stops d))) ;;;
    ret tt).
Definition active_parent_wake_parent (child_session_id : string) : MQ (option string) :=
  with_connection (query (fun d =>
    option_map wake_parent_session_id
      (List.find (fun r => (wake_child_session_id r =?s child_session_id)
                           && (wake_is_active r =? 1)) (wakes d)))).

(** ** Delivery *)
Definition mark_delivered_conn (message_id : string) : MQ bool :=
  now <- now_rfc3339 ;;
  changed <- execute (fun d =>
    let p r := has_key msg_id message_id r && undelivered r in
    (d <| messages := update p (fun r => r <| msg_delivered_at := Some now |>) (messages d) |>,
     changes p (messages d))) ;;
  ret (Nat.ltb 0 changed).

Definition mark_delivered (message_id : string) : MQ unit :=
  with_connection (mark_delivered_conn message_id ;;; ret tt).

(** The side effects of a first delivery, in the order of the code: tell the
    sender, arm the sender's stop notification, register the status reminder and
    with it the parent's wake. *)
Definition notify_sender (m : PendingMessage) : MQ unit :=
  if pm_notify_on_delivery m then
    match pm_sender_session_id m with
    | Some sender =>
        enqueue_message_with_metadata_conn sender (delivery_notification_text m)
          "sequential" default_metadata ;;; ret tt
    | None => ret tt
    end
  else ret tt.
Definition arm_stop_notify (m : PendingMessage) : MQ unit :=
  if pm_notify_on_stop m then
    match pm_sender_session_id m with
    | Some sender =>
        upsert_stop_notify_conn (pm_target_session_id m) sender
          (unwrap_or "" (pm_sender_name m)) 0
    | None => ret tt
    end
  else ret tt.
Definition register_delivered_remind (m : PendingMessage) : MQ unit :=
  match pm_remind_soft_threshold m with
  | Some soft =>
      register_remind_conn (pm_target_session_id m) soft
        (unwrap_or (u64_saturating_add soft 120) (pm_remind_hard_threshold m))
        (pm_remind_cancel_on_reply_session_id m) ;;; ret tt
  | None => ret tt
  end.
Definition register_delivered_wake (m : PendingMessage) : MQ unit :=
  if is_some (pm_remind_soft_threshold m) then
    match pm_parent_session_id m with
    | Some parent =>
        register_parent_wake_conn (pm_target_session_id m) parent 600 ;;; ret tt
    | None => ret tt
    end
  else ret tt.

Definition mark_delivered_and_apply_side_effects (m : PendingMessage) : MQ unit :=
  with_connection (transaction (
    newly <- mark_delivered_conn (pm_id m) ;;
    if negb newly then ret tt
    else
      notify_sender m ;;;
      arm_stop_notify m ;;;
      register_delivered_remind m ;;;
      register_delivered_wake m)).

Definition message_delivered (message_id : string) : MQ bool :=
  with_connection (query (fun d =>
    match lookup_row msg_id message_id (messages d) with
    | Some r => is_some (msg_delivered_at r)
    | None => false
    end)).

(** ** Cancelling undelivered messages *)
Definition cancel_pending_messages_for_target_category (target category : string) : MQ nat :=
  with_connection (execute (fun d =>
    let p r := (msg_target_session_id r =?s target)
               && opt_str_eqb (msg_message_category r) (Some category) && undelivered r in
    (d <| messages := delete_rows p (messages d) |>, changes p (messages d)))).
Definition cancel_pending_messages_from_sender_category (sender category : string) : MQ nat :=
  with_connection (execute (fun d =>
    let p r := opt_str_eqb (msg_sender_session_id r) (Some sender)
               && opt_str_eqb (msg_message_category r) (Some category) && undelivered r in
    (d <| messages := delete_rows p (messages d) |>, changes p (messages d)))).
End Operations.

(** ** Keys stay unique and delivered messages stay *)
Lemma has_key_refl {row} (key : row -> string) r : has_key key (key r) r = true.
Proof. unfold has_key. apply String.eqb_refl. Qed.

(** Statements on the message table. *)
Lemma insert_message_safe d r :
  mq_safe d (fst (let '(t, n) := insert_or_ignore msg_id (messages d) r in (d <| messages := t |>, n))).
Proof.
  destruct (insert_or_ignore msg_id (messages d) r) as [t n] eqn:E; cbn. split.
  - intros []. split; cbn; auto. change t with (fst (t, n)). rewrite <- E. by apply unique_insert_or_ignore.
  - intros x Hx _. cbn. unfold insert_or_ignore in E.
    destruct (existsb _ _); simplify_eq; [done|]. apply in_or_app. by left.
Qed.

Lemma delete_messages_safe d p :
  (forall r, p r = true -> undelivered r = true) ->
  mq_safe d (d <| messages := delete_rows p (messages d) |>).
Proof.
  intros Hp. split.
  - intros []. split; cbn; auto with table.
  - intros r Hr Hd. cbn. apply in_delete_rows. split; [done|].
    destruct (p r) eqn:E; [|done]. apply Hp in E. unfold undelivered, is_none in E. by rewrite Hd in E.
Qed.

Lemma update_messages_safe d p f :
  (forall r, p r = true -> undelivered r = true) -> (forall r, msg_id (f r) = msg_id r) ->
  mq_safe d (d <| messages := update p f (messages d) |>).
Proof.
  intros Hp Hf. split.
  - intros []. split; cbn; auto with table.
  - intros r Hr Hd. cbn. apply in_update. exists r. split; [done|].
    destruct (p r) eqn:E; [|done]. apply Hp in E. unfold undelivered, is_none in E. by rewrite Hd in E.
Qed.

Section Safety.
Context `{T : TimeCrate} `{E : Env}.

Lemma enqueue_with_id_safe id target text mode md :
  steps (on_db mq_safe) (enqueue_message_with_id_and_metadata_conn id target text mode md).
Proof. unfold enqueue_message_with_id_and_metadata_conn. db_steps. apply insert_message_safe. Qed.
#[local] Hint Resolve enqueue_with_id_safe : steps.

Lemma enqueue_conn_safe target text mode md :
  steps (on_db mq_safe) (enqueue_message_with_metadata_conn target text mode md).
Proof. unfold enqueue_message_with_metadata_conn. db_steps. Qed.
#[local] Hint Resolve enqueue_conn_safe : steps.

Lemma enqueue_once_safe id target text mode md :
  steps (on_db mq_safe) (enqueue_message_once_with_metadata id target text mode md).
Proof. unfold enqueue_message_once_with_metadata. apply with_connection_safe. db_steps. Qed.

Lemma expire_safe target :
  steps (on_db mq_safe) (expire_pending_messages_for_target target).
Proof.
  unfold expire_pending_messages_for_target. db_steps.
  apply delete_messages_safe. intros r Hr. by bool_simpl.
Qed.

Lemma register_remind_conn_safe target soft hard cancel :
  steps (on_db mq_safe) (register_remind_conn target soft hard cancel).
Proof.
  unfold register_remind_conn. db_steps; [safe_table|].
  apply safe_other_table; [done|]. intros []. split; cbn; auto.
  - by apply (unique_replace_l rmd_id (has_key _ _) _ (RemindRow _ _ _ _ _ _ _ _ _ _ _)).
  - by apply (unique_replace_r rmd_target_session_id (has_key _ _) _ (RemindRow _ _ _ _ _ _ _ _ _ _ _)).
Qed.

Lemma cancel_parent_wake_conn_safe child : steps (on_db mq_safe) (cancel_parent_wake_conn child).
Proof. unfold cancel_parent_wake_conn. db_steps. safe_table. Qed.
#[local] Hint Resolve cancel_parent_wake_conn_safe : steps.

Lemma register_parent_wake_conn_safe child parent period :
  steps (on_db mq_safe) (register_parent_wake_conn child parent period).
Proof.
  unfold register_parent_wake_conn. db_steps.
  apply safe_other_table; [done|]. intros []. split; cbn; auto.
  - by apply (unique_replace_l wake_id (has_key _ _) _ (WakeRow _ _ _ _ _ _ _ _ _)).
  - by apply (unique_replace_r wake_child_session_id (has_key _ _) _ (WakeRow _ _ _ _ _ _ _ _ _)).
Qed.

Lemma upsert_stop_notify_conn_safe session sender name delay :
  steps (on_db mq_safe) (upsert_stop_notify_conn session sender name delay).
Proof.
  unfold upsert_stop_notify_conn. db_steps.
  apply safe_other_table; [done|]. intros []. split; cbn; auto.
  rewrite existsb_has_key. destruct (lookup_row _ _ _) eqn:Hl; cbn.
  - apply unique_update; [|done]. intros r Hr. unfold has_key in Hr. by bool_simpl.
  - rewrite lookup_row_None in Hl. by apply unique_insert.
Qed.

Lemma mark_delivered_conn_safe id : steps (on_db mq_safe) (mark_delivered_conn id).
Proof.
  unfold mark_delivered_conn. db_steps. apply update_messages_safe; [|done].
  intros r Hr. by bool_simpl.
Qed.
End Safety.
#[export] Hint Resolve enqueue_with_id_safe enqueue_conn_safe enqueue_once_safe expire_safe
  register_remind_conn_safe cancel_parent_wake_conn_safe register_parent_wake_conn_safe
  upsert_stop_notify_conn_safe mark_delivered_conn_safe : steps.

(** ** What each primitive does when it returns *)
Section Specs.
Context `{T : TimeCrate} `{E : Env}.

Lemma generate_record_id_db {D} p (w w' : world D) s :
  generate_record_id p w = (Ok s, w') -> w_db w' = w_db w.
Proof. by intros [= <- <-]. Qed.
Lemma timeout_at_db {D} o (w w' : world D) s : timeout_at_rfc3339 o w = (Ok s, w') -> w_db w' = w_db w.
Proof. intros H. pose proof (timeout_at_frame (D := D) o w) as Hf. by rewrite H in Hf. Qed.

(** The row an enqueue inserts, apart from its two timestamps. *)
Definition row_of_metadata (r : message_row) (id target text mode : string)
    (md : QueueMessageMetadata) : Prop :=
  msg_id r = id /\ msg_target_session_id r = target /\ msg_text r = text /\
  msg_delivery_mode r = mode /\ msg_delivered_at r = None /\
  msg_sender_session_id r = md_sender_session_id md /\ msg_sender_name r = md_sender_name md /\
  msg_from_sm_send r = sql_bool (md_from_sm_send md) /\
  msg_notify_on_delivery r = sql_bool (md_notify_on_delivery md) /\
  msg_notify_after_seconds r = md_notify_after_seconds md /\
  msg_notify_on_stop r = sql_bool (md_notify_on_stop md) /\
  msg_remind_soft_threshold r = md_remind_soft_threshold md /\
  msg_remind_hard_threshold r = md_remind_hard_threshold md /\
  msg_remind_cancel_on_reply_session_id r = md_remind_cancel_on_reply_session_id md /\
  msg_parent_session_id r = md_parent_session_id md /\
  msg_message_category r = md_message_category md /\
  msg_response_relay_source r =
    match md_response_relay_source md with
    | Some s => Some s
    | None => if md_from_sm_send md then Some "sm-send"%string else None
    end.

Lemma map_u64_to_i64_Ok o o' : map_u64_to_i64 o = Ok o' -> o' = o.
Proof.
  destruct o as [v|]; cbn; [|by intros [= <-]]. destruct (u64_to_i64 v) eqn:H; [|done..].
  apply u64_to_i64_Ok in H as [-> _]. by intros [= <-].
Qed.

Lemma enqueue_with_id_spec id target text mode md w b w' :
  enqueue_message_with_id_and_metadata_conn id target text mode md w = (Ok b, w') ->
  (b = true /\ lookup_row msg_id id (messages (w_db w)) = None /\
   exists r, row_of_metadata r id target text mode md /\
     w_db w' = (w_db w) <| messages := insert (messages (w_db w)) r |>) \/
  (b = false /\ is_some (lookup_row msg_id id (messages (w_db w))) = true /\ w_db w' = w_db w).
Proof.
  unfold enqueue_message_with_id_and_metadata_conn. intros H. inv_ok H.
  match goal with Hx : execute _ _ = _ |- _ => apply execute_Ok_inv in Hx as (-> & Hdb & _) end.
  repeat match goal with Hx : map_u64_to_i64 _ = Ok _ |- _ => apply map_u64_to_i64_Ok in Hx; subst end.
  match goal with Hx : now_rfc3339 _ = _ |- _ => apply now_rfc3339_db in Hx; rewrite Hx in Hdb |- * end.
  match goal with Hx : timeout_at_rfc3339 _ _ = _ |- _ => apply timeout_at_db in Hx; rewrite Hx in Hdb |- * end.
  unfold insert_or_ignore in *. rewrite existsb_has_key in *. cbn [msg_id] in *.
  destruct (lookup_row msg_id id (messages (w_db w))) eqn:Hl; cbn in Hdb |- *.
  - right. rewrite Hdb. by destruct (w_db w).
  - left. split; [done|]. split; [done|]. eexists. split; [|exact Hdb]. by repeat split.
Qed.

Lemma enqueue_conn_spec target text mode md w id w' :
  enqueue_message_with_metadata_conn target text mode md w = (Ok id, w') ->
  lookup_row msg_id id (messages (w_db w)) = None /\
  exists r, row_of_metadata r id target text mode md /\
    w_db w' = (w_db w) <| messages := insert (messages (w_db w)) r |>.
Proof.
  unfold enqueue_message_with_metadata_conn. intros H. inv_ok H.
  match goal with Hx : generate_record_id _ _ = _ |- _ => apply generate_record_id_db in Hx as Hg end.
  match goal with Hx : enqueue_message_with_id_and_metadata_conn _ _ _ _ _ _ = _ |- _ =>
    apply enqueue_with_id_spec in Hx as [(-> & Hl & r & Hr & Hdb)|(-> & _)] end; cbn in H; inv_ok H.
  rewrite Hg in *. eauto.
Qed.

Lemma mark_delivered_conn_run id w :
  let p r := has_key msg_id id r && undelivered r in
  exists now, mark_delivered_conn id w =
    (Ok (Nat.ltb 0 (changes p (messages (w_db w)))),
     World ((w_db w) <| messages := update p (fun r => r <| msg_delivered_at := Some now |>)
                                      (messages (w_db w)) |>) (S (w_tick w))).
Proof. eexists. reflexivity. Qed.

(** The rows left by deactivating an owner's rows and then deleting those that have the new
    row's id or owner. *)
Lemma in_replaced {row} (key owner : row -> string) (f : row -> row) id o t r :
  (forall x, owner (f x) = owner x) ->
  In r (delete_rows (fun x => has_key key id x || has_key owner o x) (update (fun x => owner x =?s o) f t)) <->
  owner r <> o /\ In r t /\ key r <> id.
Proof.
  intros Hf. rewrite in_delete_rows, orb_false_iff. unfold has_key. rewrite !String.eqb_neq. split.
  - intros [Hin [Hk Ho]]. apply in_update in Hin as (r0 & Hin & ->).
    destruct (String.eqb_spec (owner r0) o); [by rewrite Hf in Ho|done].
  - intros (Ho & Hin & Hk). split; [|done]. apply in_update. exists r. split; [done|].
    by destruct (String.eqb_spec (owner r) o).
Qed.

(** The row of a target after a registration: fresh, active, the only one. *)
Lemma register_remind_conn_spec target soft hard cancel w id w' :
  register_remind_conn target soft hard cancel w = (Ok id, w') ->
  exists now rest,
    w_db w' = (w_db w) <| reminds := insert rest (RemindRow id target soft hard now now cancel 0 1 0 0) |> /\
    forall r, In r rest <-> rmd_target_session_id r <> target /\ In r (reminds (w_db w)) /\ rmd_id r <> id.
Proof.
  unfold register_remind_conn. intros H. inv_ok H.
  repeat match goal with Hx : execute _ _ = _ |- _ => apply execute_Ok_inv in Hx as (-> & ? & _) end.
  repeat match goal with Hx : u64_to_i64 _ = Ok _ |- _ => apply u64_to_i64_Ok in Hx as [-> _] end.
  match goal with Hx : now_rfc3339 _ = _ |- _ => apply now_rfc3339_db in Hx end.
  match goal with Hx : generate_record_id _ _ = _ |- _ => apply generate_record_id_db in Hx end.
  do 2 eexists. split.
  - repeat match goal with Hx : w_db _ = _ |- _ => rewrite Hx; clear Hx end. reflexivity.
  - intros r. repeat match goal with Hx : w_db _ = _ |- _ => rewrite Hx; clear Hx end. cbn.
    by rewrite (in_replaced rmd_id rmd_target_session_id).
Qed.

Lemma register_parent_wake_conn_spec child parent period w id w' :
  register_parent_wake_conn child parent period w = (Ok id, w') ->
  exists now rest,
    w_db w' = (w_db w) <| wakes := insert rest (WakeRow id child parent period now None None 0 1) |> /\
    forall r, In r rest <-> wake_child_session_id r <> child /\ In r (wakes (w_db w)) /\ wake_id r <> id.
Proof.
  unfold register_parent_wake_conn, cancel_parent_wake_conn. intros H. inv_ok H.
  repeat match goal with Hx : execute _ _ = _ |- _ => apply execute_Ok_inv in Hx as (-> & ? & _) end.
  match goal with Hx : now_rfc3339 _ = _ |- _ => apply now_rfc3339_db in Hx end.
  match goal with Hx : generate_record_id _ _ = _ |- _ => apply generate_record_id_db in Hx end.
  do 2 eexists. split.
  - repeat match goal with Hx : w_db _ = _ |- _ => rewrite Hx; clear Hx end. reflexivity.
  - intros r. repeat match goal with Hx : w_db _ = _ |- _ => rewrite Hx; clear Hx end. cbn.
    by rewrite (in_replaced wake_id wake_child_session_id).
Qed.

Lemma upsert_stop_notify_conn_spec session sender name delay w w' :
  upsert_stop_notify_conn session sender name delay w = (Ok tt, w') ->
  exists now t,
    w_db w' = (w_db w) <| stops := t |> /\
    lookup_row stop_session_id session t = Some (StopRow session sender (Some name) delay now) /\
    forall k, k <> session -> lookup_row stop_session_id k t = lookup_row stop_session_id k (stops (w_db w)).
Proof.
  unfold upsert_stop_notify_conn. intros H. inv_ok H.
  match goal with Hx : execute _ _ = _ |- _ => apply execute_Ok_inv in Hx as (-> & Hdb & _) end.
  match goal with Hx : now_rfc3339 _ = _ |- _ => apply now_rfc3339_db in Hx as Hn end.
  rewrite Hn in Hdb. do 2 eexists. split; [exact Hdb|].
  rewrite existsb_has_key. clear. set (row := StopRow _ _ _ _ _).
  destruct (lookup_row stop_session_id session (stops (w_db w))) as [old|] eqn:Hl; cbn.
  - assert (Hf : forall r, has_key stop_session_id session r = true -> stop_session_id row = stop_session_id r)
      by (intros r Hr; unfold has_key in Hr; by bool_simpl).
    split; [|intros k Hne]; rewrite (lookup_row_update stop_session_id) by done.
    + rewrite Hl. cbn. apply lookup_row_Some in Hl as [_ Hk]. unfold has_key. by rewrite Hk, String.eqb_refl.
    + destruct (lookup_row stop_session_id k _) as [r|] eqn:Hr; cbn; [|done].
      apply lookup_row_Some in Hr as [_ <-]. unfold has_key.
      by destruct (String.eqb_spec (stop_session_id r) session).
  - split; [by apply (lookup_row_insert_eq stop_session_id _ row)|].
    intros k Hne. by apply lookup_row_insert_ne.
Qed.
End Specs.

(** ** Delivery *)
Section Delivery.
Context `{T : TimeCrate} `{E : Env}.

Lemma delivery_effects_safe m :
  steps (on_db mq_safe) (mark_delivered_and_apply_side_effects m).
Proof.
  unfold mark_delivered_and_apply_side_effects, notify_sender, arm_stop_notify,
    register_delivered_remind, register_delivered_wake.
  apply with_connection_safe. db_steps.
Qed.

(** What each of the four side effects does to its table, asked for or not. *)
Definition notices_sent (m : PendingMessage) (before rows : list message_row) : Prop :=
  match pm_notify_on_delivery m, pm_sender_session_id m with
  | true, Some sender => exists n id, rows = [n] /\ lookup_row msg_id id before = None /\
      row_of_metadata n id sender (delivery_notification_text m) "sequential" default_metadata
  | _, _ => rows = []
  end.
Definition stop_armed (m : PendingMessage) (before after : list stop_row) : Prop :=
  match pm_notify_on_stop m, pm_sender_session_id m with
  | true, Some sender => exists now,
      lookup_row stop_session_id (pm_target_session_id m) after =
        Some (StopRow (pm_target_session_id m) sender (Some (unwrap_or "" (pm_sender_name m))) 0 now) /\
      forall k, k <> pm_target_session_id m -> lookup_row stop_session_id k after = lookup_row stop_session_id k before
  | _, _ => after = before
  end.
(** The target's rows are exactly the new one; the rows of the others are those there were,
    but for one that already had the new row's id. *)
Definition remind_registered (m : PendingMessage) (before after : list remind_row) : Prop :=
  match pm_remind_soft_threshold m with
  | Some soft => exists id now,
      (forall r, (In r after /\ rmd_target_session_id r = pm_target_session_id m) <->
         r = RemindRow id (pm_target_session_id m) soft
               (unwrap_or (u64_saturating_add soft 120) (pm_remind_hard_threshold m)) now now
               (pm_remind_cancel_on_reply_session_id m) 0 1 0 0) /\
      (forall r, rmd_target_session_id r <> pm_target_session_id m -> (In r after <-> In r before /\ rmd_id r <> id))
  | None => after = before
  end.
Definition wake_registered (m : PendingMessage) (before after : list wake_row) : Prop :=
  match pm_remind_soft_threshold m, pm_parent_session_id m with
  | Some _, Some parent => exists id now,
      (forall r, (In r after /\ wake_child_session_id r = pm_target_session_id m) <->
         r = WakeRow id (pm_target_session_id m) parent 600 now None None 0 1) /\
      (forall r, wake_child_session_id r <> pm_target_session_id m -> (In r after <-> In r before /\ wake_id r <> id))
  | _, _ => after = before
  end.

Lemma notify_sender_spec m w w' :
  notify_sender m w = (Ok tt, w') ->
  exists rows, w_db w' = (w_db w) <| messages := (messages (w_db w) ++ rows)%list |> /\
    notices_sent m (messages (w_db w)) rows.
Proof.
  unfold notify_sender, notices_sent. intros H.
  destruct (pm_notify_on_delivery m); [destruct (pm_sender_session_id m) as [sender|]|]; inv_ok H.
  2,3: exists []; rewrite app_nil_r; split; [by destruct (w_db w')|done].
  match goal with Hx : enqueue_message_with_metadata_conn _ _ _ _ _ = _ |- _ =>
    apply enqueue_conn_spec in Hx as (Hl & r & Hr & Hdb) end.
  exists [r]. split; [exact Hdb|]. by eexists _, _.
Qed.

Lemma arm_stop_notify_spec m w w' :
  arm_stop_notify m w = (Ok tt, w') ->
  exists t, w_db w' = (w_db w) <| stops := t |> /\ stop_armed m (stops (w_db w)) t.
Proof.
  unfold arm_stop_notify, stop_armed. intros H.
  destruct (pm_notify_on_stop m); [destruct (pm_sender_session_id m) as [sender|]|]; inv_ok H.
  2,3: exists (stops (w_db w')); split; [by destruct (w_db w')|done].
  apply upsert_stop_notify_conn_spec in H as (now & t & Hdb & Hl & Ho). exists t. split; [done|]. by exists now.
Qed.

Lemma register_delivered_remind_spec m w w' :
  register_delivered_remind m w = (Ok tt, w') ->
  exists t, w_db w' = (w_db w) <| reminds := t |> /\ remind_registered m (reminds (w_db w)) t.
Proof.
  unfold register_delivered_remind, remind_registered. intros H.
  destruct (pm_remind_soft_threshold m) as [soft|]; inv_ok H.
  2: exists (reminds (w_db w')); split; [by destruct (w_db w')|done].
  match goal with Hx : register_remind_conn _ _ _ _ _ = _ |- _ =>
    apply register_remind_conn_spec in Hx as (now & rest & Hdb & Hrest) end.
  eexists. split; [exact Hdb|]. eexists _, now. split; intros r; unfold insert; rewrite in_app_iff.
  - split; [intros [[Hin|[<-|[]]] Ht]; [by apply Hrest in Hin as [? _]|done]|].
    intros ->. split; [right; by left|done].
  - intros Hne. rewrite Hrest. cbn. split; [intros [?|[<-|[]]]; [tauto|done]|tauto].
Qed.

Lemma register_delivered_wake_spec m w w' :
  register_delivered_wake m w = (Ok tt, w') ->
  exists t, w_db w' = (w_db w) <| wakes := t |> /\ wake_registered m (wakes (w_db w)) t.
Proof.
  unfold register_delivered_wake, wake_registered. intros H.
  destruct (pm_remind_soft_threshold m); cbn [is_some] in H; [destruct (pm_parent_session_id m) as [parent|]|]; inv_ok H.
  2,3: exists (wakes (w_db w')); split; [by destruct (w_db w')|done].
  match goal with Hx : register_parent_wake_conn _ _ _ _ = _ |- _ =>
    apply register_parent_wake_conn_spec in Hx as (now & rest & Hdb & Hrest) end.
  eexists. split; [exact Hdb|]. eexists _, now. split; intros r; unfold insert; rewrite in_app_iff.
  - split; [intros [[Hin|[<-|[]]] Ht]; [by apply Hrest in Hin as [? _]|done]|].
    intros ->. split; [right; by left|done].
  - intros Hne. rewrite Hrest. cbn. split; [intros [?|[<-|[]]]; [tauto|done]|tauto].
Qed.
End Delivery.
