(* ===== verification/MessageQueueProps.v ===== *)
(** * Properties of the message queue

    At-most-once delivery and its side effects, once-only enqueueing, the contents
    and order of the pending list, and the round trip from metadata to the pending
    message. *)
From Stdlib Require Import ZArith Lia Bool String List Sorted Permutation.
From stdpp Require Import base tactics list strings.
From S2P Require Import Prelude Text Table Clock Demo Schema MessageQueue.

Section Delivery.
Context `{T : TimeCrate} `{E : Env}.

Definition none_pending (id : string) (d : mqdb) : Prop :=
  forall r, In r (messages d) -> msg_id r = id -> is_some (msg_delivered_at r) = true.

Lemma none_pending_changes id d :
  none_pending id d -> changes (fun r => has_key msg_id id r && undelivered r) (messages d) = O.
Proof.
  intros H. apply changes_zero. intros r Hin. unfold has_key, undelivered, is_none.
  destruct (String.eqb_spec (msg_id r) id) as [Hk|]; [|done]. by rewrite (H r Hin Hk).
Qed.

Lemma set_messages_id d : d <| messages := messages d |> = d.
Proof. by destruct d. Qed.

Lemma redelivery_noop m w :
  none_pending (pm_id m) (w_db w) ->
  exists k, mark_delivered_and_apply_side_effects m w = (Ok tt, World (init_schema (w_db w)) k).
Proof.
  intros H%none_pending_changes. unfold mark_delivered_and_apply_side_effects, with_connection, transaction, bind.
  destruct (mark_delivered_conn_run (pm_id m) (World (init_schema (w_db w)) (w_tick w))) as [now ->].
  cbn [w_db w_tick]. change (messages (init_schema (w_db w))) with (messages (w_db w)).
  rewrite H, update_none by done. cbn. eexists. reflexivity.
Qed.

(** The tables after a first delivery, table by table: four change, as the message asks. *)
Lemma delivery_tables m w w' :
  mark_delivered_and_apply_side_effects m w = (Ok tt, w') ->
  changes (fun r => has_key msg_id (pm_id m) r && undelivered r) (messages (w_db w)) <> O ->
  exists now rows st rd wk,
    let stamped := update (fun r => has_key msg_id (pm_id m) r && undelivered r)
      (fun r => r <| msg_delivered_at := Some now |>) (messages (w_db w)) in
    w_db w' = init_schema (w_db w) <| messages := (stamped ++ rows)%list |>
                <| stops := st |> <| reminds := rd |> <| wakes := wk |> /\
    notices_sent m stamped rows /\ stop_armed m (stops (w_db w)) st /\
    remind_registered m (reminds (w_db w)) rd /\ wake_registered m (wakes (w_db w)) wk.
Proof.
  unfold mark_delivered_and_apply_side_effects, with_connection. intros H Hch.
  apply transaction_Ok_inv in H. apply bind_Ok_inv in H as (b & w1 & Hm & H).
  destruct (mark_delivered_conn_run (pm_id m) (World (init_schema (w_db w)) (w_tick w))) as [now Hrun].
  rewrite Hrun in Hm. injection Hm as <- <-. cbn [w_db w_tick] in H.
  change (messages (init_schema (w_db w))) with (messages (w_db w)) in H.
  destruct (Nat.ltb_spec 0 (changes (fun r => has_key msg_id (pm_id m) r && undelivered r) (messages (w_db w))));
    [|lia]. cbn [negb] in H.
  apply bind_Ok_inv in H as ([] & w2 & H1 & H). apply bind_Ok_inv in H as ([] & w3 & H2 & H).
  apply bind_Ok_inv in H as ([] & w4 & H3 & H).
  apply notify_sender_spec in H1 as (rows & Hr & N1). apply arm_stop_notify_spec in H2 as (st & Hs & N2).
  apply register_delivered_remind_spec in H3 as (rd & Hd & N3). apply register_delivered_wake_spec in H as (wk & Hw & N4).
  exists now, rows, st, rd, wk. cbv zeta. rewrite Hr in Hs, N2. rewrite Hs in Hd, N3. rewrite Hd in Hw, N4. by split_and!.
Qed.

Lemma delivery_messages m w w' :
  mark_delivered_and_apply_side_effects m w = (Ok tt, w') ->
  none_pending (pm_id m) (w_db w') /\ reminders (w_db w') = reminders (init_schema (w_db w)).
Proof.
  intros H. destruct (decide (changes (fun r => has_key msg_id (pm_id m) r && undelivered r)
    (messages (w_db w)) = O)) as [H0|Hch].
  - assert (none_pending (pm_id m) (w_db w)) as Hn.
    { rewrite changes_zero in H0. intros r Hin Hk. specialize (H0 r Hin).
      unfold has_key, undelivered, is_none in H0. rewrite Hk, String.eqb_refl in H0. cbn in H0. by bool_simpl. }
    destruct (redelivery_noop m w Hn) as [k Hk]. rewrite Hk in H. injection H as <-. done.
  - destruct (delivery_tables m w w' H Hch) as
      (now & rows & st & rd & wk & Hdb & Hrows & _).
    rewrite Hdb. cbn. split; [|done].
    intros r [Hin|Hin]%in_app_iff Hk.
    + apply in_update in Hin as (r0 & Hin & ->).
      destruct (has_key msg_id (pm_id m) r0 && undelivered r0) eqn:Hp; [done|].
      unfold has_key in Hp. rewrite Hk, String.eqb_refl in Hp. cbn in Hp. unfold undelivered, is_none in Hp. by bool_simpl.
    + exfalso. unfold notices_sent in Hrows.
      destruct (pm_notify_on_delivery m); [destruct (pm_sender_session_id m)|]; [|by subst rows..].
      destruct Hrows as (n & id & -> & Hl & Hn & _). destruct Hin as [<-|[]]. rewrite lookup_row_None in Hl.
      apply changes_exists in Hch as (r1 & Hin1 & Hp1).
      apply (Hl (r1 <| msg_delivered_at := Some now |>)).
      * apply in_update. exists r1. by rewrite Hp1.
      * apply andb_true_iff in Hp1 as [Hp1 _]. unfold has_key in Hp1. bool_simpl. cbn. congruence.
Qed.
End Delivery.

(** C6: Delivery happens at most once.  After a delivery with its side effects has
    returned, running it again for the same message returns and changes no table:
    no second delivery notice, reminder, wake or stop notification. *)
Theorem delivery_at_most_once {T : TimeCrate} {E : Env} m w w1 :
  mark_delivered_and_apply_side_effects m w = (Ok tt, w1) ->
  exists k, mark_delivered_and_apply_side_effects m w1 = (Ok tt, World (w_db w1) k).
Proof.
  intros Hrun. destruct (delivery_messages m w w1 Hrun) as [Hn Hr].
  destruct (redelivery_noop m w1 Hn) as [k ->]. exists k. do 2 f_equal.
  by apply (init_schema_migrated _ (w_db w)).
Qed.

(** A concrete delivery: a message that asks for every side effect. *)
Definition demo_metadata : QueueMessageMetadata := {|
  md_sender_session_id := Some "boss"; md_sender_name := Some "Boss"; md_from_sm_send := true;
  md_timeout_seconds := Some 60; md_notify_on_delivery := true; md_notify_after_seconds := Some 5;
  md_notify_on_stop := true; md_remind_soft_threshold := Some 30; md_remind_hard_threshold := None;
  md_remind_cancel_on_reply_session_id := None; md_parent_session_id := Some "parent";
  md_message_category := None; md_response_relay_source := None |}%string.
Definition demo_queued : world mqdb :=
  snd (enqueue_message_with_metadata "worker" "do it" "sequential" demo_metadata (World empty_mqdb 0)).
Definition demo_pending : PendingMessage :=
  match fst (pending_messages_for_target "worker" 1 demo_queued) with
  | Ok (m :: _) => m
  | _ => Pending "" "" "" "" false None None false false None false None None None None None None
  end.
Definition demo_delivered : world mqdb :=
  snd (mark_delivered_and_apply_side_effects demo_pending demo_queued).

Lemma delivery_at_most_once_witness :
  exists k, mark_delivered_and_apply_side_effects demo_pending demo_delivered
            = (Ok tt, World (w_db demo_delivered) k).
Proof.
  apply (delivery_at_most_once demo_pending demo_queued demo_delivered).
  vm_compute. reflexivity.
Defined.

(** C13: A first delivery does exactly what its message asks for.  The pending row is stamped
    and no other message row changes; one notice for the sender is added when the message
    asks for one and has a sender, and no message otherwise; the target's stop notification
    is armed for the sender when asked, the others and an unasked one stay; with a reminder
    threshold the target's only status reminder is the new active one (hard threshold
    defaulting to soft + 120), and with a parent too its only wake is the new one (period
    600); without them both tables stay; the rows of other sessions stay, but for one whose
    id the new row was given; and the remaining tables are as the opening of the database
    left them. *)
Theorem delivery_side_effects {T : TimeCrate} {E : Env} m w w' r :
  In r (messages (w_db w)) -> msg_id r = pm_id m -> msg_delivered_at r = None ->
  mark_delivered_and_apply_side_effects m w = (Ok tt, w') ->
  exists now notices,
    messages (w_db w') = (update (fun r => has_key msg_id (pm_id m) r && undelivered r)
      (fun r => r <| msg_delivered_at := Some now |>) (messages (w_db w)) ++ notices)%list /\
    notices_sent m (messages (w_db w)) notices /\
    stop_armed m (stops (w_db w)) (stops (w_db w')) /\
    remind_registered m (reminds (w_db w)) (reminds (w_db w')) /\
    wake_registered m (wakes (w_db w)) (wakes (w_db w')) /\
    reminders (w_db w') = reminders (init_schema (w_db w)) /\ reviews (w_db w') = reviews (w_db w).
Proof.
  intros Hin Hid Hun Hrun.
  assert (Hp : has_key msg_id (pm_id m) r && undelivered r = true)
    by (unfold has_key, undelivered; by rewrite Hid, String.eqb_refl, Hun).
  destruct (delivery_tables m w w' Hrun) as (now & rows & st & rd & wk & Hdb & Hrows & Hst & Hrd & Hwk).
  { pose proof (changes_pos (fun r => has_key msg_id (pm_id m) r && undelivered r) _ r Hin Hp). lia. }
  exists now, rows. rewrite Hdb. cbn. split_and!; try done.
  unfold notices_sent in *. destruct (pm_notify_on_delivery m); [destruct (pm_sender_session_id m)|]; [|done..].
  destruct Hrows as (n & id & -> & Hl & Hn). exists n, id. split_and!; try done.
  rewrite lookup_row_update in Hl by done. by destruct (lookup_row _ _ (messages (w_db w))).
Qed.

Definition demo_row : message_row := nth 0 (messages (w_db demo_queued))
  (MessageRow "" "" None None "" "" None "" None None None None None None None None None None None).
Lemma delivery_side_effects_witness :
  (pm_notify_on_delivery demo_pending, pm_notify_on_stop demo_pending, pm_sender_session_id demo_pending)
    = (true, true, Some "boss"%string) /\
  exists now notices,
    messages (w_db demo_delivered) = (update (fun r => has_key msg_id (pm_id demo_pending) r && undelivered r)
      (fun r => r <| msg_delivered_at := Some now |>) (messages (w_db demo_queued)) ++ notices)%list /\
    notices_sent demo_pending (messages (w_db demo_queued)) notices /\
    stop_armed demo_pending (stops (w_db demo_queued)) (stops (w_db demo_delivered)) /\
    remind_registered demo_pending (reminds (w_db demo_queued)) (reminds (w_db demo_delivered)) /\
    wake_registered demo_pending (wakes (w_db demo_queued)) (wakes (w_db demo_delivered)).
Proof.
  split; [vm_compute; reflexivity|].
  destruct (delivery_side_effects demo_pending demo_queued demo_delivered demo_row)
    as (now & notices & Hm & Hn & Hs & Hr & Hw & _); [vm_compute; auto..|].
  exists now, notices. exact (conj Hm (conj Hn (conj Hs (conj Hr Hw)))).
Defined.

(** A delivery is all or nothing: when it does not return normally, every table
    is as it was when the connection was opened. *)
Theorem delivery_atomic {T : TimeCrate} {E : Env} m w :
  match mark_delivered_and_apply_side_effects m w with
  | (Ok _, _) => True
  | (_, w') => w_db w' = init_schema (w_db w)
  end.
Proof.
  unfold mark_delivered_and_apply_side_effects, with_connection.
  match goal with |- context [transaction ?b ?w0] =>
    pose proof (transaction_atomic b w0) as Ha; destruct (transaction b w0) as [[a|e|] w'] end;
    [done|by apply Ha..].
Qed.

(** ** Once-only enqueueing *)
(** The seconds fit the [INTEGER] columns. *)
Definition fits (o : option Z) : bool := match o with Some v => v <=? I64_MAX | None => true end.
Definition columns_fit (md : QueueMessageMetadata) : bool :=
  fits (md_notify_after_seconds md) && fits (md_remind_soft_threshold md) && fits (md_remind_hard_threshold md).
(** The deadline of the timeout, when there is one, can be computed and written at [now]. *)
Definition deadline_forms {T : TimeCrate} (now : Z) (md : QueueMessageMetadata) : bool :=
  match md_timeout_seconds md with
  | Some s => negb (0 <? s) || (s <=? I64_MAX) && is_some (bind_opt (instant_checked_add now (seconds s)) format_rfc3339)
  | None => true
  end.

Section Once.
Context {T : TimeCrate} {E : Env}.

Lemma map_u64_to_i64_fits o : fits o = true -> map_u64_to_i64 o = Ok o.
Proof. destruct o as [v|]; cbn; [|done]. unfold u64_to_i64. by intros ->. Qed.
Lemma map_u64_to_i64_Ok_fits o o' : map_u64_to_i64 o = Ok o' -> fits o = true.
Proof. destruct o as [v|]; cbn; [|done]. unfold u64_to_i64. by destruct (v <=? I64_MAX). Qed.
Lemma enqueue_Ok_fits id target text mode md w b w' :
  enqueue_message_with_id_and_metadata_conn id target text mode md w = (Ok b, w') -> columns_fit md = true.
Proof.
  unfold enqueue_message_with_id_and_metadata_conn. intros H. inv_ok H. unfold columns_fit.
  repeat match goal with Hx : map_u64_to_i64 _ = Ok _ |- _ => apply map_u64_to_i64_Ok_fits in Hx; rewrite Hx end. done.
Qed.
Lemma timeout_forms {D} md (w : world D) : deadline_forms (env_now (w_tick w)) md = true ->
  exists t, fst (timeout_at_rfc3339 (md_timeout_seconds md) w) = Ok t.
Proof.
  unfold deadline_forms, timeout_at_rfc3339. destruct (md_timeout_seconds md) as [s|]; [|by eexists].
  destruct (0 <? s); [|by eexists]. cbn [negb orb]. intros [H1 H2]%andb_true_iff.
  unfold bind, now_utc, lift, u64_to_i64. cbn. rewrite H1.
  destruct (instant_checked_add _ _) as [t|]; [|done]. cbn in H2 |- *. destruct (format_rfc3339 t); [by eexists|done].
Qed.

(** Enqueueing under a taken id changes no table, and says so when the values can be stored. *)
Lemma enqueue_with_id_taken id target text mode md w r :
  In r (messages (w_db w)) -> msg_id r = id ->
  exists o k, enqueue_message_with_id_and_metadata_conn id target text mode md w = (o, World (w_db w) k) /\
    o <> Ok true /\ (columns_fit md = true -> deadline_forms (env_now (w_tick w)) md = true -> o = Ok false).
Proof.
  intros Hin Hid. unfold enqueue_message_with_id_and_metadata_conn.
  pose proof (timeout_at_frame (D := mqdb) (md_timeout_seconds md) w) as Hf.
  pose proof (timeout_forms (D := mqdb) md w) as Ht. unfold bind at 1.
  destruct (timeout_at_rfc3339 (md_timeout_seconds md) w) as [[t|e|] [d k]]; cbn in Hf, Ht; unfold db_eq, on_db in Hf; cbn in Hf; subst d.
  2,3: eexists _, k; split; [reflexivity|]; split; [done|]; intros _ H; by destruct (Ht H).
  unfold bind at 1. cbn [now_rfc3339]. destruct (now_rfc3339_run (World (w_db w) k)) as [q ->]. cbn [w_db w_tick].
  unfold columns_fit, lift.
  destruct (fits (md_notify_after_seconds md)) eqn:F1; [rewrite (map_u64_to_i64_fits _ F1)|].
  2: { destruct (map_u64_to_i64 (md_notify_after_seconds md)) eqn:Em; [by rewrite (map_u64_to_i64_Ok_fits _ _ Em) in F1| |];
       eexists _, _; by split_and!. }
  destruct (fits (md_remind_soft_threshold md)) eqn:F2; [rewrite (map_u64_to_i64_fits _ F2)|].
  2: { unfold bind. destruct (map_u64_to_i64 (md_remind_soft_threshold md)) eqn:Em; [by rewrite (map_u64_to_i64_Ok_fits _ _ Em) in F2| |];
       eexists _, _; by split_and!. }
  destruct (fits (md_remind_hard_threshold md)) eqn:F3; [rewrite (map_u64_to_i64_fits _ F3)|].
  2: { unfold bind. destruct (map_u64_to_i64 (md_remind_hard_threshold md)) eqn:Em; [by rewrite (map_u64_to_i64_Ok_fits _ _ Em) in F3| |];
       eexists _, _; by split_and!. }
  unfold bind. cbn. unfold insert_or_ignore. rewrite existsb_has_key. cbn [msg_id].
  destruct (lookup_row msg_id id (messages (w_db w))) eqn:Hl; [|rewrite lookup_row_None in Hl; by destruct (Hl r Hin)].
  cbn. rewrite set_messages_id. eexists _, _. by split_and!.
Qed.

(** With the same content already there. *)
Lemma enqueue_once_present id target text mode md w :
  (0 < changes (same_content id target text mode (md_message_category md)) (messages (w_db w)))%nat ->
  exists o k, enqueue_message_once_with_metadata id target text mode md w = (o, World (init_schema (w_db w)) k) /\
    (columns_fit md = true -> deadline_forms (env_now (w_tick w)) md = true -> o = Ok tt).
Proof.
  intros Hc. unfold enqueue_message_once_with_metadata, with_connection.
  set (w0 := World (init_schema (w_db w)) (w_tick w)).
  destruct (changes_exists _ _ (Nat.neq_sym _ _ (Nat.lt_neq _ _ Hc))) as (r & Hin & Hr).
  unfold same_content in Hr. bool_simpl.
  destruct (enqueue_with_id_taken id target text mode md w0 r) as (o & k & Hw & Ho & Hok); [done|done|].
  unfold bind. rewrite Hw. destruct o as [[]|e|]; [done| |..].
  2,3: eexists _, k; split; [reflexivity|]; intros Hfit Hdl; by specialize (Hok Hfit Hdl).
  cbn. change (messages (init_schema (w_db w))) with (messages (w_db w)).
  destruct (changes (same_content id target text mode (md_message_category md)) (messages (w_db w))); [lia|]. by eexists _, _.
Qed.
End Once.

(** C32: Enqueueing under a caller-chosen id is exactly-once.  After a successful
    call the table holds one row under the id, and it carries the given target,
    text, mode and category; and in any later database that still holds that
    content, however often it was delivered or the call is retried, the call
    changes no table, and it returns normally unless the message has a timeout whose
    deadline, counted from that moment, cannot be written. *)
Theorem enqueue_once_exactly_once {T : TimeCrate} {E : Env} id target text mode md w w1 :
  mq_wf (w_db w) ->
  enqueue_message_once_with_metadata id target text mode md w = (Ok tt, w1) ->
  changes (has_key msg_id id) (messages (w_db w1)) = 1%nat /\
  changes (same_content id target text mode (md_message_category md)) (messages (w_db w1)) = 1%nat /\
  forall w2,
    (0 < changes (same_content id target text mode (md_message_category md)) (messages (w_db w2)))%nat ->
    exists o k, enqueue_message_once_with_metadata id target text mode md w2
                = (o, World (init_schema (w_db w2)) k) /\
      (deadline_forms (env_now (w_tick w2)) md = true -> o = Ok tt).
Proof.
  intros Hwf Hrun.
  assert (Hfit : columns_fit md = true).
  { unfold enqueue_message_once_with_metadata, with_connection in Hrun.
    apply bind_Ok_inv in Hrun as (b & w' & He & _). by apply enqueue_Ok_fits in He. }
  assert (Hu : unique msg_id (messages (w_db w1))).
  { pose proof (enqueue_once_safe id target text mode md w) as [Hk _]. rewrite Hrun in Hk.
    by apply Hk in Hwf as []. }
  assert (Hc : (0 < changes (same_content id target text mode (md_message_category md)) (messages (w_db w1)))%nat).
  { unfold enqueue_message_once_with_metadata, with_connection in Hrun.
    apply bind_Ok_inv in Hrun as (b & w' & He & Hrun). apply enqueue_with_id_spec in He as
      [(-> & _ & r & Hr & Hdb)|(-> & _ & Hdb)]; cbn in Hrun.
    - injection Hrun as <-. rewrite Hdb. cbn. apply changes_pos with r; [apply in_or_app; right; by left|].
      unfold same_content. destruct Hr as (-> & -> & -> & -> & _ & _ & _ & _ & _ & _ & _ & _ & _ & _ & _ & -> & _).
      rewrite !String.eqb_refl. cbn. by apply opt_str_eqb_eq.
    - destruct (changes _ (messages (w_db w'))) eqn:Hch; [done|].
      injection Hrun as <-. rewrite Hch. lia. }
  pose proof (changes_key_le1 msg_id id (fun _ => true) _ Hu) as H1.
  pose proof (changes_key_le1 msg_id id (same_content id target text mode (md_message_category md)) _ Hu) as H2.
  assert (forall r, same_content id target text mode (md_message_category md) r = true -> has_key msg_id id r = true) as Himp
    by (intros r Hr; unfold same_content in Hr; unfold has_key; bool_simpl; subst; apply String.eqb_refl).
  assert (changes (fun r => has_key msg_id id r && same_content id target text mode (md_message_category md) r) (messages (w_db w1))
          = changes (same_content id target text mode (md_message_category md)) (messages (w_db w1))) as Heq.
  { apply changes_ext. intros r. destruct (same_content _ _ _ _ _ r) eqn:Hr; [by rewrite Himp|by rewrite andb_false_r]. }
  assert (changes (fun r => has_key msg_id id r && true) (messages (w_db w1)) = changes (has_key msg_id id) (messages (w_db w1))) as Heq'
    by (apply changes_ext; intros r; apply andb_true_r).
  pose proof (changes_mono _ _ (messages (w_db w1)) Himp).
  split; [lia|]. split; [lia|]. intros w2 Hw2.
  destruct (enqueue_once_present _ _ _ _ _ _ Hw2) as (o & k & -> & Ho). exists o, k. auto.
Qed.

(** With a timeout of a minute. *)
Definition demo_once : M (world mqdb) unit :=
  enqueue_message_once_with_metadata "queue-completion-job_1" "boss" "done" "sequential" demo_metadata.
Lemma enqueue_once_exactly_once_witness :
  changes (has_key msg_id "queue-completion-job_1") (messages (w_db (snd (demo_once demo_queued)))) = 1%nat /\
  exists k, demo_once (snd (demo_once demo_queued))
            = (Ok tt, World (init_schema (w_db (snd (demo_once demo_queued)))) k).
Proof.
  destruct (enqueue_once_exactly_once "queue-completion-job_1" "boss" "done" "sequential"
           demo_metadata demo_queued (snd (demo_once demo_queued))) as (H1 & H2 & H3).
  - apply (enqueue_conn_safe "worker" "do it" "sequential" demo_metadata (World (init_schema empty_mqdb) 0)).
    apply init_schema_wf, empty_mqdb_wf.
  - vm_compute. reflexivity.
  - split; [exact H1|]. destruct (H3 (snd (demo_once demo_queued))) as (o & k & Hrun & Ho).
    + rewrite H2. auto.
    + rewrite Ho in Hrun by (vm_compute; reflexivity). exists k. exact Hrun.
Defined.

(** A taken id with other content is refused with an error and nothing is
    changed. *)
Theorem enqueue_once_conflict {T : TimeCrate} {E : Env} id target text mode md w r :
  columns_fit md = true -> deadline_forms (env_now (w_tick w)) md = true ->
  In r (messages (w_db w)) -> msg_id r = id ->
  changes (same_content id target text mode (md_message_category md)) (messages (w_db w)) = O ->
  exists k, enqueue_message_once_with_metadata id target text mode md w =
    (Err ("queue message id " +:+ id +:+ " already exists with different content"),
     World (init_schema (w_db w)) k).
Proof.
  intros Hs Hd Hin Hid Hc. unfold enqueue_message_once_with_metadata, with_connection.
  set (w0 := World (init_schema (w_db w)) (w_tick w)).
  destruct (enqueue_with_id_taken id target text mode md w0 r) as (o & k & Hw & _ & Hok); [done|done|].
  unfold bind. rewrite Hw, Hok by done. cbn. change (messages (init_schema (w_db w))) with (messages (w_db w)).
  rewrite Hc. cbn. by eexists.
Qed.

Lemma enqueue_once_conflict_witness :
  exists k, enqueue_message_once_with_metadata (msg_id demo_row) "worker" "other" "sequential"
    default_metadata demo_queued =
    (Err ("queue message id " +:+ msg_id demo_row +:+ " already exists with different content"),
     World (init_schema (w_db demo_queued)) k).
Proof.
  apply (enqueue_once_conflict (msg_id demo_row) "worker" "other" "sequential" default_metadata
           demo_queued demo_row); vm_compute; auto.
Defined.

(** ** The pending list *)
Section Pending.
Context {T : TimeCrate} {E : Env}.

(** The timeout test of one row at an instant. *)
Definition row_expired (now : Z) (r : message_row) : bool :=
  match msg_timeout_at r with
  | Some timeout_at => timeout_is_expired timeout_at now (local_now_naive now)
  | None => false
  end.
Definition expires (target : string) (now : Z) (r : message_row) : bool :=
  (msg_target_session_id r =?s target) && undelivered r && row_expired now r.

Lemma messages_congr (d : mqdb) a b k : a = b ->
  (Ok tt, World (d <| messages := a |>) k) = (Ok tt, World (d <| messages := b |>) k).
Proof. by intros ->. Qed.
Lemma set_messages_twice d a b : d <| messages := a |> <| messages := b |> = d <| messages := b |>.
Proof. done. Qed.

Lemma expire_loop now rows d k :
  for_each rows (fun row =>
    match msg_timeout_at row with
    | Some timeout_at =>
        if timeout_is_expired timeout_at now (local_now_naive now) then
          execute (fun d =>
            let p r := has_key msg_id (msg_id row) r && undelivered r in
            (d <| messages := delete_rows p (messages d) |>, changes p (messages d))) ;;;
          ret tt
        else ret tt
    | None => ret tt
    end) (World d k) =
  (Ok tt, World (d <| messages :=
     delete_rows (fun r => existsb (fun row => row_expired now row && has_key msg_id (msg_id row) r) rows
                           && undelivered r) (messages d) |>) k).
Proof.
  revert d. induction rows as [|row rows IH]; intros d; cbn [for_each existsb].
  - unfold ret. rewrite delete_rows_none; [by destruct d|]. by apply changes_zero.
  - unfold bind at 1, row_expired at 1. destruct (msg_timeout_at row) as [t|] eqn:Ht; cbn [andb orb].
    + destruct (timeout_is_expired t now (local_now_naive now)); cbn [andb orb]; [|apply IH].
      cbn -[for_each]. rewrite IH, set_messages_twice. apply messages_congr. cbn. rewrite delete_rows_twice.
      apply delete_rows_ext. intros r _. cbn.
      by destruct (has_key msg_id (msg_id row) r), (undelivered r); cbn; rewrite ?andb_false_r, ?andb_true_r.
    + apply IH.
Qed.

Lemma expire_run target w :
  unique msg_id (messages (w_db w)) ->
  exists k, expire_pending_messages_for_target target w =
    (Ok tt, World ((w_db w) <| messages :=
       delete_rows (expires target (env_now (w_tick w))) (messages (w_db w)) |>) k).
Proof.
  intros Hu. unfold expire_pending_messages_for_target, bind at 1 2. cbn -[for_each].
  rewrite expire_loop. eexists. apply messages_congr, delete_rows_ext. intros r Hin.
  set (now := env_now (w_tick w)). unfold expires. destruct (undelivered r) eqn:Hr; [|by rewrite !andb_false_r].
  rewrite !andb_true_r. apply eq_true_iff_eq. rewrite existsb_exists, andb_true_iff. split.
  - intros (row & [Hrow Hp]%in_select & He). bool_simpl. unfold has_key in *. bool_simpl.
    rewrite (unique_inj msg_id _ r row Hu Hin Hrow) by done.
    split; [by apply String.eqb_eq|done].
  - intros [Ht He]. exists r. rewrite He, has_key_refl. split; [|done]. apply in_select. split; [done|].
    rewrite Ht, Hr. unfold row_expired in He. by destruct (msg_timeout_at r).
Qed.
End Pending.

(** Listing the pending messages of a session always returns.  It first deletes
    exactly that session's undelivered messages whose timeout has passed, and then
    returns the first [max(limit, 1)] (all, when that is past the signed range) of the remaining undelivered ones in
    (queued_at, id) order, decoded row by row. *)
Theorem pending_messages_listing {T : TimeCrate} {E : Env} target limit w :
  mq_wf (w_db w) ->
  exists rows w',
    pending_messages_for_target target limit w =
      (Ok (map pending_message_from_row (limited (sql_limit limit) rows)), w') /\
    messages (w_db w') = delete_rows (expires target (env_now (w_tick w))) (messages (w_db w)) /\
    Sorted (fun a b => message_order a b = true) rows /\
    (forall r, In r rows <->
       In r (messages (w_db w)) /\ msg_target_session_id r = target /\ msg_delivered_at r = None /\
       row_expired (env_now (w_tick w)) r = false).
Proof.
  intros Hwf. unfold pending_messages_for_target, with_connection.
  destruct (expire_run target (World (init_schema (w_db w)) (w_tick w))) as [k Hk].
  { apply (wf_messages _ Hwf). }
  unfold bind. rewrite Hk. cbn [w_db w_tick] in *. unfold query, gets, pending_query. cbn [w_db].
  do 2 eexists. split; [reflexivity|]. split; [done|]. split.
  - apply order_by_sorted. intros a b. apply text2_leb_total.
  - intros r. rewrite in_order_by, in_select. cbn. rewrite in_delete_rows.
    unfold expires, undelivered, is_none. destruct (String.eqb_spec (msg_target_session_id r) target) as [->|];
      destruct (msg_delivered_at r); cbn; intuition congruence.
Qed.

Lemma pending_messages_listing_witness :
  exists rows w',
    pending_messages_for_target "worker" 5 demo_queued =
      (Ok (map pending_message_from_row (limited 5 rows)), w') /\
    messages (w_db w') = delete_rows (expires "worker" (env_now (w_tick demo_queued))) (messages (w_db demo_queued)) /\
    Sorted (fun a b => message_order a b = true) rows /\
    (forall r, In r rows <->
       In r (messages (w_db demo_queued)) /\ msg_target_session_id r = "worker"%string /\ msg_delivered_at r = None /\
       row_expired (env_now (w_tick demo_queued)) r = false).
Proof.
  apply (pending_messages_listing "worker" 5 demo_queued).
  apply (enqueue_conn_safe "worker" "do it" "sequential" demo_metadata (World (init_schema empty_mqdb) 0)).
  apply init_schema_wf, empty_mqdb_wf.
Defined.

(** ** From metadata to the pending message *)
(** Where SQLite's [trim] and Rust's agree on whether a text is blank. *)
Definition blank_agrees (o : option string) : bool :=
  match o with Some s => Bool.eqb (sqlite_trim s =?s "") (is_blank s) | None => true end.
Definition nonneg (o : option Z) : bool := match o with Some z => 0 <=? z | None => true end.
(** The [u64] fields of the metadata hold [u64] values, and its two session ids are
    blank for both readers or for neither. *)
Definition md_typed (md : QueueMessageMetadata) : bool :=
  nonneg (md_notify_after_seconds md) && nonneg (md_remind_soft_threshold md)
  && nonneg (md_remind_hard_threshold md)
  && blank_agrees (md_remind_cancel_on_reply_session_id md)
  && blank_agrees (md_parent_session_id md).
Definition metadata_as_pending (id target text mode : string) (md : QueueMessageMetadata)
    : PendingMessage :=
  Pending id target text mode (has_delivery_side_effects md)
    (md_sender_session_id md) (md_sender_name md) (md_from_sm_send md)
    (md_notify_on_delivery md) (md_notify_after_seconds md) (md_notify_on_stop md)
    (md_remind_soft_threshold md) (md_remind_hard_threshold md)
    (md_remind_cancel_on_reply_session_id md) (md_parent_session_id md)
    (md_message_category md)
    (match md_response_relay_source md with
     | Some s => Some s
     | None => if md_from_sm_send md then Some "sm-send"%string else None
     end).

Lemma i64_to_u64_nonneg o : nonneg o = true -> option_map i64_to_u64 o = o.
Proof. destruct o as [z|]; cbn; [|done]. unfold i64_to_u64. by intros ->. Qed.
Lemma sql_nonblank_agrees o :
  blank_agrees o = true ->
  sql_nonblank o = match o with Some value => negb (is_blank value) | None => false end.
Proof. destruct o as [v|]; cbn; [|done]. by intros ->%eqb_prop. Qed.
Lemma sql_ne_zero_bool b : sql_ne_zero (sql_bool b) = b.
Proof. by destruct b. Qed.

(** What a sender attaches to a message is what the deliverer reads back: the
    row written by an enqueue decodes to the same sender, flags, thresholds,
    category and relay source, and the side-effect flag SQLite computes for it is
    the one the metadata computes for itself. *)
Theorem enqueue_pending_roundtrip {T : TimeCrate} {E : Env} target text mode md w id w' :
  md_typed md = true ->
  enqueue_message_with_metadata_conn target text mode md w = (Ok id, w') ->
  exists r, In r (messages (w_db w')) /\
    pending_message_from_row r = metadata_as_pending id target text mode md.
Proof.
  intros Hty Hrun. apply enqueue_conn_spec in Hrun as (_ & r & Hr & Hdb). exists r. split.
  { rewrite Hdb. apply in_or_app. right. by left. }
  unfold md_typed in Hty. bool_simpl.
  destruct r; unfold row_of_metadata in Hr; cbn in Hr.
  destruct Hr as (-> & -> & -> & -> & -> & -> & -> & -> & -> & -> & -> & -> & -> & -> & -> & -> & ->).
  unfold pending_message_from_row, metadata_as_pending, sql_has_delivery_side_effects,
    has_delivery_side_effects. cbn -[sql_ne_zero sql_bool flag sql_nonblank].
  rewrite !i64_to_u64_nonneg, !flag_sql_bool, !sql_ne_zero_bool, !sql_nonblank_agrees by done. done.
Qed.

Lemma enqueue_pending_roundtrip_witness :
  exists r, In r (messages (w_db demo_queued)) /\
    pending_message_from_row r =
    metadata_as_pending (msg_id demo_row) "worker" "do it" "sequential" demo_metadata.
Proof.
  apply (enqueue_pending_roundtrip "worker" "do it" "sequential" demo_metadata
           (World (init_schema empty_mqdb) 0) (msg_id demo_row) demo_queued);
    vm_compute; reflexivity.
Defined.

(** A message with a timeout of [s] seconds written at reading [k] of the clock
    stays pending before [env_now k + s] seconds and is expired from that instant
    on, whatever the local time zone. *)
Theorem message_timeout_deadline {T : TimeCrate} {L : TimeLaws T} {E : Env}
    id target text mode md s w w1 now :
  md_timeout_seconds md = Some s -> 0 < s ->
  enqueue_message_with_id_and_metadata_conn id target text mode md w = (Ok true, w1) ->
  exists r, In r (messages (w_db w1)) /\ msg_id r = id /\
    row_expired now r = (env_now (w_tick w) + seconds s <=? now).
Proof.
  intros Hs Hpos Hrun. unfold enqueue_message_with_id_and_metadata_conn in Hrun.
  rewrite Hs in Hrun. unfold timeout_at_rfc3339 in Hrun.
  destruct (Z.ltb_spec 0 s); [|lia]. apply bind_Ok_inv in Hrun as (t & w2 & Ht & Hrun).
  apply bind_Ok_inv in Ht as (n & w3 & Hn & Ht). injection Hn as <- <-.
  apply bind_Ok_inv in Ht as (s' & w4 & Hs' & Ht). apply lift_Ok_inv in Hs' as [Hs' <-].
  apply u64_to_i64_Ok in Hs' as [-> _].
  destruct (instant_checked_add _ _) as [deadline|] eqn:Hadd; [|done].
  apply instant_checked_add_Some in Hadd as ->. inv_ok Ht. inv_ok Hrun.
  match goal with Hx : execute _ _ = _ |- _ => apply execute_Ok_inv in Hx as (Hch & Hdb & _) end.
  unfold insert_or_ignore in *. destruct (existsb _ _); cbn in Hch, Hdb; subst; [done|].
  eexists. split; [rewrite Hdb; cbn; apply in_or_app; right; by left|]. split; [done|].
  unfold row_expired. cbn. by rewrite (timeout_is_expired_written _ _ _ _ Hval).
Qed.

Lemma message_timeout_deadline_witness :
  exists r, In r (messages (w_db (snd (enqueue_message_with_id_and_metadata_conn
      "m1" "worker" "do it" "sequential" demo_metadata (World empty_mqdb 0))))) /\
    msg_id r = "m1"%string /\
    row_expired (env_now 59) r = (env_now 0 + seconds 60 <=? env_now 59).
Proof.
  apply (message_timeout_deadline "m1" "worker" "do it" "sequential" demo_metadata 60
           (World empty_mqdb 0) _ (env_now 59)); [reflexivity|lia|vm_compute; reflexivity].
Defined.
