(* ===== verification/Reminders.v ===== *)
(** * Scheduled reminders

    One-shot and recurring reminders of queue.rs: scheduling with its validation,
    cancelling, listing the due ones, and the transactional claim that turns a due
    reminder into one urgent queue message. *)
From Stdlib Require Import ZArith Lia Bool String List Sorted.
From stdpp Require Import base tactics list strings.
From S2P Require Import Prelude Text Table Clock Demo Schema MessageQueue.

Record ScheduledReminder : Type := Reminder {
  sr_id : string;
  sr_target_session_id : string;
  sr_message : string;
  sr_fire_at : string;
  sr_recurring_interval_seconds : option Z;
  sr_fired : bool;
  sr_is_active : bool }.

Record ScheduledReminderDelivery : Type := ReminderDelivery {
  srd_reminder : ScheduledReminder;
  srd_queue_message_id : string }.

Definition scheduled_reminder_from_row (r : reminder_row) : ScheduledReminder :=
  Reminder (rem_id r) (rem_target_session_id r) (rem_message r) (rem_fire_at r)
    (rem_recurring_interval_seconds r) (flag 0 (rem_fired r)) (flag 1 (rem_is_active r)).

Definition scheduled_reminder_message (r : ScheduledReminder) : string :=
  if is_some (sr_recurring_interval_seconds r) then
    "[sm] Recurring reminder: (" +:+ sr_id r +:+ ")" +:+ NL +:+ sr_message r +:+ NL
    +:+ "[sm] Cancel: sm remind cancel " +:+ sr_id r
  else
    "[sm] Scheduled reminder: (" +:+ sr_id r +:+ ")" +:+ NL +:+ sr_message r.

Section Operations.
Context `{T : TimeCrate} `{E : Env}.

Definition overdue_seconds (r : ScheduledReminder) (now_utc : Z) : option Z :=
  scheduled_reminder_elapsed_seconds (sr_fire_at r) now_utc.

Definition recurring_interval_is_valid_at (r : ScheduledReminder) (now_utc : Z) : bool :=
  match sr_recurring_interval_seconds r with
  | None => true
  | Some interval =>
      (0 <? interval)
      && match local_now_naive now_utc with
         | Some now_local => is_some (naive_checked_add now_local (seconds interval))
         | None => false
         end
  end.

Definition scheduled_reminder_conn (reminder_id : string) : MQ (option ScheduledReminder) :=
  query (fun d => option_map scheduled_reminder_from_row
                    (lookup_row rem_id reminder_id (reminders d))).

(** [INSERT] under a random id; a taken id is a constraint error. *)
Definition insert_reminder (row : reminder_row) : MQ unit :=
  taken <- query (fun d => existsb (has_key rem_id (rem_id row)) (reminders d)) ;;
  if taken : bool then bail "UNIQUE constraint failed: scheduled_reminders.id"
  else execute (fun d => (d <| reminders := insert (reminders d) row |>, 1%nat)) ;;; ret tt.

Definition schedule_reminder (target_session_id : string) (delay_seconds : Z) (message : string)
    (recurring_interval_seconds : option Z) : MQ ScheduledReminder :=
  let target_session_id := trim target_session_id in
  if target_session_id =?s "" then bail "target_session_id must not be empty"
  else if delay_seconds =? 0 then bail "delay_seconds must be greater than zero"
  else if match recurring_interval_seconds with Some s => s =? 0 | None => false end
  then bail "recurring_interval_seconds must be greater than zero"
  else
    let message := if is_blank message then "Reminder"%string else trim message in
    delay_seconds <- lift (u64_to_i64 delay_seconds) ;;
    recurring_interval_seconds <- lift (map_u64_to_i64 recurring_interval_seconds) ;;
    now <- now_utc ;;
    now_local <- expect "could not determine the local UTC offset for reminder persistence"
                   (local_now_naive now) ;;
    fire_at_local <- expect "reminder delay is outside the supported timestamp range"
                       (naive_checked_add now_local (seconds delay_seconds)) ;;
    match recurring_interval_seconds with
    | Some interval =>
        expect "recurring reminder interval is outside the supported timestamp range"
          (naive_checked_add fire_at_local (seconds interval)) ;;; ret tt
    | None => ret tt
    end ;;;
    fire_at <- lift (python_compatible_reminder_timestamp fire_at_local) ;;
    id <- generate_scheduled_reminder_id ;;
    with_connection (
      insert_reminder (ReminderRow id target_session_id message fire_at (Some "reminder"%string)
                         (Some 0) recurring_interval_seconds (Some 1)) ;;;
      stored <- scheduled_reminder_conn id ;;
      expect ("scheduled reminder " +:+ id +:+ " was not persisted") stored).

Definition deactivate_rows (reminder_id : string) (p : reminder_row -> bool) : MQ nat :=
  execute (fun d =>
    let q r := has_key rem_id reminder_id r && p r in
    (d <| reminders := update q (fun r => r <| rem_is_active := Some 0 |>) (reminders d) |>,
     changes q (reminders d))).

Definition cancel_scheduled_reminder (reminder_id : string) : MQ (option ScheduledReminder) :=
  with_connection (
    found <- scheduled_reminder_conn reminder_id ;;
    match found with
    | None => ret None
    | Some reminder =>
        deactivate_rows reminder_id (fun _ => true) ;;;
        ret (Some reminder)
    end).

Definition deactivate_scheduled_reminder (reminder_id : string) : MQ bool :=
  with_connection (
    changed <- deactivate_rows reminder_id (fun r => col_is 1 (rem_is_active r)) ;;
    ret (Nat.ltb 0 changed)).

Definition reminder_order (a b : reminder_row) : bool :=
  text2_leb (rem_fire_at a, rem_id a) (rem_fire_at b, rem_id b).
(** A read-only connection: no migration. *)
Definition due_scheduled_reminders (now_utc : Z) : MQ (list ScheduledReminder) :=
  rows <- query (fun d =>
    map scheduled_reminder_from_row
      (order_by reminder_order
        (select (fun r => col_is 1 (rem_is_active r)
                          && (col_is 0 (rem_fired r) || is_some (rem_recurring_interval_seconds r)))
                (reminders d)))) ;;
  ret (List.filter (fun r => scheduled_reminder_is_due (sr_fire_at r) now_utc) rows).

(** The guard of a claim. *)
Definition claimable (r : ScheduledReminder) (now_utc : Z) : bool :=
  negb (negb (sr_is_active r)
        || sr_fired r && is_none (sr_recurring_interval_seconds r)
        || negb (scheduled_reminder_is_due (sr_fire_at r) now_utc)).

Definition claim_due_scheduled_reminder (reminder_id : string) (now_utc : Z)
    : MQ (option ScheduledReminderDelivery) :=
  with_connection (transaction (
    found <- scheduled_reminder_conn reminder_id ;;
    match found with
    | None => ret None
    | Some reminder =>
        if negb (claimable reminder now_utc) then ret None
        else
          queue_message_id <- enqueue_message_with_metadata_conn (sr_target_session_id reminder)
            (scheduled_reminder_message reminder) "urgent"
            (default_metadata <| md_message_category := Some "scheduled_reminder"%string |>) ;;
          changed <-
            match sr_recurring_interval_seconds reminder with
            | Some interval =>
                now_local <- expect "could not determine the local UTC offset for reminder persistence"
                               (local_now_naive now_utc) ;;
                next_local <- expect "recurring reminder interval exceeds the timestamp range"
                                (naive_checked_add now_local (seconds interval)) ;;
                next_fire_at <- lift (python_compatible_reminder_timestamp next_local) ;;
                execute (fun d =>
                  let q r := has_key rem_id (sr_id reminder) r && col_is 1 (rem_is_active r) in
                  (d <| reminders := update q (fun r => r <| rem_fire_at := next_fire_at |>
                                                         <| rem_fired := Some 0 |>
                                                         <| rem_is_active := Some 1 |>) (reminders d) |>,
                   changes q (reminders d)))
            | None =>
                execute (fun d =>
                  let q r := has_key rem_id (sr_id reminder) r && col_is 1 (rem_is_active r) in
                  (d <| reminders := update q (fun r => r <| rem_fired := Some 1 |>
                                                         <| rem_is_active := Some 0 |>) (reminders d) |>,
                   changes q (reminders d)))
            end ;;
          if negb (Nat.eqb changed 1) then
            bail ("scheduled reminder " +:+ sr_id reminder +:+ " changed while being claimed")
          else ret (Some (ReminderDelivery reminder queue_message_id))
    end)).
End Operations.

(** ** Keys stay unique, delivered messages stay *)
Section Safety.
Context `{T : TimeCrate} `{E : Env}.

Lemma update_reminders_safe d p f :
  (forall r, rem_id (f r) = rem_id r) ->
  mq_safe d (d <| reminders := update p f (reminders d) |>).
Proof. intros Hf. safe_table. Qed.

Lemma insert_reminder_safe row : steps (on_db mq_safe) (insert_reminder row).
Proof.
  intros w. unfold insert_reminder, bind. cbn. rewrite existsb_has_key.
  destruct (lookup_row _ _ _) eqn:Hl; cbn; [reflexivity|].
  rewrite lookup_row_None in Hl. unfold on_db. cbn. safe_table.
Qed.
#[local] Hint Resolve insert_reminder_safe : steps.

Lemma schedule_reminder_safe target delay message interval :
  steps (on_db mq_safe) (schedule_reminder target delay message interval).
Proof.
  unfold schedule_reminder, generate_scheduled_reminder_id, scheduled_reminder_conn.
  db_steps; apply with_connection_safe; db_steps.
Qed.

Lemma cancel_scheduled_reminder_safe id : steps (on_db mq_safe) (cancel_scheduled_reminder id).
Proof.
  unfold cancel_scheduled_reminder, scheduled_reminder_conn, deactivate_rows.
  apply with_connection_safe. db_steps. by apply update_reminders_safe.
Qed.

Lemma deactivate_scheduled_reminder_safe id : steps (on_db mq_safe) (deactivate_scheduled_reminder id).
Proof.
  unfold deactivate_scheduled_reminder, deactivate_rows.
  apply with_connection_safe. db_steps. by apply update_reminders_safe.
Qed.

Lemma claim_safe id now : steps (on_db mq_safe) (claim_due_scheduled_reminder id now).
Proof.
  unfold claim_due_scheduled_reminder, scheduled_reminder_conn. apply with_connection_safe.
  db_steps; by apply update_reminders_safe.
Qed.
End Safety.
#[export] Hint Resolve schedule_reminder_safe cancel_scheduled_reminder_safe
  deactivate_scheduled_reminder_safe claim_safe : steps.

(** ** What a claim does *)
Section Claims.
Context {T : TimeCrate} {E : Env}.

Lemma find_reminder id w :
  scheduled_reminder_conn id w =
  (Ok (option_map scheduled_reminder_from_row (lookup_row rem_id id (reminders (w_db w)))), w).
Proof. done. Qed.

Lemma claim_not_claimable id now w :
  (forall row, lookup_row rem_id id (reminders (init_schema (w_db w))) = Some row ->
     claimable (scheduled_reminder_from_row row) now = false) ->
  claim_due_scheduled_reminder id now w = (Ok None, World (init_schema (w_db w)) (w_tick w)).
Proof.
  intros H. unfold claim_due_scheduled_reminder, with_connection, transaction, bind.
  rewrite find_reminder. cbn [w_db].
  destruct (lookup_row rem_id id (reminders (init_schema (w_db w)))) as [row|] eqn:Hl; cbn; [|done].
  by rewrite (H row).
Qed.

(** The message a claim puts into the queue. *)
Definition reminder_metadata : QueueMessageMetadata :=
  default_metadata <| md_message_category := Some "scheduled_reminder"%string |>.
Definition claimed_row (next_fire_at : option string) (row : reminder_row) : reminder_row :=
  match next_fire_at with
  | Some t => row <| rem_fire_at := t |> <| rem_fired := Some 0 |> <| rem_is_active := Some 1 |>
  | None => row <| rem_fired := Some 1 |> <| rem_is_active := Some 0 |>
  end.
(** The next firing time of a reminder with the given interval claimed at [now]. *)
Definition next_fire (interval : option Z) (now : Z) (next_fire_at : option string) : Prop :=
  match interval, next_fire_at with
  | None, None => True
  | Some interval, Some t =>
      exists local next, local_now_naive now = Some local /\
        naive_checked_add local (seconds interval) = Some next /\
        format_naive_micros next = Some t
  | _, _ => False
  end.

Lemma reschedule_timestamp v t :
  python_compatible_reminder_timestamp v = Ok t -> format_naive_micros v = Some t.
Proof. unfold python_compatible_reminder_timestamp. destruct (format_naive_micros v); [|done]. by intros [= <-]. Qed.

Lemma claim_Some_inv id now w dlv w' :
  claim_due_scheduled_reminder id now w = (Ok (Some dlv), w') ->
  exists row m next,
    lookup_row rem_id id (reminders (init_schema (w_db w))) = Some row /\
    srd_reminder dlv = scheduled_reminder_from_row row /\
    claimable (srd_reminder dlv) now = true /\
    next_fire (rem_recurring_interval_seconds row) now next /\
    row_of_metadata m (srd_queue_message_id dlv) (rem_target_session_id row)
      (scheduled_reminder_message (srd_reminder dlv)) "urgent" reminder_metadata /\
    lookup_row msg_id (srd_queue_message_id dlv) (messages (w_db w)) = None /\
    let q r := has_key rem_id id r && col_is 1 (rem_is_active r) in
    changes q (reminders (init_schema (w_db w))) = 1%nat /\
    w_db w' = (init_schema (w_db w))
      <| messages := insert (messages (w_db w)) m |>
      <| reminders := update q (claimed_row next) (reminders (init_schema (w_db w))) |>.
Proof.
  unfold claim_due_scheduled_reminder, with_connection. intros H. apply transaction_Ok_inv in H.
  apply bind_Ok_inv in H as (found & w0 & Hf & H). rewrite find_reminder in Hf. injection Hf as <- <-.
  cbn [w_db] in H. destruct (lookup_row rem_id id _) as [row|] eqn:Hl; cbn [option_map] in H; [|done].
  destruct (claimable (scheduled_reminder_from_row row) now) eqn:Hc; cbn [negb] in H; [|done].
  assert (Hid : sr_id (scheduled_reminder_from_row row) = id) by (by apply lookup_row_Some in Hl as [_ ?]).
  rewrite Hid in H. apply bind_Ok_inv in H as (qid & w1 & He & H).
  apply enqueue_conn_spec in He as (Hfresh & m & Hm & Hdb).
  apply bind_Ok_inv in H as (n & w2 & Hu & H).
  destruct (Nat.eqb_spec n 1) as [->|]; cbn [negb] in H; [|done]. injection H as <- <-.
  cbn [w_db] in *. exists row, m.
  change (sr_recurring_interval_seconds (scheduled_reminder_from_row row))
    with (rem_recurring_interval_seconds row) in Hu.
  unfold next_fire. destruct (rem_recurring_interval_seconds row) as [interval|]; inv_ok Hu.
  - apply execute_Ok_inv in Hu as (Hn & Hu & _). apply reschedule_timestamp in Hval1.
    rewrite Hdb in Hn, Hu. exists (Some a1). repeat (split; [by eauto 10|]). rewrite Hu; reflexivity.
  - apply execute_Ok_inv in Hu as (Hn & Hu & _). rewrite Hdb in Hn, Hu.
    exists None. repeat (split; [by eauto 10|]). rewrite Hu; reflexivity.
Qed.

(** The migration leaves an active reminder that can still fire alone. *)
Lemma init_schema_live id d row :
  lookup_row rem_id id (reminders d) = Some row ->
  col_is 1 (rem_is_active row) && (col_is 0 (rem_fired row) || is_some (rem_recurring_interval_seconds row)) = true ->
  lookup_row rem_id id (reminders (init_schema d)) = Some row.
Proof.
  intros Hl Hp. cbn. rewrite !(lookup_row_update rem_id), Hl by done. cbn.
  destruct row as [i t m f ty fi iv [a|]]; cbn in *; [|done].
  destruct fi as [fi|], iv; cbn in *; rewrite ?andb_false_r; try done.
  destruct (Z.eqb_spec fi 0), (Z.eqb_spec fi 1); subst; cbn in *; rewrite ?andb_false_r in *; done || lia.
Qed.

Lemma init_schema_inactive id d row :
  lookup_row rem_id id (reminders d) = Some row -> rem_is_active row = Some 0 ->
  lookup_row rem_id id (reminders (init_schema d)) = Some row.
Proof.
  intros Hl Hp. cbn. rewrite !(lookup_row_update rem_id), Hl by done. cbn. rewrite Hp. cbn.
  by rewrite Hp, andb_false_r.
Qed.

(** An inactive reminder is never claimed and never listed as due. *)
Lemma inactive_never_fires id w row :
  lookup_row rem_id id (reminders (w_db w)) = Some row -> rem_is_active row = Some 0 ->
  forall now, claim_due_scheduled_reminder id now w
              = (Ok None, World (init_schema (w_db w)) (w_tick w)).
Proof.
  intros Hl Hi now. apply claim_not_claimable. intros row' Hl'.
  rewrite (init_schema_inactive id _ row Hl Hi) in Hl'. injection Hl' as <-.
  unfold claimable, scheduled_reminder_from_row. cbn. rewrite Hi. done.
Qed.

Lemma due_run now w :
  exists rows, due_scheduled_reminders now w = (Ok (map scheduled_reminder_from_row rows), w) /\
    Sorted (fun a b => reminder_order a b = true) rows /\
    forall row, In row rows <->
      In row (reminders (w_db w)) /\ rem_is_active row = Some 1 /\
      (rem_fired row = Some 0 \/ is_some (rem_recurring_interval_seconds row) = true) /\
      scheduled_reminder_is_due (rem_fire_at row) now = true.
Proof.
  set (live := fun r => col_is 1 (rem_is_active r)
                 && (col_is 0 (rem_fired r) || is_some (rem_recurring_interval_seconds r))).
  set (due := fun row => scheduled_reminder_is_due (rem_fire_at row) now).
  exists (List.filter due (order_by reminder_order (select live (reminders (w_db w))))). split; [|split].
  - unfold due_scheduled_reminders, bind, query, gets, ret. do 2 f_equal.
    fold live. clearbody live. generalize (order_by reminder_order (select live (reminders (w_db w)))). intros l.
    induction l as [|r l IH]; cbn; [done|]. unfold due at 1. by destruct (scheduled_reminder_is_due _ _); cbn; rewrite IH.
  - assert (Transitive (fun a b => reminder_order a b = true)) as Htr
      by (intros a b c; apply text2_leb_trans).
    apply (filter_sorted _ _ Htr). apply order_by_sorted. intros a b. apply text2_leb_total.
  - intros row. rewrite filter_In, in_order_by, in_select. unfold live, due, col_is.
    destruct (rem_is_active row) as [a|], (rem_fired row) as [f|];
      rewrite ?andb_true_iff, ?orb_true_iff, ?Z.eqb_eq; intuition (try congruence).
Qed.

(** With unique ids, the claimed reminder is the one row the claim rewrites. *)
Lemma claim_rewrites id w row next :
  mq_wf (w_db w) ->
  lookup_row rem_id id (reminders (init_schema (w_db w))) = Some row ->
  let q r := has_key rem_id id r && col_is 1 (rem_is_active r) in
  changes q (reminders (init_schema (w_db w))) = 1%nat ->
  let t := update q (claimed_row next) (reminders (init_schema (w_db w))) in
  lookup_row rem_id id t = Some (claimed_row next row) /\
  forall k, k <> id -> lookup_row rem_id k t = lookup_row rem_id k (reminders (init_schema (w_db w))).
Proof.
  intros Hwf Hl q Hch t. subst q t. cbv beta in Hch |- *.
  assert (Hu : unique rem_id (reminders (init_schema (w_db w)))) by (by apply init_schema_wf in Hwf as []).
  rewrite (changes_key rem_id id (fun r => col_is 1 (rem_is_active r))), Hl in Hch by done.
  assert (Hkey : forall r, rem_id (claimed_row next r) = rem_id r) by (intros r; by destruct next).
  split; [|intros k Hne]; rewrite (lookup_row_update rem_id) by auto.
  - rewrite Hl. cbn. apply lookup_row_Some in Hl as [_ Hk]. unfold has_key. rewrite Hk, String.eqb_refl.
    by destruct (col_is 1 (rem_is_active row)).
  - destruct (lookup_row rem_id k _) as [r|] eqn:Hr; cbn; [|done].
    apply lookup_row_Some in Hr as [_ <-]. unfold has_key. by destruct (String.eqb_spec (rem_id r) id).
Qed.
End Claims.

(** ** Claims about reminders *)
Definition demo_scheduled : world mqdb :=
  snd (schedule_reminder " worker " 60 "check the build" None (World empty_mqdb 0)).
Definition demo_reminder_row : reminder_row := nth 0 (reminders (w_db demo_scheduled))
  (ReminderRow "" "" "" "" None None None None).
Definition demo_instant : Z := env_now 4000.
Definition demo_claimed : outcome (option ScheduledReminderDelivery) * world mqdb :=
  claim_due_scheduled_reminder (rem_id demo_reminder_row) demo_instant demo_scheduled.
Definition demo_delivery : ScheduledReminderDelivery :=
  match fst demo_claimed with
  | Ok (Some d) => d
  | _ => ReminderDelivery (Reminder "" "" "" "" None false false) ""
  end.
Lemma demo_scheduled_wf : mq_wf (w_db demo_scheduled).
Proof. apply schedule_reminder_safe, empty_mqdb_wf. Qed.

(** A claim that returns a delivery found a due, active reminder, put exactly one
    undelivered urgent message with its text into the queue under a fresh id, and
    moved the reminder on: a one-shot becomes fired and inactive, a recurring one
    stays active with its next firing one interval after the claim's local time.
    No other reminder changes. *)
Theorem reminder_claim_effect {T : TimeCrate} {E : Env} id now w dlv w' :
  mq_wf (w_db w) ->
  claim_due_scheduled_reminder id now w = (Ok (Some dlv), w') ->
  exists row m next,
    lookup_row rem_id id (reminders (init_schema (w_db w))) = Some row /\
    srd_reminder dlv = scheduled_reminder_from_row row /\
    claimable (srd_reminder dlv) now = true /\
    next_fire (rem_recurring_interval_seconds row) now next /\
    row_of_metadata m (srd_queue_message_id dlv) (rem_target_session_id row)
      (scheduled_reminder_message (srd_reminder dlv)) "urgent" reminder_metadata /\
    lookup_row msg_id (srd_queue_message_id dlv) (messages (w_db w)) = None /\
    messages (w_db w') = (messages (w_db w) ++ [m])%list /\
    lookup_row rem_id id (reminders (w_db w')) = Some (claimed_row next row) /\
    forall k, k <> id -> lookup_row rem_id k (reminders (w_db w')) =
                         lookup_row rem_id k (reminders (init_schema (w_db w))).
Proof.
  intros Hwf H. apply claim_Some_inv in H as (row & m & next & Hl & Hr & Hc & Hn & Hm & Hf & Hch & ->).
  exists row, m, next. repeat (split; [done|]). by apply claim_rewrites.
Qed.

Lemma reminder_claim_effect_witness :
  exists row m next,
    lookup_row rem_id (rem_id demo_reminder_row) (reminders (init_schema (w_db demo_scheduled))) = Some row /\
    srd_reminder demo_delivery = scheduled_reminder_from_row row /\
    claimable (srd_reminder demo_delivery) demo_instant = true /\
    next_fire (rem_recurring_interval_seconds row) demo_instant next /\
    row_of_metadata m (srd_queue_message_id demo_delivery) (rem_target_session_id row)
      (scheduled_reminder_message (srd_reminder demo_delivery)) "urgent" reminder_metadata /\
    lookup_row msg_id (srd_queue_message_id demo_delivery) (messages (w_db demo_scheduled)) = None /\
    messages (w_db (snd demo_claimed)) = (messages (w_db demo_scheduled) ++ [m])%list /\
    lookup_row rem_id (rem_id demo_reminder_row) (reminders (w_db (snd demo_claimed)))
      = Some (claimed_row next row) /\
    forall k, k <> rem_id demo_reminder_row ->
      lookup_row rem_id k (reminders (w_db (snd demo_claimed))) =
      lookup_row rem_id k (reminders (init_schema (w_db demo_scheduled))).
Proof.
  apply (reminder_claim_effect (rem_id demo_reminder_row) demo_instant demo_scheduled
           demo_delivery (snd demo_claimed)); [exact demo_scheduled_wf|].
  vm_compute. reflexivity.
Defined.

(** A one-shot reminder fires at most once: after a successful claim every later
    claim, at whatever time, returns nothing and leaves the message queue alone. *)
Theorem one_shot_fires_once {T : TimeCrate} {E : Env} id now w dlv w' :
  mq_wf (w_db w) ->
  claim_due_scheduled_reminder id now w = (Ok (Some dlv), w') ->
  sr_recurring_interval_seconds (srd_reminder dlv) = None ->
  forall now', claim_due_scheduled_reminder id now' w'
               = (Ok None, World (init_schema (w_db w')) (w_tick w')).
Proof.
  intros Hwf H Hone. apply claim_Some_inv in H as (row & m & next & Hl & Hr & Hc & Hn & _ & _ & Hch & Hdb).
  assert (next = None) as ->.
  { rewrite Hr in Hone. cbn in Hone. rewrite Hone in Hn. by destruct next. }
  apply (inactive_never_fires id w' (claimed_row None row)); [|done]. rewrite Hdb. by apply (claim_rewrites id w row None).
Qed.

Lemma one_shot_fires_once_witness :
  claim_due_scheduled_reminder (rem_id demo_reminder_row) (env_now 4500) (snd demo_claimed)
    = (Ok None, World (init_schema (w_db (snd demo_claimed))) (w_tick (snd demo_claimed))).
Proof.
  apply (one_shot_fires_once (rem_id demo_reminder_row) demo_instant demo_scheduled
           demo_delivery (snd demo_claimed)); [exact demo_scheduled_wf|vm_compute; reflexivity..].
Defined.

(** A claim is all or nothing.  When it returns no delivery there was no claimable
    reminder under the id and the tables are as they were; when it fails, on a
    duplicate message id, an interval out of range or a reminder changed under it,
    the message it had queued is rolled back. *)
Lemma reminder_claim_atomic {T : TimeCrate} {E : Env} id now w :
  match claim_due_scheduled_reminder id now w with
  | (Ok (Some _), _) => True
  | (Ok None, w') =>
      w_db w' = init_schema (w_db w) /\
      forall row, lookup_row rem_id id (reminders (init_schema (w_db w))) = Some row ->
        claimable (scheduled_reminder_from_row row) now = false
  | (_, w') => w_db w' = init_schema (w_db w)
  end.
Proof.
  destruct (claim_due_scheduled_reminder id now w) as [[[dlv|]|e|] w'] eqn:Hrun; [done|..].
  - unfold claim_due_scheduled_reminder, with_connection in Hrun. apply transaction_Ok_inv in Hrun.
    unfold bind at 1 in Hrun. rewrite find_reminder in Hrun. cbn [w_db] in Hrun.
    destruct (lookup_row rem_id id _) as [row|]; cbn [option_map] in Hrun; [|by injection Hrun as <-].
    destruct (claimable _ now) eqn:Hc; cbn [negb] in Hrun.
    + apply bind_Ok_inv in Hrun as (? & ? & _ & Hrun). apply bind_Ok_inv in Hrun as (n & ? & _ & Hrun).
      by destruct (Nat.eqb n 1).
    + injection Hrun as <-. split; [done|]. intros row' [= <-]. done.
  - unfold claim_due_scheduled_reminder, with_connection in Hrun.
    match type of Hrun with transaction ?b ?w0 = _ => pose proof (transaction_atomic b w0) as Ha end.
    rewrite Hrun in Ha. by apply Ha.
  - unfold claim_due_scheduled_reminder, with_connection in Hrun.
    match type of Hrun with transaction ?b ?w0 = _ => pose proof (transaction_atomic b w0) as Ha end.
    rewrite Hrun in Ha. by apply Ha.
Qed.

(** A cancelled reminder never fires: once [cancel_scheduled_reminder] has
    returned it, no claim delivers it and no due list shows it, whatever the time. *)
Theorem cancelled_reminder_never_fires {T : TimeCrate} {E : Env} id w r w' :
  mq_wf (w_db w) ->
  cancel_scheduled_reminder id w = (Ok (Some r), w') ->
  forall now,
    claim_due_scheduled_reminder id now w' = (Ok None, World (init_schema (w_db w')) (w_tick w')) /\
    exists due, due_scheduled_reminders now w' = (Ok due, w') /\ forall x, In x due -> sr_id x <> id.
Proof.
  intros Hwf H now.
  assert (Hwf' : mq_wf (w_db w')).
  { pose proof (cancel_scheduled_reminder_safe id w) as [Hk _]. rewrite H in Hk. by apply Hk. }
  assert (exists row, lookup_row rem_id id (reminders (w_db w')) = Some row /\ rem_is_active row = Some 0)
    as (row & Hl & Hi).
  { unfold cancel_scheduled_reminder, with_connection, bind in H. rewrite find_reminder in H. cbn [w_db] in H.
    destruct (lookup_row rem_id id _) as [row|] eqn:Hl; cbn [option_map] in H; [|done].
    injection H as _ <-. cbn in Hl |- *. rewrite (lookup_row_update rem_id), Hl by done. cbn.
    apply lookup_row_Some in Hl as [_ Hk]. unfold has_key. rewrite Hk, String.eqb_refl. eauto. }
  split; [by eapply inactive_never_fires|].
  destruct (due_run now w') as (rows & Hd & _ & Hrows). eexists. split; [exact Hd|].
  intros x (row' & <- & (Hin & Hact & _)%Hrows)%in_map_iff Hid. cbn in Hid. subst id.
  apply wf_reminders in Hwf'. rewrite (lookup_row_unique rem_id _ row') in Hl by done. congruence.
Qed.

Definition demo_cancelled : world mqdb :=
  snd (cancel_scheduled_reminder (rem_id demo_reminder_row) demo_scheduled).
Lemma cancelled_reminder_never_fires_witness :
  claim_due_scheduled_reminder (rem_id demo_reminder_row) demo_instant demo_cancelled
    = (Ok None, World (init_schema (w_db demo_cancelled)) (w_tick demo_cancelled)) /\
  exists due, due_scheduled_reminders demo_instant demo_cancelled = (Ok due, demo_cancelled) /\
    forall x, In x due -> sr_id x <> rem_id demo_reminder_row.
Proof.
  apply (cancelled_reminder_never_fires (rem_id demo_reminder_row) demo_scheduled
           (scheduled_reminder_from_row demo_reminder_row)); [exact demo_scheduled_wf|].
  vm_compute. reflexivity.
Defined.

(** A fresh default-metadata enqueue returns. *)
Definition record_id {E : Env} (prefix : string) (k : nat) : string :=
  prefix +:+ show_hex env_process_id +:+ show_hex (env_now k mod 2 ^ 128).

Lemma enqueue_reminder_total {T : TimeCrate} {E : Env} target text w :
  lookup_row msg_id (record_id "msg" (w_tick w)) (messages (w_db w)) = None ->
  exists w', enqueue_message_with_metadata_conn target text "urgent" reminder_metadata w
             = (Ok (record_id "msg" (w_tick w)), w').
Proof.
  intros Hf. unfold enqueue_message_with_metadata_conn, bind.
  change (generate_record_id "msg" w) with
    (Ok (record_id "msg" (w_tick w)), World (w_db w) (S (w_tick w))).
  unfold enqueue_message_with_id_and_metadata_conn, bind, insert_or_ignore. cbn -[String.append record_id].
  rewrite existsb_has_key, Hf. cbn. eexists. reflexivity.
Qed.

Lemma next_fire_fun {T : TimeCrate} interval now a b : next_fire interval now a -> next_fire interval now b -> a = b.
Proof.
  destruct interval as [iv|], a as [x|], b as [y|]; cbn; try done.
  intros (l1 & n1 & H1 & H2 & H3) (l2 & n2 & H4 & H5 & H6). congruence.
Qed.

(** A claim of a reminder of the due list returns it. *)
Lemma due_reminder_claimed {T : TimeCrate} {E : Env} now w due r next :
  mq_wf (w_db w) ->
  due_scheduled_reminders now w = (Ok due, w) -> In r due ->
  lookup_row msg_id (record_id "msg" (w_tick w)) (messages (w_db w)) = None ->
  next_fire (sr_recurring_interval_seconds r) now next ->
  exists w', claim_due_scheduled_reminder (sr_id r) now w
             = (Ok (Some (ReminderDelivery r (record_id "msg" (w_tick w)))), w').
Proof.
  intros Hwf Hdue Hin Hfresh Hnext. destruct (due_run now w) as (rows & Hd & _ & Hrows).
  rewrite Hd in Hdue. injection Hdue as <-. apply in_map_iff in Hin as (row & <- & Hrow).
  apply Hrows in Hrow as (Hrow & Hact & Hfi & Hisdue).
  assert (Hl : lookup_row rem_id (rem_id row) (reminders (init_schema (w_db w))) = Some row).
  { apply init_schema_live; [by apply lookup_row_unique; [apply Hwf|]|].
    rewrite Hact. cbn. by destruct Hfi as [Hx|Hx]; rewrite Hx, ?orb_true_r. }
  unfold claim_due_scheduled_reminder, with_connection, transaction, bind at 1. rewrite find_reminder.
  cbn [w_db sr_id scheduled_reminder_from_row]. rewrite Hl. cbn [option_map].
  assert (claimable (scheduled_reminder_from_row row) now = true) as ->.
  { unfold claimable, scheduled_reminder_from_row. cbn. rewrite Hact, Hisdue. cbn.
    destruct Hfi as [->|H]; [done|]. unfold is_none. by rewrite H, andb_false_r. }
  cbn [negb]. destruct (enqueue_reminder_total (rem_target_session_id row)
    (scheduled_reminder_message (scheduled_reminder_from_row row)) (World (init_schema (w_db w)) (w_tick w)))
    as [w1 Hw1]; [done|]. unfold bind at 1. cbn [sr_target_session_id scheduled_reminder_from_row].
  fold reminder_metadata. rewrite Hw1. cbn [w_tick].
  apply enqueue_conn_spec in Hw1 as (_ & m & _ & Hdb).
  assert (Hch : changes (fun r => has_key rem_id (rem_id row) r && col_is 1 (rem_is_active r))
                  (reminders (w_db w1)) = 1%nat).
  { rewrite Hdb. cbn -[init_schema]. rewrite (changes_key rem_id (rem_id row) (fun r => col_is 1 (rem_is_active r))).
    - by rewrite Hl, Hact.
    - by apply init_schema_wf in Hwf as []. }
  cbn [sr_recurring_interval_seconds scheduled_reminder_from_row sr_id] in *.
  unfold next_fire in Hnext. destruct (rem_recurring_interval_seconds row) as [iv|], next as [t|]; try done.
  - destruct Hnext as (local & nx & Hlo & Hadd & Hfmt). rewrite Hlo. unfold bind, expect, ret. rewrite Hadd.
    unfold python_compatible_reminder_timestamp, lift. rewrite Hfmt. unfold execute. cbn -[init_schema].
    rewrite Hch. cbn. eexists. reflexivity.
  - unfold bind, execute. cbn -[init_schema]. rewrite Hch. cbn. eexists. reflexivity.
Qed.

(** C33: A reminder of the due list is delivered when it is claimed at that instant, provided
    the message id generated for it is unused and, for a recurring reminder, its next firing
    time can be computed and written: the claim returns it, the queue gains exactly one
    message, undelivered, urgent and of the reminders' category, with the reminder's text for
    its target, and the reminder moves on to its next firing or is fired for good. *)
Theorem due_reminder_is_delivered {T : TimeCrate} {E : Env} now w due r next :
  mq_wf (w_db w) ->
  due_scheduled_reminders now w = (Ok due, w) -> In r due ->
  lookup_row msg_id (record_id "msg" (w_tick w)) (messages (w_db w)) = None ->
  next_fire (sr_recurring_interval_seconds r) now next ->
  exists w' m row,
    claim_due_scheduled_reminder (sr_id r) now w
      = (Ok (Some (ReminderDelivery r (record_id "msg" (w_tick w)))), w')
    /\ messages (w_db w') = (messages (w_db w) ++ [m])%list
    /\ row_of_metadata m (record_id "msg" (w_tick w)) (sr_target_session_id r) (scheduled_reminder_message r)
         "urgent" reminder_metadata
    /\ scheduled_reminder_from_row row = r
    /\ lookup_row rem_id (sr_id r) (reminders (w_db w')) = Some (claimed_row next row).
Proof.
  intros Hwf Hdue Hin Hfresh Hnext.
  destruct (due_reminder_claimed now w due r next Hwf Hdue Hin Hfresh Hnext) as [w' Hw'].
  pose proof Hw' as Hi. apply claim_Some_inv in Hi as (row & m & nx & Hl & Hr & _ & Hn & Hm & _ & Hch & Hdb).
  cbn [srd_reminder srd_queue_message_id] in *. subst r. cbn [sr_recurring_interval_seconds sr_id scheduled_reminder_from_row] in *.
  assert (nx = next) as -> by (by eapply next_fire_fun).
  exists w', m, row. split; [exact Hw'|]. rewrite Hdb. split_and!; [done..|].
  by apply (claim_rewrites (rem_id row) w row next).
Qed.

Lemma due_reminder_is_delivered_witness :
  exists w' m row, claim_due_scheduled_reminder (rem_id demo_reminder_row) demo_instant demo_scheduled
             = (Ok (Some (ReminderDelivery (scheduled_reminder_from_row demo_reminder_row)
                            (record_id "msg" (w_tick demo_scheduled)))), w')
    /\ messages (w_db w') = (messages (w_db demo_scheduled) ++ [m])%list
    /\ row_of_metadata m (record_id "msg" (w_tick demo_scheduled)) "worker"
         (scheduled_reminder_message (scheduled_reminder_from_row demo_reminder_row)) "urgent" reminder_metadata
    /\ scheduled_reminder_from_row row = scheduled_reminder_from_row demo_reminder_row
    /\ lookup_row rem_id (rem_id demo_reminder_row) (reminders (w_db w')) = Some (claimed_row None row).
Proof.
  apply (due_reminder_is_delivered demo_instant demo_scheduled
           [scheduled_reminder_from_row demo_reminder_row]
           (scheduled_reminder_from_row demo_reminder_row) None);
    [exact demo_scheduled_wf|vm_compute; reflexivity|by left|vm_compute; reflexivity|exact I].
Defined.

Lemma interval_check {T : TimeCrate} fire interval (w : world mqdb) :
  let m := match interval with
           | Some interval =>
               expect "recurring reminder interval is outside the supported timestamp range"
                 (naive_checked_add fire (seconds interval)) ;;; ret tt
           | None => ret tt
           end in
  m w = (Ok tt, w) \/ exists e, m w = (Err e, w).
Proof.
  destruct interval as [i|]; [|by left]. cbn. unfold bind, expect, ret.
  destruct (naive_checked_add fire _); [by left|right; by eexists].
Qed.

(** Scheduling validates its request and stores what was asked.  A returned
    reminder has a fresh id, the trimmed non-empty target, the trimmed message (or
    "Reminder"), a firing time [delay] seconds after the local time of the call, is
    active and unfired, and is the one row added; a refused request (blank target,
    zero delay or interval, a time out of range) adds none. *)
Theorem schedule_reminder_result {T : TimeCrate} {E : Env} target delay message interval w :
  match schedule_reminder target delay message interval w with
  | (Ok r, w') =>
      trim target <> ""%string /\ delay <> 0 /\ interval <> Some 0 /\ delay <= I64_MAX /\
      (exists local fire, local_now_naive (env_now (w_tick w)) = Some local /\
         naive_checked_add local (seconds delay) = Some fire /\
         format_naive_micros fire = Some (sr_fire_at r)) /\
      r = Reminder (sr_id r) (trim target) (if is_blank message then "Reminder" else trim message)
            (sr_fire_at r) interval false true /\
      lookup_row rem_id (sr_id r) (reminders (w_db w)) = None /\
      exists row, scheduled_reminder_from_row row = r /\
        w_db w' = (init_schema (w_db w)) <| reminders := (reminders (init_schema (w_db w)) ++ [row])%list |>
  | (_, w') => init_schema (w_db w') = init_schema (w_db w)
  end.
Proof.
  unfold schedule_reminder.
  destruct (String.eqb_spec (trim target) "") as [|Ht]; [done|].
  destruct (Z.eqb_spec delay 0) as [|Hd]; [done|].
  destruct (match interval with Some s => s =? 0 | None => false end) eqn:Hi; [done|].
  unfold bind at 1, lift at 1. destruct (u64_to_i64 delay) as [dl|e|] eqn:Hdl; [|done..].
  apply u64_to_i64_Ok in Hdl as [-> Hmax].
  unfold bind at 1, lift at 1. destruct (map_u64_to_i64 interval) as [iv|e|] eqn:Hiv; [|done..].
  apply map_u64_to_i64_Ok in Hiv as ->. unfold bind at 1. cbn [now_utc bind tick ret].
  unfold bind at 1. destruct (local_now_naive _) as [local|] eqn:Hlo; [|done]. cbn [expect ret].
  unfold bind at 1. destruct (naive_checked_add local _) as [fire|] eqn:Hf; [|done]. cbn [expect ret].
  unfold bind at 1.
  match goal with |- context [World (w_db w) ?k] =>
    destruct (interval_check fire interval (World (w_db w) k)) as [->|[e ->]] end; [|done].
  unfold bind at 1, lift at 1. unfold python_compatible_reminder_timestamp.
  destruct (format_naive_micros fire) as [fire_at|] eqn:Hfm; [|done].
  unfold bind at 1. cbn [generate_scheduled_reminder_id random_hex bind tick ret].
  set (id := String.concat _ _). unfold with_connection. cbn [w_db w_tick].
  unfold bind at 1, insert_reminder at 1, bind at 1, query, gets. cbn -[init_schema].
  rewrite existsb_has_key. destruct (lookup_row rem_id id (reminders (init_schema (w_db w)))) eqn:Hl.
  { cbn -[init_schema]. apply init_schema_idem. }
  unfold bind. cbn -[init_schema is_blank trim].
  set (row := ReminderRow id _ _ _ _ _ _ _).
  rewrite (lookup_row_insert_eq rem_id _ row) by done. cbn -[init_schema is_blank trim].
  repeat (split; [done|]). split; [by destruct interval as [[]|]|]. split; [done|].
  split; [by eauto 10|]. split; [done|]. split; [|by exists row].
  cbn in Hl. rewrite !(lookup_row_update rem_id) in Hl by done. by destruct (lookup_row rem_id id _).
Qed.
