(* ===== verification/ParentRouting.v ===== *)
(** * Moving a child session to another parent

    The hand-over of queue.rs: a snapshot of the wake registrations and undelivered
    messages that route a child's activity to its parent, a transaction that
    quiesces them, and one that retargets them.  Both re-validate every row of the
    snapshot, so that a hand-over can be resumed. *)
From Stdlib Require Import ZArith Lia Bool String List Sorted.
From stdpp Require Import base tactics list strings.
From S2P Require Import Prelude Text Table Clock Demo Schema MessageQueue.

Record ParentRoutingWakeRow : Type := WakeRoute {
  pw_id : string;
  pw_child_session_id : string;
  pw_parent_session_id : string;
  pw_period_seconds : Z;
  pw_is_active : bool }.
Record ParentRoutingMessageRow : Type := MessageRoute {
  pmr_id : string;
  pmr_child_session_id : string;
  pmr_parent_session_id : string;
  pmr_creates_parent_wake : bool }.
Record ParentRoutingSnapshot : Type := Snapshot {
  wake_rows : list ParentRoutingWakeRow;
  message_rows : list ParentRoutingMessageRow }.
Record ParentRoutingRetargetResult : Type := RetargetResult {
  delivered_message_rows : list ParentRoutingMessageRow }.

Definition wake_route (r : wake_row) : ParentRoutingWakeRow :=
  WakeRoute (wake_id r) (wake_child_session_id r) (wake_parent_session_id r)
    (wake_period_seconds r) (negb (wake_is_active r =? 0)).

Definition message_route (r : message_row) : ParentRoutingMessageRow :=
  MessageRoute (msg_id r) (msg_target_session_id r) (unwrap_or ""%string (msg_parent_session_id r))
    (is_some (msg_remind_soft_threshold r)).

Definition snapshot_parent_routing_conn (child expected_parent : string) : MQ ParentRoutingSnapshot :=
  wakes <- query (fun d =>
    map wake_route (order_by (fun a b => text_leb (wake_id a) (wake_id b))
      (select (fun r => (wake_child_session_id r =?s child)
                        && (wake_parent_session_id r =?s expected_parent)
                        && (wake_is_active r =? 1)) (wakes d)))) ;;
  messages <- query (fun d =>
    map message_route
      (order_by (fun a b => text_leb (msg_id a) (msg_id b))
        (select (fun r => (msg_target_session_id r =?s child)
                          && opt_str_eqb (msg_parent_session_id r) (Some expected_parent)
                          && undelivered r) (messages d)))) ;;
  ret (Snapshot wakes messages).

Definition snapshot_parent_routing (child expected_parent : string) : MQ ParentRoutingSnapshot :=
  with_connection (snapshot_parent_routing_conn child expected_parent).

Definition parent_routing_wake_row_conn (record_id : string) : MQ (option ParentRoutingWakeRow) :=
  query (fun d => option_map wake_route (lookup_row wake_id record_id (wakes d))).
Definition parent_routing_message_state_conn (record_id : string)
    : MQ (option (string * option string * bool)) :=
  query (fun d =>
    option_map (fun r => (msg_target_session_id r, msg_parent_session_id r, is_some (msg_delivered_at r)))
      (lookup_row msg_id record_id (messages d))).
Definition with_immediate_transaction {A} (action : MQ A) : MQ A := transaction action.

(** [UPDATE parent_wake_registrations .. WHERE id = ?1]. *)
Definition update_wake (id : string) (f : wake_row -> wake_row) : MQ unit :=
  execute (fun d => (d <| wakes := update (has_key wake_id id) f (wakes d) |>,
                     changes (has_key wake_id id) (wakes d))) ;;; ret tt.
(** [UPDATE message_queue SET parent_session_id = ?2 WHERE id = ?1 AND delivered_at IS NULL]. *)
Definition update_parent (id : string) (parent : option string) : MQ unit :=
  execute (fun d =>
    let p r := has_key msg_id id r && undelivered r in
    (d <| messages := update p (fun r => r <| msg_parent_session_id := parent |>) (messages d) |>,
     changes p (messages d))) ;;; ret tt.

(** The body of each loop. *)
Definition quiesce_wake (wake : ParentRoutingWakeRow) : MQ unit :=
  found <- parent_routing_wake_row_conn (pw_id wake) ;;
  current <- expect ("parent wake " +:+ pw_id wake +:+ " disappeared") found ;;
  if negb (pw_child_session_id current =?s pw_child_session_id wake)
     || negb (pw_parent_session_id current =?s pw_parent_session_id wake)
     || negb (pw_period_seconds current =? pw_period_seconds wake)
     || (negb (Bool.eqb (pw_is_active current) (pw_is_active wake)) && pw_is_active current)
  then bail ("parent wake " +:+ pw_id wake +:+ " changed after planning")
  else update_wake (pw_id wake) (fun r => r <| wake_is_active := 0 |>).

Definition quiesce_message (message : ParentRoutingMessageRow) : MQ unit :=
  found <- parent_routing_message_state_conn (pmr_id message) ;;
  let* (current_child, current_parent, delivered) :=
    expect ("queue message " +:+ pmr_id message +:+ " disappeared") found in
  if negb (current_child =?s pmr_child_session_id message)
     || (negb (opt_str_eqb current_parent (Some (pmr_parent_session_id message)))
         && is_some current_parent)
  then bail ("queue message " +:+ pmr_id message +:+ " changed after planning")
  else if delivered : bool
  then bail ("queue message " +:+ pmr_id message +:+ " delivered before quiesce")
  else update_parent (pmr_id message) None.

Definition quiesce_parent_routing (snapshot : ParentRoutingSnapshot) : MQ unit :=
  with_connection (with_immediate_transaction (
    for_each (wake_rows snapshot) quiesce_wake ;;;
    for_each (message_rows snapshot) quiesce_message)).

Definition retarget_wake (new_parent : option string) (wake : ParentRoutingWakeRow) : MQ unit :=
  found <- parent_routing_wake_row_conn (pw_id wake) ;;
  current <- expect ("parent wake " +:+ pw_id wake +:+ " disappeared") found ;;
  let valid :=
    (pw_child_session_id current =?s pw_child_session_id wake)
    && (pw_period_seconds current =? pw_period_seconds wake)
    && (((pw_parent_session_id current =?s pw_parent_session_id wake)
         && Bool.eqb (pw_is_active current) (pw_is_active wake))
        || ((pw_parent_session_id current =?s pw_parent_session_id wake)
            && negb (pw_is_active current))
        || match new_parent with
           | Some new_parent =>
               (pw_parent_session_id current =?s new_parent)
               && Bool.eqb (pw_is_active current) (pw_is_active wake)
           | None => false
           end) in
  if negb valid then bail ("parent wake " +:+ pw_id wake +:+ " changed after planning")
  else match new_parent with
  | Some new_parent =>
      update_wake (pw_id wake) (fun r =>
        r <| wake_parent_session_id := new_parent |>
          <| wake_is_active := if pw_is_active wake then 1 else 0 |>)
  | None => update_wake (pw_id wake) (fun r => r <| wake_is_active := 0 |>)
  end.

Definition retarget_message (new_parent : option string)
    (delivered_rows : list ParentRoutingMessageRow) (message : ParentRoutingMessageRow)
    : MQ (list ParentRoutingMessageRow) :=
  found <- parent_routing_message_state_conn (pmr_id message) ;;
  let* (current_child, current_parent, delivered) :=
    expect ("queue message " +:+ pmr_id message +:+ " disappeared") found in
  if negb (current_child =?s pmr_child_session_id message)
     || (negb (opt_str_eqb current_parent (Some (pmr_parent_session_id message)))
         && is_some current_parent
         && negb (opt_str_eqb current_parent new_parent))
  then bail ("queue message " +:+ pmr_id message +:+ " changed after planning")
  else if delivered : bool then ret (delivered_rows ++ [message])%list
  else update_parent (pmr_id message) new_parent ;;; ret delivered_rows.

Definition retarget_parent_routing (snapshot : ParentRoutingSnapshot) (new_parent : option string)
    : MQ ParentRoutingRetargetResult :=
  with_connection (with_immediate_transaction (
    for_each (wake_rows snapshot) (retarget_wake new_parent) ;;;
    delivered <- fold_each (message_rows snapshot) [] (retarget_message new_parent) ;;
    ret (RetargetResult delivered))).

(** ** Loops that re-validate and rewrite rows by key

    A loop over planned changes [l]: the body finds the row under the planned key,
    checks it and rewrites it.  [rewrite_rows] is what the loop does to the table. *)
Section KeyedLoop.
Context {K row B : Type} (kid : K -> string) (key : row -> string).

Definition rewrite_rows (f : K -> row -> row) (l : list K) (t : list row) : list row :=
  map (fun r => match List.find (fun k => kid k =?s key r) l with Some k => f k r | None => r end) t.

Context (f : K -> row -> row).
Hypothesis f_key : forall k r, key (f k r) = key r.

Lemma rewrite_rows_nil t : rewrite_rows f [] t = t.
Proof. unfold rewrite_rows. cbn. apply map_id. Qed.

Lemma find_not_in k (l : list K) : ~ In (kid k) (map kid l) -> List.find (fun k' => kid k' =?s kid k) l = None.
Proof.
  intros H. destruct (List.find _ l) as [k'|] eqn:E; [|done]. apply find_some in E as [Hin Hk].
  bool_simpl. destruct H. rewrite <- Hk. by apply in_map.
Qed.

Lemma rewrite_rows_cons k l t :
  ~ In (kid k) (map kid l) ->
  rewrite_rows f l (update (has_key key (kid k)) (f k) t) = rewrite_rows f (k :: l) t.
Proof.
  intros Hni. unfold rewrite_rows, update. rewrite map_map. apply map_ext. intros r. cbn.
  unfold has_key. rewrite (String.eqb_sym (kid k)).
  destruct (String.eqb_spec (key r) (kid k)) as [Hk|]; [|done].
  by rewrite f_key, Hk, find_not_in.
Qed.

Lemma lookup_rewrite_rows id l t :
  lookup_row key id (rewrite_rows f l t) =
  option_map (fun r => match List.find (fun k => kid k =?s id) l with Some k => f k r | None => r end)
    (lookup_row key id t).
Proof.
  unfold lookup_row, rewrite_rows. induction t as [|r t IH]; cbn; [done|].
  assert (has_key key id (match List.find (fun k => kid k =?s key r) l with Some k => f k r | None => r end)
          = has_key key id r) as ->.
  { unfold has_key. by destruct (List.find (fun k => kid k =?s key r) l); rewrite ?f_key. }
  destruct (has_key key id r) eqn:E; [|done]. unfold has_key in E. bool_simpl. by rewrite E.
Qed.

Lemma rewrite_rows_compose g l t :
  rewrite_rows g l (rewrite_rows f l t) = rewrite_rows (fun k r => g k (f k r)) l t.
Proof.
  unfold rewrite_rows. rewrite map_map. apply map_ext. intros r.
  destruct (List.find (fun k => kid k =?s key r) l) as [k|] eqn:E; [|by rewrite E].
  by rewrite f_key, E.
Qed.

Lemma rewrite_rows_ext g l t :
  (forall k r, In k l -> f k r = g k r) -> rewrite_rows f l t = rewrite_rows g l t.
Proof.
  intros H. unfold rewrite_rows. apply map_ext. intros r.
  destruct (List.find _ l) as [k|] eqn:E; [|done]. apply H. by apply find_some in E as [? _].
Qed.

Lemma find_planned k (l : list K) :
  NoDup (map kid l) -> In k l -> List.find (fun k' => kid k' =?s kid k) l = Some k.
Proof.
  induction l as [|x l IH]; [done|]. cbn. rewrite NoDup_cons, list_elem_of_In. intros [Hni Hnd] [->|Hin].
  - by rewrite String.eqb_refl.
  - destruct (String.eqb_spec (kid x) (kid k)) as [Heq|]; [|by apply IH].
    destruct Hni. rewrite Heq. by apply in_map.
Qed.

(** The loop, on a table of the database given by [get] and [put]. *)
Context (get : mqdb -> list row) (put : list row -> mqdb -> mqdb).
Hypothesis get_put : forall t d, get (put t d) = t.
Hypothesis put_put : forall t t' d, put t (put t' d) = put t d.
Hypothesis put_get : forall d, put (get d) d = d.
Context (ok : K -> row -> bool) (out : B -> K -> row -> B) (body : B -> K -> MQ B).
Hypothesis body_ok : forall b k d n cur,
  unique key (get d) -> lookup_row key (kid k) (get d) = Some cur -> ok k cur = true ->
  body b k (World d n) = (Ok (out b k cur), World (put (update (has_key key (kid k)) (f k) (get d)) d) n).
Hypothesis body_inv : forall b k w b' w',
  body b k w = (Ok b', w') ->
  exists cur, lookup_row key (kid k) (get (w_db w)) = Some cur /\ ok k cur = true.

(** Every planned row is there and passes its check. *)
Definition plan_valid (l : list K) (t : list row) : Prop :=
  forall k, In k l -> exists cur, lookup_row key (kid k) t = Some cur /\ ok k cur = true.
Definition plan_output (b : B) (l : list K) (t : list row) : B :=
  fold_left (fun b k => match lookup_row key (kid k) t with Some cur => out b k cur | None => b end) l b.

Lemma lookup_other k k' t :
  kid k' <> kid k ->
  lookup_row key (kid k') (update (has_key key (kid k)) (f k) t) = lookup_row key (kid k') t.
Proof.
  intros Hne. rewrite (lookup_row_update key) by done. destruct (lookup_row key (kid k') t) as [r|] eqn:E; [|done].
  apply lookup_row_Some in E as [_ Hk]. cbn. unfold has_key. by destruct (String.eqb_spec (key r) (kid k)); [congruence|].
Qed.

Lemma NoDup_ids_cons k (l : list K) :
  NoDup (map kid (k :: l)) -> ~ In (kid k) (map kid l) /\ NoDup (map kid l).
Proof. cbn. rewrite NoDup_cons, list_elem_of_In. done. Qed.

Lemma plan_output_update k b l t :
  ~ In (kid k) (map kid l) ->
  plan_output b l (update (has_key key (kid k)) (f k) t) = plan_output b l t.
Proof.
  unfold plan_output. revert b. induction l as [|k' l IH]; intros b Hni; cbn in *; [done|].
  rewrite lookup_other by (intros Heq; apply Hni; left; congruence). apply IH. intros H. apply Hni. by right.
Qed.

Lemma loop_ok b l d n :
  NoDup (map kid l) -> unique key (get d) -> plan_valid l (get d) ->
  fold_each l b body (World d n) =
  (Ok (plan_output b l (get d)), World (put (rewrite_rows f l (get d)) d) n).
Proof.
  revert b d. induction l as [|k l IH]; intros b d Hnd Hu Hv; cbn [fold_each].
  - rewrite rewrite_rows_nil, put_get. done.
  - apply NoDup_ids_cons in Hnd as [Hni Hnd].
    destruct (Hv k (or_introl eq_refl)) as (cur & Hl & Hok). unfold bind. rewrite (body_ok b k d n cur) by done.
    rewrite IH, get_put, put_put, rewrite_rows_cons, plan_output_update;
      [|done|done|done|by rewrite get_put; apply unique_update|].
    + do 2 f_equal. unfold plan_output. cbn. by rewrite Hl.
    + intros k' Hk'. rewrite get_put, lookup_other; [by apply Hv; right|].
      intros Heq. apply Hni. rewrite <- Heq. by apply in_map.
Qed.

Lemma loop_inv b l w b' w' :
  NoDup (map kid l) -> unique key (get (w_db w)) ->
  fold_each l b body w = (Ok b', w') -> plan_valid l (get (w_db w)).
Proof.
  revert b w. induction l as [|k l IH]; intros b w Hnd Hu H; [by intros k []|].
  apply NoDup_ids_cons in Hnd as [Hni Hnd]. cbn [fold_each] in H.
  apply bind_Ok_inv in H as (b1 & w1 & H1 & H). destruct (body_inv _ _ _ _ _ H1) as (cur & Hl & Hok).
  destruct w as [d n]. rewrite (body_ok b k d n cur) in H1 by done. injection H1 as <- <-.
  apply IH in H; [|done|by cbn; rewrite get_put; apply unique_update]. cbn in *. rewrite get_put in H.
  intros k' [<-|Hk']; [by eauto|]. rewrite <- (lookup_other k k'); [by apply H|].
  intros Heq. apply Hni. rewrite <- Heq. by apply in_map.
Qed.
End KeyedLoop.

#[global] Arguments rewrite_rows : simpl never.

Lemma for_each_fold {S A} (l : list A) (body : A -> M S unit) s :
  for_each l body s = fold_each l tt (fun _ k => body k) s.
Proof.
  revert s. induction l as [|x l IH]; intros s; cbn; [done|]. unfold bind.
  destruct (body x s) as [[[]|e|] s']; [apply IH|done..].
Qed.

(** ** The four loops *)
Lemma update_guard {row} (p q : row -> bool) g t :
  update (fun r => p r && q r) g t = update p (fun r => if q r then g r else r) t.
Proof. unfold update. apply map_ext. intros r. by destruct (p r), (q r). Qed.

Lemma update_keyed_id {row} (key : row -> string) k f t r :
  unique key t -> lookup_row key k t = Some r -> f r = r -> update (has_key key k) f t = t.
Proof.
  intros Hu Hl Hf. apply lookup_row_Some in Hl as [Hin Hk]. unfold update.
  rewrite <- (map_id t) at 2. apply map_ext_in. intros x Hx. unfold has_key.
  destruct (String.eqb_spec (key x) k); [|done].
  by rewrite (unique_inj key t x r) by congruence.
Qed.

Definition put_wakes (t : list wake_row) (d : mqdb) : mqdb := d <| wakes := t |>.
Definition put_messages (t : list message_row) (d : mqdb) : mqdb := d <| messages := t |>.

Section Loops.
Context (new_parent : option string).

(** What the hand-over does to a planned wake, and to a planned message. *)
Definition quieted_wake (_ : ParentRoutingWakeRow) (r : wake_row) : wake_row := r <| wake_is_active := 0 |>.
Definition retargeted_wake (k : ParentRoutingWakeRow) (r : wake_row) : wake_row :=
  match new_parent with
  | Some p => r <| wake_parent_session_id := p |> <| wake_is_active := if pw_is_active k then 1 else 0 |>
  | None => r <| wake_is_active := 0 |>
  end.
Definition reparented (parent : option string) (_ : ParentRoutingMessageRow) (r : message_row) : message_row :=
  if undelivered r then r <| msg_parent_session_id := parent |> else r.

(** The checks. *)
Definition quiesce_wake_ok (k : ParentRoutingWakeRow) (r : wake_row) : bool :=
  negb (negb (wake_child_session_id r =?s pw_child_session_id k)
        || negb (wake_parent_session_id r =?s pw_parent_session_id k)
        || negb (wake_period_seconds r =? pw_period_seconds k)
        || (negb (Bool.eqb (negb (wake_is_active r =? 0)) (pw_is_active k)) && negb (wake_is_active r =? 0))).
Definition quiesce_message_ok (k : ParentRoutingMessageRow) (r : message_row) : bool :=
  negb (negb (msg_target_session_id r =?s pmr_child_session_id k)
        || (negb (opt_str_eqb (msg_parent_session_id r) (Some (pmr_parent_session_id k)))
            && is_some (msg_parent_session_id r)))
  && undelivered r.
Definition retarget_wake_ok (k : ParentRoutingWakeRow) (r : wake_row) : bool :=
  let active := negb (wake_is_active r =? 0) in
  (wake_child_session_id r =?s pw_child_session_id k)
  && (wake_period_seconds r =? pw_period_seconds k)
  && (((wake_parent_session_id r =?s pw_parent_session_id k) && Bool.eqb active (pw_is_active k))
      || ((wake_parent_session_id r =?s pw_parent_session_id k) && negb active)
      || match new_parent with
         | Some p => (wake_parent_session_id r =?s p) && Bool.eqb active (pw_is_active k)
         | None => false
         end).
Definition retarget_message_ok (k : ParentRoutingMessageRow) (r : message_row) : bool :=
  negb (negb (msg_target_session_id r =?s pmr_child_session_id k)
        || (negb (opt_str_eqb (msg_parent_session_id r) (Some (pmr_parent_session_id k)))
            && is_some (msg_parent_session_id r)
            && negb (opt_str_eqb (msg_parent_session_id r) new_parent))).
Definition note_delivered (b : list ParentRoutingMessageRow) (k : ParentRoutingMessageRow) (r : message_row)
    : list ParentRoutingMessageRow := if undelivered r then b else (b ++ [k])%list.

Lemma quiesce_wake_run k w :
  quiesce_wake k w =
  match lookup_row wake_id (pw_id k) (wakes (w_db w)) with
  | None => (Err ("parent wake " +:+ pw_id k +:+ " disappeared"), w)
  | Some cur =>
      if quiesce_wake_ok k cur
      then (Ok tt, World (put_wakes (update (has_key wake_id (pw_id k)) (quieted_wake k) (wakes (w_db w))) (w_db w)) (w_tick w))
      else (Err ("parent wake " +:+ pw_id k +:+ " changed after planning"), w)
  end.
Proof.
  unfold quiesce_wake, bind, quiesce_wake_ok. cbn -[String.append].
  destruct (lookup_row wake_id (pw_id k) (wakes (w_db w))) as [cur|]; cbn -[String.append]; [|done].
  by destruct (_ || _).
Qed.

Lemma retarget_wake_run k w :
  retarget_wake new_parent k w =
  match lookup_row wake_id (pw_id k) (wakes (w_db w)) with
  | None => (Err ("parent wake " +:+ pw_id k +:+ " disappeared"), w)
  | Some cur =>
      if retarget_wake_ok k cur
      then (Ok tt, World (put_wakes (update (has_key wake_id (pw_id k)) (retargeted_wake k) (wakes (w_db w))) (w_db w)) (w_tick w))
      else (Err ("parent wake " +:+ pw_id k +:+ " changed after planning"), w)
  end.
Proof.
  unfold retarget_wake, bind. cbn -[String.append].
  destruct (lookup_row wake_id (pw_id k) (wakes (w_db w))) as [cur|]; cbn -[String.append]; [|done].
  fold (retarget_wake_ok k cur). destruct (retarget_wake_ok k cur); cbn -[String.append]; [|done].
  unfold retargeted_wake. by destruct new_parent.
Qed.

Lemma quiesce_message_run k w :
  quiesce_message k w =
  match lookup_row msg_id (pmr_id k) (messages (w_db w)) with
  | None => (Err ("queue message " +:+ pmr_id k +:+ " disappeared"), w)
  | Some cur =>
      if quiesce_message_ok k cur
      then (Ok tt, World (put_messages (update (has_key msg_id (pmr_id k)) (reparented None k) (messages (w_db w))) (w_db w)) (w_tick w))
      else (Err (if undelivered cur then "queue message " +:+ pmr_id k +:+ " changed after planning"
                 else if quiesce_message_ok k (cur <| msg_delivered_at := None |>)
                 then "queue message " +:+ pmr_id k +:+ " delivered before quiesce"
                 else "queue message " +:+ pmr_id k +:+ " changed after planning"), w)
  end.
Proof.
  unfold quiesce_message, bind. cbn -[String.append].
  destruct (lookup_row msg_id (pmr_id k) (messages (w_db w))) as [cur|]; cbn -[String.append]; [|done].
  unfold quiesce_message_ok, undelivered, is_none. cbn -[String.append].
  destruct (negb (msg_target_session_id cur =?s pmr_child_session_id k) || _); cbn -[String.append].
  - by destruct (is_some (msg_delivered_at cur)).
  - destruct (is_some (msg_delivered_at cur)); cbn -[String.append]; [done|].
    by rewrite update_guard.
Qed.

Lemma retarget_message_run b k w :
  unique msg_id (messages (w_db w)) ->
  retarget_message new_parent b k w =
  match lookup_row msg_id (pmr_id k) (messages (w_db w)) with
  | None => (Err ("queue message " +:+ pmr_id k +:+ " disappeared"), w)
  | Some cur =>
      if retarget_message_ok k cur
      then (Ok (note_delivered b k cur),
            World (put_messages (update (has_key msg_id (pmr_id k)) (reparented new_parent k) (messages (w_db w))) (w_db w)) (w_tick w))
      else (Err ("queue message " +:+ pmr_id k +:+ " changed after planning"), w)
  end.
Proof.
  intros Hu. unfold retarget_message, bind. cbn -[String.append].
  destruct (lookup_row msg_id (pmr_id k) (messages (w_db w))) as [cur|] eqn:Hl; cbn -[String.append]; [|done].
  unfold retarget_message_ok, note_delivered. destruct (_ || _); cbn -[String.append]; [done|].
  destruct (undelivered cur) eqn:Hd; unfold undelivered, is_none in Hd; bool_simpl; rewrite Hd; cbn -[String.append].
  - by rewrite update_guard.
  - rewrite (update_keyed_id msg_id _ _ _ cur); [by destruct w as [[]]|done|done|].
    unfold reparented, undelivered, is_none. by rewrite Hd.
Qed.
End Loops.

(** ** The two transactions *)
(** A plan names every row once, as a snapshot does. *)
Definition plan_distinct (s : ParentRoutingSnapshot) : Prop :=
  NoDup (map pw_id (wake_rows s)) /\ NoDup (map pmr_id (message_rows s)).

Definition quieted (s : ParentRoutingSnapshot) (d : mqdb) : mqdb :=
  put_messages (rewrite_rows pmr_id msg_id (reparented None) (message_rows s) (messages d))
    (put_wakes (rewrite_rows pw_id wake_id quieted_wake (wake_rows s) (wakes d)) d).
Definition retargeted (s : ParentRoutingSnapshot) (new_parent : option string) (d : mqdb) : mqdb :=
  put_messages (rewrite_rows pmr_id msg_id (reparented new_parent) (message_rows s) (messages d))
    (put_wakes (rewrite_rows pw_id wake_id (retargeted_wake new_parent) (wake_rows s) (wakes d)) d).
Definition quiesce_valid (s : ParentRoutingSnapshot) (d : mqdb) : Prop :=
  plan_valid pw_id wake_id quiesce_wake_ok (wake_rows s) (wakes d) /\
  plan_valid pmr_id msg_id quiesce_message_ok (message_rows s) (messages d).
Definition retarget_valid (s : ParentRoutingSnapshot) (new_parent : option string) (d : mqdb) : Prop :=
  plan_valid pw_id wake_id (retarget_wake_ok new_parent) (wake_rows s) (wakes d) /\
  plan_valid pmr_id msg_id (retarget_message_ok new_parent) (message_rows s) (messages d).
(** The planned messages that have been delivered. *)
Definition delivered_in (d : mqdb) (k : ParentRoutingMessageRow) : bool :=
  match lookup_row msg_id (pmr_id k) (messages d) with Some r => is_some (msg_delivered_at r) | None => false end.

Lemma plan_output_delivered b l t :
  plan_output pmr_id msg_id note_delivered b l t =
  (b ++ List.filter (fun k => match lookup_row msg_id (pmr_id k) t with
                              | Some r => is_some (msg_delivered_at r) | None => false end) l)%list.
Proof.
  unfold plan_output. revert b. induction l as [|k l IH]; intros b; cbn; [by rewrite app_nil_r|].
  rewrite IH. destruct (lookup_row msg_id (pmr_id k) t) as [r|]; [|done].
  unfold note_delivered, undelivered, is_none. destruct (is_some (msg_delivered_at r)); cbn; [|done].
  by rewrite <- app_assoc.
Qed.

Lemma reparented_key p k r : msg_id (reparented p k r) = msg_id r.
Proof. unfold reparented. by destruct (undelivered r). Qed.
Lemma retargeted_wake_key p k r : wake_id (retargeted_wake p k r) = wake_id r.
Proof. unfold retargeted_wake. by destruct p. Qed.
Lemma put_messages_get d : put_messages (messages d) d = d.
Proof. by destruct d. Qed.
Lemma put_wakes_get d : put_wakes (wakes d) d = d.
Proof. by destruct d. Qed.

Section Transactions.
Context (s : ParentRoutingSnapshot) (Hs : plan_distinct s).

(** The runs of the four loops on a database with unique keys. *)
Lemma quiesce_loops d n :
  mq_wf d -> quiesce_valid s d ->
  (for_each (wake_rows s) quiesce_wake ;;; for_each (message_rows s) quiesce_message) (World d n)
  = (Ok tt, World (quieted s d) n).
Proof.
  intros Hwf [Hw Hm]. destruct Hs as [Hs1 Hs2]. unfold bind. rewrite for_each_fold.
  rewrite (loop_ok pw_id wake_id quieted_wake (fun _ _ => eq_refl) wakes put_wakes (fun _ _ => eq_refl)
             (fun _ _ _ => eq_refl) put_wakes_get quiesce_wake_ok (fun _ _ _ => tt));
    [|by intros b k d0 n0 cur _ Hl Hok; rewrite quiesce_wake_run; cbn; rewrite Hl, Hok
     |done|apply Hwf|done].
  rewrite for_each_fold.
  rewrite (loop_ok pmr_id msg_id (reparented None) (reparented_key None) messages put_messages (fun _ _ => eq_refl)
             (fun _ _ _ => eq_refl) put_messages_get quiesce_message_ok (fun _ _ _ => tt));
    [by destruct (plan_output _ _ _ _ _ _)
    |by intros b k d0 n0 cur _ Hl Hok; rewrite quiesce_message_run; cbn; rewrite Hl, Hok
    |done|apply Hwf|done].
Qed.

Lemma retarget_wakes_run p d n :
  mq_wf d -> plan_valid pw_id wake_id (retarget_wake_ok p) (wake_rows s) (wakes d) ->
  for_each (wake_rows s) (retarget_wake p) (World d n) =
  (Ok tt, World (put_wakes (rewrite_rows pw_id wake_id (retargeted_wake p) (wake_rows s) (wakes d)) d) n).
Proof.
  intros Hwf Hw. rewrite for_each_fold.
  rewrite (loop_ok pw_id wake_id (retargeted_wake p) (retargeted_wake_key p) wakes put_wakes (fun _ _ => eq_refl)
             (fun _ _ _ => eq_refl) put_wakes_get (retarget_wake_ok p) (fun _ _ _ => tt));
    [by destruct (plan_output _ _ _ _ _ _)
    |by intros b k d0 n0 cur _ Hl Hok; rewrite retarget_wake_run; cbn; rewrite Hl, Hok
    |apply Hs|apply Hwf|done].
Qed.

Lemma retarget_messages_body p b k d n cur :
  unique msg_id (messages d) -> lookup_row msg_id (pmr_id k) (messages d) = Some cur ->
  retarget_message_ok p k cur = true ->
  retarget_message p b k (World d n) =
  (Ok (note_delivered b k cur),
   World (put_messages (update (has_key msg_id (pmr_id k)) (reparented p k) (messages d)) d) n).
Proof. intros Hu Hl Hok. rewrite retarget_message_run by done. cbn. by rewrite Hl, Hok. Qed.

Lemma retarget_loops p d n :
  mq_wf d -> retarget_valid s p d ->
  (for_each (wake_rows s) (retarget_wake p) ;;;
   delivered <- fold_each (message_rows s) [] (retarget_message p) ;;
   ret (RetargetResult delivered)) (World d n)
  = (Ok (RetargetResult (List.filter (delivered_in d) (message_rows s))), World (retargeted s p d) n).
Proof.
  intros Hwf [Hw Hm]. unfold bind at 1. rewrite retarget_wakes_run by done. unfold bind.
  rewrite (loop_ok pmr_id msg_id (reparented p) (reparented_key p) messages put_messages (fun _ _ => eq_refl)
             (fun _ _ _ => eq_refl) put_messages_get (retarget_message_ok p) note_delivered);
    [|apply retarget_messages_body|apply Hs|apply Hwf|done].
  rewrite plan_output_delivered. done.
Qed.

Lemma retarget_loops_inv p d n r w' :
  mq_wf d ->
  (for_each (wake_rows s) (retarget_wake p) ;;;
   delivered <- fold_each (message_rows s) [] (retarget_message p) ;;
   ret (RetargetResult delivered)) (World d n) = (Ok r, w') -> retarget_valid s p d.
Proof.
  intros Hwf H. apply bind_Ok_inv in H as ([] & w1 & H1 & H).
  assert (Hw : plan_valid pw_id wake_id (retarget_wake_ok p) (wake_rows s) (wakes d)).
  { rewrite for_each_fold in H1.
    eapply (loop_inv pw_id wake_id (retargeted_wake p) (retargeted_wake_key p) wakes put_wakes (fun _ _ => eq_refl)
              (retarget_wake_ok p) (fun _ _ _ => tt)) in H1; [exact H1|..|apply Hs|apply Hwf].
    - by intros b k d0 n0 cur _ Hl Hok; rewrite retarget_wake_run; cbn; rewrite Hl, Hok.
    - intros b k w0 b' w0' Hrun. rewrite retarget_wake_run in Hrun.
      destruct (lookup_row _ _ _) as [cur|]; [|done]. destruct (retarget_wake_ok p k cur) eqn:E; [eauto|done]. }
  split; [done|]. rewrite retarget_wakes_run in H1 by done.
  injection H1 as <-. apply bind_Ok_inv in H as (out & w2 & H2 & _).
  eapply (loop_inv pmr_id msg_id (reparented p) (reparented_key p) messages put_messages (fun _ _ => eq_refl)
            (retarget_message_ok p) note_delivered) in H2; [exact H2|..|apply Hs|apply Hwf].
  - apply retarget_messages_body.
  - intros b k w0 b' w0' Hrun. unfold retarget_message, bind in Hrun. cbn -[String.append] in Hrun.
    destruct (lookup_row msg_id (pmr_id k) (messages (w_db w0))) as [cur|]; cbn -[String.append] in Hrun; [|done].
    exists cur. split; [done|]. unfold retarget_message_ok. by destruct (_ || _).
Qed.

End Transactions.

(** ** Keys stay unique, delivered messages stay *)
Section Safety.
Context `{T : TimeCrate} `{E : Env}.

Lemma update_wake_safe id f :
  (forall r, wake_id (f r) = wake_id r) -> (forall r, wake_child_session_id (f r) = wake_child_session_id r) ->
  steps (on_db mq_safe) (update_wake id f).
Proof. intros H1 H2. unfold update_wake. db_steps. safe_table; by apply unique_update. Qed.
Lemma update_parent_safe id p : steps (on_db mq_safe) (update_parent id p).
Proof. unfold update_parent. db_steps. apply update_messages_safe; [|done]. intros r Hr. by bool_simpl. Qed.
#[local] Hint Resolve update_parent_safe : steps.

Lemma snapshot_parent_routing_safe child parent : steps (on_db mq_safe) (snapshot_parent_routing child parent).
Proof. unfold snapshot_parent_routing, snapshot_parent_routing_conn. apply with_connection_safe. db_steps. Qed.

Lemma quiesce_safe s : steps (on_db mq_safe) (quiesce_parent_routing s).
Proof.
  unfold quiesce_parent_routing, with_immediate_transaction, quiesce_wake, quiesce_message,
    parent_routing_wake_row_conn, parent_routing_message_state_conn.
  apply with_connection_safe. db_steps. by apply update_wake_safe.
Qed.

Lemma retarget_safe s p : steps (on_db mq_safe) (retarget_parent_routing s p).
Proof.
  unfold retarget_parent_routing, with_immediate_transaction, retarget_wake, retarget_message,
    parent_routing_wake_row_conn, parent_routing_message_state_conn.
  apply with_connection_safe. db_steps; by apply update_wake_safe.
Qed.
End Safety.
#[export] Hint Resolve snapshot_parent_routing_safe quiesce_safe retarget_safe : steps.

(** ** Plans made by a snapshot *)
Section Planned.
Context {K row : Type} (kid : K -> string) (key : row -> string) (plan : row -> K).
Hypothesis plan_key : forall r, kid (plan r) = key r.
Context (leb : row -> row -> bool) (sel : row -> bool).

Definition planned (t : list row) : list K := map plan (order_by leb (select sel t)).

Lemma in_planned t k : In k (planned t) <-> exists r, k = plan r /\ In r t /\ sel r = true.
Proof.
  unfold planned. rewrite in_map_iff. split; intros (r & H).
  - exists r. destruct H as [<- H]. by rewrite in_order_by, in_select in H.
  - exists r. rewrite in_order_by, in_select. destruct H as [-> H]. done.
Qed.

Lemma planned_distinct t : unique key t -> NoDup (map kid (planned t)).
Proof.
  intros Hu. unfold planned. rewrite map_map, (map_ext _ key) by done.
  by apply unique_listing.
Qed.

(** A planned rewrite changes exactly the selected rows. *)
Lemma rewrite_planned f t :
  unique key t -> rewrite_rows kid key f (planned t) t = update sel (fun r => f (plan r) r) t.
Proof.
  intros Hu. unfold rewrite_rows, update. apply map_ext_in. intros r Hr.
  destruct (sel r) eqn:Hsel.
  - rewrite <- (plan_key r), (find_planned kid (plan r)); [done|by apply planned_distinct|].
    apply in_planned. by exists r.
  - destruct (List.find _ _) as [k|] eqn:Hf; [|done]. apply find_some in Hf as [Hin Hk].
    apply in_planned in Hin as (r' & -> & Hr' & Hs'). bool_simpl. rewrite plan_key in Hk.
    rewrite (unique_inj key t r' r) in Hs' by done. congruence.
Qed.
End Planned.

(** ** Claims about the hand-over *)
Lemma init_schema_put s p d : init_schema (retargeted s p (init_schema d)) = retargeted s p (init_schema d).
Proof. by apply (init_schema_migrated _ d). Qed.

(** Retargeting is all or nothing and does exactly what was planned.  It returns
    just when every planned wake and message is still there unchanged, or changed
    only by this hand-over; then every planned wake points to the new parent with
    its planned activity (or is inactive when there is none), every planned
    undelivered message names the new parent, no other row changes, and the result
    lists exactly the planned messages that have meanwhile been delivered.
    Otherwise no table changes. *)
Theorem retarget_exact {T : TimeCrate} {E : Env} s new_parent w :
  mq_wf (w_db w) -> plan_distinct s ->
  match retarget_parent_routing s new_parent w with
  | (Ok result, w') =>
      retarget_valid s new_parent (w_db w) /\
      w_db w' = retargeted s new_parent (init_schema (w_db w)) /\
      delivered_message_rows result = List.filter (delivered_in (w_db w)) (message_rows s)
  | (_, w') => ~ retarget_valid s new_parent (w_db w) /\ w_db w' = init_schema (w_db w)
  end.
Proof.
  intros Hwf Hs. apply init_schema_wf in Hwf.
  unfold retarget_parent_routing, with_connection, with_immediate_transaction, transaction.
  match goal with |- context [match ?m ?w0 with _ => _ end] => destruct (m w0) as [[res|e|] w'] eqn:Hrun end.
  - pose proof (retarget_loops_inv s Hs _ _ _ _ _ Hwf Hrun) as Hv.
    rewrite (retarget_loops s Hs) in Hrun by done. by injection Hrun as <- <-.
  - split; [|done]. intros Hv. by rewrite (retarget_loops s Hs) in Hrun.
  - split; [|done]. intros Hv. by rewrite (retarget_loops s Hs) in Hrun.
Qed.

(** A child with an active wake and an undelivered message for its parent. *)
Definition demo_child : world mqdb :=
  snd (enqueue_message_with_metadata "child" "hello" "sequential"
         (default_metadata <| md_parent_session_id := Some "old"%string |>)
         (snd (register_parent_wake "child" "old" 600 (World empty_mqdb 0)))).
Definition demo_snapshot : ParentRoutingSnapshot :=
  match fst (snapshot_parent_routing "child" "old" demo_child) with Ok s => s | _ => Snapshot [] [] end.
Lemma demo_child_wf : mq_wf (w_db demo_child).
Proof.
  unfold demo_child, enqueue_message_with_metadata, register_parent_wake.
  apply (with_connection_safe _ (enqueue_conn_safe _ _ _ _)).
  apply (with_connection_safe _ (register_parent_wake_conn_safe _ _ _) (World empty_mqdb 0)), empty_mqdb_wf.
Qed.

Lemma retarget_exact_witness :
  match retarget_parent_routing demo_snapshot (Some "new"%string) demo_child with
  | (Ok result, w') =>
      retarget_valid demo_snapshot (Some "new"%string) (w_db demo_child) /\
      w_db w' = retargeted demo_snapshot (Some "new"%string) (init_schema (w_db demo_child)) /\
      delivered_message_rows result =
        List.filter (delivered_in (w_db demo_child)) (message_rows demo_snapshot)
  | (_, w') => ~ retarget_valid demo_snapshot (Some "new"%string) (w_db demo_child) /\
               w_db w' = init_schema (w_db demo_child)
  end.
Proof.
  apply (retarget_exact demo_snapshot (Some "new"%string) demo_child); [exact demo_child_wf|].
  split; vm_compute; repeat constructor; by intros ?%elem_of_nil.
Defined.

Lemma retargeted_wake_again p k r :
  retargeted_wake p k (retargeted_wake p k r) = retargeted_wake p k r.
Proof. unfold retargeted_wake. by destruct p. Qed.
Lemma reparented_again p k r : reparented p k (reparented p k r) = reparented p k r.
Proof. unfold reparented. destruct (undelivered r) eqn:H; [|by rewrite H]. cbn. unfold undelivered in *. cbn. by rewrite H. Qed.

Lemma retarget_wake_ok_again p k r :
  retarget_wake_ok p k r = true -> retarget_wake_ok p k (retargeted_wake p k r) = true.
Proof.
  unfold retarget_wake_ok, retargeted_wake. destruct p as [p|]; cbn; intros [H Hp]%andb_true_iff; rewrite H.
  - rewrite String.eqb_refl. by destruct (pw_is_active k); cbn; rewrite ?orb_true_r.
  - destruct (wake_parent_session_id r =?s pw_parent_session_id k); cbn in *; [|done].
    by rewrite orb_true_r.
Qed.
Lemma retarget_message_ok_again p k r :
  retarget_message_ok p k r = true -> retarget_message_ok p k (reparented p k r) = true.
Proof.
  unfold retarget_message_ok, reparented. destruct (undelivered r); [|done]. cbn.
  intros H. apply negb_true_iff, orb_false_iff in H as [H _]. rewrite H. cbn.
  assert (opt_str_eqb p p = true) as -> by (by apply opt_str_eqb_eq). cbn. by rewrite andb_false_r.
Qed.
Lemma reparented_delivered p k r : msg_delivered_at (reparented p k r) = msg_delivered_at r.
Proof. unfold reparented. by destruct (undelivered r). Qed.

(** A second validation passes, and a second rewrite changes nothing. *)
Lemma retarget_valid_again s p d :
  plan_distinct s -> retarget_valid s p d -> retarget_valid s p (retargeted s p d).
Proof.
  intros [Hs1 Hs2] [Hw Hm]. split; intros k Hk; cbn.
  - destruct (Hw k Hk) as (cur & Hl & Hok). rewrite lookup_rewrite_rows by apply retargeted_wake_key.
    rewrite Hl, find_planned by done. cbn. eauto using retarget_wake_ok_again.
  - destruct (Hm k Hk) as (cur & Hl & Hok). rewrite lookup_rewrite_rows by apply reparented_key.
    rewrite Hl, find_planned by done. cbn. eauto using retarget_message_ok_again.
Qed.
Lemma retargeted_twice s p d : retargeted s p (retargeted s p d) = retargeted s p d.
Proof.
  unfold retargeted. destruct d as [a b c e f g]. unfold put_messages, put_wakes, set_field. cbn. f_equal.
  - rewrite rewrite_rows_compose by apply reparented_key.
    apply rewrite_rows_ext. intros k r _. apply reparented_again.
  - rewrite rewrite_rows_compose by apply retargeted_wake_key.
    apply rewrite_rows_ext. intros k r _. apply retargeted_wake_again.
Qed.
Lemma delivered_in_retargeted s p d k : delivered_in (retargeted s p d) k = delivered_in d k.
Proof.
  unfold delivered_in. cbn. rewrite lookup_rewrite_rows by apply reparented_key.
  destruct (lookup_row msg_id (pmr_id k) (messages d)) as [r|]; cbn; [|done].
  destruct (List.find (fun k0 => pmr_id k0 =?s pmr_id k) (message_rows s)); [by rewrite reparented_delivered|done].
Qed.

(** A retargeting can be repeated: after it has returned, running it again with the
    same plan returns the same result and changes no table, so an interrupted
    hand-over is resumed by doing it again. *)
Theorem retarget_resumable {T : TimeCrate} {E : Env} s new_parent w result w1 :
  mq_wf (w_db w) -> plan_distinct s ->
  retarget_parent_routing s new_parent w = (Ok result, w1) ->
  retarget_parent_routing s new_parent w1 = (Ok result, w1).
Proof.
  intros Hwf Hs Hrun. assert (Hwf1 : mq_wf (w_db w1)).
  { pose proof (retarget_safe s new_parent w) as [Hk _]. rewrite Hrun in Hk. by apply Hk. }
  apply init_schema_wf in Hwf.
  unfold retarget_parent_routing, with_connection, with_immediate_transaction in *.
  apply transaction_Ok_inv in Hrun.
  pose proof (retarget_loops_inv s Hs _ _ _ _ _ Hwf Hrun) as Hv.
  rewrite (retarget_loops s Hs) in Hrun by done. injection Hrun as <- <-. cbn [w_db w_tick] in *.
  unfold transaction. rewrite init_schema_put, (retarget_loops s Hs); [|done|by apply retarget_valid_again].
  rewrite retargeted_twice. do 3 f_equal. apply filter_ext. intros k. apply delivered_in_retargeted.
Qed.

Lemma retarget_resumable_witness :
  retarget_parent_routing demo_snapshot (Some "new"%string)
    (snd (retarget_parent_routing demo_snapshot (Some "new"%string) demo_child)) =
  (Ok (RetargetResult []), snd (retarget_parent_routing demo_snapshot (Some "new"%string) demo_child)).
Proof.
  apply (retarget_resumable demo_snapshot (Some "new"%string) demo_child); [exact demo_child_wf| |vm_compute; reflexivity].
  split; vm_compute; repeat constructor; by intros ?%elem_of_nil.
Defined.

(** The rows a snapshot of a child and its parent takes. *)
Definition routes_wake (child parent : string) (r : wake_row) : bool :=
  (wake_child_session_id r =?s child) && (wake_parent_session_id r =?s parent) && (wake_is_active r =? 1).
Definition routes_message (child parent : string) (r : message_row) : bool :=
  (msg_target_session_id r =?s child) && opt_str_eqb (msg_parent_session_id r) (Some parent) && undelivered r.

(** What the snapshot returns, and that it can be carried out. *)
Definition snapshot_of (child parent : string) (d : mqdb) : ParentRoutingSnapshot :=
  Snapshot
    (planned wake_route (fun a b => text_leb (wake_id a) (wake_id b)) (routes_wake child parent) (wakes d))
    (planned message_route (fun a b => text_leb (msg_id a) (msg_id b)) (routes_message child parent) (messages d)).

Section SnapshotRuns.
Context (child parent : string) (d : mqdb) (Hwf : mq_wf d).
Let s := snapshot_of child parent d.

Lemma snapshot_distinct : plan_distinct s.
Proof.
  split; [apply (planned_distinct pw_id wake_id)|apply (planned_distinct pmr_id msg_id)]; [done|apply Hwf|done|apply Hwf].
Qed.

Lemma planned_wake k : In k (wake_rows s) -> exists r, k = wake_route r /\
  lookup_row wake_id (pw_id k) (wakes d) = Some r /\ routes_wake child parent r = true.
Proof.
  intros (r & -> & Hr & Hsel)%in_planned. exists r. split; [done|]. split; [|done].
  apply (lookup_row_unique wake_id); [apply Hwf|done].
Qed.
Lemma planned_message k : In k (message_rows s) -> exists r, k = message_route r /\
  lookup_row msg_id (pmr_id k) (messages d) = Some r /\ routes_message child parent r = true.
Proof.
  intros (r & -> & Hr & Hsel)%in_planned. exists r. split; [done|]. split; [|done].
  apply (lookup_row_unique msg_id); [apply Hwf|done].
Qed.

Lemma snapshot_quiesces : quiesce_valid s d.
Proof.
  split; intros k Hk.
  - destruct (planned_wake k Hk) as (r & -> & Hl & _). exists r. split; [done|].
    unfold quiesce_wake_ok. cbn. rewrite !String.eqb_refl, Z.eqb_refl, eqb_reflx. done.
  - destruct (planned_message k Hk) as (r & -> & Hl & Hsel). exists r. split; [done|].
    unfold routes_message in Hsel. bool_simpl. unfold quiesce_message_ok. cbn.
    match goal with Hp : msg_parent_session_id r = _ |- _ => rewrite Hp end. cbn. by rewrite !String.eqb_refl.
Qed.

Lemma snapshot_retargets new_parent : retarget_valid s new_parent (quieted s d).
Proof.
  destruct snapshot_distinct as [Hs1 Hs2]. split; intros k Hk; cbn.
  - destruct (planned_wake k Hk) as (r & Hkr & Hl & _). rewrite lookup_rewrite_rows by done.
    rewrite Hl, find_planned by done. eexists. split; [done|]. subst k.
    unfold retarget_wake_ok. cbn. rewrite !String.eqb_refl, Z.eqb_refl. cbn. by rewrite orb_true_r.
  - destruct (planned_message k Hk) as (r & Hkr & Hl & Hsel). rewrite lookup_rewrite_rows by apply reparented_key.
    rewrite Hl, find_planned by done. eexists. split; [done|]. subst k. unfold routes_message in Hsel. bool_simpl.
    unfold retarget_message_ok, reparented. rewrite H0. cbn. by rewrite String.eqb_refl.
Qed.

Lemma snapshot_undelivered k : In k (message_rows s) -> delivered_in (quieted s d) k = false.
Proof.
  intros Hk. destruct (planned_message k Hk) as (r & _ & Hl & Hsel). unfold delivered_in. cbn.
  rewrite lookup_rewrite_rows by apply reparented_key. rewrite Hl. cbn.
  rewrite find_planned by (done || apply snapshot_distinct). rewrite reparented_delivered.
  unfold routes_message, undelivered, is_none in Hsel. by bool_simpl.
Qed.

Lemma handed_over new_parent :
  retargeted s new_parent (quieted s d) =
  d <| wakes := update (routes_wake child parent)
         (fun r => match new_parent with
                   | Some p => r <| wake_parent_session_id := p |>
                   | None => r <| wake_is_active := 0 |> end) (wakes d) |>
    <| messages := update (routes_message child parent)
         (fun r => r <| msg_parent_session_id := new_parent |>) (messages d) |>.
Proof.
  unfold retargeted, quieted, put_messages, put_wakes, set_field. cbn -[s]. f_equal.
  - rewrite rewrite_rows_compose by apply reparented_key. unfold s, snapshot_of. cbn.
    rewrite (rewrite_planned pmr_id msg_id) by (done || apply Hwf). unfold update. apply map_ext. intros r.
    destruct (routes_message child parent r) eqn:Hsel; [|done]. unfold routes_message in Hsel. bool_simpl.
    unfold reparented. rewrite H0. unfold undelivered in *. cbn. by rewrite H0.
  - rewrite rewrite_rows_compose by done. unfold s, snapshot_of. cbn.
    rewrite (rewrite_planned pw_id wake_id) by (done || apply Hwf). unfold update. apply map_ext. intros r.
    destruct (routes_wake child parent r) eqn:Hsel; [|done]. unfold routes_wake in Hsel.
    apply andb_true_iff in Hsel as [_ Ha%Z.eqb_eq]. unfold retargeted_wake, quieted_wake.
    destruct new_parent; [|done]. destruct r as [? ? ? ? ? ? ? ? a]. cbn in *. subst a. done.
Qed.
End SnapshotRuns.

(** C31: The whole hand-over works from a fresh snapshot: with no change in between,
    quiescing and then retargeting both return, report no delivered message, and
    move exactly the active wakes and the undelivered messages of this child and
    parent to the new parent (or, without one, deactivate the wakes and clear the
    messages' parent). *)
Theorem parent_handover {T : TimeCrate} {E : Env} child parent new_parent w :
  mq_wf (w_db w) ->
  exists s w1 w2,
    snapshot_parent_routing child parent w = (Ok s, w1) /\
    quiesce_parent_routing s w1 = (Ok tt, w2) /\
    exists w3, retarget_parent_routing s new_parent w2 = (Ok (RetargetResult []), w3) /\
      w_db w3 = (init_schema (w_db w))
        <| wakes := update (routes_wake child parent)
             (fun r => match new_parent with
                       | Some p => r <| wake_parent_session_id := p |>
                       | None => r <| wake_is_active := 0 |> end) (wakes (w_db w)) |>
        <| messages := update (routes_message child parent)
             (fun r => r <| msg_parent_session_id := new_parent |>) (messages (w_db w)) |>.
Proof.
  intros Hwf. pose proof (init_schema_wf _ Hwf) as Hwf0.
  set (d := init_schema (w_db w)) in *. set (s := snapshot_of child parent d).
  pose proof (snapshot_distinct child parent d Hwf0) as Hs. fold s in Hs.
  pose proof (snapshot_quiesces child parent d Hwf0) as Hq. fold s in Hq.
  pose proof (snapshot_retargets child parent d Hwf0 new_parent) as Hr. fold s in Hr.
  exists s, (World d (w_tick w)), (World (quieted s d) (w_tick w)). split; [done|].
  assert (Hrun : quiesce_parent_routing s (World d (w_tick w)) = (Ok tt, World (quieted s d) (w_tick w))).
  { unfold quiesce_parent_routing, with_connection, with_immediate_transaction, transaction. cbn [w_db w_tick].
    unfold d at 1. rewrite init_schema_idem. fold d. by rewrite (quiesce_loops s Hs). }
  split; [exact Hrun|]. assert (Hwf2 : mq_wf (quieted s d)).
  { pose proof (quiesce_safe s (World d (w_tick w))) as [Hk _]. rewrite Hrun in Hk. by apply Hk. }
  exists (World (retargeted s new_parent (quieted s d)) (w_tick w)). split.
  - unfold retarget_parent_routing, with_connection, with_immediate_transaction, transaction. cbn [w_db w_tick].
    rewrite (init_schema_migrated (quieted s d) (w_db w)) by done. rewrite (retarget_loops s Hs) by done.
    do 3 f_equal. apply filter_false. intros k Hk. by apply (snapshot_undelivered child parent d Hwf0).
  - exact (handed_over child parent d Hwf0 new_parent).
Qed.

Lemma parent_handover_witness :
  exists s w1 w2,
    snapshot_parent_routing "child" "old" demo_child = (Ok s, w1) /\
    quiesce_parent_routing s w1 = (Ok tt, w2) /\
    exists w3, retarget_parent_routing s (Some "new"%string) w2 = (Ok (RetargetResult []), w3) /\
      w_db w3 = (init_schema (w_db demo_child))
        <| wakes := update (routes_wake "child" "old")
             (fun r => r <| wake_parent_session_id := "new"%string |>) (wakes (w_db demo_child)) |>
        <| messages := update (routes_message "child" "old")
             (fun r => r <| msg_parent_session_id := Some "new"%string |>) (messages (w_db demo_child)) |>.
Proof. apply (parent_handover "child" "old" (Some "new"%string) demo_child). exact demo_child_wf. Defined.
