(* ===== verification/Reviews.v ===== *)
(** * Codex review requests

    The registrations of queue.rs that track a requested pull-request review: create
    (with ownership, same-head reuse and superseding), poll bookkeeping, retry,
    cancel, and completion together with the wake message for the session to notify.
    Every operation opens the database by path; [db_file] says how the file was found. *)
From Stdlib Require Import ZArith Lia Bool String Ascii List Sorted.
From stdpp Require Import base tactics list strings.
From S2P Require Import Prelude Text Table Clock Demo Schema MessageQueue.

(** What opening the path finds: no file, a file SQLite cannot open, a database
    without the table of this component, or a database with it. *)
Inductive db_file : Type := FileMissing | FileUnopenable | TableMissing | TablePresent.

(** ** JSON scalars in an SQLite column *)
(** [serde_json::Number]: an integer in [i64] or [u64] range, or a finite double by
    its IEEE bits. *)
Inductive json_number : Type := NumberInt (z : Z) | NumberFloat (bits : Z).
(** Arrays and objects appear only through their serialised text. *)
Inductive json_value : Type :=
| JsonNull
| JsonBool (b : bool)
| JsonNumber (n : json_number)
| JsonString (s : string)
| JsonCompound (text : string).

(** [JsonNumber::from_f64]: [None] unless finite. *)
Definition number_from_f64 (bits : Z) : option json_number :=
  if (bits / 2 ^ 52) mod 2048 =? 2047 then None else Some (NumberFloat bits).
(** [z as f64] for [i64::MAX < z <= u64::MAX]: 53 bits, ties to even. *)
Definition f64_of_large (z : Z) : Z :=
  let q := z / 2048 in
  let r := z mod 2048 in
  let up := (1024 <? r) || ((r =? 1024) && Z.odd q) in
  1086 * 2 ^ 52 + ((if up then q + 1 else q) - 2 ^ 52).

Definition optional_sqlite_json_scalar (value : sql_value) : option json_value :=
  match value with
  | SqlNull => None
  | SqlInteger z => Some (JsonNumber (NumberInt z))
  | SqlReal bits => option_map JsonNumber (number_from_f64 bits)
  | SqlText s | SqlBlob s => Some (JsonString (of_bytes (utf8_lossy (bytes_of s))))
  end.

Definition json_scalar_to_sql_value (value : json_value) : sql_value :=
  match value with
  | JsonNull => SqlNull
  | JsonBool b => SqlInteger (if b then 1 else 0)
  | JsonNumber (NumberInt z) => if in_i64 z then SqlInteger z else SqlReal (f64_of_large z)
  | JsonNumber (NumberFloat bits) => SqlReal bits
  | JsonString s => SqlText s
  | JsonCompound text => SqlText text
  end.

(** SQLite applies the column's [INTEGER] affinity when it stores a value: text or a
    real that denotes an integer is stored as that integer.  Nulls, integers and
    blobs are stored as they are. *)
Class Affinity : Type := integer_affinity : sql_value -> sql_value.
Class AffinityLaws (A : Affinity) : Prop := {
  affinity_null : integer_affinity SqlNull = SqlNull;
  affinity_integer : forall z, integer_affinity (SqlInteger z) = SqlInteger z }.

(** ** Data *)
Record CodexReviewRequestRegistration : Type := Registration {
  crr_id : string;
  crr_repo : string;
  crr_pr_number : Z;
  crr_requester_session_id : option string;
  crr_notify_session_id : string;
  crr_steer : option string;
  crr_requested_head_sha : option string;
  crr_superseded_by_request_id : option string;
  crr_superseded_at : option string;
  crr_requested_at : string;
  crr_latest_request_comment_id : option Z;
  crr_latest_request_comment_url : option string;
  crr_latest_request_posted_at : option string;
  crr_attempt_count : Z;
  crr_next_retry_at : option string;
  crr_poll_interval_seconds : Z;
  crr_retry_interval_seconds : Z;
  crr_pickup_detected_at : option string;
  crr_pickup_source : option string;
  crr_review_landed_at : option string;
  crr_review_source : option string;
  crr_review_comment_id : option json_value;
  crr_review_url : option string;
  crr_last_polled_at : option string;
  crr_last_error : option string;
  crr_state : string;
  crr_is_active : bool }.
#[export] Instance eta_registration : Eta CodexReviewRequestRegistration := fun r =>
  Registration (crr_id r) (crr_repo r) (crr_pr_number r) (crr_requester_session_id r)
    (crr_notify_session_id r) (crr_steer r) (crr_requested_head_sha r)
    (crr_superseded_by_request_id r) (crr_superseded_at r) (crr_requested_at r)
    (crr_latest_request_comment_id r) (crr_latest_request_comment_url r)
    (crr_latest_request_posted_at r) (crr_attempt_count r) (crr_next_retry_at r)
    (crr_poll_interval_seconds r) (crr_retry_interval_seconds r) (crr_pickup_detected_at r)
    (crr_pickup_source r) (crr_review_landed_at r) (crr_review_source r)
    (crr_review_comment_id r) (crr_review_url r) (crr_last_polled_at r) (crr_last_error r)
    (crr_state r) (crr_is_active r).

Record CodexReviewRequestFilters : Type := Filters {
  f_notify_session_id : option string;
  f_repo : option string;
  f_pr_number : option Z;
  f_include_inactive : bool }.

Record CreateCodexReviewRequest : Type := CreateReview {
  ccr_repo : string;
  ccr_pr_number : Z;
  ccr_requester_session_id : option string;
  ccr_notify_session_id : string;
  ccr_steer : option string;
  ccr_requested_head_sha : string;
  ccr_latest_request_comment_id : option Z;
  ccr_latest_request_comment_url : option string;
  ccr_latest_request_posted_at : string;
  ccr_poll_interval_seconds : Z;
  ccr_retry_interval_seconds : Z }.

Record RetryCodexReviewRequest : Type := RetryReview {
  rcr_latest_request_comment_id : option Z;
  rcr_latest_request_comment_url : option string;
  rcr_latest_request_posted_at : string;
  rcr_next_retry_at : string }.

Record CompleteCodexReviewRequest : Type := CompleteReview {
  cor_review_landed_at : string;
  cor_review_source : option string;
  cor_review_comment_id : option json_value;
  cor_review_url : option string;
  cor_last_polled_at : string }.

Definition codex_review_request_registration_from_row (r : review_row) : CodexReviewRequestRegistration :=
  Registration (rev_id r) (rev_repo r) (rev_pr_number r) (rev_requester_session_id r)
    (rev_notify_session_id r) (rev_steer r) (rev_requested_head_sha r)
    (rev_superseded_by_request_id r) (rev_superseded_at r) (rev_requested_at r)
    (rev_latest_request_comment_id r) (rev_latest_request_comment_url r)
    (rev_latest_request_posted_at r) (rev_attempt_count r) (rev_next_retry_at r)
    (rev_poll_interval_seconds r) (rev_retry_interval_seconds r) (rev_pickup_detected_at r)
    (rev_pickup_source r) (rev_review_landed_at r) (rev_review_source r)
    (optional_sqlite_json_scalar (rev_review_comment_id r)) (rev_review_url r)
    (rev_last_polled_at r) (rev_last_error r) (rev_state r) (flag 1 (rev_is_active r)).

(** ** Reading *)
Definition filter_matches (f : CodexReviewRequestFilters) (r : review_row) : bool :=
  match f_notify_session_id f with Some v => rev_notify_session_id r =?s v | None => true end
  && match f_repo f with Some v => rev_repo r =?s v | None => true end
  && match f_pr_number f with Some v => rev_pr_number r =? v | None => true end
  && (if f_include_inactive f then true else col_is 1 (rev_is_active r)).
Definition list_codex_review_requests_conn (f : CodexReviewRequestFilters)
    : MQ (list CodexReviewRequestRegistration) :=
  query (fun d => map codex_review_request_registration_from_row
    (order_by (fun a b => text_leb (rev_requested_at a) (rev_requested_at b))
      (select (filter_matches f) (reviews d)))).

Definition get_codex_review_request_conn (request_id : string)
    : MQ (option CodexReviewRequestRegistration) :=
  query (fun d => option_map codex_review_request_registration_from_row
                    (lookup_row rev_id request_id (reviews d))).

Definition active_codex_review_request_exists_conn (repo : string) (pr_number : Z)
    (notify_session_id : string) : MQ bool :=
  count <- query (fun d =>
    changes (fun r => (rev_repo r =?s repo) && (rev_pr_number r =? pr_number)
                      && (rev_notify_session_id r =?s notify_session_id)
                      && col_is 1 (rev_is_active r)) (reviews d)) ;;
  ret (Nat.ltb 0 count).

(** A read-only operation: a missing file, an unopenable one and a missing table all
    give the default answer. *)
Definition read_from_path {A} (file : db_file) (default : A) (m : MQ A) : MQ A :=
  match file with TablePresent => m | _ => ret default end.

Definition list_codex_review_requests_from_path (file : db_file) (f : CodexReviewRequestFilters)
    : MQ (list CodexReviewRequestRegistration) :=
  read_from_path file [] (list_codex_review_requests_conn f).
Definition list_active_codex_review_requests_from_path (file : db_file)
    : MQ (list CodexReviewRequestRegistration) :=
  list_codex_review_requests_from_path file (Filters None None None false).
Definition get_codex_review_request_from_path (file : db_file) (request_id : string)
    : MQ (option CodexReviewRequestRegistration) :=
  read_from_path file None (get_codex_review_request_conn request_id).
Definition active_codex_review_request_exists_from_path (file : db_file) (repo : string)
    (pr_number : Z) (notify_session_id : string) : MQ bool :=
  read_from_path file false (active_codex_review_request_exists_conn repo pr_number notify_session_id).
Definition active_codex_review_requests_for_pr_from_path (file : db_file) (repo : string)
    (pr_number : Z) : MQ (list CodexReviewRequestRegistration) :=
  list_codex_review_requests_from_path file (Filters None (Some repo) (Some pr_number) false).

(** ** Writing *)
Definition no_such_table : string := "no such table: codex_review_request_registrations".
Definition open_failed : string := "unable to open database file".
(** An operation on an existing file: nothing to do without one. *)
Definition update_in_path (file : db_file) (m : MQ (option CodexReviewRequestRegistration))
    : MQ (option CodexReviewRequestRegistration) :=
  match file with
  | FileMissing => ret None
  | FileUnopenable => bail open_failed
  | TableMissing => bail no_such_table
  | TablePresent => m
  end.
(** [UPDATE .. WHERE id = ?1 AND is_active = 1]. *)
Definition active_request (request_id : string) (r : review_row) : bool :=
  has_key rev_id request_id r && col_is 1 (rev_is_active r).
Definition update_active_request (request_id : string) (f : review_row -> review_row) : MQ nat :=
  execute (fun d => (d <| reviews := update (active_request request_id) f (reviews d) |>,
                     changes (active_request request_id) (reviews d))).
(** The poll operations: update, then re-read when a row changed. *)
Definition update_and_get (request_id : string) (f : review_row -> review_row)
    : MQ (option CodexReviewRequestRegistration) :=
  changed <- update_active_request request_id f ;;
  if Nat.eqb changed 0 then ret None else get_codex_review_request_conn request_id.

(** A database without the table has no request to cancel: the lookup finds none. *)
Definition cancel_conn (request_id : string) (last_error : option (option string))
    : MQ (option CodexReviewRequestRegistration) :=
  found <- get_codex_review_request_conn request_id ;;
  match found with
  | None => ret None
  | Some registration =>
      if negb (crr_is_active registration) then ret (Some registration)
      else
        let registration := registration
          <| crr_is_active := false |> <| crr_state := "cancelled"%string |>
          <| crr_last_error := match last_error with Some e => e | None => crr_last_error registration end |> in
        update_active_request request_id (fun r =>
          r <| rev_is_active := Some 0 |> <| rev_state := crr_state registration |>
            <| rev_last_error := crr_last_error registration |>) ;;;
        ret (Some registration)
  end.
Definition cancel_codex_review_request_in_path (file : db_file) (request_id : string)
    : MQ (option CodexReviewRequestRegistration) :=
  match file with TableMissing => ret None | _ => update_in_path file (cancel_conn request_id None) end.
Definition cancel_codex_review_request_with_error_in_path (file : db_file)
    (request_id last_error : string) : MQ (option CodexReviewRequestRegistration) :=
  match file with
  | TableMissing => ret None
  | _ => update_in_path file (cancel_conn request_id (Some (Some last_error)))
  end.

(** [COALESCE(a, b)]. *)
Definition coalesce {A} (a b : option A) : option A := match a with Some _ => a | None => b end.
Definition mark_codex_review_request_pickup_in_path (file : db_file)
    (request_id last_polled_at : string) : MQ (option CodexReviewRequestRegistration) :=
  update_in_path file (update_and_get request_id (fun r =>
    r <| rev_pickup_detected_at := coalesce (rev_pickup_detected_at r) (Some last_polled_at) |>
      <| rev_pickup_source := coalesce (rev_pickup_source r) (Some "reaction"%string) |>
      <| rev_last_polled_at := Some last_polled_at |>
      <| rev_last_error := None |>)).
Definition mark_codex_review_request_poll_error_in_path (file : db_file)
    (request_id last_polled_at last_error : string) (next_retry_at : option string)
    : MQ (option CodexReviewRequestRegistration) :=
  update_in_path file (update_and_get request_id (fun r =>
    r <| rev_last_polled_at := Some last_polled_at |>
      <| rev_last_error := Some last_error |>
      <| rev_next_retry_at := coalesce next_retry_at (rev_next_retry_at r) |>)).
Definition mark_codex_review_request_polled_in_path (file : db_file)
    (request_id last_polled_at : string) : MQ (option CodexReviewRequestRegistration) :=
  update_in_path file (update_and_get request_id (fun r =>
    r <| rev_last_polled_at := Some last_polled_at |> <| rev_last_error := None |>)).
Definition retry_codex_review_request_in_path (file : db_file) (request_id : string)
    (retry : RetryCodexReviewRequest) (last_polled_at : string)
    : MQ (option CodexReviewRequestRegistration) :=
  update_in_path file (update_and_get request_id (fun r =>
    r <| rev_attempt_count := rev_attempt_count r + 1 |>
      <| rev_latest_request_comment_id := rcr_latest_request_comment_id retry |>
      <| rev_latest_request_comment_url := rcr_latest_request_comment_url retry |>
      <| rev_latest_request_posted_at := Some (rcr_latest_request_posted_at retry) |>
      <| rev_pickup_detected_at := None |>
      <| rev_pickup_source := None |>
      <| rev_next_retry_at := Some (rcr_next_retry_at retry) |>
      <| rev_last_polled_at := Some last_polled_at |>
      <| rev_last_error := None |>)).

Definition completed_row {A : Affinity} (completion : CompleteCodexReviewRequest) (r : review_row)
    : review_row :=
  r <| rev_review_landed_at := Some (cor_review_landed_at completion) |>
    <| rev_review_source := cor_review_source completion |>
    <| rev_review_comment_id :=
         integer_affinity (match cor_review_comment_id completion with
                           | Some j => json_scalar_to_sql_value j | None => SqlNull end) |>
    <| rev_review_url := cor_review_url completion |>
    <| rev_state := "completed"%string |>
    <| rev_is_active := Some 0 |>
    <| rev_last_polled_at := Some (cor_last_polled_at completion) |>
    <| rev_last_error := None |>.
Definition complete_codex_review_request_in_path {A : Affinity} (file : db_file) (request_id : string)
    (completion : CompleteCodexReviewRequest) : MQ (option CodexReviewRequestRegistration) :=
  update_in_path file (update_and_get request_id (completed_row completion)).

Section Operations.
Context `{T : TimeCrate} `{E : Env} `{A : Affinity}.

Definition complete_codex_review_request_and_enqueue_in_path (file : db_file) (request_id : string)
    (completion : CompleteCodexReviewRequest) (wake_text : string)
    : MQ (option CodexReviewRequestRegistration) :=
  match file with
  | FileMissing => ret None
  | FileUnopenable => bail open_failed
  | TableMissing | TablePresent =>
      with_connection (transaction (
        changed <- update_active_request request_id (completed_row completion) ;;
        if Nat.eqb changed 0 then ret None
        else
          found <- get_codex_review_request_conn request_id ;;
          registration <- expect "completed Codex review request disappeared" found ;;
          enqueue_message_with_metadata_conn (crr_notify_session_id registration) wake_text
            "sequential" default_metadata ;;;
          ret (Some registration)))
  end.

(** The session a request belongs to: its requester, or the session to notify when
    that is missing or blank. *)
Definition owner_of (requester : option string) (notify : string) : string :=
  unwrap_or notify (filter_nonblank requester).
(** What the [UPDATE] compares: [COALESCE(NULLIF(requester, ''), notify)]. *)
Definition sql_owner (r : review_row) : string :=
  match rev_requester_session_id r with
  | Some v => if v =?s "" then rev_notify_session_id r else v
  | None => rev_notify_session_id r
  end.

(** The loop over the active requests of the pull request: a request of another
    owner is a conflict, one for the same head is returned. *)
Fixpoint reuse_or_conflict (request : CreateCodexReviewRequest) (owner : string)
    (active : list CodexReviewRequestRegistration) : MQ (option CodexReviewRequestRegistration) :=
  match active with
  | [] => ret None
  | existing :: rest =>
      let existing_owner := owner_of (crr_requester_session_id existing) (crr_notify_session_id existing) in
      if negb (existing_owner =?s owner) then
        bail ("CONFLICT: active Codex review request " +:+ crr_id existing +:+ " for " +:+ ccr_repo request
              +:+ " PR #" +:+ show_Z (ccr_pr_number request) +:+ " is owned by " +:+ existing_owner
              +:+ "; cancel it or wait for completion")
      else if opt_str_eqb (crr_requested_head_sha existing) (Some (ccr_requested_head_sha request))
      then ret (Some existing)
      else reuse_or_conflict request owner rest
  end.

Definition new_review_row (request : CreateCodexReviewRequest) (id next_retry_at : string) : review_row :=
  ReviewRow id (ccr_repo request) (ccr_pr_number request) (ccr_requester_session_id request)
    (ccr_notify_session_id request) (ccr_steer request) (Some (ccr_requested_head_sha request))
    None None (ccr_latest_request_posted_at request) (ccr_latest_request_comment_id request)
    (ccr_latest_request_comment_url request) (Some (ccr_latest_request_posted_at request)) 1
    (Some next_retry_at) (ccr_poll_interval_seconds request) (ccr_retry_interval_seconds request)
    None None None None SqlNull None None None "active" (Some 1).

(** The rows a new head supersedes. *)
Definition supersedes (request : CreateCodexReviewRequest) (owner : string) (r : review_row) : bool :=
  (rev_repo r =?s ccr_repo request) && (rev_pr_number r =? ccr_pr_number request)
  && col_is 1 (rev_is_active r) && (sql_owner r =?s owner).
Definition superseded_row (by_id at_ : string) (r : review_row) : review_row :=
  r <| rev_is_active := Some 0 |> <| rev_state := "superseded"%string |>
    <| rev_superseded_by_request_id := Some by_id |> <| rev_superseded_at := Some at_ |>
    <| rev_last_error := Some "Superseded by a newer requested PR head"%string |>.

(** [INSERT] under a random id; a taken id is a constraint error. *)
Definition insert_review (row : review_row) : MQ unit :=
  taken <- query (fun d => existsb (has_key rev_id (rev_id row)) (reviews d)) ;;
  if taken : bool then bail "UNIQUE constraint failed: codex_review_request_registrations.id"
  else execute (fun d => (d <| reviews := insert (reviews d) row |>, 1%nat)) ;;; ret tt.

Definition create_codex_review_request_conn (request : CreateCodexReviewRequest)
    : MQ CodexReviewRequestRegistration :=
  if ccr_poll_interval_seconds request <=? 0 then bail "poll_interval_seconds must be > 0"
  else if ccr_retry_interval_seconds request <=? 0 then bail "retry_interval_seconds must be > 0"
  else
    let owner := owner_of (ccr_requester_session_id request) (ccr_notify_session_id request) in
    active <- list_codex_review_requests_conn
                (Filters None (Some (ccr_repo request)) (Some (ccr_pr_number request)) false) ;;
    existing <- reuse_or_conflict request owner active ;;
    match existing with
    | Some registration => ret registration
    | None =>
        next_retry_at <- codex_review_next_retry_at (ccr_latest_request_posted_at request)
                           (ccr_retry_interval_seconds request) ;;
        id <- generate_codex_review_request_id ;;
        let row := new_review_row request id next_retry_at in
        execute (fun d =>
          let p := supersedes request owner in
          (d <| reviews := update p (superseded_row id (rev_requested_at row)) (reviews d) |>,
           changes p (reviews d))) ;;;
        insert_review row ;;;
        ret (codex_review_request_registration_from_row row)
    end.

Definition create_codex_review_request_in_path (file : db_file) (request : CreateCodexReviewRequest)
    : MQ CodexReviewRequestRegistration :=
  match file with
  | FileUnopenable => bail open_failed
  | _ => transaction (create_codex_review_request_conn request)
  end.
End Operations.

(** ** Keys stay unique; a finished request is frozen

    [review_safe]: the guarantees of the store, and a request that has become
    inactive is neither changed nor removed. *)
Definition finished (r : review_row) : bool := negb (col_is 1 (rev_is_active r)).
Definition review_safe (d d' : mqdb) : Prop :=
  mq_safe d d' /\ forall r, In r (reviews d) -> finished r = true -> In r (reviews d').
#[export] Instance review_safe_preorder : PreOrder review_safe.
Proof.
  split; [intros d; split; [reflexivity|done]|].
  intros d1 d2 d3 [H1 H2] [H3 H4]. split; [by transitivity d2|auto].
Qed.

Lemma update_reviews_safe d p f :
  (forall r, p r = true -> finished r = false) -> (forall r, rev_id (f r) = rev_id r) ->
  review_safe d (d <| reviews := update p f (reviews d) |>).
Proof.
  intros Hp Hf. split; [safe_table|]. intros r Hr Hfin. cbn. apply in_update. exists r. split; [done|].
  destruct (p r) eqn:E; [|done]. rewrite (Hp r E) in Hfin. done.
Qed.
Lemma active_request_live id r : active_request id r = true -> finished r = false.
Proof. unfold active_request, finished. intros [_ H]%andb_true_iff. by rewrite H. Qed.

Section Safety.
Context {T : TimeCrate} {E : Env} {A : Affinity}.

Lemma update_active_safe id f :
  (forall r, rev_id (f r) = rev_id r) -> steps (on_db review_safe) (update_active_request id f).
Proof.
  intros Hf. unfold update_active_request. db_steps.
  apply update_reviews_safe; [apply active_request_live|done].
Qed.
Lemma get_safe id : steps (on_db review_safe) (get_codex_review_request_conn id).
Proof. unfold get_codex_review_request_conn. db_steps. Qed.
#[local] Hint Resolve get_safe : steps.
Lemma update_in_path_safe file m : steps (on_db review_safe) m -> steps (on_db review_safe) (update_in_path file m).
Proof. intros H. unfold update_in_path. db_steps. Qed.
Lemma update_and_get_safe id f :
  (forall r, rev_id (f r) = rev_id r) -> steps (on_db review_safe) (update_and_get id f).
Proof. intros Hf. unfold update_and_get. db_steps. by apply update_active_safe. Qed.

Lemma with_connection_review {B} (f : MQ B) :
  steps (on_db review_safe) f -> steps (on_db review_safe) (with_connection f).
Proof.
  apply steps_with_connection; [tc_solve|]. intros d. split; [apply init_schema_safe|done].
Qed.

Lemma mq_safe_reviews {B} (m : MQ B) :
  (forall w, reviews (w_db (snd (m w))) = reviews (w_db w)) -> steps (on_db mq_safe) m -> steps (on_db review_safe) m.
Proof. intros Hr Hm w. split; [apply Hm|]. intros r. by rewrite Hr. Qed.

Lemma enqueue_reviews target text mode md w :
  reviews (w_db (snd (enqueue_message_with_metadata_conn target text mode md w))) = reviews (w_db w).
Proof.
  assert (Hs : steps (on_db (fun d d' => reviews d' = reviews d)) (enqueue_message_with_metadata_conn target text mode md)).
  { assert (PreOrder (fun d d' => reviews d' = reviews d)) by (split; [done|intros ???; congruence]).
    unfold enqueue_message_with_metadata_conn, enqueue_message_with_id_and_metadata_conn. db_steps.
    by destruct (insert_or_ignore _ _ _). }
  apply Hs.
Qed.

Lemma complete_enqueue_safe file id completion text :
  steps (on_db review_safe) (complete_codex_review_request_and_enqueue_in_path file id completion text).
Proof.
  unfold complete_codex_review_request_and_enqueue_in_path.
  destruct file; db_steps; apply with_connection_review; db_steps;
    try (by apply update_active_safe); (apply mq_safe_reviews; [apply enqueue_reviews|apply enqueue_conn_safe]).
Qed.

Lemma reuse_frame request owner active w : snd (reuse_or_conflict request owner active w) = w.
Proof.
  induction active as [|x l IH]; cbn; [done|]. destruct (negb _); [done|]. by destruct (opt_str_eqb _ _).
Qed.

Lemma insert_review_safe row : steps (on_db review_safe) (insert_review row).
Proof.
  intros w. unfold insert_review, bind. cbn. rewrite existsb_has_key.
  destruct (lookup_row _ _ _) eqn:Hl; cbn; [reflexivity|].
  rewrite lookup_row_None in Hl. unfold on_db. cbn. split; [safe_table|].
  intros r Hr _. cbn. apply in_or_app. by left.
Qed.
#[local] Hint Resolve insert_review_safe : steps.

Lemma create_safe file request :
  steps (on_db review_safe) (create_codex_review_request_in_path file request).
Proof.
  assert (Hr : forall o a, steps (on_db review_safe) (reuse_or_conflict request o a))
    by (intros o a w; unfold on_db; rewrite reuse_frame; reflexivity).
  assert (Hc : steps (on_db review_safe) (create_codex_review_request_conn request)).
  { unfold create_codex_review_request_conn, list_codex_review_requests_conn, generate_codex_review_request_id.
    db_steps. apply update_reviews_safe; [|done].
    intros r H. unfold supersedes, finished in *. bool_simpl. by rewrite H1. }
  unfold create_codex_review_request_in_path. destruct file; db_steps.
Qed.

Lemma cancel_conn_safe id e : steps (on_db review_safe) (cancel_conn id e).
Proof. unfold cancel_conn. db_steps. by apply update_active_safe. Qed.
End Safety.

(** ** The operations as one type *)
Inductive review_op : Type :=
| ReviewCreate (request : CreateCodexReviewRequest)
| ReviewCancel (request_id : string)
| ReviewCancelWithError (request_id last_error : string)
| ReviewPickup (request_id last_polled_at : string)
| ReviewPollError (request_id last_polled_at last_error : string) (next_retry_at : option string)
| ReviewPolled (request_id last_polled_at : string)
| ReviewRetry (request_id : string) (retry : RetryCodexReviewRequest) (last_polled_at : string)
| ReviewComplete (request_id : string) (completion : CompleteCodexReviewRequest)
| ReviewCompleteAndEnqueue (request_id : string) (completion : CompleteCodexReviewRequest) (wake_text : string).

Definition run_review_op {T : TimeCrate} {E : Env} {A : Affinity} (file : db_file) (op : review_op) : MQ unit :=
  match op with
  | ReviewCreate r => create_codex_review_request_in_path file r ;;; ret tt
  | ReviewCancel id => cancel_codex_review_request_in_path file id ;;; ret tt
  | ReviewCancelWithError id e => cancel_codex_review_request_with_error_in_path file id e ;;; ret tt
  | ReviewPickup id t => mark_codex_review_request_pickup_in_path file id t ;;; ret tt
  | ReviewPollError id t e n => mark_codex_review_request_poll_error_in_path file id t e n ;;; ret tt
  | ReviewPolled id t => mark_codex_review_request_polled_in_path file id t ;;; ret tt
  | ReviewRetry id r t => retry_codex_review_request_in_path file id r t ;;; ret tt
  | ReviewComplete id c => complete_codex_review_request_in_path file id c ;;; ret tt
  | ReviewCompleteAndEnqueue id c t => complete_codex_review_request_and_enqueue_in_path file id c t ;;; ret tt
  end.

Lemma run_review_op_safe {T : TimeCrate} {E : Env} {A : Affinity} file op :
  steps (on_db review_safe) (run_review_op file op).
Proof.
  destruct op; cbn [run_review_op]; (apply steps_bind; [tc_solve| |intros; apply steps_ret; tc_solve]).
  - apply create_safe.
  - destruct file; try (apply steps_ret; tc_solve); apply update_in_path_safe, cancel_conn_safe.
  - destruct file; try (apply steps_ret; tc_solve); apply update_in_path_safe, cancel_conn_safe.
  - by apply update_in_path_safe, update_and_get_safe.
  - by apply update_in_path_safe, update_and_get_safe.
  - by apply update_in_path_safe, update_and_get_safe.
  - by apply update_in_path_safe, update_and_get_safe.
  - by apply update_in_path_safe, update_and_get_safe.
  - apply complete_enqueue_safe.
Qed.

(** ** What a create does *)
Definition for_pr (repo : string) (pr : Z) (r : review_row) : bool :=
  (rev_repo r =?s repo) && (rev_pr_number r =? pr) && col_is 1 (rev_is_active r).
Definition owned_by (owner : string) (r : review_row) : bool :=
  owner_of (rev_requester_session_id r) (rev_notify_session_id r) =?s owner.
Definition request_owner (request : CreateCodexReviewRequest) : string :=
  owner_of (ccr_requester_session_id request) (ccr_notify_session_id request).
Definition for_head (head : string) (r : review_row) : bool :=
  opt_str_eqb (rev_requested_head_sha r) (Some head).
Definition active_rows (request : CreateCodexReviewRequest) (d : mqdb) : list review_row :=
  order_by (fun a b => text_leb (rev_requested_at a) (rev_requested_at b))
    (select (filter_matches (Filters None (Some (ccr_repo request)) (Some (ccr_pr_number request)) false)) (reviews d)).

Section Creation.
Context {T : TimeCrate} {E : Env}.

Lemma in_active_rows request d r :
  In r (active_rows request d) <->
  In r (reviews d) /\ for_pr (ccr_repo request) (ccr_pr_number request) r = true.
Proof.
  unfold active_rows. rewrite in_order_by, in_select. unfold filter_matches, for_pr. cbn. done.
Qed.

Lemma reuse_spec request owner rows w :
  match reuse_or_conflict request owner (map codex_review_request_registration_from_row rows) w with
  | (Ok (Some reg), w') =>
      w' = w /\ exists r, In r rows /\ reg = codex_review_request_registration_from_row r /\
        owned_by owner r = true /\ for_head (ccr_requested_head_sha request) r = true
  | (Ok None, w') =>
      w' = w /\ forall r, In r rows -> owned_by owner r = true /\ for_head (ccr_requested_head_sha request) r = false
  | (Err _, w') => w' = w /\ exists r, In r rows /\ owned_by owner r = false
  | (Panic, _) => False
  end.
Proof.
  induction rows as [|x rows IH]; cbn -[String.append]; [split; [done|by intros r []]|].
  fold (owned_by owner x). fold (for_head (ccr_requested_head_sha request) x).
  destruct (owned_by owner x) eqn:Ho; cbn -[String.append]; [|split; [done|]; exists x; auto].
  destruct (for_head (ccr_requested_head_sha request) x) eqn:Hh; cbn.
  - split; [done|]. exists x. auto.
  - destruct (reuse_or_conflict _ _ _ w) as [[[reg|]|e|] w']; [..|done].
    + destruct IH as (-> & r & Hr & H). split; [done|]. exists r. auto.
    + destruct IH as (-> & H). split; [done|]. intros r [<-|Hr]; auto.
    + destruct IH as (-> & r & Hr & H). split; [done|]. exists r. auto.
Qed.

Lemma create_inv request w reg w' :
  create_codex_review_request_conn request w = (Ok reg, w') ->
  (w_db w' = w_db w /\ exists r, In r (active_rows request (w_db w)) /\
     reg = codex_review_request_registration_from_row r /\
     owned_by (request_owner request) r = true /\ for_head (ccr_requested_head_sha request) r = true) \/
  ((forall r, In r (active_rows request (w_db w)) ->
      owned_by (request_owner request) r = true /\ for_head (ccr_requested_head_sha request) r = false) /\
   exists id next_retry_at,
     let row := new_review_row request id next_retry_at in
     reg = codex_review_request_registration_from_row row /\
     lookup_row rev_id id (reviews (w_db w)) = None /\
     w_db w' = (w_db w) <| reviews :=
       insert (update (supersedes request (request_owner request))
                 (superseded_row id (ccr_latest_request_posted_at request)) (reviews (w_db w))) row |>).
Proof.
  unfold create_codex_review_request_conn. intros H.
  destruct (ccr_poll_interval_seconds request <=? 0); [done|].
  destruct (ccr_retry_interval_seconds request <=? 0); [done|].
  apply bind_Ok_inv in H as (active & w1 & Hq & H). injection Hq as <- <-.
  apply bind_Ok_inv in H as (ex & w2 & Hre & H). fold (request_owner request) in *.
  pose proof (reuse_spec request (request_owner request) (active_rows request (w_db w)) w) as Hs.
  unfold active_rows in Hs at 1. rewrite Hre in Hs. destruct ex as [reg'|].
  - left. destruct Hs as (-> & r & Hr & -> & Ho & Hh). injection H as <- <-. split; [done|]. exists r. auto.
  - right. destruct Hs as (-> & Hall). split; [done|].
    apply bind_Ok_inv in H as (next & w3 & Hnext & H).
    pose proof (next_retry_at_frame (D := mqdb) (ccr_latest_request_posted_at request) (ccr_retry_interval_seconds request) w) as Hf.
    rewrite Hnext in Hf. unfold db_eq, on_db in Hf. cbn in Hf.
    apply bind_Ok_inv in H as (id & w4 & Hid & H).
    assert (w_db w4 = w_db w) as Hw4 by (unfold generate_codex_review_request_id, random_hex in Hid; injection Hid as _ <-; exact Hf).
    apply bind_Ok_inv in H as (n & w5 & Hex & H). apply execute_Ok_inv in Hex as (_ & Hw5 & _). cbn in Hw5.
    apply bind_Ok_inv in H as ([] & w6 & Hins & H). injection H as <- <-.
    unfold insert_review, bind in Hins. cbn in Hins. rewrite existsb_has_key, Hw5 in Hins. cbn in Hins.
    rewrite (lookup_row_update rev_id), Hw4 in Hins by done.
    destruct (lookup_row rev_id id (reviews (w_db w))) eqn:Hl; [done|]. cbn in Hins. injection Hins as <-.
    exists id, next. cbn. rewrite Hw5, Hw4. done.
Qed.
End Creation.

(** At most one active request per pull request. *)
Definition single_active (d : mqdb) : Prop :=
  forall repo pr, (changes (for_pr repo pr) (reviews d) <= 1)%nat.
(** The requester id is empty or not blank, so that both notions of owner agree. *)
Definition sane_requester (requester : option string) : bool :=
  match requester with Some v => (v =?s "") || negb (is_blank v) | None => true end.
Definition owners_sane (d : mqdb) : Prop :=
  forall r, In r (reviews d) -> col_is 1 (rev_is_active r) = true -> sane_requester (rev_requester_session_id r) = true.

Lemma sql_owner_sane r :
  sane_requester (rev_requester_session_id r) = true ->
  sql_owner r = owner_of (rev_requester_session_id r) (rev_notify_session_id r).
Proof.
  unfold sane_requester, sql_owner, owner_of, filter_nonblank. destruct (rev_requester_session_id r) as [v|]; [|done].
  destruct (String.eqb_spec v "") as [->|]; [done|]. cbn. intros H. bool_simpl. by rewrite H.
Qed.

Lemma changes_update_le {row} (p q : row -> bool) f t :
  (forall r, p (f r) = true -> p r = true) -> (changes p (update q f t) <= changes p t)%nat.
Proof.
  intros H. unfold changes, update. induction t as [|r t IH]; cbn; [lia|].
  destruct (q r); [|destruct (p r); cbn; lia].
  destruct (p (f r)) eqn:E; [rewrite (H r E); cbn; lia|destruct (p r); cbn; lia].
Qed.
Lemma changes_insert {row} (p : row -> bool) t r :
  changes p (insert t r) = (changes p t + (if p r then 1 else 0))%nat.
Proof.
  unfold changes, insert. rewrite List.filter_app, length_app. cbn. by destruct (p r).
Qed.

Lemma superseded_not_active repo pr id t r : for_pr repo pr (superseded_row id t r) = false.
Proof. unfold for_pr. cbn. apply andb_false_r. Qed.
Lemma superseded_finished id t r : col_is 1 (rev_is_active (superseded_row id t r)) = false.
Proof. done. Qed.
Lemma new_review_for_pr repo pr request id next :
  for_pr repo pr (new_review_row request id next) = (ccr_repo request =?s repo) && (ccr_pr_number request =? pr).
Proof. unfold for_pr. cbn. apply andb_true_r. Qed.

(** C29: Creating review requests keeps at most one active request per pull request, as long
    as no requester id consists of white space only.  If every pull request has at most one
    active request, and neither an active request nor the new one has such a requester id,
    then creating the new one, whether it returns, is refused or fails, keeps both. *)
Theorem review_create_single_active {T : TimeCrate} {E : Env} file request w :
  single_active (w_db w) -> owners_sane (w_db w) ->
  sane_requester (ccr_requester_session_id request) = true ->
  single_active (w_db (snd (create_codex_review_request_in_path file request w))) /\
  owners_sane (w_db (snd (create_codex_review_request_in_path file request w))).
Proof.
  intros Hone Hsane Hreq.
  assert (Hgoal : forall w', transaction (create_codex_review_request_conn request) w = w' ->
            single_active (w_db (snd w')) /\ owners_sane (w_db (snd w'))).
  2: { unfold create_codex_review_request_in_path. destruct file; [by apply Hgoal|done|by apply Hgoal|by apply Hgoal]. }
  intros [[reg|e|] w'] Hrun; [|by unfold transaction in Hrun; destruct (create_codex_review_request_conn request w) as [[]]; simplify_eq..].
  apply transaction_Ok_inv in Hrun. cbn [snd].
  apply create_inv in Hrun as [(-> & _)|(Hall & id & next & _ & _ & ->)]; [done|]. cbn.
  set (f := superseded_row id _). set (q := supersedes _ _).
  assert (Hq : forall r, In r (reviews (w_db w)) ->
            for_pr (ccr_repo request) (ccr_pr_number request) r = true -> q r = true).
  { intros r Hin Hp. assert (Ha : In r (active_rows request (w_db w))) by (by apply in_active_rows).
    destruct (Hall r Ha) as [Ho _]. unfold owned_by in Ho. bool_simpl.
    change (q r) with (for_pr (ccr_repo request) (ccr_pr_number request) r && (sql_owner r =?s request_owner request)).
    rewrite Hp. unfold for_pr in Hp. bool_simpl. by rewrite sql_owner_sane, Ho, String.eqb_refl by auto. }
  split.
  - intros repo pr. cbn -[new_review_row]. rewrite changes_insert.
    rewrite new_review_for_pr. destruct (_ && _) eqn:Hnew.
    + apply andb_true_iff in Hnew as [Hr Hp%Z.eqb_eq].
      bool_simpl. subst repo pr. enough (changes (for_pr (ccr_repo request) (ccr_pr_number request))
        (update q f (reviews (w_db w))) = O) by lia.
      apply changes_zero. intros r (r0 & Hin & ->)%in_update.
      destruct (q r0) eqn:Hq0; [apply superseded_not_active|].
      destruct (for_pr _ _ r0) eqn:Hp0; [|done]. by rewrite Hq in Hq0.
    + pose proof (changes_update_le (for_pr repo pr) q f (reviews (w_db w))) as Hle.
      specialize (Hone repo pr). enough (changes (for_pr repo pr) (update q f (reviews (w_db w))) <= changes (for_pr repo pr) (reviews (w_db w)))%nat by lia.
      apply Hle. intros r. unfold f. by rewrite superseded_not_active.
  - intros r [(r0 & Hin & ->)%in_update|[<-|[]]]%in_app_iff Hact; [|done].
    destruct (q r0); [|by apply Hsane]. unfold f in Hact. by rewrite superseded_finished in Hact.
Qed.

(** A request, its review, and the database after it. *)
#[export] Instance demo_affinity : Affinity := id.
Definition demo_request (head : string) : CreateCodexReviewRequest :=
  CreateReview "octo/app" 7 (Some "dev"%string) "lead" None head None None "1700000000000000000" 30 600.
Definition demo_review (head : string) (w : world mqdb) : world mqdb :=
  snd (create_codex_review_request_in_path TablePresent (demo_request head) w).
Definition demo_reviewed : world mqdb := demo_review "aaa" (World empty_mqdb 0).
Definition demo_review_row : review_row :=
  nth 0 (reviews (w_db demo_reviewed)) (new_review_row (demo_request "") "" "").
Lemma demo_reviewed_rows : reviews (w_db demo_reviewed) = [demo_review_row].
Proof. vm_compute. reflexivity. Qed.

Lemma review_create_single_active_witness :
  single_active (w_db (demo_review "bbb" demo_reviewed)) /\ owners_sane (w_db (demo_review "bbb" demo_reviewed)).
Proof.
  apply (review_create_single_active TablePresent (demo_request "bbb") demo_reviewed).
  - intros repo pr. rewrite demo_reviewed_rows. unfold changes. cbn [List.filter].
    destruct (for_pr repo pr demo_review_row); cbn; lia.
  - intros r Hr _. rewrite demo_reviewed_rows in Hr. destruct Hr as [<-|[]]. vm_compute. reflexivity.
  - reflexivity.
Defined.

(** Without that assumption it is not so: a request whose requester id is a single
    space belongs to the session to notify, but the statement that supersedes the
    older requests takes the space as its owner, and a second head leaves two active
    requests for the same pull request. *)
Theorem blank_requester_two_active :
  let request head := CreateReview "octo/app" 7 (Some " "%string) "lead" None head None None
                        "1700000000000000000" 30 600 in
  let w1 := snd (create_codex_review_request_in_path TablePresent (request "aaa"%string) (World empty_mqdb 0)) in
  let w2 := snd (create_codex_review_request_in_path TablePresent (request "bbb"%string) w1) in
  changes (for_pr "octo/app" 7) (reviews (w_db w2)) = 2%nat.
Proof. vm_compute. reflexivity. Qed.

(** A create reuses, supersedes or changes nothing.  When it returns, either an
    active request of the same owner for the same head is handed back and no row
    changes; or every active request of the pull request belongs to the owner and is
    for another head, and the database gains one active row with the asked data
    under a fresh id, the superseded rows pointing to it.  In every other case the
    tables are as before. *)
Theorem review_create_outcome {T : TimeCrate} {E : Env} request w :
  let pr_row r := In r (reviews (w_db w)) /\ for_pr (ccr_repo request) (ccr_pr_number request) r = true in
  match create_codex_review_request_in_path TablePresent request w with
  | (Ok reg, w') =>
      (w_db w' = w_db w /\
       exists r, pr_row r /\ owned_by (request_owner request) r = true /\
         for_head (ccr_requested_head_sha request) r = true /\
         reg = codex_review_request_registration_from_row r) \/
      ((forall r, pr_row r -> owned_by (request_owner request) r = true /\
                              for_head (ccr_requested_head_sha request) r = false) /\
       exists id next_retry_at,
         reg = codex_review_request_registration_from_row (new_review_row request id next_retry_at) /\
         lookup_row rev_id id (reviews (w_db w)) = None /\
         w_db w' = (w_db w) <| reviews :=
           insert (update (supersedes request (request_owner request))
                     (superseded_row id (ccr_latest_request_posted_at request)) (reviews (w_db w)))
             (new_review_row request id next_retry_at) |>)
  | (_, w') => w_db w' = w_db w
  end.
Proof.
  cbv zeta beta. unfold create_codex_review_request_in_path.
  match goal with |- context [transaction ?m w] =>
    pose proof (transaction_atomic m w) as Ha; destruct (transaction m w) as [[reg|e|] w'] eqn:Hrun end;
    [|by apply Ha..].
  apply transaction_Ok_inv in Hrun.
  apply create_inv in Hrun as [(Hdb & r & Hr & -> & Ho & Hh)|(Hall & H)].
  - left. split; [done|]. exists r. by rewrite <- in_active_rows.
  - right. split; [|done]. intros r Hr. apply Hall. by apply in_active_rows.
Qed.

(** An active request of another owner is protected: when the active requests of a
    pull request belong to others, creating one fails and changes nothing. *)
Lemma review_conflict_refused {T : TimeCrate} {E : Env} request w r :
  In r (reviews (w_db w)) -> for_pr (ccr_repo request) (ccr_pr_number request) r = true ->
  (forall x, In x (reviews (w_db w)) -> for_pr (ccr_repo request) (ccr_pr_number request) x = true ->
     owned_by (request_owner request) x = false) ->
  exists e w', create_codex_review_request_in_path TablePresent request w = (Err e, w') /\ w_db w' = w_db w.
Proof.
  intros Hin Hp Hall. unfold create_codex_review_request_in_path, create_codex_review_request_conn, transaction.
  destruct (ccr_poll_interval_seconds request <=? 0); [by do 2 eexists|].
  destruct (ccr_retry_interval_seconds request <=? 0); [by do 2 eexists|].
  unfold bind at 1. cbn [list_codex_review_requests_conn query gets]. unfold bind at 1.
  fold (active_rows request (w_db w)). fold (request_owner request).
  pose proof (reuse_spec request (request_owner request) (active_rows request (w_db w)) w) as Hs.
  destruct (reuse_or_conflict _ _ _ w) as [[[reg|]|e|] w'].
  - destruct Hs as (_ & x & [Hx Hpx]%in_active_rows & _ & Ho & _). by rewrite Hall in Ho.
  - destruct Hs as (_ & Hs). destruct (Hs r) as [Ho _]; [by apply in_active_rows|]. by rewrite Hall in Ho.
  - do 2 eexists. split; [reflexivity|done].
  - done.
Qed.

Definition foreign_request : CreateCodexReviewRequest :=
  CreateReview "octo/app" 7 (Some "eve"%string) "lead" None "ccc" None None "1700000000000000000" 30 600.
Lemma review_conflict_refused_witness :
  exists e w', create_codex_review_request_in_path TablePresent foreign_request demo_reviewed = (Err e, w') /\
    w_db w' = w_db demo_reviewed.
Proof.
  apply (review_conflict_refused foreign_request demo_reviewed demo_review_row).
  - rewrite demo_reviewed_rows. by left.
  - vm_compute. reflexivity.
  - intros x Hx _. rewrite demo_reviewed_rows in Hx. destruct Hx as [<-|[]]. vm_compute. reflexivity.
Defined.

(** *** Sequences of operations *)
Fixpoint after_ops {T : TimeCrate} {E : Env} {A : Affinity} (ops : list (db_file * review_op))
    (w : world mqdb) : world mqdb :=
  match ops with
  | [] => w
  | (file, op) :: rest => after_ops rest (snd (run_review_op file op w))
  end.
Lemma after_ops_safe {T : TimeCrate} {E : Env} {A : Affinity} ops w :
  review_safe (w_db w) (w_db (after_ops ops w)).
Proof.
  revert w. induction ops as [|[file op] ops IH]; intros w; cbn; [reflexivity|].
  etransitivity; [apply (run_review_op_safe file op w)|apply IH].
Qed.

(** A finished review request is frozen: once it is cancelled, completed or
    superseded, no sequence of the component's operations, successful or failing,
    changes or removes its row, and ids stay unique. *)
Lemma finished_review_frozen {T : TimeCrate} {E : Env} {A : Affinity} ops w r :
  mq_wf (w_db w) -> In r (reviews (w_db w)) -> finished r = true ->
  In r (reviews (w_db (after_ops ops w))) /\
  lookup_row rev_id (rev_id r) (reviews (w_db (after_ops ops w))) = Some r.
Proof.
  intros Hwf Hin Hfin. destruct (after_ops_safe ops w) as [[Hk _] Hs].
  split; [by apply Hs|]. apply lookup_row_unique; [by apply wf_reviews, Hk|by apply Hs].
Qed.

Definition demo_completion : CompleteCodexReviewRequest :=
  CompleteReview "1700000100000000000" (Some "review"%string) (Some (JsonNumber (NumberInt 42))) None "1700000100000000000".
Definition demo_completed : world mqdb :=
  snd (complete_codex_review_request_and_enqueue_in_path TablePresent (rev_id demo_review_row)
         demo_completion "review landed" demo_reviewed).
Definition demo_completed_row : review_row := completed_row demo_completion demo_review_row.
Lemma demo_reviewed_wf : mq_wf (w_db demo_reviewed).
Proof.
  destruct (create_safe TablePresent (demo_request "aaa") (World empty_mqdb 0)) as [[Hk _] _].
  exact (Hk empty_mqdb_wf).
Qed.

Definition demo_ops : list (db_file * review_op) :=
  [(TablePresent, ReviewCancel (rev_id demo_review_row)); (TablePresent, ReviewCreate (demo_request "bbb"))].
Lemma finished_review_frozen_witness :
  In demo_completed_row (reviews (w_db (after_ops demo_ops demo_completed))) /\
  lookup_row rev_id (rev_id demo_completed_row) (reviews (w_db (after_ops demo_ops demo_completed)))
    = Some demo_completed_row.
Proof.
  apply (finished_review_frozen demo_ops demo_completed demo_completed_row).
  - destruct (complete_enqueue_safe TablePresent (rev_id demo_review_row) demo_completion "review landed" demo_reviewed)
      as [[Hk _] _]. exact (Hk demo_reviewed_wf).
  - vm_compute. by left.
  - vm_compute. reflexivity.
Defined.

(** *** Completion *)
Section Completion.
Context {T : TimeCrate} {E : Env} {A : Affinity}.

Lemma set_reviews_init d : (init_schema d) <| reviews := reviews d |> = init_schema d.
Proof. by destruct d. Qed.

Lemma complete_again id completion text w :
  changes (active_request id) (reviews (w_db w)) = O ->
  complete_codex_review_request_and_enqueue_in_path TablePresent id completion text w =
  (Ok None, World (init_schema (w_db w)) (w_tick w)).
Proof.
  intros H. unfold complete_codex_review_request_and_enqueue_in_path, with_connection, transaction, bind.
  cbn -[init_schema]. change (reviews (init_schema (w_db w))) with (reviews (w_db w)).
  rewrite H, update_none by done. cbn -[init_schema]. by rewrite set_reviews_init.
Qed.

Lemma completed_not_active id completion r : active_request id (completed_row completion r) = false.
Proof. unfold active_request. cbn. apply andb_false_r. Qed.
Lemma completed_key completion r : rev_id (completed_row completion r) = rev_id r.
Proof. done. Qed.

Lemma complete_inv id completion text w reg w' :
  mq_wf (w_db w) ->
  complete_codex_review_request_and_enqueue_in_path TablePresent id completion text w = (Ok (Some reg), w') ->
  exists row m qid,
    lookup_row rev_id id (reviews (w_db w)) = Some row /\ col_is 1 (rev_is_active row) = true /\
    reg = codex_review_request_registration_from_row (completed_row completion row) /\
    row_of_metadata m qid (rev_notify_session_id row) text "sequential" default_metadata /\
    lookup_row msg_id qid (messages (w_db w)) = None /\
    w_db w' = (init_schema (w_db w))
      <| reviews := update (active_request id) (completed_row completion) (reviews (w_db w)) |>
      <| messages := insert (messages (w_db w)) m |>.
Proof.
  unfold complete_codex_review_request_and_enqueue_in_path, with_connection. intros Hwf H.
  apply transaction_Ok_inv in H. apply bind_Ok_inv in H as (n & w1 & Hex & H).
  apply execute_Ok_inv in Hex as (-> & Hw1 & _). cbn [fst snd w_db] in *.
  change (reviews (init_schema (w_db w))) with (reviews (w_db w)) in *.
  destruct (Nat.eqb_spec (changes (active_request id) (reviews (w_db w))) 0) as [|Hch]; [done|].
  unfold active_request in Hch. rewrite (changes_key rev_id id) in Hch by apply Hwf.
  destruct (lookup_row rev_id id (reviews (w_db w))) as [row|] eqn:Hl; [|done].
  destruct (col_is 1 (rev_is_active row)) eqn:Hact; [|done].
  apply bind_Ok_inv in H as (found & w2 & Hq & H). injection Hq as <- <-. rewrite Hw1 in H. cbn [reviews] in H.
  apply bind_Ok_inv in H as (reg' & w3 & Hexp & H). apply expect_Ok_inv in Hexp as [Hreg <-].
  cbn -[init_schema completed_row] in Hreg.
  rewrite (lookup_row_update rev_id), Hl in Hreg by (intros; apply completed_key).
  cbn [option_map] in Hreg. unfold active_request in Hreg. apply lookup_row_Some in Hl as Hk. destruct Hk as [_ Hk].
  unfold has_key in Hreg. rewrite Hk, String.eqb_refl, Hact in Hreg. cbn [andb] in Hreg. injection Hreg as <-.
  apply bind_Ok_inv in H as (qid & w4 & Henq & H). injection H as <- <-.
  apply enqueue_conn_spec in Henq as (Hf & m & Hm & Hdb). rewrite Hw1 in Hdb, Hf.
  exists row, m, qid. repeat (split; [done|]). exact Hdb.
Qed.
End Completion.

(** A completion wakes the waiting session exactly once.  When it returns a
    request, that request was active, its row is now completed and inactive, and one
    undelivered message with the wake text for the session to notify joins the queue
    in the same transaction; completing it again finds nothing and adds nothing.
    When it returns none or fails, no table changes. *)
Theorem review_completion_wakes_once {T : TimeCrate} {E : Env} {A : Affinity} id completion text w :
  mq_wf (w_db w) ->
  match complete_codex_review_request_and_enqueue_in_path TablePresent id completion text w with
  | (Ok (Some reg), w') =>
      (exists row m qid,
         lookup_row rev_id id (reviews (w_db w)) = Some row /\ col_is 1 (rev_is_active row) = true /\
         reg = codex_review_request_registration_from_row (completed_row completion row) /\
         lookup_row rev_id id (reviews (w_db w')) = Some (completed_row completion row) /\
         row_of_metadata m qid (rev_notify_session_id row) text "sequential" default_metadata /\
         lookup_row msg_id qid (messages (w_db w)) = None /\
         messages (w_db w') = (messages (w_db w) ++ [m])%list) /\
      forall completion' text',
        complete_codex_review_request_and_enqueue_in_path TablePresent id completion' text' w' =
        (Ok None, World (w_db w') (w_tick w'))
  | (_, w') => w_db w' = init_schema (w_db w)
  end.
Proof.
  intros Hwf.
  destruct (complete_codex_review_request_and_enqueue_in_path TablePresent id completion text w)
    as [[[reg|]|e|] w'] eqn:Hrun.
  - apply complete_inv in Hrun as (row & m & qid & Hl & Hact & Hreg & Hm & Hf & Hdb); [|done]. split.
    + exists row, m, qid. rewrite Hdb. cbn -[init_schema completed_row].
      rewrite (lookup_row_update rev_id), Hl by (intros; apply completed_key). cbn [option_map].
      apply lookup_row_Some in Hl as [_ Hk]. unfold active_request, has_key.
      rewrite Hk, String.eqb_refl, Hact. done.
    + intros completion' text'. rewrite complete_again.
      * by rewrite (init_schema_migrated (w_db w') (w_db w)) by (by rewrite Hdb).
      * rewrite Hdb. cbn -[init_schema completed_row]. apply changes_zero.
        intros r (r0 & _ & ->)%in_update. destruct (active_request id r0) eqn:Hr; [apply completed_not_active|done].
  - unfold complete_codex_review_request_and_enqueue_in_path, with_connection in Hrun.
    apply transaction_Ok_inv in Hrun. unfold bind at 1 in Hrun. cbn -[init_schema completed_row] in Hrun.
    change (reviews (init_schema (w_db w))) with (reviews (w_db w)) in Hrun.
    destruct (Nat.eqb_spec (changes (active_request id) (reviews (w_db w))) 0) as [Hz|].
    + injection Hrun as <-. cbn -[init_schema completed_row]. rewrite update_none by done. apply set_reviews_init.
    + by inv_ok Hrun.
  - unfold complete_codex_review_request_and_enqueue_in_path, with_connection in Hrun.
    match type of Hrun with transaction ?b ?w0 = _ => pose proof (transaction_atomic b w0) as Ha end.
    rewrite Hrun in Ha. by apply Ha.
  - unfold complete_codex_review_request_and_enqueue_in_path, with_connection in Hrun.
    match type of Hrun with transaction ?b ?w0 = _ => pose proof (transaction_atomic b w0) as Ha end.
    rewrite Hrun in Ha. by apply Ha.
Qed.

Lemma review_completion_wakes_once_witness :
  match complete_codex_review_request_and_enqueue_in_path TablePresent (rev_id demo_review_row)
          demo_completion "review landed" demo_reviewed with
  | (Ok (Some reg), w') =>
      (exists row m qid,
         lookup_row rev_id (rev_id demo_review_row) (reviews (w_db demo_reviewed)) = Some row /\
         col_is 1 (rev_is_active row) = true /\
         reg = codex_review_request_registration_from_row (completed_row demo_completion row) /\
         lookup_row rev_id (rev_id demo_review_row) (reviews (w_db w')) = Some (completed_row demo_completion row) /\
         row_of_metadata m qid (rev_notify_session_id row) "review landed" "sequential" default_metadata /\
         lookup_row msg_id qid (messages (w_db demo_reviewed)) = None /\
         messages (w_db w') = (messages (w_db demo_reviewed) ++ [m])%list) /\
      forall completion' text',
        complete_codex_review_request_and_enqueue_in_path TablePresent (rev_id demo_review_row) completion' text' w' =
        (Ok None, World (w_db w') (w_tick w'))
  | (_, w') => w_db w' = init_schema (w_db demo_reviewed)
  end.
Proof. apply (review_completion_wakes_once (rev_id demo_review_row) demo_completion). exact demo_reviewed_wf. Defined.

(** A review's comment id survives storage: an integer id that SQLite can hold is
    read back as the same JSON number, and no id as no id. *)
Lemma review_comment_id_roundtrip {A : Affinity} {L : AffinityLaws A} completion r z :
  in_i64 z = true ->
  crr_review_comment_id (codex_review_request_registration_from_row
    (completed_row (CompleteReview (cor_review_landed_at completion) (cor_review_source completion)
       (Some (JsonNumber (NumberInt z))) (cor_review_url completion) (cor_last_polled_at completion)) r))
    = Some (JsonNumber (NumberInt z)) /\
  crr_review_comment_id (codex_review_request_registration_from_row
    (completed_row (CompleteReview (cor_review_landed_at completion) (cor_review_source completion)
       None (cor_review_url completion) (cor_last_polled_at completion)) r)) = None.
Proof.
  intros Hz. unfold codex_review_request_registration_from_row, completed_row. cbn. rewrite Hz.
  by rewrite affinity_integer, affinity_null.
Qed.

#[export] Instance demo_affinity_laws : AffinityLaws demo_affinity.
Proof. done. Qed.
Lemma review_comment_id_roundtrip_witness :
  crr_review_comment_id (codex_review_request_registration_from_row
    (completed_row (CompleteReview "" None (Some (JsonNumber (NumberInt 42))) None "") demo_review_row))
    = Some (JsonNumber (NumberInt 42)) /\
  crr_review_comment_id (codex_review_request_registration_from_row
    (completed_row (CompleteReview "" None None None "") demo_review_row)) = None.
Proof. apply (review_comment_id_roundtrip (CompleteReview "" None None None "") demo_review_row 42). reflexivity. Defined.
