(* ===== verification/Store.v ===== *)
(** * Executions of the message store

    Every operation that writes the message database, as the steps of one relation:
    messages, registrations, deliveries, reminders, parent routing and review requests.
    Whatever the order of the steps and however each ends, the declared keys stay unique, a
    delivered message is never changed or removed, and a finished review request neither. *)
From Stdlib Require Import ZArith Lia Bool String Ascii List.
From stdpp Require Import base tactics list strings relations.
From S2P Require Import Prelude Text Table Clock Demo Schema MessageQueue MessageQueueProps Reminders ParentRouting Reviews.

(** ** The operations *)
Inductive message_op : Type :=
| Enqueue (target text mode : string) (md : QueueMessageMetadata)
| EnqueueOnce (id target text mode : string) (md : QueueMessageMetadata)
| ListPending (target : string) (limit : Z)
| ListPendingByMode (target mode : string) (limit : Z)
| ListPendingByCategory (target category : string) (limit : Z)
| RegisterRemind (target : string) (soft hard : Z) (cancel : option string)
| RegisterParentWake (child parent : string) (period : Z)
| CancelParentWake (child : string)
| CancelRemind (target : string)
| UpsertStopNotify (session sender name : string) (delay : Z)
| ClearStopNotify (session : string)
| MarkDelivered (id : string)
| Deliver (m : PendingMessage)
| CancelForTarget (target category : string)
| CancelFromSender (sender category : string).
Inductive reminder_op : Type :=
| Schedule (target : string) (delay : Z) (message : string) (interval : option Z)
| CancelScheduled (id : string)
| Deactivate (id : string)
| Claim (id : string) (now : Z).
Inductive routing_op : Type :=
| PlanRouting (child parent : string)
| QuiesceRouting (s : ParentRoutingSnapshot)
| RetargetRouting (s : ParentRoutingSnapshot) (new_parent : option string).

Inductive store_op : Type :=
| OnMessages (o : message_op)
| OnReminders (o : reminder_op)
| OnRouting (o : routing_op)
| OnReviews (file : db_file) (o : review_op).

Section Runs.
Context `{T : TimeCrate} `{E : Env}.

Definition run_message_op (o : message_op) : MQ unit :=
  match o with
  | Enqueue target text mode md => enqueue_message_with_metadata target text mode md ;;; ret tt
  | EnqueueOnce id target text mode md => enqueue_message_once_with_metadata id target text mode md
  | ListPending target limit => pending_messages_for_target target limit ;;; ret tt
  | ListPendingByMode target mode limit => pending_messages_for_target_by_mode target mode limit ;;; ret tt
  | ListPendingByCategory target category limit => pending_messages_for_target_by_category target category limit ;;; ret tt
  | RegisterRemind target soft hard cancel => register_remind target soft hard cancel ;;; ret tt
  | RegisterParentWake child parent period => register_parent_wake child parent period ;;; ret tt
  | CancelParentWake child => cancel_parent_wake child
  | CancelRemind target => cancel_remind target
  | UpsertStopNotify session sender name delay => upsert_stop_notify session sender name delay
  | ClearStopNotify session => clear_stop_notify session
  | MarkDelivered id => mark_delivered id
  | Deliver m => mark_delivered_and_apply_side_effects m
  | CancelForTarget target category => cancel_pending_messages_for_target_category target category ;;; ret tt
  | CancelFromSender sender category => cancel_pending_messages_from_sender_category sender category ;;; ret tt
  end.
Definition run_reminder_op (o : reminder_op) : MQ unit :=
  match o with
  | Schedule target delay message interval => schedule_reminder target delay message interval ;;; ret tt
  | CancelScheduled id => cancel_scheduled_reminder id ;;; ret tt
  | Deactivate id => deactivate_scheduled_reminder id ;;; ret tt
  | Claim id now => claim_due_scheduled_reminder id now ;;; ret tt
  end.
Definition run_routing_op (o : routing_op) : MQ unit :=
  match o with
  | PlanRouting child parent => snapshot_parent_routing child parent ;;; ret tt
  | QuiesceRouting s => quiesce_parent_routing s
  | RetargetRouting s new_parent => retarget_parent_routing s new_parent ;;; ret tt
  end.
Definition run_store_op `{A : Affinity} (o : store_op) : MQ unit :=
  match o with
  | OnMessages o => run_message_op o
  | OnReminders o => run_reminder_op o
  | OnRouting o => run_routing_op o
  | OnReviews file o => run_review_op file o
  end.
(** A step runs one of the operations; time may pass between steps. *)
Inductive store_step : world mqdb -> world mqdb -> Prop :=
| store_run `{A : Affinity} (o : store_op) w : store_step w (snd (run_store_op o w))
| store_time w n : store_step w (World (w_db w) (w_tick w + n)).
End Runs.

(** ** The components outside the review table *)
Definition keep_reviews (d d' : mqdb) : Prop := reviews d' = reviews d.
#[export] Instance keep_reviews_preorder : PreOrder keep_reviews.
Proof. split; [done|]. intros ???. unfold keep_reviews. congruence. Qed.
Lemma with_connection_keep {A} (f : MQ A) : steps (on_db keep_reviews) f -> steps (on_db keep_reviews) (with_connection f).
Proof. apply steps_with_connection; [tc_solve|done]. Qed.
#[local] Hint Resolve with_connection_keep : steps.

Section Keep.
Context {T : TimeCrate} {E : Env}.

Lemma enqueue_keep id target text mode md :
  steps (on_db keep_reviews) (enqueue_message_with_id_and_metadata_conn id target text mode md).
Proof. unfold enqueue_message_with_id_and_metadata_conn. db_steps. by destruct (insert_or_ignore _ _ _). Qed.
Lemma enqueue_conn_keep target text mode md : steps (on_db keep_reviews) (enqueue_message_with_metadata_conn target text mode md).
Proof. unfold enqueue_message_with_metadata_conn. db_steps. apply enqueue_keep. Qed.
Lemma expire_keep target : steps (on_db keep_reviews) (expire_pending_messages_for_target target).
Proof. unfold expire_pending_messages_for_target. db_steps. done. Qed.
#[local] Hint Resolve enqueue_keep enqueue_conn_keep expire_keep : steps.
Lemma message_op_keep o : steps (on_db keep_reviews) (run_message_op o).
Proof.
  destruct o; cbn [run_message_op].
  all: unfold enqueue_message_with_metadata, enqueue_message_once_with_metadata, pending_messages_for_target,
    pending_messages_for_target_by_mode, pending_messages_for_target_by_category, register_remind, register_parent_wake,
    cancel_parent_wake, cancel_remind, upsert_stop_notify, clear_stop_notify, mark_delivered,
    mark_delivered_and_apply_side_effects, notify_sender, arm_stop_notify, register_delivered_remind,
    register_delivered_wake, register_remind_conn, register_parent_wake_conn, cancel_parent_wake_conn,
    upsert_stop_notify_conn, mark_delivered_conn, cancel_pending_messages_for_target_category,
    cancel_pending_messages_from_sender_category.
  all: repeat first [progress db_steps | apply with_connection_keep | done].
Qed.
End Keep.

Section Components.
Context {T : TimeCrate} {E : Env}.

Lemma message_op_safe o : steps (on_db mq_safe) (run_message_op o).
Proof.
  destruct o; cbn [run_message_op]; try apply delivery_effects_safe; try apply enqueue_once_safe.
  all: unfold enqueue_message_with_metadata, pending_messages_for_target,
    pending_messages_for_target_by_mode, pending_messages_for_target_by_category, register_remind, register_parent_wake,
    cancel_parent_wake, cancel_remind, upsert_stop_notify, clear_stop_notify, mark_delivered,
    cancel_pending_messages_for_target_category, cancel_pending_messages_from_sender_category.
  all: repeat first [progress db_steps | apply with_connection_safe | safe_table
    | apply delete_messages_safe; intros r Hr; by bool_simpl].
Qed.
Lemma reminder_op_safe o : steps (on_db mq_safe) (run_reminder_op o).
Proof. destruct o; cbn [run_reminder_op]; db_steps. Qed.
Lemma routing_op_safe o : steps (on_db mq_safe) (run_routing_op o).
Proof. destruct o; cbn [run_routing_op]; db_steps. Qed.

Lemma reminder_op_keep o : steps (on_db keep_reviews) (run_reminder_op o).
Proof.
  assert (He : forall t x m md, steps (on_db keep_reviews) (enqueue_message_with_metadata_conn t x m md)) by apply enqueue_conn_keep.
  destruct o; cbn [run_reminder_op].
  all: unfold schedule_reminder, generate_scheduled_reminder_id, cancel_scheduled_reminder, deactivate_scheduled_reminder,
    claim_due_scheduled_reminder, deactivate_rows, scheduled_reminder_conn, insert_reminder.
  all: repeat first [progress db_steps | apply with_connection_keep | done].
Qed.
Lemma routing_op_keep o : steps (on_db keep_reviews) (run_routing_op o).
Proof.
  destruct o; cbn [run_routing_op].
  all: unfold snapshot_parent_routing, snapshot_parent_routing_conn, quiesce_parent_routing, retarget_parent_routing,
    with_immediate_transaction, quiesce_wake, quiesce_message, retarget_wake, retarget_message,
    parent_routing_wake_row_conn, parent_routing_message_state_conn, update_wake, update_parent.
  all: repeat first [progress db_steps | apply with_connection_keep | done].
Qed.
Lemma keep_review_safe {A} (m : MQ A) :
  steps (on_db mq_safe) m -> steps (on_db keep_reviews) m -> steps (on_db review_safe) m.
Proof. intros Hs Hk. by apply mq_safe_reviews. Qed.

Lemma store_op_safe {A : Affinity} o : steps (on_db review_safe) (run_store_op o).
Proof.
  destruct o as [o|o|o|file o]; cbn [run_store_op].
  - apply keep_review_safe; [apply message_op_safe|apply message_op_keep].
  - apply keep_review_safe; [apply reminder_op_safe|apply reminder_op_keep].
  - apply keep_review_safe; [apply routing_op_safe|apply routing_op_keep].
  - apply run_review_op_safe.
Qed.
Lemma store_step_safe w w' : store_step w w' -> on_db review_safe w w'.
Proof. destruct 1; [apply store_op_safe|unfold on_db; cbn; reflexivity]. Qed.
Lemma store_execution_safe w w' : rtc store_step w w' -> on_db review_safe w w'.
Proof. induction 1 as [w|w1 w2 w3 Hs _ IH]; [reflexivity|]. etransitivity; [by apply store_step_safe|done]. Qed.

(** C4: In every execution of the message store, its operations on messages, registrations,
    reminders, parent routing and review requests in any order and however each ends, every declared key stays unique, a delivered message keeps its row
    unchanged for good, and so does a review request that is no longer active. *)
Theorem store_invariant w w' :
  rtc store_step w w' -> mq_wf (w_db w) ->
  mq_wf (w_db w') /\
  (forall m, In m (messages (w_db w)) -> is_some (msg_delivered_at m) = true ->
     lookup_row msg_id (msg_id m) (messages (w_db w')) = Some m) /\
  (forall r, In r (reviews (w_db w)) -> finished r = true -> In r (reviews (w_db w'))).
Proof.
  intros Hx Hwf. destruct (store_execution_safe _ _ Hx) as [[Hk Hd] Hr]. specialize (Hk Hwf).
  split; [done|]. split; [|done]. intros m Hm Hdel. apply lookup_row_unique; [apply Hk|auto].
Qed.
End Components.

(** ** A concrete execution: a delivered message, then a reminder and a new message. *)
Definition demo_scheduled : world mqdb := snd (run_store_op (OnReminders (Schedule "worker" 60 "stretch" None)) demo_delivered).
Definition demo_later_store : world mqdb :=
  snd (run_store_op (OnMessages (Enqueue "worker" "next" "sequential" default_metadata)) demo_scheduled).
Lemma demo_store_execution : rtc store_step demo_delivered demo_later_store.
Proof.
  apply (rtc_l _ demo_delivered demo_scheduled); [unfold demo_scheduled; apply store_run|].
  apply (rtc_l _ demo_scheduled demo_later_store); [unfold demo_later_store; apply store_run|apply rtc_refl].
Qed.
Lemma demo_delivered_wf : mq_wf (w_db demo_delivered).
Proof.
  pose proof (delivery_effects_safe demo_pending demo_queued) as [Hk _]. apply Hk.
  pose proof (message_op_safe (Enqueue "worker" "do it" "sequential" demo_metadata) (World empty_mqdb O)) as [Hk0 _].
  apply Hk0, empty_mqdb_wf.
Qed.

Lemma store_invariant_witness :
  mq_wf (w_db demo_later_store) /\
  (forall m, In m (messages (w_db demo_delivered)) -> is_some (msg_delivered_at m) = true ->
     lookup_row msg_id (msg_id m) (messages (w_db demo_later_store)) = Some m) /\
  (forall r, In r (reviews (w_db demo_delivered)) -> finished r = true -> In r (reviews (w_db demo_later_store))).
Proof. exact (store_invariant demo_delivered demo_later_store demo_store_execution demo_delivered_wf). Defined.
