(* ===== verification/QueueJobs.v ===== *)
(** * Queue jobs: records, creation, completion

    The job table of the queue runner (queue.rs), the completion of a job with its
    notification in the message queue, and the retry of notifications that could not
    be queued.  The runner's state is the job table, the message database and the
    list of things it asked of the host (processes, signals, threads, files), newest
    first; what the host answers is read from the class [Host]. *)
From Stdlib Require Import ZArith Lia Bool String Ascii List Sorted.
From stdpp Require Import base tactics list strings.
From S2P Require Import Prelude Text Table Clock Demo Schema MessageQueue MessageQueueProps.

(** ** Rows and records *)
Record job_row : Type := JobRow {
  job_id : string;
  job_type : string;
  job_label : string;
  job_requester_session_id : option string;
  job_notify_session_id : string;
  job_cwd : string;
  job_argv_json : option string;
  job_script_path : option string;
  job_env_json : string;
  job_timeout_seconds : Z;
  job_state : string;
  job_holding_reason : option string;
  job_queued_at : string;
  job_started_at : option string;
  job_finished_at : option string;
  job_pid : option Z;
  job_process_group_id : option Z;
  job_exit_code : option Z;
  job_log_path : option string;
  job_exit_code_path : option string;
  job_wrapper_path : option string;
  job_queued_notified_at : option string;
  job_started_notified_at : option string;
  job_completion_notification_required : Z;
  job_completion_notified_at : option string }.
#[export] Instance eta_job_row : Eta job_row := fun r =>
  JobRow (job_id r) (job_type r) (job_label r) (job_requester_session_id r)
    (job_notify_session_id r) (job_cwd r) (job_argv_json r) (job_script_path r)
    (job_env_json r) (job_timeout_seconds r) (job_state r) (job_holding_reason r)
    (job_queued_at r) (job_started_at r) (job_finished_at r) (job_pid r)
    (job_process_group_id r) (job_exit_code r) (job_log_path r) (job_exit_code_path r)
    (job_wrapper_path r) (job_queued_notified_at r) (job_started_notified_at r)
    (job_completion_notification_required r) (job_completion_notified_at r).

Record QueueJobRecord : Type := JobRecord {
  qj_id : string;
  qj_job_type : string;
  qj_label : string;
  qj_requester_session_id : option string;
  qj_notify_session_id : option string;
  qj_cwd : string;
  qj_argv : option (list string);
  qj_script_path : option string;
  qj_timeout_seconds : Z;
  qj_state : string;
  qj_holding_reason : option string;
  qj_queued_at : string;
  qj_started_at : option string;
  qj_finished_at : option string;
  qj_pid : option Z;
  qj_process_group_id : option Z;
  qj_exit_code : option Z;
  qj_log_path : option string }.

Record QueueJobRuntimeRecord : Type := RuntimeRecord {
  rt_id : string;
  rt_job_type : string;
  rt_state : string;
  rt_notify_session_id : option string;
  rt_queued_at : string;
  rt_started_at : option string;
  rt_finished_at : option string;
  rt_holding_reason : option string;
  rt_wrapper_path : option string;
  rt_log_path : option string;
  rt_exit_code_path : option string;
  rt_timeout_seconds : Z;
  rt_pid : option Z;
  rt_process_group_id : option Z;
  rt_exit_code : option Z;
  rt_completion_notified_at : option string }.
#[export] Instance eta_runtime : Eta QueueJobRuntimeRecord := fun r =>
  RuntimeRecord (rt_id r) (rt_job_type r) (rt_state r) (rt_notify_session_id r) (rt_queued_at r)
    (rt_started_at r) (rt_finished_at r) (rt_holding_reason r) (rt_wrapper_path r) (rt_log_path r)
    (rt_exit_code_path r) (rt_timeout_seconds r) (rt_pid r) (rt_process_group_id r)
    (rt_exit_code r) (rt_completion_notified_at r).

Record CreateQueueJob : Type := CreateJob {
  cj_job_type : string;
  cj_label : string;
  cj_requester_session_id : option string;
  cj_notify_session_id : string;
  cj_cwd : string;
  cj_argv : option (list string);
  cj_script : option string;
  cj_env : list (string * string);
  cj_timeout_seconds : Z }.

Record QueueJobFilters : Type := JobFilters {
  jf_notify_session_id : option string;
  jf_job_type : option string;
  jf_state : option string;
  jf_include_terminal : bool }.

(** ** The runner's state and the host *)
(** What the runner asks of the host. *)
Inductive host_event : Type :=
| WroteFile (path contents : string)
| Spawned (wrapper_path log_path : string)
| Signalled (pgid : Z) (kill : bool)
| MonitorStarted (job_id : string) (pid timeout_seconds : Z)
| PollStarted (job_id : string) (pid : Z)
| AdmissionRetry (delay_seconds : Z).

Record runner : Type := Runner {
  jobs : list job_row;
  mq : mqdb;
  host : list host_event }.
#[export] Instance eta_runner : Eta runner := fun d => Runner (jobs d) (mq d) (host d).
Abbreviation RQ := (M (world runner)).

(** The host's answers at reading [k]: an error text or a success. *)
Class Host : Type := {
  (** Opening the runner's database, and the message database. *)
  host_open : nat -> option string;
  host_open_mq : nat -> option string;
  (** Creating a directory or writing a file. *)
  host_write : nat -> string -> option string;
  (** Opening the log and starting [/bin/zsh wrapper]: the process id. *)
  host_spawn : nat -> string -> string -> Z + string;
  (** The bytes of a readable file. *)
  host_read : nat -> string -> option (list ascii);
  host_path_exists : nat -> string -> bool;
  (** [kill -0] succeeds. *)
  host_alive : nat -> Z -> bool }.

(** The JSON encoding of string lists and string maps ([serde_json]). *)
Class Serde : Type := {
  json_of_list : list string -> string;
  list_of_json : string -> option (list string);
  json_error : string;
  json_of_map : list (string * string) -> string }.
Class SerdeLaws (S : Serde) : Prop := {
  list_of_json_of_list : forall l, list_of_json (json_of_list l) = Some l;
  json_of_list_trimmed : forall l, trim (json_of_list l) = json_of_list l /\ json_of_list l <> ""%string }.

Definition emit (e : host_event) : RQ unit :=
  modify (fun w => World ((w_db w) <| host := e :: host (w_db w) |>) (w_tick w)).
(** One answer of the host. *)
Definition ask {D A} (f : nat -> A) : M (world D) A := k <- tick ;; ret (f k).
Definition check_io {D} (f : nat -> option string) : M (world D) unit :=
  r <- ask f ;; match r with Some e => bail e | None => ret tt end.
(** An operation of the message store, on the runner's message database. *)
Definition on_mq {A} (m : MQ A) : RQ A :=
  fun w =>
    let '(r, w') := m (World (mq (w_db w)) (w_tick w)) in
    (r, World ((w_db w) <| mq := w_db w' |>) (w_tick w')).

Definition is_terminal_queue_state (state : string) : bool :=
  str_in state ["succeeded"; "failed"; "timed_out"; "cancelled"; "displaced"]%string.

#[global] Arguments is_terminal_queue_state : simpl never.

Definition runtime_of (r : job_row) : QueueJobRuntimeRecord :=
  RuntimeRecord (job_id r) (job_type r) (job_state r) (Some (job_notify_session_id r)) (job_queued_at r)
    (job_started_at r) (job_finished_at r) (job_holding_reason r) (job_wrapper_path r) (job_log_path r)
    (job_exit_code_path r) (job_timeout_seconds r) (job_pid r) (job_process_group_id r)
    (job_exit_code r) (job_completion_notified_at r).

Definition job_order (a b : job_row) : bool :=
  text2_leb (job_queued_at a, job_id a) (job_queued_at b, job_id b).
Definition get_queue_job_runtime_conn (id : string) : RQ (option QueueJobRuntimeRecord) :=
  query (fun d => option_map runtime_of (lookup_row job_id id (jobs d))).
Definition list_queue_job_runtime_records_conn : RQ (list QueueJobRuntimeRecord) :=
  query (fun d => map runtime_of (order_by job_order (jobs d))).

(** ** Reading jobs *)
Section Reading.
Context `{J : Serde}.

Definition queue_job_record_from_row (r : job_row) : outcome QueueJobRecord :=
  let record argv := JobRecord (job_id r) (job_type r) (job_label r) (job_requester_session_id r)
    (if job_notify_session_id r =?s "" then None else Some (job_notify_session_id r)) (job_cwd r) argv
    (job_script_path r) (job_timeout_seconds r) (job_state r) (job_holding_reason r) (job_queued_at r)
    (job_started_at r) (job_finished_at r) (job_pid r) (job_process_group_id r) (job_exit_code r)
    (job_log_path r) in
  match filter_nonblank (option_map trim (job_argv_json r)) with
  | Some raw => match list_of_json raw with Some argv => Ok (record (Some argv)) | None => Err json_error end
  | None => Ok (record None)
  end.

Definition get_queue_job_conn (id : string) : RQ (option QueueJobRecord) :=
  found <- query (fun d => lookup_row job_id id (jobs d)) ;;
  match found with
  | None => ret None
  | Some r => j <- lift (queue_job_record_from_row r) ;; ret (Some j)
  end.

Definition job_matches (f : QueueJobFilters) (r : job_row) : bool :=
  match jf_notify_session_id f with Some v => job_notify_session_id r =?s v | None => true end
  && match jf_job_type f with Some v => job_type r =?s v | None => true end
  && match jf_state f with
     | Some v => if v =?s "done" then is_terminal_queue_state (job_state r) else job_state r =?s v
     | None => jf_include_terminal f || str_in (job_state r) ["pending"; "running"]%string
     end.
(** [collect::<Result<Vec<_>, _>>]. *)
Fixpoint collect {A} (l : list (outcome A)) : outcome (list A) :=
  match l with
  | [] => Ok []
  | Ok a :: rest => match collect rest with Ok t => Ok (a :: t) | Err e => Err e | Panic => Panic end
  | Err e :: _ => Err e
  | Panic :: _ => Panic
  end.
Definition list_queue_jobs_conn (f : QueueJobFilters) : RQ (list QueueJobRecord) :=
  rows <- query (fun d => order_by (fun a b => text_leb (job_queued_at a) (job_queued_at b))
                            (select (job_matches f) (jobs d))) ;;
  lift (collect (map queue_job_record_from_row rows)).
End Reading.

(** ** Creating a job *)
(** [Path::join] with a relative component. *)
Definition path_join (a b : string) : string :=
  match rev (bytes_of a) with
  | [] => b
  | c :: _ => if Ascii.eqb c "/"%char then a +:+ b else a +:+ "/" +:+ b
  end.

(** The lines of the wrapper script; the environment is given in key order. *)
Definition wrapper_command (argv : option (list string)) (script_path : option string) : list string :=
  match argv with
  | Some argv => [join " " (map shell_quote argv)]
  | None =>
      match script_path with
      | Some script_path => ["/bin/zsh " +:+ shell_quote script_path]
      | None => []
      end
  end.
Definition queue_job_wrapper_text (cwd : string) (argv : option (list string))
    (script_path : option string) (env : list (string * string)) (exit_code_path : string) : string :=
  join NL
    (["#!/bin/zsh"%string; "set +e"%string; "cd " +:+ shell_quote cwd +:+ " || exit 127"]
     ++ map (fun kv => "export " +:+ shell_quote (fst kv) +:+ "=" +:+ shell_quote (snd kv)) env
     ++ wrapper_command argv script_path
     ++ ["code=$?"%string;
         "if [ " +:+ QT +:+ "$code" +:+ QT +:+ " -eq 127 ]; then";
         "  print -u2 -- " +:+ QT +:+ "[sm queue] effective PATH: $PATH" +:+ QT;
         "fi"%string;
         "printf '%s\n' " +:+ QT +:+ "$code" +:+ QT +:+ " > " +:+ shell_quote exit_code_path;
         "exit " +:+ QT +:+ "$code" +:+ QT])%list +:+ NL.

Section Operations.
Context `{T : TimeCrate} `{E : Env} `{H : Host} `{J : Serde}.

Definition write_file (path contents : string) : RQ unit :=
  check_io (fun k => host_write k path) ;;; emit (WroteFile path contents).
(** The file is written, then made executable for its owner. *)
Definition write_queue_job_wrapper (path cwd : string) (argv : option (list string))
    (script_path : option string) (env : list (string * string)) (exit_code_path : string) : RQ unit :=
  write_file path (queue_job_wrapper_text cwd argv script_path env exit_code_path) ;;;
  check_io (fun k => host_write k path).

(** [INSERT] under a random id; a taken id is a constraint error. *)
Definition insert_job (row : job_row) : RQ unit :=
  taken <- query (fun d => existsb (has_key job_id (job_id row)) (jobs d)) ;;
  if taken : bool then bail "UNIQUE constraint failed: queue_jobs.id"
  else execute (fun d => (d <| jobs := insert (jobs d) row |>, 1%nat)) ;;; ret tt.

Definition create_queue_job_conn (state_dir : string) (request : CreateQueueJob) : RQ QueueJobRecord :=
  id <- generate_queue_job_id ;;
  let job_dir := path_join state_dir id in
  check_io (fun k => host_write k job_dir) ;;;
  let logs_dir := path_join state_dir "logs" in
  check_io (fun k => host_write k logs_dir) ;;;
  script_path <-
    match cj_script request with
    | Some script =>
        let path := path_join job_dir "submitted.zsh" in
        write_file path script ;;; ret (Some path)
    | None => ret None
    end ;;
  let exit_code_path := path_join job_dir "exit.code" in
  let wrapper_path := path_join job_dir "run.zsh" in
  let log_path := path_join logs_dir (id +:+ ".log") in
  write_queue_job_wrapper wrapper_path (cj_cwd request) (cj_argv request) script_path (cj_env request)
    exit_code_path ;;;
  queued_at <- now_rfc3339 ;;
  insert_job (JobRow id (cj_job_type request) (cj_label request) (cj_requester_session_id request)
    (cj_notify_session_id request) (cj_cwd request) (option_map json_of_list (cj_argv request)) script_path
    (json_of_map (cj_env request)) (cj_timeout_seconds request) "pending" None queued_at None None None None
    None (Some log_path) (Some exit_code_path) (Some wrapper_path) None None 0 None) ;;;
  created <- get_queue_job_conn id ;;
  expect "created queue job was not persisted" created.

(** [open_queue_jobs_connection] and [init_queue_jobs_schema]: the schema has no
    migration that touches rows. *)
Definition open_queue_jobs_connection : RQ unit := check_io host_open.

Definition create_queue_job_in_state_dir (state_dir : string) (request : CreateQueueJob) : RQ QueueJobRecord :=
  check_io (fun k => host_write k state_dir) ;;;
  check_io (fun k => host_write k (path_join state_dir "logs")) ;;;
  open_queue_jobs_connection ;;;
  create_queue_job_conn state_dir request.

(** The read-only entry points; [db_exists]: whether the file exists. *)
Definition list_queue_jobs_from_path (db_exists : bool) (filters : QueueJobFilters) : RQ (list QueueJobRecord) :=
  if negb db_exists then ret []
  else
    opened <- attempt (check_io host_open) ;;
    match opened with
    | inl _ => list_queue_jobs_conn filters
    | inr _ => ret []
    end.
Definition get_queue_job_strict_from_path (db_exists : bool) (id : string) : RQ (option QueueJobRecord) :=
  if negb db_exists then ret None
  else check_io host_open ;;; get_queue_job_conn id.
Definition get_queue_job_from_path (db_exists : bool) (id : string) : RQ (option QueueJobRecord) :=
  found <- attempt (get_queue_job_strict_from_path db_exists id) ;;
  ret match found with inl job => job | inr _ => None end.

(** ** Completion and its notification *)
Definition read_exit_code (path : option string) : RQ (option Z) :=
  match path with
  | None => ret None
  | Some path =>
      contents <- ask (fun k => host_read k path) ;;
      ret (bind_opt contents (fun bytes =>
             (* [read_to_string] fails on bytes that are not UTF-8 *)
             if decide (utf8_lossy bytes = bytes) then parse_i64 (trim (of_bytes bytes)) else None))
  end.

Definition tail_queue_job_log (path : option string) (max_bytes : nat) : RQ string :=
  match path with
  | None => ret ""%string
  | Some path =>
      contents <- ask (fun k => host_read k path) ;;
      ret match contents with
          | None => ""%string
          | Some bytes => trim (of_bytes (utf8_lossy (drop (length bytes - max_bytes) bytes)))
          end
  end.

Definition queue_job_completion_text (job : QueueJobRuntimeRecord) (state : string)
    (exit_code : option Z) (finished_at : string) : RQ string :=
  let runtime := queue_duration_text (rt_started_at job) (Some finished_at) in
  let queue_end := unwrap_or finished_at (rt_started_at job) in
  let queued := queue_duration_text (Some (rt_queued_at job)) (Some queue_end) in
  let termination_text :=
    (if state =?s "timed_out" then " termination=timeout"
     else if state =?s "cancelled" then " termination=cancelled"
     else if state =?s "displaced" then " termination=perf_displacement" else "")%string in
  let exit_text :=
    match exit_code with
    | None => " exit=unknown (no exit receipt; output is partial/non-evidence)"%string
    | Some code => " exit=" +:+ show_Z code
    end in
  let text := "[sm queue] " +:+ rt_id job +:+ " completed: " +:+ state +:+ termination_text +:+ exit_text
    +:+ " runtime=" +:+ runtime +:+ " queue=" +:+ queued +:+ ". Log: " +:+ unwrap_or "-"%string (rt_log_path job) in
  stderr_tail <- tail_queue_job_log (rt_log_path job) (Z.to_nat 8192) ;;
  ret (if stderr_tail =?s "" then text else text +:+ NL +:+ "log tail:" +:+ NL +:+ stderr_tail).

Definition completion_message_id (id : string) : string := "queue-completion-" +:+ id.
Definition completion_metadata : QueueMessageMetadata :=
  default_metadata <| md_message_category := Some "queue-completion"%string |>.

Definition queue_job_completion_notified_at (job : QueueJobRuntimeRecord) (state : string)
    (exit_code : option Z) (finished_at : string) (message_queue : bool) : RQ (option string) :=
  if is_some (rt_completion_notified_at job) then ret None
  else
    match filter_nonblank (option_map trim (rt_notify_session_id job)) with
    | None => now <- now_rfc3339 ;; ret (Some now)
    | Some target_session_id =>
        if negb message_queue then ret None
        else
          text <- queue_job_completion_text job state exit_code finished_at ;;
          check_io host_open_mq ;;;
          on_mq (enqueue_message_once_with_metadata (completion_message_id (rt_id job)) target_session_id
                   text "sequential" completion_metadata) ;;;
          now <- now_rfc3339 ;;
          ret (Some now)
    end.

Definition record_queue_job_completion_notification_conn (job : QueueJobRuntimeRecord) (state : string)
    (exit_code : option Z) (finished_at : string) (message_queue : bool) : RQ bool :=
  notified <- queue_job_completion_notified_at job state exit_code finished_at message_queue ;;
  match notified with
  | None => ret false
  | Some completion_notified_at =>
      changed <- execute (fun d =>
        let p := has_key job_id (rt_id job) in
        (d <| jobs := update p (fun r =>
           r <| job_completion_notified_at :=
             match job_completion_notified_at r with Some t => Some t | None => Some completion_notified_at end |>)
           (jobs d) |>,
         changes p (jobs d))) ;;
      ret (Nat.eqb changed 1)
  end.

Definition finished_row (state : string) (finished_at : string) (exit_code : option Z) (r : job_row) : job_row :=
  r <| job_state := state |> <| job_holding_reason := None |> <| job_finished_at := Some finished_at |>
    <| job_exit_code := exit_code |> <| job_completion_notification_required := 1 |>.
Definition finish_queue_job_conn (job : QueueJobRuntimeRecord) (state : string) (exit_code : option Z)
    (message_queue : bool) : RQ unit :=
  finished_at <- now_rfc3339 ;;
  changed <- execute (fun d =>
    let p r := has_key job_id (rt_id job) r && negb (is_terminal_queue_state (job_state r)) in
    (d <| jobs := update p (finished_row state finished_at exit_code) (jobs d) |>, changes p (jobs d))) ;;
  if Nat.eqb changed 0 then ret tt
  else
    record_queue_job_completion_notification_conn job state exit_code finished_at message_queue ;;;
    ret tt.

Definition unnotified (r : job_row) : bool :=
  is_terminal_queue_state (job_state r) && (job_completion_notification_required r =? 1)
  && is_none (job_completion_notified_at r).
Definition finish_order (a b : job_row) : bool :=
  null_text2_leb (job_finished_at a, job_id a) (job_finished_at b, job_id b).
Definition retry_notification (message_queue : bool) (notified : nat) (id : string) : RQ nat :=
  found <- get_queue_job_runtime_conn id ;;
  match found with
  | None => ret notified
  | Some job =>
      let finished_at := unwrap_or (rt_queued_at job) (rt_finished_at job) in
      recorded <- record_queue_job_completion_notification_conn job (rt_state job) (rt_exit_code job)
                    finished_at message_queue ;;
      ret (if recorded : bool then S notified else notified)
  end.
Definition retry_unnotified_queue_job_completions_conn (message_queue : bool) : RQ nat :=
  job_ids <- query (fun d => map job_id (order_by finish_order (select unnotified (jobs d)))) ;;
  fold_each job_ids O (retry_notification message_queue).
End Operations.

(** ** What every operation of the runner guarantees

    Ids stay unique, the message store keeps its own guarantees, and a job in a
    terminal state is frozen: the only change it can still see is its notification
    stamp, once. *)
Definition settled (r r' : job_row) : Prop :=
  r' = r \/ (job_completion_notified_at r = None /\
             exists t, r' = r <| job_completion_notified_at := Some t |>).
Definition terminal_stable (d d' : runner) : Prop :=
  forall r, In r (jobs d) -> is_terminal_queue_state (job_state r) = true ->
    exists r', In r' (jobs d') /\ settled r r'.
Definition runner_safe (d d' : runner) : Prop :=
  (unique job_id (jobs d) -> unique job_id (jobs d')) /\ terminal_stable d d' /\ mq_safe (mq d) (mq d').

Lemma settled_trans r1 r2 r3 : settled r1 r2 -> settled r2 r3 -> settled r1 r3.
Proof.
  intros [->|(Hn & t & ->)] H2; [done|]. destruct H2 as [->|(Hn2 & _)]; [|done].
  right. eauto.
Qed.
Lemma settled_state r r' : settled r r' -> job_state r' = job_state r /\ job_id r' = job_id r.
Proof. intros [->|(_ & t & ->)]; done. Qed.
#[export] Instance runner_safe_preorder : PreOrder runner_safe.
Proof.
  split.
  - intros d. split; [done|]. split; [|reflexivity]. intros r Hr _. exists r. split; [done|by left].
  - intros d1 d2 d3 (A1 & B1 & C1) (A2 & B2 & C2). split; [auto|]. split; [|by etransitivity].
    intros r Hr Ht. destruct (B1 r Hr Ht) as (r1 & Hr1 & Hs1). destruct (settled_state r r1 Hs1) as [He _].
    destruct (B2 r1 Hr1) as (r2 & Hr2 & Hs2); [by rewrite He|]. exists r2. eauto using settled_trans.
Qed.

Lemma update_jobs_safe d p f :
  (forall r, p r = true -> is_terminal_queue_state (job_state r) = true -> settled r (f r)) ->
  (forall r, job_id (f r) = job_id r) ->
  runner_safe d (d <| jobs := update p f (jobs d) |>).
Proof.
  intros Hp Hf. split; [intros Hu; cbn; by apply unique_update|]. split; [|cbn; reflexivity].
  intros r Hr Ht. cbn. destruct (p r) eqn:E.
  - exists (f r). split; [|auto]. apply in_update. exists r. by rewrite E.
  - exists r. split; [|by left]. apply in_update. exists r. by rewrite E.
Qed.
(** A statement whose [WHERE] excludes terminal jobs. *)
Lemma update_live_jobs_safe d p f :
  (forall r, p r = true -> is_terminal_queue_state (job_state r) = false) ->
  (forall r, job_id (f r) = job_id r) ->
  runner_safe d (d <| jobs := update p f (jobs d) |>).
Proof. intros Hp. apply update_jobs_safe. intros r Hr Ht. rewrite (Hp r Hr) in Ht. done. Qed.

Section Safety.
Context {T : TimeCrate} {E : Env} {H : Host} {J : Serde}.

Lemma emit_safe e : steps (on_db runner_safe) (emit e).
Proof.
  intros w. unfold emit, modify, on_db. cbn. split; [done|]. split; [|reflexivity].
  intros r Hr _. exists r. split; [done|by left].
Qed.
Lemma ask_frame {D A} (f : nat -> A) : steps (@db_eq D) (ask f).
Proof. unfold ask. step_through. Qed.
#[local] Hint Resolve ask_frame : steps.
Lemma check_io_frame {D} (f : nat -> option string) : steps (@db_eq D) (check_io f).
Proof. unfold check_io. step_through. Qed.
Lemma on_mq_safe {A} (m : MQ A) : steps (on_db mq_safe) m -> steps (on_db runner_safe) (on_mq m).
Proof.
  intros Hm w. unfold on_mq, on_db in *. specialize (Hm (World (mq (w_db w)) (w_tick w))).
  destruct (m _) as [r w']. cbn in *. split; [done|]. split; [|done].
  intros x Hx _. exists x. split; [done|by left].
Qed.
Lemma read_exit_code_frame path : steps (@db_eq runner) (read_exit_code path).
Proof. unfold read_exit_code. step_through. Qed.
#[local] Hint Resolve emit_safe check_io_frame read_exit_code_frame : steps.

Lemma completion_text_frame job state code t : steps (@db_eq runner) (queue_job_completion_text job state code t).
Proof. unfold queue_job_completion_text, tail_queue_job_log. step_through. Qed.
#[local] Hint Resolve completion_text_frame : steps.

Lemma notified_at_safe job state code t q :
  steps (on_db runner_safe) (queue_job_completion_notified_at job state code t q).
Proof.
  unfold queue_job_completion_notified_at. db_steps. apply on_mq_safe, enqueue_once_safe.
Qed.
#[local] Hint Resolve notified_at_safe : steps.

Lemma record_notification_safe job state code t q :
  steps (on_db runner_safe) (record_queue_job_completion_notification_conn job state code t q).
Proof.
  unfold record_queue_job_completion_notification_conn. db_steps.
  apply update_jobs_safe; [|done]. intros r _ _. destruct (job_completion_notified_at r) eqn:Hn.
  - left. destruct r. cbn in *. by subst.
  - right. split; [done|]. eexists. reflexivity.
Qed.
#[local] Hint Resolve record_notification_safe : steps.

Lemma finish_safe job state code q : steps (on_db runner_safe) (finish_queue_job_conn job state code q).
Proof.
  unfold finish_queue_job_conn. db_steps. apply update_live_jobs_safe; [|done]. intros r Hr. by bool_simpl.
Qed.

Lemma retry_safe q : steps (on_db runner_safe) (retry_unnotified_queue_job_completions_conn q).
Proof.
  unfold retry_unnotified_queue_job_completions_conn, retry_notification, get_queue_job_runtime_conn. db_steps.
Qed.

Lemma insert_job_safe row : steps (on_db runner_safe) (insert_job row).
Proof.
  intros w. unfold insert_job, bind. cbn. rewrite existsb_has_key.
  destruct (lookup_row _ _ _) eqn:Hl; cbn; [reflexivity|].
  rewrite lookup_row_None in Hl. unfold on_db. cbn. split; [intros Hu; by apply unique_insert|].
  split; [|reflexivity]. intros r Hr _. exists r. split; [apply in_or_app; by left|by left].
Qed.
#[local] Hint Resolve insert_job_safe : steps.
Lemma create_job_safe dir request : steps (on_db runner_safe) (create_queue_job_in_state_dir dir request).
Proof.
  unfold create_queue_job_in_state_dir, open_queue_jobs_connection, create_queue_job_conn,
    write_queue_job_wrapper, write_file, get_queue_job_conn, generate_queue_job_id.
  db_steps.
Qed.
End Safety.
#[export] Hint Resolve emit_safe ask_frame check_io_frame on_mq_safe read_exit_code_frame
  completion_text_frame record_notification_safe finish_safe retry_safe insert_job_safe create_job_safe : steps.
