(* ===== verification/DemoHost.v ===== *)
(** * A concrete host

    Instances of the runner's external interfaces, used to evaluate the model on
    concrete inputs: every file operation succeeds, processes get ids from the
    reading's index and die at once when signalled, and string lists are written with
    an escape before every byte. *)
From Stdlib Require Import ZArith Lia Bool String Ascii List.
From stdpp Require Import base tactics list strings.
From S2P Require Import Prelude Text Clock Demo Schema QueueJobs.

#[export] Instance demo_host : Host := {|
  host_open := fun _ => None;
  host_open_mq := fun _ => None;
  host_write := fun _ _ => None;
  host_spawn := fun k _ _ => inl (1000 + Z.of_nat k);
  host_read := fun _ _ => None;
  host_path_exists := fun _ _ => false;
  host_alive := fun _ _ => false |}.

(** ** String lists *)
Definition esc : ascii := "x"%char.
Definition comma : ascii := ","%char.
Definition demo_item (s : string) : list ascii := comma :: flat_map (fun c => [esc; c]) (bytes_of s).
Definition demo_json (l : list string) : string :=
  of_bytes ("["%char :: flat_map demo_item l ++ ["]"%char]).
(** Items are read from the end: the bytes of the current item, then the items after it. *)
Fixpoint demo_items (l : list ascii) : option (list ascii * list string) :=
  match l with
  | [] => None
  | c :: r =>
      if Ascii.eqb c "]"%char then match r with [] => Some ([], []) | _ => None end
      else if Ascii.eqb c comma then
        match demo_items r with
        | Some (cur, items) => Some ([], of_bytes cur :: items)
        | None => None
        end
      else if Ascii.eqb c esc then
        match r with
        | d :: r' => match demo_items r' with Some (cur, items) => Some (d :: cur, items) | None => None end
        | [] => None
        end
      else None
  end.
Definition demo_list_of_json (s : string) : option (list string) :=
  match bytes_of s with
  | _ :: r => match demo_items r with Some ([], items) => Some items | _ => None end
  | [] => None
  end.

Lemma demo_items_list l : demo_items (flat_map demo_item l ++ ["]"%char])%list = Some ([], l).
Proof.
  induction l as [|s l IH]; [done|]. cbn -[bytes_of]. rewrite <- app_assoc.
  assert (forall b, demo_items (flat_map (fun c => [esc; c]) b ++ (flat_map demo_item l ++ ["]"%char]))%list
                    = Some (b, l)) as ->.
  { induction b as [|c b IHb]; [exact IH|]. cbn. by rewrite IHb. }
  by rewrite of_bytes_of.
Qed.

Lemma bytes_of_of l : bytes_of (of_bytes l) = l.
Proof. apply list_ascii_of_string_of_list_ascii. Qed.

#[export] Instance demo_serde : Serde := {|
  json_of_list := demo_json;
  list_of_json := demo_list_of_json;
  json_error := "json"%string;
  json_of_map := fun m => demo_json (map fst m ++ map snd m) |}.

#[export] Instance demo_serde_laws : SerdeLaws demo_serde.
Proof.
  split; intros l.
  - change (demo_list_of_json (demo_json l) = Some l).
    unfold demo_list_of_json, demo_json. rewrite bytes_of_of. by rewrite demo_items_list.
  - change (trim (demo_json l) = demo_json l /\ demo_json l <> ""%string).
    split; [|done]. unfold trim, demo_json. rewrite bytes_of_of, trim_start_plain by done.
    change ("["%char :: flat_map demo_item l ++ ["]"%char])%list with
      (("["%char :: flat_map demo_item l) ++ ["]"%char])%list.
    rewrite rev_unit, trim_end_rev_plain by done. by rewrite <- rev_unit, rev_involutive.
Qed.
