(* ===== verification/QueueJobsProps.v ===== *)
(** * Properties of queue jobs

    Creation, completion and the notification of the session that waits for a job:
    exactly one completion message per job, whether it is queued when the job finishes
    or by a later retry. *)
From Stdlib Require Import ZArith Lia Bool String Ascii List Sorted.
From stdpp Require Import base tactics list strings.
From S2P Require Import Prelude Text Table Clock Demo Schema MessageQueue MessageQueueProps QueueJobs DemoHost.

(** ** Frames *)
Definition same_jobs (d d' : runner) : Prop := jobs d' = jobs d.
(** Messages are only added. *)
Definition mq_grows (d d' : mqdb) : Prop := forall r, In r (messages d) -> In r (messages d').
#[export] Instance same_jobs_preorder : PreOrder same_jobs.
Proof. split; [done|]. intros ???. unfold same_jobs. congruence. Qed.
#[export] Instance mq_grows_preorder : PreOrder mq_grows.
Proof. split; [by intros d r|]. intros d1 d2 d3 H1 H2 r Hr. auto. Qed.

Section Frames.
Context {T : TimeCrate} {E : Env} {H : Host} {J : Serde}.

Lemma enqueue_once_grows id target text mode md :
  steps (on_db mq_grows) (enqueue_message_once_with_metadata id target text mode md).
Proof.
  unfold enqueue_message_once_with_metadata. apply steps_with_connection; [tc_solve|by intros d r|].
  unfold enqueue_message_with_id_and_metadata_conn. db_steps. intros r Hr. unfold insert_or_ignore.
  destruct (existsb _ _); cbn; [done|]. apply in_or_app. by left.
Qed.

Lemma on_mq_same_jobs {A} (m : MQ A) : steps (on_db same_jobs) (on_mq m).
Proof. intros w. unfold on_mq, on_db, same_jobs. by destruct (m _) as [r w']. Qed.

Lemma notified_at_jobs job state code t q :
  steps (on_db same_jobs) (queue_job_completion_notified_at job state code t q).
Proof. unfold queue_job_completion_notified_at. db_steps. apply on_mq_same_jobs. Qed.

Definition grows (d d' : runner) : Prop := mq_grows (mq d) (mq d').
#[export] Instance grows_preorder : PreOrder grows.
Proof. split; [by intros d r|]. intros d1 d2 d3 H1 H2 r Hr. apply H2, H1, Hr. Qed.
Lemma on_mq_grows id target text mode md :
  steps (on_db grows) (on_mq (enqueue_message_once_with_metadata id target text mode md)).
Proof.
  intros w. unfold on_mq, on_db, grows.
  pose proof (enqueue_once_grows id target text mode md (World (mq (w_db w)) (w_tick w))) as Hg.
  by destruct (enqueue_message_once_with_metadata _ _ _ _ _ _).
Qed.
Lemma record_grows job state code t q :
  steps (on_db grows) (record_queue_job_completion_notification_conn job state code t q).
Proof.
  unfold record_queue_job_completion_notification_conn, queue_job_completion_notified_at. db_steps.
  - apply on_mq_grows.
  - intros r Hr. exact Hr.
Qed.
End Frames.

(** ** The completion message *)
(** Exactly one message under the completion id of a job, for the given session. *)
Definition completion_queued (id target : string) (d : runner) : Prop :=
  changes (has_key msg_id (completion_message_id id)) (messages (mq d)) = 1%nat /\
  exists m, In m (messages (mq d)) /\ msg_id m = completion_message_id id /\
    msg_target_session_id m = target /\ msg_message_category m = Some "queue-completion"%string.
(** The session to notify, when there is one. *)
Definition notify_target (r : job_row) : option string := filter_nonblank (Some (trim (job_notify_session_id r))).

Section Notification.
Context {T : TimeCrate} {E : Env} {H : Host} {J : Serde}.

Lemma enqueue_once_present_row id target text mode md w w' :
  mq_wf (w_db w) -> enqueue_message_once_with_metadata id target text mode md w = (Ok tt, w') ->
  changes (has_key msg_id id) (messages (w_db w')) = 1%nat /\
  exists m, In m (messages (w_db w')) /\ msg_id m = id /\ msg_target_session_id m = target /\
    msg_message_category m = md_message_category md.
Proof.
  intros Hwf Hrun.
  assert (Hu : unique msg_id (messages (w_db w'))).
  { pose proof (enqueue_once_safe id target text mode md w) as [Hk _]. rewrite Hrun in Hk. by apply Hk in Hwf as []. }
  assert (exists m, In m (messages (w_db w')) /\ msg_id m = id /\ msg_target_session_id m = target /\
    msg_message_category m = md_message_category md) as (m & Hin & Hid & Hrest).
  { unfold enqueue_message_once_with_metadata, with_connection in Hrun.
    apply bind_Ok_inv in Hrun as (b & w1 & He & Hrun). apply enqueue_with_id_spec in He as
      [(-> & _ & r & Hr & Hdb)|(-> & _ & Hdb)]; cbn in Hrun.
    - injection Hrun as <-. exists r. rewrite Hdb. split; [apply in_or_app; right; by left|].
      destruct Hr as (-> & -> & _ & _ & _ & _ & _ & _ & _ & _ & _ & _ & _ & _ & _ & -> & _). done.
    - destruct (changes (same_content id target text mode (md_message_category md)) (messages (w_db w1))) eqn:Hch; [done|].
      injection Hrun as <-. destruct (changes_exists _ _ (eq_ind_r (fun n => n <> O) (Nat.neq_succ_0 _) Hch)) as (r & Hin & Hr).
      unfold same_content in Hr. bool_simpl. exists r. auto. }
  split; [|by exists m]. rewrite (changes_ext _ (fun r => has_key msg_id id r && true)) by (intros; by rewrite andb_true_r).
  rewrite changes_key by done. rewrite <- Hid, lookup_row_unique by done. done.
Qed.

(** What the notification step does when it returns. *)
Lemma notified_at_inv r state code t w o w' :
  mq_wf (mq (w_db w)) -> job_completion_notified_at r = None ->
  queue_job_completion_notified_at (runtime_of r) state code t true w = (Ok o, w') ->
  jobs (w_db w') = jobs (w_db w) /\ is_some o = true /\
  forall target, notify_target r = Some target -> completion_queued (job_id r) target (w_db w').
Proof.
  intros Hwf Hn Hrun.
  pose proof (notified_at_jobs (runtime_of r) state code t true w) as Hj. rewrite Hrun in Hj. split; [exact Hj|].
  unfold queue_job_completion_notified_at in Hrun.
  change (rt_completion_notified_at (runtime_of r)) with (job_completion_notified_at r) in Hrun.
  change (filter_nonblank (option_map trim (rt_notify_session_id (runtime_of r)))) with (notify_target r) in Hrun.
  rewrite Hn in Hrun. cbn [is_some] in Hrun.
  destruct (notify_target r) as [target|] eqn:Ht; [|split; [by inv_ok Hrun|done]].
  cbn [negb] in Hrun. apply bind_Ok_inv in Hrun as (text & w1 & H1 & Hrun).
  pose proof (completion_text_frame (runtime_of r) state code t w) as Hf1. rewrite H1 in Hf1.
  apply bind_Ok_inv in Hrun as ([] & w2 & H2 & Hrun).
  pose proof (check_io_frame (D := runner) host_open_mq w1) as Hf2. rewrite H2 in Hf2.
  apply bind_Ok_inv in Hrun as ([] & w3 & H3 & Hrun). inv_ok Hrun. split; [done|].
  intros target' [= <-]. unfold db_eq, on_db in *. cbn in Hf1, Hf2.
  match goal with Hx : now_rfc3339 _ = _ |- _ => apply now_rfc3339_db in Hx as Hw end.
  unfold completion_queued. rewrite Hw. unfold on_mq in H3.
  destruct (enqueue_message_once_with_metadata _ _ _ _ _ _) as [r3 w3'] eqn:Henq. injection H3 as -> <-. cbn.
  apply enqueue_once_present_row in Henq; [done|]. cbn. by rewrite Hf2, Hf1.
Qed.

Definition stamped (stamp : string) (r : job_row) : job_row := r <| job_completion_notified_at := Some stamp |>.

Lemma update_key_lookup d id f r :
  (forall x, job_id (f x) = job_id x) -> lookup_row job_id id (jobs d) = Some r ->
  lookup_row job_id id (update (has_key job_id id) f (jobs d)) = Some (f r).
Proof.
  intros Hf Hl. rewrite (lookup_row_update job_id), Hl by auto. cbn.
  apply lookup_row_Some in Hl as [_ Hk]. unfold has_key. by rewrite Hk, String.eqb_refl.
Qed.
Lemma update_key_other d id k f :
  (forall x, job_id (f x) = job_id x) -> k <> id ->
  lookup_row job_id k (update (has_key job_id id) f (jobs d)) = lookup_row job_id k (jobs d).
Proof.
  intros Hf Hne. rewrite (lookup_row_update job_id) by auto.
  destruct (lookup_row job_id k (jobs d)) as [r|] eqn:Hl; [|done]. cbn.
  apply lookup_row_Some in Hl as [_ Hk]. unfold has_key. by destruct (String.eqb_spec (job_id r) id); [congruence|].
Qed.

(** Recording the notification of an unnotified job [r] whose row is [r']. *)
Lemma record_inv r r' state code t w b w' :
  mq_wf (mq (w_db w)) -> unique job_id (jobs (w_db w)) ->
  lookup_row job_id (job_id r) (jobs (w_db w)) = Some r' ->
  job_completion_notified_at r = None -> job_completion_notified_at r' = None ->
  record_queue_job_completion_notification_conn (runtime_of r) state code t true w = (Ok b, w') ->
  b = true /\ (exists stamp, lookup_row job_id (job_id r) (jobs (w_db w')) = Some (stamped stamp r')) /\
  (forall k, k <> job_id r -> lookup_row job_id k (jobs (w_db w')) = lookup_row job_id k (jobs (w_db w))) /\
  forall target, notify_target r = Some target -> completion_queued (job_id r) target (w_db w').
Proof.
  intros Hwf Hu Hl Hn Hn' Hrun. unfold record_queue_job_completion_notification_conn in Hrun.
  apply bind_Ok_inv in Hrun as (o & w1 & H1 & Hrun).
  apply notified_at_inv in H1 as (Hj & Ho & Hq); [|done..]. destruct o as [stamp|]; [|done].
  apply bind_Ok_inv in Hrun as (n & w2 & H2 & Hrun). inv_ok Hrun.
  apply execute_Ok_inv in H2 as (-> & Hdb & _). cbn [fst snd] in Hdb |- *. rewrite Hj.
  split; [|split; [exists stamp|split]].
  - rewrite (changes_ext _ (fun x => has_key job_id (rt_id (runtime_of r)) x && true)) by (intros; by rewrite andb_true_r).
    rewrite changes_key by done. cbn. by rewrite Hl.
  - rewrite Hdb. cbn. rewrite Hj, (update_key_lookup _ _ _ r') by done. by rewrite Hn'.
  - intros k Hk. rewrite Hdb. cbn. rewrite Hj. by apply update_key_other.
  - intros target Ht. rewrite Hdb. by apply Hq.
Qed.
End Notification.

Lemma completion_queued_grows id target d d' :
  grows d d' -> mq_wf (mq d') -> completion_queued id target d -> completion_queued id target d'.
Proof.
  intros Hg Hwf [_ (m & Hin & Hid & Hrest)]. apply Hg in Hin. split; [|by exists m].
  rewrite (changes_ext _ (fun r => has_key msg_id (completion_message_id id) r && true))
    by (intros; by rewrite andb_true_r).
  rewrite changes_key by apply Hwf. by rewrite <- Hid, lookup_row_unique by (done || apply Hwf).
Qed.

Section Retry.
Context {T : TimeCrate} {E : Env} {H : Host} {J : Serde}.

Lemma retry_loop ids n w n' w' :
  NoDup ids -> mq_wf (mq (w_db w)) -> unique job_id (jobs (w_db w)) ->
  (forall id, In id ids -> exists r, lookup_row job_id id (jobs (w_db w)) = Some r /\
                                     job_completion_notified_at r = None) ->
  fold_each ids n (retry_notification true) w = (Ok n', w') ->
  n' = (n + length ids)%nat /\ grows (w_db w) (w_db w') /\ mq_wf (mq (w_db w')) /\
  unique job_id (jobs (w_db w')) /\
  (forall id r, In id ids -> lookup_row job_id id (jobs (w_db w)) = Some r ->
     (exists stamp, lookup_row job_id id (jobs (w_db w')) = Some (stamped stamp r)) /\
     forall target, notify_target r = Some target -> completion_queued id target (w_db w')) /\
  (forall k, ~ In k ids -> lookup_row job_id k (jobs (w_db w')) = lookup_row job_id k (jobs (w_db w))).
Proof.
  revert n w. induction ids as [|id ids IH]; intros n w Hnd Hwf Hu Hids Hrun.
  { injection Hrun as <- <-. cbn. repeat (split; [done || lia|]). done. }
  apply NoDup_cons in Hnd as [Hni Hnd]. rewrite list_elem_of_In in Hni.
  destruct (Hids id (or_introl eq_refl)) as (r & Hl & Hn). cbn [fold_each] in Hrun.
  apply bind_Ok_inv in Hrun as (n1 & w1 & H1 & Hrun).
  unfold retry_notification, get_queue_job_runtime_conn in H1. unfold bind at 1, query, gets in H1.
  rewrite Hl in H1. cbn [option_map] in H1. apply bind_Ok_inv in H1 as (b & w2 & Hrec & H1). inv_ok H1.
  assert (Hid : job_id r = id) by (by apply lookup_row_Some in Hl as [_ ?]). subst id.
  pose proof (record_grows (runtime_of r) (rt_state (runtime_of r)) (rt_exit_code (runtime_of r))
    (unwrap_or (rt_queued_at (runtime_of r)) (rt_finished_at (runtime_of r))) true w) as Hg. rewrite Hrec in Hg.
  pose proof (record_notification_safe (runtime_of r) (rt_state (runtime_of r)) (rt_exit_code (runtime_of r))
    (unwrap_or (rt_queued_at (runtime_of r)) (rt_finished_at (runtime_of r))) true w) as (Hu1 & _ & Hwf1 & _).
  rewrite Hrec in Hu1, Hwf1. cbn [snd] in *. specialize (Hu1 Hu). specialize (Hwf1 Hwf).
  apply (record_inv r r) in Hrec as (-> & (stamp & Hst) & Hoth & Hq); [|done..].
  apply IH in Hrun as (-> & Hg' & Hwf' & Hu' & Hall & Hrest); [|done|done|done|].
  2: { intros k Hk. rewrite Hoth by (intros ->; done). apply Hids. by right. }
  split; [cbn; lia|]. split; [by transitivity (w_db w1)|]. split; [done|]. split; [done|]. split.
  - intros k r0 [<-|Hk] Hlk.
    + assert (r0 = r) as -> by congruence. split; [exists stamp; by rewrite Hrest|].
      intros target Ht. apply (completion_queued_grows _ _ (w_db w1)); auto.
    + apply Hall; [done|]. rewrite Hoth; [done|]. intros ->. done.
  - intros k Hk. rewrite Hrest, Hoth; [done|intros ->; apply Hk; by left|]. intros Hk'. apply Hk. by right.
Qed.

Lemma unnotified_ids w :
  unique job_id (jobs (w_db w)) ->
  let ids := map job_id (order_by finish_order (select unnotified (jobs (w_db w)))) in
  NoDup ids /\ length ids = changes unnotified (jobs (w_db w)) /\
  (forall r, In r (jobs (w_db w)) -> In (job_id r) ids <-> unnotified r = true).
Proof.
  intros Hu ids. split; [|split].
  - by apply unique_listing.
  - unfold ids. by rewrite length_map, order_by_length.
  - intros r Hr. unfold ids. rewrite in_map_iff. split.
    + intros (r' & Hid & Hr'). rewrite in_order_by, in_select in Hr'. destruct Hr' as [Hin Hp].
      by rewrite <- (unique_inj job_id (jobs (w_db w)) r' r).
    + intros Hp. exists r. by rewrite in_order_by, in_select.
Qed.
End Retry.

(** ** Claims about completion *)
(** A job of an agent, created and then marked running. *)
Definition demo_create : CreateQueueJob :=
  CreateJob "tests" "unit tests" (Some "dev"%string) " lead " "/work" (Some ["cargo"; "test"]%string) None
    [("RUST_LOG", "debug")]%string 600.
Definition demo_runner : world runner :=
  snd (create_queue_job_in_state_dir "/state" demo_create (World (Runner [] empty_mqdb []) 0)).
Definition demo_job : job_row := nth 0 (jobs (w_db demo_runner))
  (JobRow "" "" "" None "" "" None None "" 0 "" None "" None None None None None None None None None None 0 None).
Lemma demo_runner_jobs : jobs (w_db demo_runner) = [demo_job].
Proof. vm_compute. reflexivity. Qed.
Lemma demo_runner_unique : unique job_id (jobs (w_db demo_runner)).
Proof. rewrite demo_runner_jobs. apply NoDup_cons. split; [by intros ?%elem_of_nil|constructor]. Qed.
Lemma demo_runner_wf : mq_wf (mq (w_db demo_runner)).
Proof.
  destruct (create_job_safe "/state" demo_create (World (Runner [] empty_mqdb []) 0)) as (_ & _ & Hk & _).
  exact (Hk empty_mqdb_wf).
Qed.

(** C14: Finishing a live job always leaves it in the given terminal state with its exit
    code, and its completion is never lost: when the operation returns, the row is
    stamped as notified and the queue holds exactly one completion message for the
    session to notify; when it fails on the way, the row is left unnotified and
    marked for a retry.  No other job changes. *)
Theorem finish_notifies_or_marks {T : TimeCrate} {E : Env} {H : Host} {J : Serde} r state code w :
  unique job_id (jobs (w_db w)) -> mq_wf (mq (w_db w)) ->
  In r (jobs (w_db w)) -> is_terminal_queue_state (job_state r) = false ->
  job_completion_notified_at r = None -> is_terminal_queue_state state = true ->
  let '(result, w') := finish_queue_job_conn (runtime_of r) state code true w in
  (forall k, k <> job_id r -> lookup_row job_id k (jobs (w_db w')) = lookup_row job_id k (jobs (w_db w))) /\
  exists finished_at,
    match result with
    | Ok _ =>
        (exists stamp, lookup_row job_id (job_id r) (jobs (w_db w')) =
           Some (stamped stamp (finished_row state finished_at code r))) /\
        forall target, notify_target r = Some target -> completion_queued (job_id r) target (w_db w')
    | _ =>
        lookup_row job_id (job_id r) (jobs (w_db w')) = Some (finished_row state finished_at code r) /\
        unnotified (finished_row state finished_at code r) = true
    end.
Proof.
  intros Hu Hwf Hin Hlive Hn Hterm.
  unfold finish_queue_job_conn. unfold bind at 1. destruct (now_rfc3339_run w) as [t ->]. unfold bind at 1, execute.
  cbn [w_db w_tick fst snd]. set (p := fun x => has_key job_id (rt_id (runtime_of r)) x && _).
  set (t' := update p (finished_row state t code) (jobs (w_db w))).
  assert (Hl : lookup_row job_id (job_id r) (jobs (w_db w)) = Some r) by (by apply lookup_row_unique).
  assert (Hp : p r = true) by (unfold p; cbn; by rewrite has_key_refl, Hlive).
  assert (Hl' : lookup_row job_id (job_id r) t' = Some (finished_row state t code r)).
  { unfold t'. rewrite (lookup_row_update job_id), Hl by done. cbn [option_map]. by rewrite Hp. }
  assert (Hoth : forall k, k <> job_id r -> lookup_row job_id k t' = lookup_row job_id k (jobs (w_db w))).
  { intros k Hk. unfold t'. rewrite (lookup_row_update job_id) by done.
    destruct (lookup_row job_id k (jobs (w_db w))) as [x|] eqn:Hx; [|done]. cbn [option_map].
    apply lookup_row_Some in Hx as [_ <-]. unfold p, has_key. cbn [rt_id runtime_of].
    by destruct (String.eqb_spec (job_id x) (job_id r)). }
  assert (Hch : changes p (jobs (w_db w)) <> O) by (pose proof (changes_pos p _ r Hin Hp); lia).
  destruct (Nat.eqb_spec (changes p (jobs (w_db w))) 0) as [|_]; [done|].
  set (w1 := World ((w_db w) <| jobs := t' |>) (S (w_tick w))).
  assert (Hu1 : unique job_id (jobs (w_db w1))) by (by apply unique_update).
  assert (Hstay : forall o w2, queue_job_completion_notified_at (runtime_of r) state code t true w1 = (o, w2) ->
            jobs (w_db w2) = t').
  { intros o w2 Hrun. pose proof (notified_at_jobs (runtime_of r) state code t true w1) as Hj. by rewrite Hrun in Hj. }
  unfold bind at 1. destruct (record_queue_job_completion_notification_conn _ _ _ _ _ _) as [[b|e|] w'] eqn:Hrec.
  - apply (record_inv r (finished_row state t code r)) in Hrec as (_ & Hst & Hoth' & Hq); [|done..].
    cbn. split; [intros k Hk; rewrite Hoth' by done; by apply Hoth|]. exists t. done.
  - unfold record_queue_job_completion_notification_conn, bind in Hrec.
    destruct (queue_job_completion_notified_at _ _ _ _ _ _) as [[[o|]|e'|] w2] eqn:Hno; simplify_eq.
    rewrite (Hstay _ _ eq_refl). split; [done|]. exists t. split; [done|]. unfold unnotified, is_none. cbn. by rewrite Hterm, Hn.
  - unfold record_queue_job_completion_notification_conn, bind in Hrec.
    destruct (queue_job_completion_notified_at _ _ _ _ _ _) as [[[o|]|e'|] w2] eqn:Hno; simplify_eq.
    rewrite (Hstay _ _ eq_refl). split; [done|]. exists t. split; [done|]. unfold unnotified, is_none. cbn. by rewrite Hterm, Hn.
Qed.

Lemma finish_notifies_or_marks_witness :
  let '(result, w') := finish_queue_job_conn (runtime_of demo_job) "succeeded" (Some 0) true demo_runner in
  (forall k, k <> job_id demo_job ->
     lookup_row job_id k (jobs (w_db w')) = lookup_row job_id k (jobs (w_db demo_runner))) /\
  exists finished_at,
    match result with
    | Ok _ =>
        (exists stamp, lookup_row job_id (job_id demo_job) (jobs (w_db w')) =
           Some (stamped stamp (finished_row "succeeded" finished_at (Some 0) demo_job))) /\
        forall target, notify_target demo_job = Some target -> completion_queued (job_id demo_job) target (w_db w')
    | _ =>
        lookup_row job_id (job_id demo_job) (jobs (w_db w')) =
          Some (finished_row "succeeded" finished_at (Some 0) demo_job) /\
        unnotified (finished_row "succeeded" finished_at (Some 0) demo_job) = true
    end.
Proof.
  apply (finish_notifies_or_marks demo_job "succeeded" (Some 0) demo_runner demo_runner_unique demo_runner_wf);
    [rewrite demo_runner_jobs; by left|vm_compute; reflexivity..].
Defined.

(** C15: A retry that returns has notified everyone.  It reports the number of finished
    jobs whose notification was outstanding; afterwards none is outstanding, each of
    them carries its stamp and is otherwise unchanged, the queue holds exactly one
    completion message for each session to notify, and no other job has changed. *)
Theorem retry_notifies_all {T : TimeCrate} {E : Env} {H : Host} {J : Serde} w n w' :
  unique job_id (jobs (w_db w)) -> mq_wf (mq (w_db w)) ->
  retry_unnotified_queue_job_completions_conn true w = (Ok n, w') ->
  n = changes unnotified (jobs (w_db w)) /\
  changes unnotified (jobs (w_db w')) = O /\
  (forall r, In r (jobs (w_db w)) -> unnotified r = true ->
     (exists stamp, lookup_row job_id (job_id r) (jobs (w_db w')) = Some (stamped stamp r)) /\
     forall target, notify_target r = Some target -> completion_queued (job_id r) target (w_db w')) /\
  (forall r, In r (jobs (w_db w)) -> unnotified r = false ->
     lookup_row job_id (job_id r) (jobs (w_db w')) = Some r).
Proof.
  intros Hu Hwf Hrun. unfold retry_unnotified_queue_job_completions_conn, bind, query, gets in Hrun.
  destruct (unnotified_ids w Hu) as (Hnd & Hlen & Hin).
  apply retry_loop in Hrun as (-> & _ & _ & Hu' & Hall & Hrest); [|done|done|done|].
  2: { intros id (r & <- & Hr)%in_map_iff. rewrite in_order_by, in_select in Hr. destruct Hr as [Hr Hun].
       exists r. split; [by apply lookup_row_unique|]. unfold unnotified, is_none in Hun. bool_simpl.
       by destruct (job_completion_notified_at r). }
  split; [by rewrite Hlen|].
  assert (Hun : forall r, In r (jobs (w_db w)) -> unnotified r = true ->
     (exists stamp, lookup_row job_id (job_id r) (jobs (w_db w')) = Some (stamped stamp r)) /\
     forall target, notify_target r = Some target -> completion_queued (job_id r) target (w_db w')).
  { intros r Hr Hp. apply (Hall (job_id r) r); [by apply Hin|by apply lookup_row_unique]. }
  assert (Hno : forall r, In r (jobs (w_db w)) -> unnotified r = false ->
     lookup_row job_id (job_id r) (jobs (w_db w')) = Some r).
  { intros r Hr Hp. rewrite Hrest; [by apply lookup_row_unique|]. rewrite Hin by done. by rewrite Hp. }
  split; [|done]. apply changes_zero. intros r' Hr'.
  assert (exists r, In r (jobs (w_db w)) /\ job_id r = job_id r') as (r & Hr & Hid).
  { destruct (lookup_row job_id (job_id r') (jobs (w_db w))) as [r|] eqn:Hl.
    - apply lookup_row_Some in Hl. by exists r.
    - exfalso. pose proof (lookup_row_unique job_id _ r' Hu' Hr') as Hx.
      rewrite Hrest, Hl in Hx; [done|]. intros (r0 & Hid0 & Hr0)%in_map_iff.
      rewrite in_order_by, in_select in Hr0. rewrite lookup_row_None in Hl. by destruct (Hl r0 (proj1 Hr0)). }
  pose proof (lookup_row_unique job_id _ r' Hu' Hr') as Hx. rewrite <- Hid in Hx.
  destruct (unnotified r) eqn:Hp.
  - destruct (Hun r Hr Hp) as [[stamp Hs] _]. rewrite Hs in Hx. injection Hx as <-.
    unfold unnotified, is_none. cbn. by rewrite andb_false_r.
  - rewrite (Hno r Hr Hp) in Hx. by injection Hx as <-.
Qed.

(** A finished job whose notification is outstanding. *)
Definition demo_outstanding : world runner :=
  World ((w_db demo_runner) <| jobs := [finished_row "failed" "1700000100000000000" (Some 2) demo_job] |>) 50.
Definition demo_retried : world runner :=
  snd (retry_unnotified_queue_job_completions_conn true demo_outstanding).
Lemma retry_notifies_all_witness :
  1%nat = changes unnotified (jobs (w_db demo_outstanding)) /\
  changes unnotified (jobs (w_db demo_retried)) = O /\
  (forall r, In r (jobs (w_db demo_outstanding)) -> unnotified r = true ->
     (exists stamp, lookup_row job_id (job_id r) (jobs (w_db demo_retried)) = Some (stamped stamp r)) /\
     forall target, notify_target r = Some target -> completion_queued (job_id r) target (w_db demo_retried)) /\
  (forall r, In r (jobs (w_db demo_outstanding)) -> unnotified r = false ->
     lookup_row job_id (job_id r) (jobs (w_db demo_retried)) = Some r).
Proof.
  apply (retry_notifies_all demo_outstanding 1%nat).
  - apply NoDup_cons. split; [by intros ?%elem_of_nil|constructor].
  - exact demo_runner_wf.
  - vm_compute. reflexivity.
Defined.

(** A retry stops at the first completion whose message is already queued with
    another text.  Here the message of the first job was queued before its stamp could
    be written and its log has grown since: the retry fails, and the second finished
    job is left without a notification, in this run and in every later one. *)
Theorem stale_completion_blocks_retry :
  let job id finished := finished_row "failed" finished (Some 2) (demo_job <| job_id := id |>) in
  let queued := snd (finish_queue_job_conn (runtime_of (demo_job <| job_id := "a"%string |>)) "failed" (Some 2) true
                       (World (Runner [demo_job <| job_id := "a"%string |>] empty_mqdb []) 1)) in
  let w := World (Runner [job "a"%string "1700000001000000000"%string; job "b"%string "1700000009000000000"%string]
                    (mq (w_db queued)) []) 60 in
  let grown := {| host_open := host_open; host_open_mq := host_open_mq; host_write := host_write;
                  host_spawn := host_spawn; host_read := fun _ _ => Some (bytes_of "late output");
                  host_path_exists := host_path_exists; host_alive := host_alive |} in
  let '(result, w') := @retry_unnotified_queue_job_completions_conn demo_time demo_env grown true w in
  result = Err "queue message id queue-completion-a already exists with different content" /\
  jobs (w_db w') = jobs (w_db w) /\ changes unnotified (jobs (w_db w')) = 2%nat.
Proof. vm_compute. auto. Qed.

(** ** Creation *)
Section Creation.
Context {T : TimeCrate} {E : Env} {H : Host} {J : Serde} {L : SerdeLaws J}.

(** The record read back from a new row. *)
Definition new_job_record (request : CreateQueueJob) (id queued_at log_path : string)
    (script_path : option string) : QueueJobRecord :=
  JobRecord id (cj_job_type request) (cj_label request) (cj_requester_session_id request)
    (if cj_notify_session_id request =?s "" then None else Some (cj_notify_session_id request))
    (cj_cwd request) (cj_argv request) script_path (cj_timeout_seconds request) "pending" None queued_at
    None None None None None (Some log_path).

Lemma argv_roundtrip argv :
  match filter_nonblank (option_map trim (option_map json_of_list argv)) with
  | Some raw => list_of_json raw
  | None => Some []
  end = Some (unwrap_or [] argv) /\
  is_some (filter_nonblank (option_map trim (option_map json_of_list argv))) = is_some argv.
Proof.
  destruct argv as [l|]; cbn; [|done]. destruct (json_of_list_trimmed l) as [Ht Hne].
  rewrite Ht. unfold is_blank. rewrite Ht. destruct (String.eqb_spec (json_of_list l) ""); [done|]. cbn.
  by rewrite list_of_json_of_list.
Qed.

Lemma check_io_inv {D} (f : nat -> option string) (w w' : world D) :
  check_io f w = (Ok tt, w') -> w_db w' = w_db w.
Proof. intros Hrun. pose proof (check_io_frame (D := D) f w) as Hf. by rewrite Hrun in Hf. Qed.

Lemma write_file_inv path contents w w' :
  write_file path contents w = (Ok tt, w') ->
  w_db w' = (w_db w) <| host := WroteFile path contents :: host (w_db w) |>.
Proof.
  unfold write_file. intros Hrun. apply bind_Ok_inv in Hrun as ([] & w1 & H1 & Hrun).
  apply check_io_inv in H1. injection Hrun as <-. cbn. by rewrite H1.
Qed.
End Creation.

(** A created job is what was asked for.  The returned record is pending, has a
    fresh id, the request's type, label, directory, timeout and exactly the request's
    argument vector (through its JSON column); its row is the only change to the job
    table, and the wrapper script written for it is the one for this request. *)
Theorem create_job_result {T : TimeCrate} {E : Env} {H : Host} {J : Serde} {L : SerdeLaws J}
    dir request w record w' :
  create_queue_job_in_state_dir dir request w = (Ok record, w') ->
  exists id queued_at log_path script_path row wrapper_path exit_code_path events,
    record = new_job_record request id queued_at log_path script_path /\
    is_some script_path = is_some (cj_script request) /\
    lookup_row job_id id (jobs (w_db w)) = None /\
    jobs (w_db w') = (jobs (w_db w) ++ [row])%list /\
    queue_job_record_from_row row = Ok record /\
    job_wrapper_path row = Some wrapper_path /\ job_exit_code_path row = Some exit_code_path /\
    host (w_db w') = WroteFile wrapper_path
      (queue_job_wrapper_text (cj_cwd request) (cj_argv request) script_path (cj_env request) exit_code_path)
      :: (events ++ host (w_db w))%list.
Proof.
  unfold create_queue_job_in_state_dir, open_queue_jobs_connection, create_queue_job_conn. intros Hrun.
  apply bind_Ok_inv in Hrun as ([] & w1 & H1 & Hrun). apply check_io_inv in H1.
  apply bind_Ok_inv in Hrun as ([] & w2 & H2 & Hrun). apply check_io_inv in H2.
  apply bind_Ok_inv in Hrun as ([] & w3 & H3 & Hrun). apply check_io_inv in H3.
  apply bind_Ok_inv in Hrun as (id & w4 & H4 & Hrun).
  assert (w_db w4 = w_db w) as Hw4.
  { unfold generate_queue_job_id, random_hex in H4. inv_ok H4.
    repeat match goal with Hx : tick _ = _ |- _ => injection Hx as <- <- end. cbn. congruence. }
  apply bind_Ok_inv in Hrun as ([] & w5 & H5 & Hrun). apply check_io_inv in H5.
  apply bind_Ok_inv in Hrun as ([] & w6 & H6 & Hrun). apply check_io_inv in H6.
  apply bind_Ok_inv in Hrun as (script_path & w7 & H7 & Hrun).
  assert (exists events, w_db w7 = (w_db w) <| host := (events ++ host (w_db w))%list |> /\
            is_some script_path = is_some (cj_script request)) as (events & Hw7 & Hsp).
  { assert (w_db w6 = w_db w) as Hw6 by congruence. destruct (cj_script request) as [script|].
    - apply bind_Ok_inv in H7 as ([] & w8 & H8 & H7). apply write_file_inv in H8. injection H7 as <- <-.
      exists [WroteFile (path_join (path_join dir id) "submitted.zsh") script]. rewrite H8, Hw6. done.
    - injection H7 as <- <-. exists []. rewrite Hw6. by destruct (w_db w). }
  apply bind_Ok_inv in Hrun as ([] & w8 & H8 & Hrun). unfold write_queue_job_wrapper in H8.
  apply bind_Ok_inv in H8 as ([] & w9 & H9 & H8). apply write_file_inv in H9. apply check_io_inv in H8.
  apply bind_Ok_inv in Hrun as (queued_at & w10 & H10 & Hrun). apply now_rfc3339_db in H10.
  apply bind_Ok_inv in Hrun as ([] & w11 & H11 & Hrun).
  set (row := JobRow id _ _ _ _ _ _ _ _ _ _ _ _ _ _ _ _ _ _ _ _ _ _ _ _) in H11.
  assert (Hw10 : jobs (w_db w10) = jobs (w_db w)) by (by rewrite H10, H8, H9, Hw7).
  unfold insert_job, bind, query, gets in H11. rewrite existsb_has_key, Hw10 in H11. cbn [job_id row] in H11.
  destruct (lookup_row job_id id (jobs (w_db w))) eqn:Hl; [done|]. cbn in H11. injection H11 as <-.
  apply bind_Ok_inv in Hrun as (created & w12 & H12 & Hrun). apply expect_Ok_inv in Hrun as [Hc <-].
  unfold get_queue_job_conn, bind, query, gets in H12. cbn [w_db jobs] in H12. cbn -[queue_job_record_from_row] in H12.
  rewrite Hw10, (lookup_row_insert_eq job_id _ row) in H12 by done. subst created.
  unfold lift in H12. destruct (queue_job_record_from_row row) as [rec|e|] eqn:Hrow; [|done..]. injection H12 as <- <-.
  exists id, queued_at, (path_join (path_join dir "logs") (id +:+ ".log")), script_path, row,
    (path_join (path_join dir id) "run.zsh"), (path_join (path_join dir id) "exit.code"), events.
  split.
  - unfold queue_job_record_from_row in Hrow. destruct (argv_roundtrip (cj_argv request)) as [Ha Hs].
    cbn [job_argv_json row] in Hrow. destruct (filter_nonblank _) as [raw|].
    + rewrite Ha in Hrow. injection Hrow as <-. unfold new_job_record.
      destruct (cj_argv request); [reflexivity|discriminate Hs].
    + injection Hrow as <-. unfold new_job_record. destruct (cj_argv request); [discriminate Hs|reflexivity].
  - split; [done|]. split; [done|]. split; [done|]. split; [done|].
    split; [done|]. split; [done|]. cbn -[row queue_job_wrapper_text]. by rewrite H10, H8, H9, Hw7.
Qed.

Lemma create_job_result_witness :
  exists id queued_at log_path script_path row wrapper_path exit_code_path events,
    match queue_job_record_from_row demo_job with Ok record => record | _ => new_job_record demo_create "" "" "" None end
      = new_job_record demo_create id queued_at log_path script_path /\
    is_some script_path = is_some (cj_script demo_create) /\
    lookup_row job_id id [] = None /\
    jobs (w_db demo_runner) = ([] ++ [row])%list /\
    queue_job_record_from_row row =
      Ok (match queue_job_record_from_row demo_job with Ok record => record | _ => new_job_record demo_create "" "" "" None end) /\
    job_wrapper_path row = Some wrapper_path /\ job_exit_code_path row = Some exit_code_path /\
    host (w_db demo_runner) = WroteFile wrapper_path
      (queue_job_wrapper_text (cj_cwd demo_create) (cj_argv demo_create) script_path (cj_env demo_create) exit_code_path)
      :: (events ++ [])%list.
Proof.
  apply (create_job_result "/state" demo_create (World (Runner [] empty_mqdb []) 0)).
  vm_compute. reflexivity.
Defined.
