(* ===== verification/Shell.v ===== *)
(** * The job wrapper read back by the shell

    A reader of shell text, independent of the code that writes it: lines of words, with
    single quotes, double quotes and comments.  The wrapper script that queue.rs writes for
    a job is read back as the command it was asked to run, whatever bytes the working
    directory, the environment, the arguments and the paths contain. *)
From Stdlib Require Import ZArith Lia Bool String Ascii List.
From stdpp Require Import base tactics list strings.
From S2P Require Import Prelude Text Clock QueueJobs.

(** ** Reading shell text *)
(** A byte of a word: unquoted, inside single quotes, or inside double quotes. *)
Inductive piece : Type :=
| Bare (c : ascii)
| Single (c : ascii)
| Double (c : ascii).
Abbreviation word := (list piece).

(** The string a word stands for without any expansion: bytes in single quotes, and bytes
    in double quotes other than the three special ones.  Unquoted bytes may be syntax. *)
Definition piece_value (p : piece) : option ascii :=
  match p with
  | Bare _ => None
  | Single c => Some c
  | Double c => if (Ascii.eqb c "$"%char || Ascii.eqb c "`"%char || Ascii.eqb c "\"%char)%bool then None else Some c
  end.
Fixpoint word_bytes (w : word) : option (list ascii) :=
  match w with
  | [] => Some []
  | p :: w => bind_opt (piece_value p) (fun c => option_map (cons c) (word_bytes w))
  end.
Definition word_value (w : word) : option string := option_map of_bytes (word_bytes w).

Inductive mode : Type := Plain | InSingle | InDouble | Comment.
Definition nl : ascii := ascii_of_N 10.
Definition sp : ascii := " "%char.
Definition flush (cur : option word) : list word := match cur with Some w => [w] | None => [] end.
Definition opened (cur : option word) : word := unwrap_or [] cur.

(** The lines of a script: the word being read, the words before it on its line, the bytes
    to come.  An unquoted backslash is not read, nor is an open quote at the end. *)
Fixpoint read (m : mode) (cur : option word) (line : list word) (l : list ascii) : option (list (list word)) :=
  match l with
  | [] => match m with Plain | Comment => Some [line ++ flush cur] | _ => None end
  | c :: r =>
      match m with
      | Plain =>
          if Ascii.eqb c nl then option_map (cons (line ++ flush cur)) (read Plain None [] r)
          else if Ascii.eqb c sp then read Plain None (line ++ flush cur) r
          else if Ascii.eqb c SQ then read InSingle (Some (opened cur)) line r
          else if Ascii.eqb c DQ then read InDouble (Some (opened cur)) line r
          else if Ascii.eqb c "\"%char then None
          else if Ascii.eqb c "#"%char && is_none cur then read Comment None line r
          else read Plain (Some (opened cur ++ [Bare c])) line r
      | InSingle =>
          if Ascii.eqb c SQ then read Plain cur line r
          else read InSingle (Some (opened cur ++ [Single c])) line r
      | InDouble =>
          if Ascii.eqb c DQ then read Plain cur line r
          else read InDouble (Some (opened cur ++ [Double c])) line r
      | Comment =>
          if Ascii.eqb c nl then option_map (cons line) (read Plain None [] r) else read Comment None line r
      end
  end%list.
Definition read_script (text : string) : option (list (list word)) := read Plain None [] (bytes_of text).

(** ** Quoted words *)
Definition quoted_byte (c : ascii) : piece := if Ascii.eqb c SQ then Double c else Single c.
Definition quoted (v : string) : word := map quoted_byte (bytes_of v).
(** Unquoted text. *)
Definition bare (v : string) : word := map Bare (bytes_of v).

Lemma quoted_value v : word_value (quoted v) = Some v.
Proof.
  unfold word_value, quoted. assert (word_bytes (map quoted_byte (bytes_of v)) = Some (bytes_of v)) as ->.
  { induction (bytes_of v) as [|c l IH]; [done|]. cbn [map word_bytes]. rewrite IH. unfold quoted_byte.
    destruct (Ascii.eqb_spec c SQ) as [->|_]; done. }
  cbn. by rewrite of_bytes_of.
Qed.

Lemma read_quoted_bytes l w line rest :
  read InSingle (Some w) line (replace_quote l ++ SQ :: rest)%list =
  read Plain (Some (w ++ map quoted_byte l)) line rest.
Proof.
  revert w. induction l as [|c l IH]; intros w; [cbn; by rewrite app_nil_r|].
  cbn [replace_quote flat_map map]. fold (replace_quote l). unfold quoted_byte at 1.
  destruct (Ascii.eqb_spec c SQ) as [->|Hne].
  - rewrite <- app_assoc. cbn -[read replace_quote]. cbn [read]. cbn -[read replace_quote]. rewrite IH. by rewrite <- app_assoc.
  - cbn [app read]. apply Ascii.eqb_neq in Hne. rewrite Hne. cbn [opened unwrap_or]. rewrite IH. by rewrite <- app_assoc.
Qed.
(** Reading what [shell_quote] wrote. *)
Lemma read_shell_quote v cur line rest :
  read Plain cur line (bytes_of (shell_quote v) ++ rest)%list = read Plain (Some (opened cur ++ quoted v)) line rest.
Proof.
  unfold shell_quote, quoted. destruct (bytes_of v) as [|c l] eqn:Hv.
  - rewrite bytes_of_bytes. cbn. by rewrite app_nil_r.
  - rewrite bytes_of_bytes. cbn [app]. rewrite <- app_assoc. cbn [read app].
    change (Ascii.eqb SQ nl) with false. change (Ascii.eqb SQ sp) with false. change (Ascii.eqb SQ SQ) with true. cbv iota.
    by rewrite read_quoted_bytes.
Qed.

(** ** Lines *)

(** A line of text is read as the given words, whatever follows. *)
Definition reads (text : string) (ws : list word) : Prop :=
  forall rest, read Plain None [] (bytes_of text ++ nl :: rest)%list = option_map (cons ws) (read Plain None [] rest).

Lemma reads_lines texts lines :
  Forall2 reads texts lines -> texts <> [] ->
  read_script (join NL texts +:+ NL) = Some (lines ++ [[]])%list.
Proof.
  intros Hf Hne. unfold read_script. rewrite bytes_of_app. change (bytes_of NL) with [nl].
  induction Hf as [|t ws texts lines Ht Hf IH]; [done|]. destruct Hf as [|t2 ws2 texts lines Ht2 Hf].
  - cbn [join app]. by rewrite Ht.
  - change (join NL (t :: t2 :: texts)) with (t +:+ NL +:+ join NL (t2 :: texts)).
    rewrite !bytes_of_app. change (bytes_of NL) with [nl]. rewrite <- !app_assoc. cbn [app].
    rewrite Ht, IH by done. done.
Qed.

Lemma reads_argv_from argv line rest :
  argv <> [] ->
  read Plain None line (bytes_of (join " " (map shell_quote argv)) ++ nl :: rest)%list =
  option_map (cons (line ++ map quoted argv)) (read Plain None [] rest).
Proof.
  revert line. induction argv as [|a argv IH]; intros line Hne; [done|]. destruct argv as [|b argv].
  - cbn [map join]. rewrite read_shell_quote. cbn -[read]. cbn [read]. done.
  - change (join " " (map shell_quote (a :: b :: argv))) with
      (shell_quote a +:+ " " +:+ join " " (map shell_quote (b :: argv))).
    rewrite !bytes_of_app, <- !app_assoc, read_shell_quote. cbn [bytes_of list_ascii_of_string app].
    cbn [read]. change (Ascii.eqb " " nl) with false. change (Ascii.eqb " " sp) with true. cbv iota.
    rewrite IH by done. cbn [opened unwrap_or flush]. by rewrite <- app_assoc.
Qed.
Lemma reads_argv argv : reads (join " " (map shell_quote argv)) (map quoted argv).
Proof. intros rest. destruct argv as [|a argv]; [done|]. by apply (reads_argv_from (a :: argv) []). Qed.

(** ** The wrapper *)
(** Text in double quotes. *)
Definition dquoted (v : string) : word := map Double (bytes_of v).
Definition export_line (kv : string * string) : list word :=
  [bare "export"; quoted (fst kv) ++ [Bare "="%char] ++ quoted (snd kv)]%list.
Definition command_lines (argv : option (list string)) (script_path : option string) : list (list word) :=
  match argv, script_path with
  | Some argv, _ => [map quoted argv]
  | None, Some script_path => [[bare "/bin/zsh"; quoted script_path]]
  | None, None => []
  end.
(** What the wrapper is meant to say. *)
Definition wrapper_lines (cwd : string) (argv : option (list string)) (script_path : option string)
    (env : list (string * string)) (exit_code_path : string) : list (list word) :=
  ([[]; [bare "set"; bare "+e"]; [bare "cd"; quoted cwd; bare "||"; bare "exit"; bare "127"]]
   ++ map export_line env ++ command_lines argv script_path
   ++ [[bare "code=$?"];
       [bare "if"; bare "["; dquoted "$code"; bare "-eq"; bare "127"; bare "];"; bare "then"];
       [bare "print"; bare "-u2"; bare "--"; dquoted "[sm queue] effective PATH: $PATH"];
       [bare "fi"];
       [bare "printf"; quoted "%s\n"; dquoted "$code"; bare ">"; quoted exit_code_path];
       [bare "exit"; dquoted "$code"]])%list.

(** Unfolds a line of known text around quoted values. *)
Ltac read_line :=
  intros rest; unfold QT; rewrite ?bytes_of_app, <- ?app_assoc; cbn -[shell_quote bytes_of quoted];
  repeat (cbn [bytes_of list_ascii_of_string app]; cbn -[shell_quote bytes_of quoted];
          rewrite ?read_shell_quote; cbn -[shell_quote bytes_of quoted]); try reflexivity.

Lemma reads_cd cwd : reads ("cd " +:+ shell_quote cwd +:+ " || exit 127")
  [bare "cd"; quoted cwd; bare "||"; bare "exit"; bare "127"].
Proof. read_line. Qed.
Lemma reads_export kv : reads ("export " +:+ shell_quote (fst kv) +:+ "=" +:+ shell_quote (snd kv)) (export_line kv).
Proof. read_line. by rewrite <- app_assoc. Qed.
Lemma reads_script p : reads ("/bin/zsh " +:+ shell_quote p) [bare "/bin/zsh"; quoted p].
Proof. read_line. Qed.
Lemma reads_printf p : reads ("printf '%s\n' " +:+ QT +:+ "$code" +:+ QT +:+ " > " +:+ shell_quote p)
  [bare "printf"; quoted "%s\n"; dquoted "$code"; bare ">"; quoted p].
Proof. read_line. Qed.
Lemma reads_command argv script_path : Forall2 reads (wrapper_command argv script_path) (command_lines argv script_path).
Proof.
  destruct argv as [argv|]; [constructor; [apply reads_argv|constructor]|].
  destruct script_path as [p|]; repeat constructor. apply reads_script.
Qed.

(** C5: The wrapper script of a job, read by the shell, says what it was written from,
    whatever bytes the values contain: change to the working directory, export each
    variable, run exactly the given arguments (or the submitted script), write the exit
    code to its path and exit with it; and every quoted word stands for its value. *)
Theorem wrapper_reads_back cwd argv script_path env exit_code_path :
  read_script (queue_job_wrapper_text cwd argv script_path env exit_code_path) =
    Some (wrapper_lines cwd argv script_path env exit_code_path ++ [[]])%list /\
  forall v, word_value (quoted v) = Some v.
Proof.
  split; [|exact quoted_value]. apply reads_lines; [|done]. unfold wrapper_lines.
  repeat apply Forall2_app; repeat constructor; try by intros rest.
  - apply reads_cd.
  - induction env as [|kv env IH]; constructor; [apply reads_export|exact IH].
  - apply reads_command.
  - apply reads_printf.
Qed.
