(* ===== verification/QueueAdmission.v ===== *)
(** * Admission of queue jobs

    Which pending job may start, when jobs are held and why, the displacement of a
    background job by a performance run, and the admission loop of queue.rs.  The
    loop is modelled with fuel; the fuel it is given is shown to be enough. *)
From Stdlib Require Import ZArith Lia Bool String Ascii List Sorted.
From stdpp Require Import base tactics list strings.
From S2P Require Import Prelude Text Table Clock Demo Schema MessageQueue QueueJobs DemoHost.

(** ** Data *)
Record QueueAdmissionPolicy : Type := Policy {
  max_running_jobs : Z;
  perf_cooldown_seconds : Z;
  tests_max_concurrent : nat;
  perf_max_concurrent : nat;
  background_max_concurrent : nat;
  service_max_concurrent : nat }.
#[export] Instance eta_policy : Eta QueueAdmissionPolicy := fun p =>
  Policy (max_running_jobs p) (perf_cooldown_seconds p) (tests_max_concurrent p) (perf_max_concurrent p)
    (background_max_concurrent p) (service_max_concurrent p).
Definition DEFAULT_MAX_RUNNING_QUEUE_JOBS : Z := 2.
Definition DEFAULT_PERF_COOLDOWN_SECONDS : Z := 30.
Definition default_policy : QueueAdmissionPolicy :=
  Policy DEFAULT_MAX_RUNNING_QUEUE_JOBS DEFAULT_PERF_COOLDOWN_SECONDS 2 1 2 0.
Definition QUEUE_JOB_TYPE_ORDER : list string := ["perf"; "tests"; "background"; "service"]%string.

Record QueueAdmissionSummary : Type := AdmissionSummary {
  started : nat;
  requeued : nat;
  held : nat;
  failed_start : nat;
  retry_after_seconds : option Z }.
#[export] Instance eta_summary : Eta QueueAdmissionSummary := fun s =>
  AdmissionSummary (started s) (requeued s) (held s) (failed_start s) (retry_after_seconds s).

Definition max_concurrent_jobs (policy : QueueAdmissionPolicy) (job_type : string) : nat :=
  if job_type =?s "tests" then tests_max_concurrent policy
  else if job_type =?s "perf" then perf_max_concurrent policy
  else if job_type =?s "background" then background_max_concurrent policy
  else if job_type =?s "service" then service_max_concurrent policy
  else 1%nat.

(** ** Selection *)
(** [Iterator::min_by_key]: the first of the least elements. *)
Fixpoint min_by {A} (leb : A -> A -> bool) (l : list A) : option A :=
  match l with
  | [] => None
  | x :: rest =>
      match min_by leb rest with
      | None => Some x
      | Some y => if leb x y then Some x else Some y
      end
  end.

Definition oldest_pending_queue_job (js : list QueueJobRuntimeRecord) (job_type : string)
    : option QueueJobRuntimeRecord :=
  min_by (fun a b => text2_leb (rt_queued_at a, rt_id a) (rt_queued_at b, rt_id b))
    (List.filter (fun j => (rt_state j =?s "pending") && (rt_job_type j =?s job_type)) js).

Definition running_queue_job_count (js : list QueueJobRuntimeRecord) (job_type : option string) : nat :=
  length (List.filter (fun j =>
    (rt_state j =?s "running")
    && match job_type with Some expected => rt_job_type j =?s expected | None => true end) js).

(** ** The quiet window of performance runs *)
Definition perf_or_tests (j : QueueJobRuntimeRecord) : bool :=
  (rt_job_type j =?s "perf") || (rt_job_type j =?s "tests").
Fixpoint filter_map {A B} (f : A -> option B) (l : list A) : list B :=
  match l with
  | [] => []
  | x :: rest => match f x with Some y => y :: filter_map f rest | None => filter_map f rest end
  end.
Definition max_opt (l : list Z) : option Z :=
  match l with [] => None | x :: rest => Some (fold_left Z.max rest x) end.

Section Gates.
Context `{T : TimeCrate}.

Definition cooldown_remaining_at (js : list QueueJobRuntimeRecord) (policy : QueueAdmissionPolicy) (now : Z)
    : option Z :=
  max_opt (filter_map (fun j =>
    bind_opt (rt_finished_at j) (fun finished_at =>
    bind_opt (queue_elapsed_since finished_at now) (fun elapsed =>
    if (elapsed <? 0) || (perf_cooldown_seconds policy <=? elapsed) then None
    else Some (Z.max (perf_cooldown_seconds policy - elapsed) 1))))
    (List.filter perf_or_tests js)).

Definition blocked_by_tests_at (js : list QueueJobRuntimeRecord) (now : Z) : bool :=
  let latest := min_by (fun a b => fst a <=? fst b)
    (filter_map (fun j =>
       bind_opt (rt_finished_at j) (fun finished_at =>
       bind_opt (queue_elapsed_since finished_at now) (fun elapsed =>
       if elapsed <? 0 then None else Some (elapsed, rt_job_type j))))
       (List.filter perf_or_tests js)) in
  match latest with Some (_, t) => t =?s "perf" | None => false end
  && existsb (fun j => (rt_job_type j =?s "tests") && str_in (rt_state j) ["pending"; "running"]%string) js.
End Gates.

Section Operations.
Context `{T : TimeCrate} `{E : Env} `{H : Host} `{J : Serde}.

Definition perf_cooldown_remaining_seconds (js : list QueueJobRuntimeRecord) (policy : QueueAdmissionPolicy)
    : RQ (option Z) :=
  if perf_cooldown_seconds policy <=? 0 then ret None
  else now <- now_utc ;; ret (cooldown_remaining_at js policy now).
Definition perf_cooldown_active (js : list QueueJobRuntimeRecord) (policy : QueueAdmissionPolicy) : RQ bool :=
  remaining <- perf_cooldown_remaining_seconds js policy ;; ret (is_some remaining).
Definition perf_blocked_by_tests_after_perf (js : list QueueJobRuntimeRecord) : RQ bool :=
  now <- now_utc ;; ret (blocked_by_tests_at js now).

(** ** Statements *)
(** [COALESCE(holding_reason, '') != reason]. *)
Definition not_held_for (reason : string) (r : job_row) : bool :=
  negb (unwrap_or ""%string (job_holding_reason r) =?s reason).
Definition mark_pending_queue_jobs_holding_conn (id : option string) (reason : string) : RQ nat :=
  execute (fun d =>
    let p r := match id with Some id => has_key job_id id r | None => true end
               && (job_state r =?s "pending") && not_held_for reason r in
    (d <| jobs := update p (fun r => r <| job_holding_reason := Some reason |>) (jobs d) |>,
     changes p (jobs d))).
Definition mark_running (id reason : string) : RQ unit :=
  execute (fun d =>
    let p r := has_key job_id id r && (job_state r =?s "running") in
    (d <| jobs := update p (fun r => r <| job_holding_reason := Some reason |>) (jobs d) |>,
     changes p (jobs d))) ;;; ret tt.
Definition mark_queue_job_cancelling_conn (id : string) : RQ unit := mark_running id "cancelling".
Definition mark_queue_job_displacing_conn (id : string) : RQ unit := mark_running id "displacing".

(** ** Processes *)
Definition process_exists (pid : Z) : RQ bool :=
  if pid <=? 0 then ret false else ask (fun k => host_alive k pid).
Definition process_group_exists (pgid : Z) : RQ bool :=
  if pgid <=? 0 then ret false else ask (fun k => host_alive k (- pgid)).
Definition terminate_process_group (pgid : Z) (force : bool) : RQ unit :=
  if pgid <=? 0 then ret tt else emit (Signalled pgid force).
(** The polite signal, and the forced one when the group outlives the grace period;
    the call returns when the group is gone. *)
Definition terminate_process_group_with_grace (pgid : Z) : RQ unit :=
  terminate_process_group pgid false ;;;
  outlived <- process_group_exists pgid ;;
  if outlived : bool then terminate_process_group pgid true else ret tt.
(** [job.process_group_id.or(job.pid)]. *)
Definition terminate_job (job : QueueJobRuntimeRecord) : RQ unit :=
  match match rt_process_group_id job with Some g => Some g | None => rt_pid job end with
  | Some pgid => terminate_process_group_with_grace pgid
  | None => ret tt
  end.

Definition spawn_queue_job_process (job : QueueJobRuntimeRecord) : RQ Z :=
  wrapper_path <- expect "queue job has no wrapper path" (filter_nonblank (rt_wrapper_path job)) ;;
  log_path <- expect "queue job has no log path" (filter_nonblank (rt_log_path job)) ;;
  child <- ask (fun k => host_spawn k wrapper_path log_path) ;;
  match child with
  | inl pid => emit (Spawned wrapper_path log_path) ;;; ret pid
  | inr e => bail e
  end.

(** ** Starting a job *)
Definition started_row (now : string) (pid : Z) (r : job_row) : job_row :=
  r <| job_state := "running"%string |> <| job_holding_reason := None |> <| job_started_at := Some now |>
    <| job_pid := Some pid |> <| job_process_group_id := Some pid |>.
Definition start_queue_job_in_state_dir_with_policy (id : string) : RQ (option QueueJobRecord) :=
  open_queue_jobs_connection ;;;
  found <- get_queue_job_runtime_conn id ;;
  match found with
  | None => ret None
  | Some job =>
      if negb (rt_state job =?s "pending") then get_queue_job_conn id
      else
        child <- attempt (spawn_queue_job_process job) ;;
        match child with
        | inr error =>
            finish_queue_job_conn job "failed" None true ;;;
            bail error
        | inl pid =>
            now <- now_rfc3339 ;;
            execute (fun d =>
              let p r := has_key job_id id r && (job_state r =?s "pending") in
              (d <| jobs := update p (started_row now pid) (jobs d) |>, changes p (jobs d))) ;;;
            emit (MonitorStarted id pid (rt_timeout_seconds job)) ;;;
            get_queue_job_conn id
        end
  end.

(** The default policy only reaches the monitor of the job. *)
Definition start_queue_job_in_state_dir (id : string) : RQ (option QueueJobRecord) :=
  start_queue_job_in_state_dir_with_policy id.

(** ** The capacity reserve *)
Definition ensure_service_capacity_reserve_before_admission (js : list QueueJobRuntimeRecord)
    (policy : QueueAdmissionPolicy) : RQ unit :=
  if max_running_jobs policy <? 0 then bail "queue max_running_jobs must be a non-negative integer"
  else
    let global_capacity := Z.to_nat (max_running_jobs policy) in
    let service_capacity := service_max_concurrent policy in
    if Nat.leb global_capacity service_capacity && negb (Nat.eqb service_capacity 0) then
      bail ("queue service capacity configuration is invalid before admission: service_cap="
            +:+ show_Z (Z.of_nat service_capacity) +:+ " global_capacity=" +:+ show_Z (Z.of_nat global_capacity)
            +:+ "; service capacity must leave at least one non-service slot")
    else
      let non_service_reserve := (global_capacity - service_capacity)%nat in
      let recovered_service_ids :=
        map rt_id (List.filter (fun j => (rt_state j =?s "running") && (rt_job_type j =?s "service")) js) in
      let recovered_service_count := length recovered_service_ids in
      let preserves_service_cap := Nat.leb recovered_service_count service_capacity in
      let preserves_global_reserve :=
        Nat.leb (recovered_service_count + non_service_reserve) global_capacity in
      if preserves_service_cap && preserves_global_reserve then ret tt
      else
        bail ("queue admission blocked: recovered live service occupancy violates configured capacity; recovered_live_service_jobs="
              +:+ show_Z (Z.of_nat recovered_service_count)
              +:+ " service_cap=" +:+ show_Z (Z.of_nat service_capacity)
              +:+ " global_capacity=" +:+ show_Z (Z.of_nat global_capacity)
              +:+ " non_service_reserve=" +:+ show_Z (Z.of_nat non_service_reserve)
              +:+ " job_ids=[" +:+ join ", " recovered_service_ids
              +:+ "]. Recovered jobs were left unchanged and no pending job was admitted; reduce live service occupancy or raise the configuration before retrying recovery.").

(** ** Choosing the next job *)
Definition note_retry (remaining : option Z) (summary : QueueAdmissionSummary) : QueueAdmissionSummary :=
  match remaining with
  | Some remaining =>
      summary <| retry_after_seconds :=
        Some match retry_after_seconds summary with Some current => Z.min current remaining | None => remaining end |>
  | None => summary
  end.
Definition hold (id : option string) (reason : string) (summary : QueueAdmissionSummary)
    : RQ QueueAdmissionSummary :=
  n <- mark_pending_queue_jobs_holding_conn id reason ;;
  ret (summary <| held := (held summary + n)%nat |>).

Fixpoint next_admissible_in (types : list string) (js : list QueueJobRuntimeRecord)
    (policy : QueueAdmissionPolicy) (summary : QueueAdmissionSummary)
    : RQ (option string * QueueAdmissionSummary) :=
  match types with
  | [] => ret (None, summary)
  | job_type :: rest =>
      match oldest_pending_queue_job js job_type with
      | None => next_admissible_in rest js policy summary
      | Some job =>
          if Nat.leb (max_concurrent_jobs policy job_type) (running_queue_job_count js (Some job_type)) then
            summary <- hold (Some (rt_id job)) "concurrency_cap" summary ;;
            next_admissible_in rest js policy summary
          else
            cooling <- (if job_type =?s "perf" then perf_cooldown_active js policy else ret false) ;;
            if cooling : bool then
              summary <- hold (Some (rt_id job)) "perf_cooldown" summary ;;
              remaining <- perf_cooldown_remaining_seconds js policy ;;
              next_admissible_in rest js policy (note_retry remaining summary)
            else
              blocked <- (if job_type =?s "perf" then perf_blocked_by_tests_after_perf js else ret false) ;;
              if blocked : bool then
                summary <- hold (Some (rt_id job)) "awaiting_tests" summary ;;
                next_admissible_in rest js policy summary
              else ret (Some (rt_id job), summary)
      end
  end.
Definition next_admissible_queue_job_id_conn (js : list QueueJobRuntimeRecord)
    (policy : QueueAdmissionPolicy) (summary : QueueAdmissionSummary)
    : RQ (option string * QueueAdmissionSummary) :=
  next_admissible_in QUEUE_JOB_TYPE_ORDER js policy summary.

(** ** Displacement *)
Definition displaceable (js : list QueueJobRuntimeRecord) : option QueueJobRuntimeRecord :=
  min_by (fun a b => text2_leb (unwrap_or (rt_queued_at a) (rt_started_at a), rt_id a)
                               (unwrap_or (rt_queued_at b) (rt_started_at b), rt_id b))
    (List.filter (fun j => (rt_state j =?s "running") && (rt_job_type j =?s "background")) js).

Definition displace_background_for_perf_conn (js : list QueueJobRuntimeRecord)
    (policy : QueueAdmissionPolicy) : RQ bool :=
  if is_none (oldest_pending_queue_job js "perf") then ret false
  else if Nat.leb (max_concurrent_jobs policy "perf") (running_queue_job_count js (Some "perf"%string)) then ret false
  else
    cooling <- perf_cooldown_active js policy ;;
    blocked <- (if cooling : bool then ret true else perf_blocked_by_tests_after_perf js) ;;
    if blocked : bool then ret false
    else if Nat.ltb 0 (running_queue_job_count js (Some "tests"%string)) then ret false
    else
      match displaceable js with
      | None => ret false
      | Some background =>
          mark_queue_job_displacing_conn (rt_id background) ;;;
          let background := background <| rt_holding_reason := Some "displacing"%string |> in
          terminate_job background ;;;
          exit_code <- read_exit_code (rt_exit_code_path background) ;;
          finish_queue_job_conn background "displaced" exit_code true ;;;
          ret true
      end.

(** ** The admission loop *)
(** The first part of a turn of [loop]: a [break], a [continue] after a displacement,
    or the job to start. *)
Inductive choice : Type :=
| Break (summary : QueueAdmissionSummary)
| Displaced (summary : QueueAdmissionSummary)
| Start (candidate_id : string) (summary : QueueAdmissionSummary).

Definition admission_choice (policy : QueueAdmissionPolicy) (summary : QueueAdmissionSummary) : RQ choice :=
  js <- list_queue_job_runtime_records_conn ;;
  if negb (existsb (fun j => rt_state j =?s "pending") js) then ret (Break summary)
  else if Nat.ltb 0 (running_queue_job_count js (Some "perf"%string)) then
    summary <- hold None "perf_running" summary ;; ret (Break summary)
  else
    waiting <- (if is_some (oldest_pending_queue_job js "perf")
                then blocked <- perf_blocked_by_tests_after_perf js ;; ret (negb blocked)
                else ret false) ;;
    if waiting && Nat.ltb 0 (running_queue_job_count js (Some "tests"%string)) then
      summary <- hold None "awaiting_tests" summary ;; ret (Break summary)
    else
      remaining <- (if waiting : bool then perf_cooldown_remaining_seconds js policy else ret None) ;;
      match remaining with
      | Some r =>
          summary <- hold None "perf_cooldown" summary ;;
          ret (Break (note_retry (Some r) summary))
      | None =>
          displaced <- displace_background_for_perf_conn js policy ;;
          if displaced : bool then ret (Displaced summary)
          else if max_running_jobs policy <=? Z.of_nat (running_queue_job_count js None) then
            summary <- hold None "concurrency_cap" summary ;; ret (Break summary)
          else
            let* (candidate, summary) := next_admissible_queue_job_id_conn js policy summary in
            ret match candidate with
                | None => Break summary
                | Some candidate_id => Start candidate_id summary
                end
      end.

(** The second part: start the chosen job; a failed start ends the admission unless
    it is to go on and the job is now failed. *)
Definition start_candidate (continue_after_failed_start : bool) (candidate_id : string)
    (summary : QueueAdmissionSummary) : RQ QueueAdmissionSummary :=
  r <- attempt (start_queue_job_in_state_dir_with_policy candidate_id) ;;
  match r with
  | inl (Some job) =>
      ret (if qj_state job =?s "running" then summary <| started := S (started summary) |> else summary)
  | inl None => ret summary
  | inr error =>
      current <- get_queue_job_conn candidate_id ;;
      match current with
      | None => bail error
      | Some current =>
          if continue_after_failed_start && (qj_state current =?s "failed")
          then ret (summary <| failed_start := S (failed_start summary) |>)
          else bail error
      end
  end.

(** [None]: the fuel ran out. *)
Fixpoint admission_loop (fuel : nat) (policy : QueueAdmissionPolicy) (continue_after_failed_start : bool)
    (summary : QueueAdmissionSummary) : RQ (option QueueAdmissionSummary) :=
  match fuel with
  | O => ret None
  | S fuel =>
      c <- admission_choice policy summary ;;
      match c with
      | Break summary => ret (Some summary)
      | Displaced summary => admission_loop fuel policy continue_after_failed_start summary
      | Start candidate_id summary =>
          summary <- start_candidate continue_after_failed_start candidate_id summary ;;
          admission_loop fuel policy continue_after_failed_start summary
      end
  end.

(** Every turn that goes on starts a pending job, fails one, or ends a running one. *)
Definition is_state (s : string) (r : job_row) : bool := job_state r =?s s.
Definition admission_measure (d : runner) : nat :=
  (2 * changes (is_state "pending") (jobs d) + changes (is_state "running") (jobs d))%nat.

(** The part of an admission after its check. *)
Definition requeue_and_loop (policy : QueueAdmissionPolicy) (continue_after_failed_start : bool) : RQ QueueAdmissionSummary :=
  requeued <- execute (fun d =>
    let p r := (job_state r =?s "pending") && is_some (job_holding_reason r) in
    (d <| jobs := update p (fun r => r <| job_holding_reason := None |>) (jobs d) |>, changes p (jobs d))) ;;
  fuel <- query (fun d => S (admission_measure d)) ;;
  result <- admission_loop fuel policy continue_after_failed_start (AdmissionSummary 0 requeued 0 0 None) ;;
  match result with
  | None => panic
  | Some summary =>
      match retry_after_seconds summary with
      | Some seconds => emit (AdmissionRetry (Z.max seconds 1))
      | None => ret tt
      end ;;;
      ret summary
  end.

Definition admit_pending_queue_jobs_conn (policy : QueueAdmissionPolicy) (continue_after_failed_start : bool)
    : RQ QueueAdmissionSummary :=
  running_jobs <- list_queue_job_runtime_records_conn ;;
  ensure_service_capacity_reserve_before_admission running_jobs policy ;;;
  requeue_and_loop policy continue_after_failed_start.

Definition admit_queue_jobs_in_state_dir_with_policy (policy : QueueAdmissionPolicy)
    (continue_after_failed_start : bool) : RQ unit :=
  open_queue_jobs_connection ;;;
  admit_pending_queue_jobs_conn policy continue_after_failed_start ;;; ret tt.
Definition admit_queue_jobs_in_state_dir : RQ unit :=
  admit_queue_jobs_in_state_dir_with_policy default_policy false.
Definition admit_queue_jobs_in_state_dir_continuing_after_failed_start_with_policy
    (policy : QueueAdmissionPolicy) : RQ unit :=
  admit_queue_jobs_in_state_dir_with_policy policy true.
Definition admit_queue_jobs_in_state_dir_continuing_after_failed_start : RQ unit :=
  admit_queue_jobs_in_state_dir_continuing_after_failed_start_with_policy default_policy.
End Operations.

(** ** Keys and terminal jobs *)
Section Safety.
Context {T : TimeCrate} {E : Env} {H : Host} {J : Serde}.

Lemma live_state s r : str_in s ["pending"; "running"]%string = true ->
  (job_state r =?s s) = true -> is_terminal_queue_state (job_state r) = false.
Proof.
  intros Hs Hr. bool_simpl. rewrite Hr. apply str_in_In in Hs as [<-|[<-|[]]]; done.
Qed.
Lemma holding_safe id reason : steps (on_db runner_safe) (mark_pending_queue_jobs_holding_conn id reason).
Proof.
  unfold mark_pending_queue_jobs_holding_conn. db_steps. apply update_live_jobs_safe; [|done].
  intros r Hr. apply andb_true_iff in Hr as [Hr _]. apply andb_true_iff in Hr as [_ Hr]. by apply (live_state "pending").
Qed.
Lemma mark_running_safe id reason : steps (on_db runner_safe) (mark_running id reason).
Proof.
  unfold mark_running. db_steps. apply update_live_jobs_safe; [|done].
  intros r Hr. apply andb_true_iff in Hr as [_ Hr]. by apply (live_state "running").
Qed.
Lemma cooldown_frame js policy : steps (@db_eq runner) (perf_cooldown_remaining_seconds js policy).
Proof. unfold perf_cooldown_remaining_seconds. step_through. Qed.
Lemma blocked_frame js : steps (@db_eq runner) (perf_blocked_by_tests_after_perf js).
Proof. unfold perf_blocked_by_tests_after_perf. step_through. Qed.
Lemma group_exists_frame g : steps (@db_eq runner) (process_group_exists g).
Proof. unfold process_group_exists. step_through. Qed.
Lemma process_exists_frame g : steps (@db_eq runner) (process_exists g).
Proof. unfold process_exists. step_through. Qed.
#[local] Hint Resolve holding_safe mark_running_safe cooldown_frame blocked_frame group_exists_frame : steps.
Lemma cooldown_active_frame js policy : steps (@db_eq runner) (perf_cooldown_active js policy).
Proof. unfold perf_cooldown_active. step_through. Qed.
#[local] Hint Resolve cooldown_active_frame : steps.
Lemma hold_safe id reason s : steps (on_db runner_safe) (hold id reason s).
Proof. unfold hold. db_steps. Qed.
Lemma terminate_job_safe job : steps (on_db runner_safe) (terminate_job job).
Proof. unfold terminate_job, terminate_process_group_with_grace, terminate_process_group. db_steps. Qed.
#[local] Hint Resolve hold_safe terminate_job_safe : steps.
Lemma next_admissible_safe types js policy s : steps (on_db runner_safe) (next_admissible_in types js policy s).
Proof. revert s. induction types as [|t types IH]; intros s; cbn [next_admissible_in]; db_steps; apply IH. Qed.
Lemma displace_safe js policy : steps (on_db runner_safe) (displace_background_for_perf_conn js policy).
Proof. unfold displace_background_for_perf_conn, mark_queue_job_displacing_conn. db_steps. Qed.
#[local] Hint Resolve next_admissible_safe displace_safe : steps.

Lemma choice_safe policy s : steps (on_db runner_safe) (admission_choice policy s).
Proof.
  unfold admission_choice, list_queue_job_runtime_records_conn, next_admissible_queue_job_id_conn. db_steps.
Qed.
Lemma spawn_safe job : steps (on_db runner_safe) (spawn_queue_job_process job).
Proof. unfold spawn_queue_job_process. db_steps. Qed.
#[local] Hint Resolve choice_safe spawn_safe : steps.
Lemma start_safe id : steps (on_db runner_safe) (start_queue_job_in_state_dir_with_policy id).
Proof.
  unfold start_queue_job_in_state_dir_with_policy, open_queue_jobs_connection, get_queue_job_runtime_conn,
    get_queue_job_conn. db_steps.
  apply update_live_jobs_safe; [|done].
  intros r Hr. apply andb_true_iff in Hr as [_ Hr]. by apply (live_state "pending").
Qed.
#[local] Hint Resolve start_safe : steps.
Lemma start_candidate_safe c id s : steps (on_db runner_safe) (start_candidate c id s).
Proof. unfold start_candidate, get_queue_job_conn. db_steps. Qed.
#[local] Hint Resolve start_candidate_safe : steps.
Lemma admission_loop_safe fuel policy c s : steps (on_db runner_safe) (admission_loop fuel policy c s).
Proof. revert s. induction fuel as [|fuel IH]; intros s; cbn [admission_loop]; db_steps; apply IH. Qed.
#[local] Hint Resolve admission_loop_safe : steps.
Lemma admit_safe policy c : steps (on_db runner_safe) (admit_pending_queue_jobs_conn policy c).
Proof.
  unfold admit_pending_queue_jobs_conn, requeue_and_loop, ensure_service_capacity_reserve_before_admission,
    list_queue_job_runtime_records_conn. db_steps.
  all: try (apply update_live_jobs_safe; [|done]; intros r Hr; apply andb_true_iff in Hr as [Hr _];
            by apply (live_state "pending")).
Qed.
End Safety.
#[export] Hint Resolve mark_running_safe process_exists_frame group_exists_frame terminate_job_safe
  start_safe admit_safe : steps.
