(* ===== verification/QueueAdmissionProps.v ===== *)
(** * Properties of admission

    The admission loop ends, never exceeds the configured capacities, runs performance
    jobs alone, takes the oldest job of the first admissible type, and leaves
    everything alone when the service reserve is violated. *)
From Stdlib Require Import ZArith Lia Bool String Ascii List Sorted.
From stdpp Require Import base tactics list strings.
From S2P Require Import Prelude Text Table Clock Demo Schema MessageQueue QueueJobs DemoHost QueueJobsProps QueueAdmission.

(** ** What the decisions depend on: id, type and state of every job *)
Definition core (r : job_row) : string * string * string := (job_id r, job_type r, job_state r).
Definition cores (d : runner) : list (string * string * string) := map core (jobs d).
Definition same_core (d d' : runner) : Prop := cores d' = cores d.
#[export] Instance same_core_preorder : PreOrder same_core.
Proof. split; [done|]. intros ???. unfold same_core. congruence. Qed.

(** Live jobs satisfying a test, counted; a test never holds of a terminal job. *)
Definition live_test (q : string * string * string -> bool) : Prop :=
  forall id ty s, is_terminal_queue_state s = true -> q (id, ty, s) = false.
Definition tally (q : string * string * string -> bool) (d : runner) : nat := length (List.filter q (cores d)).
Definition shrinks (d d' : runner) : Prop := forall q, live_test q -> (tally q d' <= tally q d)%nat.
#[export] Instance shrinks_preorder : PreOrder shrinks.
Proof.
  split; [intros d q _; lia|]. intros d1 d2 d3 H1 H2 q Hq. specialize (H1 q Hq). specialize (H2 q Hq). lia.
Qed.

Definition running_as (o : option string) (c : string * string * string) : bool :=
  let '(_, ty, s) := c in (s =?s "running") && match o with Some t => ty =?s t | None => true end.
Definition pending_as (o : option string) (c : string * string * string) : bool :=
  let '(_, ty, s) := c in (s =?s "pending") && match o with Some t => ty =?s t | None => true end.
(** Running jobs, of one type or of all. *)
Definition running_count (o : option string) (d : runner) : nat := tally (running_as o) d.

Lemma running_as_live o : live_test (running_as o).
Proof. intros id ty s Hs. cbn. destruct (String.eqb_spec s "running") as [->|]; [discriminate Hs|done]. Qed.
Lemma pending_as_live o : live_test (pending_as o).
Proof. intros id ty s Hs. cbn. destruct (String.eqb_spec s "pending") as [->|]; [discriminate Hs|done]. Qed.

Lemma same_core_tally q d d' : same_core d d' -> tally q d' = tally q d.
Proof. unfold same_core, tally. by intros ->. Qed.
Lemma same_core_shrinks d d' : same_core d d' -> shrinks d d'.
Proof. intros Hs q _. by rewrite (same_core_tally q d d'). Qed.
Lemma same_core_in d d' r : same_core d d' -> In r (jobs d) -> exists r', In r' (jobs d') /\ core r' = core r.
Proof.
  intros Hs Hr. assert (In (core r) (cores d')) as Hin by (rewrite Hs; by apply in_map).
  apply in_map_iff in Hin as (r' & Hc & Hr'). eauto.
Qed.

Lemma tally_changes q d : tally q d = changes (fun r => q (core r)) (jobs d).
Proof.
  unfold tally, cores, changes. induction (jobs d) as [|r t IH]; cbn; [done|]. destruct (q (core r)); cbn; lia.
Qed.
Lemma measure_tally d : admission_measure d = (2 * tally (pending_as None) d + running_count None d)%nat.
Proof.
  unfold admission_measure, running_count. rewrite !tally_changes.
  rewrite (changes_ext (fun r => pending_as None (core r)) (is_state "pending")),
    (changes_ext (fun r => running_as None (core r)) (is_state "running")); [done|..];
    intros r; cbn; by rewrite andb_true_r.
Qed.

(** *** Statements *)
Lemma update_same_core d p f :
  (forall r, core (f r) = core r) -> same_core d (d <| jobs := update p f (jobs d) |>).
Proof.
  intros Hf. unfold same_core, cores. cbn. unfold update. rewrite map_map. apply map_ext.
  intros r. destruct (p r); auto.
Qed.

Lemma changes_update_drop {row} (p q : row -> bool) f t :
  (forall r, q r = true -> p (f r) = false) -> (changes p (update q f t) <= changes p t)%nat.
Proof.
  intros Hd. unfold changes, update. induction t as [|r t IH]; cbn; [lia|].
  destruct (q r) eqn:E; [rewrite (Hd r E)|]; destruct (p r); cbn; lia.
Qed.
Lemma changes_update_drop_strict {row} (p q : row -> bool) f t r :
  (forall r, q r = true -> p (f r) = false) -> In r t -> q r = true -> p r = true ->
  (changes p (update q f t) < changes p t)%nat.
Proof.
  intros Hd. induction t as [|x t IH]; [done|]. intros [->|Hin] Hq Hp.
  - pose proof (changes_update_drop p q f t Hd). unfold changes, update in *. cbn.
    rewrite Hq, (Hd r Hq), Hp. cbn. lia.
  - specialize (IH Hin Hq Hp). unfold changes, update in *. cbn.
    destruct (q x) eqn:E; [rewrite (Hd x E)|]; destruct (p x); cbn; lia.
Qed.

Section Steps.
Context {T : TimeCrate} {E : Env} {H : Host} {J : Serde}.

Lemma record_same_core job state code t q :
  steps (on_db same_core) (record_queue_job_completion_notification_conn job state code t q).
Proof.
  unfold record_queue_job_completion_notification_conn, queue_job_completion_notified_at. db_steps.
  - intros w. pose proof (on_mq_same_jobs (enqueue_message_once_with_metadata (completion_message_id (rt_id job)) s a
      "sequential" completion_metadata) w) as Hj. unfold on_db, same_jobs, same_core, cores in *. by rewrite Hj.
  - by apply update_same_core.
Qed.

(** Finishing a job in a terminal state never adds a live job, and ends a live one. *)
Lemma finish_shrinks job state code q :
  is_terminal_queue_state state = true -> steps (on_db shrinks) (finish_queue_job_conn job state code q).
Proof.
  intros Hs. unfold finish_queue_job_conn. db_steps.
  - intros q0 Hq. rewrite !tally_changes. apply changes_update_drop. intros r _. by apply Hq.
  - intros w. apply same_core_shrinks, record_same_core.
Qed.

Lemma finish_drops q0 job state code q w r :
  is_terminal_queue_state state = true -> live_test q0 ->
  In r (jobs (w_db w)) -> job_id r = rt_id job -> is_terminal_queue_state (job_state r) = false ->
  q0 (core r) = true ->
  (tally q0 (w_db (snd (finish_queue_job_conn job state code q w))) < tally q0 (w_db w))%nat.
Proof.
  intros Hs Hq Hin Hid Hlive Hr. unfold finish_queue_job_conn, bind at 1.
  destruct (now_rfc3339_run w) as [t ->]. unfold bind at 1, execute. cbn [w_db w_tick fst snd].
  set (p := fun x => has_key job_id (rt_id job) x && _).
  assert (Hp : p r = true) by (unfold p, has_key; by rewrite Hid, String.eqb_refl, Hlive).
  assert (Hlt : (tally q0 ((w_db w) <| jobs := update p (finished_row state t code) (jobs (w_db w)) |>) < tally q0 (w_db w))%nat).
  { rewrite !tally_changes. apply (changes_update_drop_strict _ p _ _ r); [|done..]. intros x _. by apply Hq. }
  pose proof (changes_pos p _ r Hin Hp). destruct (Nat.eqb_spec (changes p (jobs (w_db w))) 0); [lia|].
  unfold bind. pose proof (record_same_core job state code t q (World ((w_db w) <| jobs := update p (finished_row state t code) (jobs (w_db w)) |>) (S (w_tick w)))) as Hc.
  apply (same_core_tally q0) in Hc. cbn [w_db] in Hc.
  destruct (record_queue_job_completion_notification_conn _ _ _ _ _ _) as [[b|e|] w']; cbn in *; lia.
Qed.

Lemma emit_same_core e : steps (on_db same_core) (emit e).
Proof. done. Qed.
Lemma holding_same_core id reason : steps (on_db same_core) (mark_pending_queue_jobs_holding_conn id reason).
Proof. unfold mark_pending_queue_jobs_holding_conn. db_steps. by apply update_same_core. Qed.
Lemma mark_running_same_core id reason : steps (on_db same_core) (mark_running id reason).
Proof. unfold mark_running. db_steps. by apply update_same_core. Qed.
#[local] Hint Resolve emit_same_core holding_same_core mark_running_same_core : steps.
Lemma hold_same_core id reason s : steps (on_db same_core) (hold id reason s).
Proof. unfold hold. db_steps. Qed.
Lemma terminate_job_same_core job : steps (on_db same_core) (terminate_job job).
Proof. unfold terminate_job, terminate_process_group_with_grace, terminate_process_group. db_steps. Qed.
Lemma spawn_same_core job : steps (on_db same_core) (spawn_queue_job_process job).
Proof. unfold spawn_queue_job_process. db_steps. Qed.
#[local] Hint Resolve hold_same_core terminate_job_same_core cooldown_frame blocked_frame cooldown_active_frame : steps.
Lemma next_admissible_same_core types js policy s : steps (on_db same_core) (next_admissible_in types js policy s).
Proof. revert s. induction types as [|t types IH]; intros s; cbn [next_admissible_in]; db_steps; apply IH. Qed.

Lemma steps_shrinks {A} (m : RQ A) : steps (on_db same_core) m -> steps (on_db shrinks) m.
Proof. intros Hm w. apply same_core_shrinks, Hm. Qed.

Lemma displace_shrinks js policy : steps (on_db shrinks) (displace_background_for_perf_conn js policy).
Proof.
  unfold displace_background_for_perf_conn, mark_queue_job_displacing_conn. db_steps.
  - apply steps_shrinks, mark_running_same_core.
  - apply steps_shrinks, terminate_job_same_core.
  - by apply finish_shrinks.
Qed.

Lemma choice_shrinks policy s : steps (on_db shrinks) (admission_choice policy s).
Proof.
  unfold admission_choice, list_queue_job_runtime_records_conn, next_admissible_queue_job_id_conn. db_steps.
  all: first [apply steps_shrinks, hold_same_core | apply displace_shrinks
             | apply steps_shrinks, next_admissible_same_core | idtac].
Qed.
End Steps.

(** ** What the loop reads *)
Lemma min_by_in {A} leb (l : list A) x : min_by leb l = Some x -> In x l.
Proof.
  revert x. induction l as [|y l IH]; intros x; cbn; [done|].
  destruct (min_by leb l) as [z|]; [|intros [= <-]; by left].
  destruct (leb y z); intros [= <-]; [by left|right; by apply IH].
Qed.
Lemma min_by_none {A} leb (l : list A) : min_by leb l = None -> l = [].
Proof. destruct l as [|x l]; cbn; [done|]. destruct (min_by leb l) as [y|]; [by destruct (leb x y)|done]. Qed.

(** The records a turn works with, and the jobs they come from. *)
Definition listing (d : runner) : list QueueJobRuntimeRecord := map runtime_of (order_by job_order (jobs d)).
Lemma listing_in d j : In j (listing d) <-> exists r, In r (jobs d) /\ j = runtime_of r.
Proof.
  unfold listing. rewrite in_map_iff. split; intros (r & H1 & H2); exists r;
    rewrite in_order_by in *; auto.
Qed.
Lemma filter_perm_length {A} (p : A -> bool) l l' : Permutation.Permutation l l' ->
  length (List.filter p l) = length (List.filter p l').
Proof. induction 1; cbn; [done|destruct (p x); cbn; lia|destruct (p x), (p y); cbn; lia|lia]. Qed.
Lemma filter_map_length {A B} (f : A -> B) (p : B -> bool) l :
  length (List.filter p (map f l)) = length (List.filter (fun x => p (f x)) l).
Proof. induction l as [|x l IH]; cbn; [done|]. destruct (p (f x)); cbn; lia. Qed.
Lemma listing_count d o : running_queue_job_count (listing d) o = running_count o d.
Proof.
  unfold running_queue_job_count, listing, running_count. rewrite tally_changes. unfold changes.
  rewrite filter_map_length. symmetry. apply filter_perm_length, order_by_perm.
Qed.

Lemma oldest_pending_in d ty j :
  oldest_pending_queue_job (listing d) ty = Some j ->
  exists r, In r (jobs d) /\ j = runtime_of r /\ job_state r = "pending"%string /\ job_type r = ty.
Proof.
  intros Hm. apply min_by_in, filter_In in Hm as [Hin Hp].
  apply listing_in in Hin as (r & Hr & ->). cbn in Hp. bool_simpl. eauto 6.
Qed.

Section Choices.
Context {T : TimeCrate} {E : Env} {H : Host} {J : Serde}.

(** A standing clock, as far as the gates can see. *)
Definition clock_stands (now : Z) : Prop := forall k, env_now k = now.

Lemma blocked_run js w : perf_blocked_by_tests_after_perf js w =
  (Ok (blocked_by_tests_at js (env_now (w_tick w))), World (w_db w) (S (w_tick w))).
Proof. done. Qed.
Lemma cooldown_db js policy w o w' :
  perf_cooldown_remaining_seconds js policy w = (Ok o, w') -> w_db w' = w_db w.
Proof. intros Hrun. pose proof (cooldown_frame js policy w) as Hf. by rewrite Hrun in Hf. Qed.
(** The cooldown at a standing clock. *)
Definition cooldown_at (js : list QueueJobRuntimeRecord) (policy : QueueAdmissionPolicy) (now : Z) : option Z :=
  if perf_cooldown_seconds policy <=? 0 then None else cooldown_remaining_at js policy now.
Lemma cooldown_stands js policy now w o w' :
  clock_stands now -> perf_cooldown_remaining_seconds js policy w = (Ok o, w') -> o = cooldown_at js policy now.
Proof.
  intros Hc. unfold perf_cooldown_remaining_seconds, cooldown_at.
  destruct (_ <=? 0); intros Hrun; [by injection Hrun as <-|].
  cbn in Hrun. injection Hrun as <- _. by rewrite Hc.
Qed.

(** The outcome of the displacement step. *)
Lemma displace_false js policy w w' :
  displace_background_for_perf_conn js policy w = (Ok false, w') ->
  w_db w' = w_db w /\
  forall now, clock_stands now -> is_some (oldest_pending_queue_job js "perf") = true ->
    (running_queue_job_count js (Some "perf"%string) < max_concurrent_jobs policy "perf")%nat ->
    cooldown_at js policy now = None -> blocked_by_tests_at js now = false ->
    running_queue_job_count js (Some "tests"%string) = O -> displaceable js = None.
Proof.
  unfold displace_background_for_perf_conn, is_none. intros Hrun.
  destruct (is_some (oldest_pending_queue_job js "perf")); cbn [negb] in Hrun; [|by injection Hrun as <-].
  destruct (Nat.leb_spec (max_concurrent_jobs policy "perf") (running_queue_job_count js (Some "perf"%string)));
    [injection Hrun as <-; split; [done|lia]|].
  apply bind_Ok_inv in Hrun as (cooling & w1 & H1 & Hrun).
  unfold perf_cooldown_active in H1. inv_ok H1. pose proof (cooldown_db _ _ _ _ _ Hrun0) as Hw1.
  apply bind_Ok_inv in Hrun as (blocked & w2 & H2 & Hrun).
  assert (Hw2 : w_db w2 = w_db w).
  { destruct (is_some a); [injection H2 as _ <-; done|]. rewrite blocked_run in H2. by injection H2 as _ <-. }
  destruct blocked.
  - injection Hrun as <-. split; [done|]. intros now Hc _ _ Hcd Hb.
    rewrite <- (cooldown_stands _ _ _ _ _ _ Hc Hrun0) in Hcd. rewrite Hcd in H2. cbn [is_some] in H2.
    rewrite blocked_run, Hc in H2. congruence.
  - destruct (Nat.ltb_spec 0 (running_queue_job_count js (Some "tests"%string))); [injection Hrun as <-; split; [done|lia]|].
    destruct (displaceable js); [|injection Hrun as <-; done].
    exfalso. repeat (apply bind_Ok_inv in Hrun as (? & ? & _ & Hrun)). done.
Qed.

Lemma displace_true js policy w w' :
  displace_background_for_perf_conn js policy w = (Ok true, w') ->
  exists b, displaceable js = Some b /\ exists w1 code,
    same_core (w_db w) (w_db w1) /\
    finish_queue_job_conn (b <| rt_holding_reason := Some "displacing"%string |>) "displaced" code true w1 = (Ok tt, w').
Proof.
  unfold displace_background_for_perf_conn. intros Hrun.
  destruct (is_none _); [done|]. destruct (Nat.leb _ _); [done|].
  apply bind_Ok_inv in Hrun as (cooling & w1 & H1 & Hrun).
  pose proof (cooldown_active_frame js policy w) as Hf1. rewrite H1 in Hf1.
  apply bind_Ok_inv in Hrun as (blocked & w2 & H2 & Hrun).
  assert (Hw2 : w_db w2 = w_db w).
  { destruct cooling; [by injection H2 as _ <-|]. rewrite blocked_run in H2. by injection H2 as _ <-. }
  destruct blocked; [done|]. destruct (Nat.ltb _ _); [done|].
  destruct (displaceable js) as [b|]; [|done]. exists b. split; [done|].
  apply bind_Ok_inv in Hrun as ([] & w3 & H3 & Hrun). apply bind_Ok_inv in Hrun as ([] & w4 & H4 & Hrun).
  apply bind_Ok_inv in Hrun as (code & w5 & H5 & Hrun). apply bind_Ok_inv in Hrun as ([] & w6 & H6 & Hrun).
  injection Hrun as <-. exists w5, code. split; [|done].
  pose proof (mark_running_same_core (rt_id b) "displacing" w2) as Hm3. unfold mark_queue_job_displacing_conn in H3. rewrite H3 in Hm3.
  match type of H4 with terminate_job ?x _ = _ =>
    pose proof (terminate_job_same_core x w3) as Hm4; rewrite H4 in Hm4 end.
  match type of H5 with read_exit_code ?x _ = _ =>
    pose proof (read_exit_code_frame x w4) as Hf5; rewrite H5 in Hf5 end.
  unfold on_db, db_eq in *. cbn [snd] in *. rewrite Hf5. transitivity (w_db w3); [|done]. by rewrite Hw2 in Hm3.
Qed.

(** The job the type scan settles on. *)
Lemma next_admissible_spec types js policy s w id s' w' :
  next_admissible_in types js policy s w = (Ok (Some id, s'), w') ->
  exists ty j, In ty types /\ oldest_pending_queue_job js ty = Some j /\ rt_id j = id /\
    (running_queue_job_count js (Some ty) < max_concurrent_jobs policy ty)%nat /\
    (forall now, clock_stands now -> ty = "perf"%string ->
       cooldown_at js policy now = None /\ blocked_by_tests_at js now = false).
Proof.
  revert s w. induction types as [|ty types IH]; intros s w Hrun; cbn [next_admissible_in] in Hrun; [done|].
  assert (Hrest : forall s1 w1, next_admissible_in types js policy s1 w1 = (Ok (Some id, s'), w') ->
    exists ty0 j, In ty0 (ty :: types) /\ oldest_pending_queue_job js ty0 = Some j /\ rt_id j = id /\
    (running_queue_job_count js (Some ty0) < max_concurrent_jobs policy ty0)%nat /\
    (forall now, clock_stands now -> ty0 = "perf"%string ->
       cooldown_at js policy now = None /\ blocked_by_tests_at js now = false)).
  { intros s1 w1 H1. destruct (IH _ _ H1) as (ty0 & j & Hin & Hx). exists ty0, j. split; [by right|done]. }
  destruct (oldest_pending_queue_job js ty) as [j|] eqn:Hj; [|by eapply Hrest].
  destruct (Nat.leb_spec (max_concurrent_jobs policy ty) (running_queue_job_count js (Some ty))) as [|Hcap].
  { apply bind_Ok_inv in Hrun as (? & ? & _ & Hrun). by eapply Hrest. }
  apply bind_Ok_inv in Hrun as (cooling & w1 & H1 & Hrun). destruct cooling.
  { apply bind_Ok_inv in Hrun as (? & ? & _ & Hrun). apply bind_Ok_inv in Hrun as (? & ? & _ & Hrun). by eapply Hrest. }
  apply bind_Ok_inv in Hrun as (blocked & w2 & H2 & Hrun). destruct blocked.
  { apply bind_Ok_inv in Hrun as (? & ? & _ & Hrun). by eapply Hrest. }
  injection Hrun as <- <- <-. exists ty, j. split; [by left|]. repeat (split; [done|]).
  intros now Hc ->. rewrite String.eqb_refl in H1, H2. split.
  - unfold perf_cooldown_active in H1. inv_ok H1. rewrite <- (cooldown_stands _ _ _ _ _ _ Hc Hrun). by destruct a.
  - rewrite blocked_run, Hc in H2. by injection H2 as -> _.
Qed.

(** What the first part of a turn guarantees about the job it lets start. *)
Record admissible (policy : QueueAdmissionPolicy) (d : runner) (id : string) (r : job_row) : Prop := Admissible {
  adm_in : In r (jobs d);
  adm_id : job_id r = id;
  adm_pending : job_state r = "pending"%string;
  adm_type : In (job_type r) QUEUE_JOB_TYPE_ORDER;
  adm_type_cap : (running_count (Some (job_type r)) d < max_concurrent_jobs policy (job_type r))%nat;
  adm_cap : Z.of_nat (running_count None d) < max_running_jobs policy;
  adm_no_perf : running_count (Some "perf"%string) d = O;
  adm_perf_alone : forall now, clock_stands now -> job_type r = "perf"%string ->
    running_count (Some "tests"%string) d = O /\ running_count (Some "background"%string) d = O }.

Lemma displaceable_none d : displaceable (listing d) = None -> running_count (Some "background"%string) d = O.
Proof. unfold displaceable. intros Hd%min_by_none. rewrite <- listing_count. unfold running_queue_job_count. by rewrite Hd. Qed.

Lemma choice_start policy s w id s' w' :
  admission_choice policy s w = (Ok (Start id s'), w') ->
  same_core (w_db w) (w_db w') /\ exists r, admissible policy (w_db w) id r.
Proof.
  unfold admission_choice. intros Hrun. apply bind_Ok_inv in Hrun as (js & w0 & Hq & Hrun).
  injection Hq as Hjs <-. change (listing (w_db w) = js) in Hjs. symmetry in Hjs.
  destruct (negb (existsb _ js)); [done|].
  destruct (Nat.ltb_spec 0 (running_queue_job_count js (Some "perf"%string))) as [|Hperf]; [by inv_ok Hrun|].
  apply bind_Ok_inv in Hrun as (waiting & w1 & H1 & Hrun).
  assert (Hw1 : w_db w1 = w_db w).
  { destruct (is_some _); [|by injection H1 as _ <-]. apply bind_Ok_inv in H1 as (? & ? & Hb & H1).
    rewrite blocked_run in Hb. injection Hb as <- <-. by injection H1 as _ <-. }
  destruct (waiting && _) eqn:Hwt; [by inv_ok Hrun|].
  apply bind_Ok_inv in Hrun as (remaining & w2 & H2 & Hrun).
  assert (Hw2 : w_db w2 = w_db w).
  { destruct waiting; [|by injection H2 as _ <-]. apply cooldown_db in H2. congruence. }
  destruct remaining as [rem|]; [by inv_ok Hrun|].
  apply bind_Ok_inv in Hrun as (displaced & w3 & H3 & Hrun). destruct displaced; [done|].
  apply displace_false in H3 as [Hw3 Hdisp].
  destruct (Z.leb_spec (max_running_jobs policy) (Z.of_nat (running_queue_job_count js None))) as [|Hmax]; [by inv_ok Hrun|].
  apply bind_Ok_inv in Hrun as ([cand s1] & w4 & H4 & Hrun). destruct cand as [cid|]; [|done]. injection Hrun as <- <- <-.
  split.
  - pose proof (next_admissible_same_core QUEUE_JOB_TYPE_ORDER js policy s w3) as Hc.
    unfold next_admissible_queue_job_id_conn in H4. rewrite H4 in Hc. unfold on_db in Hc. cbn in Hc. by rewrite Hw3, Hw2 in Hc.
  - apply next_admissible_spec in H4 as (ty & j & Hty & Hj & Hid & Hcap & Hgate).
    rewrite Hjs in Hj. apply oldest_pending_in in Hj as Hj'. destruct Hj' as (r & Hr & -> & Hst & Hrt). exists r.
    subst js. rewrite !listing_count in *. subst ty. split; auto; [lia|].
    intros now Hc Hp. rewrite Hp in *. destruct (Hgate now Hc eq_refl) as [Hcd Hbl].
    rewrite Hj in H1. cbn [is_some] in H1. apply bind_Ok_inv in H1 as (bl & wb & Hb & H1).
    rewrite blocked_run, Hc, Hbl in Hb. injection Hb as <- <-. injection H1 as <- _.
    assert (Ht : running_count (Some "tests"%string) (w_db w) = O) by (apply Nat.ltb_ge in Hwt; lia).
    split; [done|]. apply displaceable_none. apply (Hdisp now Hc); by rewrite ?Hj.
Qed.
End Choices.

(** ** Starting a job, seen through the cores *)
Definition set_state (id st : string) (c : string * string * string) : string * string * string :=
  let '(i, ty, s) := c in if i =?s id then (i, ty, st) else c.

Lemma tally_set_state q id st d d' r :
  unique job_id (jobs d) -> In r (jobs d) -> job_id r = id ->
  cores d' = map (set_state id st) (cores d) ->
  (tally q d' + (if q (core r) then 1 else 0) = tally q d + (if q (id, job_type r, st) then 1 else 0))%nat.
Proof.
  intros Hu Hin Hid Hc. unfold tally. rewrite Hc. unfold cores, unique in *. clear Hc d'.
  induction (jobs d) as [|x t IH]; [done|]. cbn in Hu. apply NoDup_cons in Hu as [Hni Hu].
  rewrite list_elem_of_In in Hni.
  destruct Hin as [->|Hin].
  - assert (map (set_state id st) (map core t) = map core t) as Hsame.
    { rewrite map_map. apply map_ext_in. intros y Hy. unfold set_state, core.
      destruct (String.eqb_spec (job_id y) id) as [He|]; [|done].
      destruct Hni. rewrite Hid, <- He. by apply in_map. }
    cbn [map List.filter]. rewrite Hsame. unfold set_state at 1. unfold core at 1. rewrite Hid, String.eqb_refl.
    destruct (q (id, job_type r, st)), (q (core r)); cbn; lia.
  - assert (job_id x <> id) as Hne.
    { intros He. destruct Hni. rewrite He, <- Hid. by apply in_map. }
    specialize (IH Hu Hin). cbn [map List.filter].
    assert (set_state id st (core x) = core x) as -> by (unfold set_state, core; by destruct (String.eqb_spec (job_id x) id)).
    destruct (q (core x)); cbn [length]; lia.
Qed.

Section Starting.
Context {T : TimeCrate} {E : Env} {H : Host} {J : Serde}.

Lemma update_set_state d p f id st r :
  unique job_id (jobs d) -> In r (jobs d) -> job_id r = id -> p r = true ->
  (forall x, p x = true -> job_id x = id) -> (forall x, core (f x) = (job_id x, job_type x, st)) ->
  cores (d <| jobs := update p f (jobs d) |>) = map (set_state id st) (cores d).
Proof.
  intros Hu Hin Hid Hp Hpid Hf. unfold cores, update. cbn. rewrite !map_map. apply map_ext_in.
  intros x Hx. unfold set_state. destruct (String.eqb_spec (job_id x) id) as [He|Hne].
  - rewrite (unique_inj job_id _ x r Hu Hx Hin) by congruence. unfold core at 2. cbn.
    rewrite Hp, Hf. by rewrite Hid, String.eqb_refl.
  - unfold core at 2. cbn. destruct (p x) eqn:Hx'; [by apply Hpid in Hx'|].
    by destruct (String.eqb_spec (job_id x) id).
Qed.

Lemma get_job_same id w : snd (get_queue_job_conn id w) = w.
Proof.
  unfold get_queue_job_conn, bind, query, gets, lift, ret.
  destruct (lookup_row job_id id (jobs (w_db w))) as [r|]; [|done]. by destruct (queue_job_record_from_row r).
Qed.

(** A pending job that is started is running, or failed, or left pending. *)
Lemma start_outcomes id w r :
  unique job_id (jobs (w_db w)) -> In r (jobs (w_db w)) -> job_id r = id -> job_state r = "pending"%string ->
  let '(result, w') := start_queue_job_in_state_dir_with_policy id w in
  cores (w_db w') = map (set_state id "running") (cores (w_db w)) \/
  (cores (w_db w') = map (set_state id "failed") (cores (w_db w)) /\ forall o, result <> Ok o) \/
  (cores (w_db w') = cores (w_db w) /\ forall o, result <> Ok o).
Proof.
  intros Hu Hin Hid Hst. unfold start_queue_job_in_state_dir_with_policy, open_queue_jobs_connection.
  unfold bind at 1. pose proof (check_io_frame (D := runner) host_open w) as Hf.
  destruct (check_io host_open w) as [[[]|e|] w1]; unfold db_eq, on_db in Hf; cbn [snd] in Hf;
    [|right; right; rewrite Hf; done..].
  unfold bind at 1, get_queue_job_runtime_conn, query, gets. rewrite Hf.
  assert (Hl : lookup_row job_id id (jobs (w_db w)) = Some r) by (rewrite <- Hid; by apply lookup_row_unique).
  rewrite Hl. cbn [option_map]. change (rt_state (runtime_of r)) with (job_state r). rewrite Hst, String.eqb_refl. cbn [negb].
  unfold bind at 1, attempt. pose proof (spawn_same_core (runtime_of r) w1) as Hs.
  pose proof (spawn_safe (runtime_of r) w1) as (Hu2 & _). unfold on_db in *.
  destruct (spawn_queue_job_process (runtime_of r) w1) as [[pid|e|] w2]; cbn [snd] in Hs, Hu2; rewrite Hf in Hs, Hu2;
    cbv beta iota.
  - (* started *)
    specialize (Hu2 Hu). destruct (same_core_in _ _ r Hs Hin) as (r2 & Hr2 & Hc2). injection Hc2 as Hi2 Ht2 Hs2.
    unfold bind at 1. destruct (now_rfc3339_run w2) as [t ->]. unfold bind at 1, execute. cbn [w_db w_tick fst snd].
    unfold bind at 1, emit, modify. cbn beta iota.
    set (p := fun x => has_key job_id id x && (job_state x =?s "pending")).
    assert (Hc : cores ((w_db w2) <| jobs := update p (started_row t pid) (jobs (w_db w2)) |>) = map (set_state id "running") (cores (w_db w))).
    { rewrite <- Hs. apply (update_set_state _ p _ _ _ r2); try done.
      - congruence.
      - unfold p, has_key. by rewrite Hi2, Hid, Hs2, Hst, String.eqb_refl.
      - intros x Hx. unfold p, has_key in Hx. by bool_simpl. }
    match goal with |- context [get_queue_job_conn id ?x] =>
      pose proof (get_job_same id x) as Hg; destruct (get_queue_job_conn id x) as [res w3] end.
    cbn [snd] in Hg. subst w3. left. exact Hc.
  - (* the process could not be started *)
    specialize (Hu2 Hu). destruct (same_core_in _ _ r Hs Hin) as (r2 & Hr2 & Hc2). injection Hc2 as Hi2 Ht2 Hs2.
    unfold bind at 1. unfold finish_queue_job_conn at 1. unfold bind at 1.
    destruct (now_rfc3339_run w2) as [t ->]. unfold bind at 1, execute. cbn [w_db w_tick fst snd].
    set (p := fun x => has_key job_id _ x && _).
    assert (Hp : p r2 = true) by (unfold p, has_key; cbn; by rewrite Hi2, Hs2, Hst, String.eqb_refl).
    assert (Hc : cores ((w_db w2) <| jobs := update p (finished_row "failed" t None) (jobs (w_db w2)) |>) = map (set_state id "failed") (cores (w_db w))).
    { rewrite <- Hs. apply (update_set_state _ p _ _ _ r2); try done; [congruence|].
      intros x Hx. unfold p, has_key in Hx. cbn in Hx. bool_simpl. congruence. }
    pose proof (changes_pos p _ r2 Hr2 Hp). destruct (Nat.eqb_spec (changes p (jobs (w_db w2))) 0); [lia|]. unfold bind.
    match goal with |- context [record_queue_job_completion_notification_conn ?a ?b ?c ?d ?e ?x] =>
      pose proof (record_same_core a b c d e x) as Hrc;
      destruct (record_queue_job_completion_notification_conn a b c d e x) as [[b0|e0|] w3] end;
      unfold on_db, same_core in Hrc; cbn [snd w_db] in Hrc; cbv beta iota; right; left;
      (split; [by rewrite Hrc|done]).
  - right. right. done.
Qed.
End Starting.

(** ** The loop *)
(** The capacity that bounds the running jobs of a type, or of all types. *)
Definition capacity (policy : QueueAdmissionPolicy) (o : option string) : Z :=
  match o with Some ty => Z.of_nat (max_concurrent_jobs policy ty) | None => max_running_jobs policy end.
(** No count of running jobs grows beyond its capacity. *)
Definition capped (policy : QueueAdmissionPolicy) (d d' : runner) : Prop :=
  forall o, Z.of_nat (running_count o d') <= Z.max (Z.of_nat (running_count o d)) (capacity policy o).
#[export] Instance capped_preorder policy : PreOrder (capped policy).
Proof. split; [intros d o; lia|]. intros d1 d2 d3 H1 H2 o. specialize (H1 o). specialize (H2 o). lia. Qed.
Lemma shrinks_capped policy d d' : shrinks d d' -> capped policy d d'.
Proof. intros Hs o. specialize (Hs (running_as o) (running_as_live o)). unfold running_count. lia. Qed.
Lemma shrinks_measure d d' : shrinks d d' -> (admission_measure d' <= admission_measure d)%nat.
Proof.
  intros Hs. rewrite !measure_tally. pose proof (Hs _ (running_as_live None)). pose proof (Hs _ (pending_as_live None)).
  unfold running_count. lia.
Qed.

Section Loop.
Context {T : TimeCrate} {E : Env} {H : Host} {J : Serde}.

Lemma get_job_state id w j w' :
  get_queue_job_conn id w = (Ok (Some j), w') ->
  exists r, lookup_row job_id id (jobs (w_db w)) = Some r /\ qj_state j = job_state r.
Proof.
  unfold get_queue_job_conn, bind, query, gets, lift, ret.
  destruct (lookup_row job_id id (jobs (w_db w))) as [r|]; [|done]. intros Hrun. exists r. split; [done|].
  unfold queue_job_record_from_row in Hrun. destruct (filter_nonblank _) as [raw|].
  - destruct (list_of_json raw); [|done]. by injection Hrun as <- _.
  - by injection Hrun as <- _.
Qed.

(** What starting the chosen job does to the cores. *)
Lemma candidate_outcomes c id s w r :
  unique job_id (jobs (w_db w)) -> In r (jobs (w_db w)) -> job_id r = id -> job_state r = "pending"%string ->
  let '(result, w') := start_candidate c id s w in
  cores (w_db w') = map (set_state id "running") (cores (w_db w)) \/
  cores (w_db w') = map (set_state id "failed") (cores (w_db w)) \/
  (cores (w_db w') = cores (w_db w) /\ forall x, result <> Ok x).
Proof.
  intros Hu Hin Hid Hst. unfold start_candidate, bind at 1, attempt.
  pose proof (start_outcomes id w r Hu Hin Hid Hst) as Ho. pose proof (start_safe id w) as (Hu' & _).
  destruct (start_queue_job_in_state_dir_with_policy id w) as [[o|e|] w1]; cbv beta iota in Ho |- *.
  - assert (cores (w_db w1) = map (set_state id "running") (cores (w_db w))) as Hc
      by (destruct Ho as [Hc|[[_ Hx]|[_ Hx]]]; [done|by destruct (Hx o)..]).
    destruct o as [j|]; left; exact Hc.
  - unfold bind. pose proof (get_job_same id w1) as Hg. pose proof (get_job_state id w1) as Hgs.
    destruct (get_queue_job_conn id w1) as [[[j|]|e'|] w2]; cbn [snd] in Hg; subst w2;
      [|cbn; destruct Ho as [Hc|[[Hc _]|[Hc _]]]; auto..].
    destruct (c && (qj_state j =?s "failed")) eqn:Hf; cbn; [|destruct Ho as [Hc|[[Hc _]|[Hc _]]]; auto].
    destruct Ho as [Hc|[[Hc _]|[Hc _]]]; auto. exfalso.
    apply andb_true_iff in Hf as [_ Hf]. bool_simpl.
    destruct (Hgs _ _ eq_refl) as (x & Hx & Hs). apply lookup_row_Some in Hx as [Hx Hxi].
    destruct (same_core_in (w_db w1) (w_db w) x (eq_sym Hc) Hx) as (y & Hy & Hcy). injection Hcy as Hyi _ Hys.
    rewrite (unique_inj job_id _ y r Hu Hy Hin) in Hys by congruence. congruence.
  - cbn. destruct Ho as [Hc|[[Hc _]|[Hc _]]]; auto.
Qed.

Lemma running_as_pending o r : job_state r = "pending"%string -> running_as o (core r) = false.
Proof. unfold core, running_as. by intros ->. Qed.
Lemma pending_as_pending r : job_state r = "pending"%string -> pending_as None (core r) = true.
Proof. unfold core, pending_as. by intros ->. Qed.
Lemma running_as_running o id ty :
  running_as o (id, ty, "running"%string) = match o with Some t => ty =?s t | None => true end.
Proof. done. Qed.
Lemma pending_as_other id ty st : st <> "pending"%string -> pending_as None (id, ty, st) = false.
Proof. intros Hne. unfold pending_as. by destruct (String.eqb_spec st "pending"). Qed.

(** A turn that chose a job moves the counts as planned. *)
Lemma candidate_counts c id s policy w r :
  unique job_id (jobs (w_db w)) -> admissible policy (w_db w) id r ->
  let '(result, w') := start_candidate c id s w in
  capped policy (w_db w) (w_db w') /\
  (forall x, result = Ok x -> (admission_measure (w_db w') < admission_measure (w_db w))%nat) /\
  (running_count (Some "perf"%string) (w_db w') = O \/
   job_type r = "perf"%string /\
   forall ty, ty <> "perf"%string -> running_count (Some ty) (w_db w') = running_count (Some ty) (w_db w)).
Proof.
  intros Hu Ha. pose proof (candidate_outcomes c id s w r Hu (adm_in _ _ _ _ Ha) (adm_id _ _ _ _ Ha) (adm_pending _ _ _ _ Ha)) as Ho.
  destruct (start_candidate c id s w) as [result w']. rewrite !measure_tally.
  destruct Ha as [Hin Hid Hst Hty Htc Hcap Hnp _].
  assert (Hq : forall q st, cores (w_db w') = map (set_state id st) (cores (w_db w)) ->
    (tally q (w_db w') + (if q (core r) then 1 else 0) = tally q (w_db w) + (if q (id, job_type r, st) then 1 else 0))%nat)
    by (intros q st; by apply tally_set_state).
  unfold running_count in *. destruct Ho as [Hc|[Hc|[Hc Hne]]].
  - split; [|split].
    + intros o. specialize (Hq (running_as o) _ Hc). rewrite running_as_pending, running_as_running in Hq by done.
      unfold running_count. destruct o as [ty|]; cbn [capacity]; [|lia].
      destruct (String.eqb_spec (job_type r) ty) as [He|]; [rewrite He in Htc|]; lia.
    + intros _ _. pose proof (Hq (running_as None) _ Hc) as H1. pose proof (Hq (pending_as None) _ Hc) as H2.
      rewrite running_as_pending, running_as_running in H1 by done.
      rewrite pending_as_pending, pending_as_other in H2 by done. lia.
    + destruct (String.eqb_spec (job_type r) "perf") as [Hp|Hp].
      * right. split; [done|]. intros ty Hne. specialize (Hq (running_as (Some ty)) _ Hc).
        rewrite running_as_pending, running_as_running, Hp in Hq by done.
        destruct (String.eqb_spec "perf" ty); [congruence|]. lia.
      * left. specialize (Hq (running_as (Some "perf"%string)) _ Hc).
        rewrite running_as_pending, running_as_running in Hq by done.
        destruct (String.eqb_spec (job_type r) "perf"); [done|]. lia.
  - assert (Hsh : forall q, live_test q -> (tally q (w_db w') <= tally q (w_db w))%nat).
    { intros q Hlq. specialize (Hq q _ Hc). rewrite (Hlq id (job_type r) "failed"%string eq_refl) in Hq. lia. }
    split; [by apply shrinks_capped|]. split.
    + intros _ _. pose proof (Hsh _ (running_as_live None)). pose proof (Hq (pending_as None) _ Hc) as H2.
      rewrite pending_as_pending, pending_as_other in H2 by done. lia.
    + left. pose proof (Hsh _ (running_as_live (Some "perf"%string))). lia.
  - split; [by apply shrinks_capped, same_core_shrinks|]. split; [intros x Hx; by destruct (Hne x)|].
    left. by rewrite (same_core_tally _ (w_db w) (w_db w') Hc).
Qed.

Lemma choice_displaced policy s w s' w' :
  admission_choice policy s w = (Ok (Displaced s'), w') ->
  (admission_measure (w_db w') < admission_measure (w_db w))%nat.
Proof.
  unfold admission_choice. intros Hrun. apply bind_Ok_inv in Hrun as (js & w0 & Hq & Hrun).
  injection Hq as Hjs <-. change (listing (w_db w) = js) in Hjs. symmetry in Hjs.
  destruct (negb (existsb _ js)); [done|]. destruct (Nat.ltb _ _); [by inv_ok Hrun|].
  apply bind_Ok_inv in Hrun as (waiting & w1 & H1 & Hrun).
  assert (Hw1 : w_db w1 = w_db w).
  { destruct (is_some _); [|by injection H1 as _ <-]. apply bind_Ok_inv in H1 as (? & ? & Hb & H1).
    rewrite blocked_run in Hb. injection Hb as <- <-. by injection H1 as _ <-. }
  destruct (waiting && _); [by inv_ok Hrun|].
  apply bind_Ok_inv in Hrun as (remaining & w2 & H2 & Hrun).
  assert (Hw2 : w_db w2 = w_db w).
  { destruct waiting; [|by injection H2 as _ <-]. apply cooldown_db in H2. congruence. }
  destruct remaining as [rem|]; [by inv_ok Hrun|].
  apply bind_Ok_inv in Hrun as (displaced & w3 & H3 & Hrun).
  destruct displaced.
  2: { destruct (_ <=? _); [by inv_ok Hrun|]. apply bind_Ok_inv in Hrun as ([[cid|] s1] & w4 & _ & Hrun); done. }
  injection Hrun as _ <-.
  apply displace_true in H3 as (b & Hb & w4 & code & Hsc & Hfin).
  unfold displaceable in Hb. apply min_by_in, filter_In in Hb as [Hb Hbp]. subst js.
  apply listing_in in Hb as (r & Hr & ->). cbn in Hbp. bool_simpl. rewrite Hw2 in Hsc.
  destruct (same_core_in _ _ r Hsc Hr) as (r4 & Hr4 & Hc4). injection Hc4 as Hi4 Ht4 Hs4.
  set (job := (runtime_of r) <| rt_holding_reason := Some "displacing"%string |>) in Hfin.
  pose proof (finish_shrinks job "displaced" code true eq_refl w4) as Hsh. rewrite Hfin in Hsh. unfold on_db in Hsh. cbn in Hsh.
  assert (Hlt : (tally (running_as None) (w_db w3) < tally (running_as None) (w_db w4))%nat).
  { pose proof (finish_drops (running_as None) job "displaced" code true w4 r4 eq_refl (running_as_live None) Hr4 Hi4) as Hd.
    rewrite Hfin in Hd. apply Hd; [by rewrite Hs4, H0|]. unfold core, running_as. by rewrite Hs4, H0. }
  rewrite !measure_tally. rewrite <- (same_core_tally _ _ _ Hsc). unfold running_count.
  rewrite <- (same_core_tally (running_as None) _ _ Hsc). pose proof (Hsh _ (pending_as_live None)). lia.
Qed.
End Loop.

Section LoopRuns.
Context {T : TimeCrate} {E : Env} {H : Host} {J : Serde}.
Context (policy : QueueAdmissionPolicy) (c : bool).

(** Unfolding one turn. *)
Lemma loop_turn fuel s w :
  admission_loop (S fuel) policy c s w =
  match admission_choice policy s w with
  | (Ok (Break s1), w1) => (Ok (Some s1), w1)
  | (Ok (Displaced s1), w1) => admission_loop fuel policy c s1 w1
  | (Ok (Start id s1), w1) =>
      match start_candidate c id s1 w1 with
      | (Ok s2, w2) => admission_loop fuel policy c s2 w2
      | (Err e, w2) => (Err e, w2)
      | (Panic, w2) => (Panic, w2)
      end
  | (Err e, w1) => (Err e, w1)
  | (Panic, w1) => (Panic, w1)
  end.
Proof.
  cbn [admission_loop]. unfold bind, ret.
  destruct (admission_choice policy s w) as [[[s1|s1|id s1]|e|] w1]; [done..|done|done].
Qed.

(** The job a turn starts is still there, pending and admissible, when it is started. *)
Lemma choice_start_after s w id s' w' :
  admission_choice policy s w = (Ok (Start id s'), w') -> exists r, admissible policy (w_db w') id r.
Proof.
  intros Hrun. destruct (choice_start _ _ _ _ _ _ Hrun) as [Hsc (r & Ha)]. destruct Ha as [Hin Hid Hst Hty Htc Hcap Hnp Hpa].
  destruct (same_core_in _ _ r Hsc Hin) as (r' & Hr' & Hc'). injection Hc' as Hi Ht Hs.
  exists r'. unfold running_count in *.
  split; rewrite ?Ht; unfold running_count; rewrite ?(same_core_tally _ _ _ Hsc); try done; congruence.
Qed.

Lemma loop_terminates fuel s w :
  unique job_id (jobs (w_db w)) -> (admission_measure (w_db w) < fuel)%nat ->
  admission_loop fuel policy c s w = admission_loop (S (admission_measure (w_db w))) policy c s w /\
  fst (admission_loop fuel policy c s w) <> Ok None.
Proof.
  revert s w. induction fuel as [fuel IH] using lt_wf_ind. intros s w Hu Hlt.
  destruct fuel as [|fuel]; [lia|]. rewrite !loop_turn.
  pose proof (choice_safe policy s w) as (Hu1 & _).
  destruct (admission_choice policy s w) as [[ch|e|] w1] eqn:Hch; [|done..]. specialize (Hu1 Hu). cbn in Hu1.
  assert (Hgo : forall f s2 w2, unique job_id (jobs (w_db w2)) ->
            (admission_measure (w_db w2) < admission_measure (w_db w))%nat ->
            (f <= fuel)%nat -> (admission_measure (w_db w) <= f)%nat ->
            admission_loop f policy c s2 w2 = admission_loop (S (admission_measure (w_db w2))) policy c s2 w2 /\
            fst (admission_loop f policy c s2 w2) <> Ok None).
  { intros f s2 w2 Hu2 Hm Hf Hf'. apply IH; [lia|done|lia]. }
  destruct ch as [s1|s1|id s1]; [done|..].
  - apply choice_displaced in Hch. destruct (Hgo fuel s1 w1) as [-> ?]; [done|lia..|].
    destruct (Hgo (admission_measure (w_db w)) s1 w1) as [-> ?]; [done|lia..|]. done.
  - destruct (choice_start_after _ _ _ _ _ Hch) as (r & Ha).
    pose proof (candidate_counts c id s1 policy w1 r Hu1 Ha) as Hcc. pose proof (start_candidate_safe c id s1 w1) as (Hu2 & _).
    pose proof (choice_shrinks policy s w) as Hsh. rewrite Hch in Hsh. apply shrinks_measure in Hsh. cbn [snd] in Hsh.
    destruct (start_candidate c id s1 w1) as [[s2|e|] w2]; [|done..]. specialize (Hu2 Hu1). cbn in Hu2.
    destruct Hcc as (_ & Hm & _). specialize (Hm s2 eq_refl).
    destruct (Hgo fuel s2 w2) as [-> ?]; [done|lia..|].
    destruct (Hgo (admission_measure (w_db w)) s2 w2) as [-> ?]; [done|lia..|]. done.
Qed.

Lemma loop_capped fuel s w :
  unique job_id (jobs (w_db w)) -> capped policy (w_db w) (w_db (snd (admission_loop fuel policy c s w))).
Proof.
  revert s w. induction fuel as [|fuel IH]; intros s w Hu; [cbn; reflexivity|]. rewrite loop_turn.
  pose proof (choice_safe policy s w) as (Hu1 & _). pose proof (choice_shrinks policy s w) as Hsh.
  destruct (admission_choice policy s w) as [[ch|e|] w1] eqn:Hch; specialize (Hu1 Hu); unfold on_db in Hsh;
    apply (shrinks_capped policy) in Hsh; cbn in Hu1, Hsh; [|done..].
  destruct ch as [s1|s1|id s1]; [done|etransitivity; [exact Hsh|by apply IH]|].
  destruct (choice_start_after _ _ _ _ _ Hch) as (r & Ha).
  pose proof (candidate_counts c id s1 policy w1 r Hu1 Ha) as Hcc. pose proof (start_candidate_safe c id s1 w1) as (Hu2 & _).
  destruct (start_candidate c id s1 w1) as [[s2|e|] w2]; specialize (Hu2 Hu1); cbn in Hu2; destruct Hcc as (Hc & _);
    (etransitivity; [exact Hsh|]); [|done..].
  etransitivity; [exact Hc|by apply IH].
Qed.

(** With a running performance job the next turn holds everything. *)
Lemma choice_perf_running s w :
  (0 < running_count (Some "perf"%string) (w_db w))%nat ->
  exists s1 w1, admission_choice policy s w = (Ok (Break s1), w1) /\ same_core (w_db w) (w_db w1).
Proof.
  intros Hp. unfold admission_choice. unfold bind at 1, list_queue_job_runtime_records_conn, query, gets.
  fold (listing (w_db w)). destruct (negb _); [do 2 eexists; split; [reflexivity|done]|].
  rewrite listing_count. destruct (Nat.ltb_spec 0 (running_count (Some "perf"%string) (w_db w))); [|lia].
  unfold bind at 1. pose proof (hold_same_core None "perf_running" s w) as Hh.
  unfold hold, bind, mark_pending_queue_jobs_holding_conn, execute in *. cbn -[String.eqb] in *. do 2 eexists. split; [reflexivity|exact Hh].
Qed.

(** Either no performance job was added, or it runs alone. *)
Definition perf_alone (d d' : runner) : Prop :=
  (running_count (Some "perf"%string) d' <= running_count (Some "perf"%string) d)%nat \/
  (running_count (Some "tests"%string) d' = O /\ running_count (Some "background"%string) d' = O).

Lemma loop_perf_alone now fuel s w :
  clock_stands now -> unique job_id (jobs (w_db w)) ->
  perf_alone (w_db w) (w_db (snd (admission_loop fuel policy c s w))).
Proof.
  intros Hclock. revert s w. induction fuel as [|fuel IH]; intros s w Hu; [left; cbn; lia|]. rewrite loop_turn.
  pose proof (choice_safe policy s w) as (Hu1 & _). pose proof (choice_shrinks policy s w) as Hsh.
  destruct (admission_choice policy s w) as [[ch|e|] w1] eqn:Hch; specialize (Hu1 Hu); unfold on_db in Hsh;
    specialize (Hsh _ (running_as_live (Some "perf"%string))); cbn [snd] in Hu1, Hsh; [|left; exact Hsh..].
  destruct ch as [s1|s1|id s1]; [left; exact Hsh|..].
  { destruct (IH s1 w1 Hu1) as [Hle|Hal]; [left|by right]. unfold running_count in *. lia. }
  destruct (choice_start_after _ _ _ _ _ Hch) as (r & Ha).
  pose proof (candidate_counts c id s1 policy w1 r Hu1 Ha) as Hcc. pose proof (start_candidate_safe c id s1 w1) as (Hu2 & _).
  assert (Hfin : forall x w2, start_candidate c id s1 w1 = (x, w2) ->
    (running_count (Some "perf"%string) (w_db w2) = O) \/
    (running_count (Some "tests"%string) (w_db w2) = O /\ running_count (Some "background"%string) (w_db w2) = O)).
  { intros x w2 Hx. rewrite Hx in Hcc. destruct Hcc as (_ & _ & [H0|[Hp Hsame]]); [by left|]. right.
    rewrite !Hsame by done. by apply (adm_perf_alone _ _ _ _ Ha now). }
  destruct (start_candidate c id s1 w1) as [[s2|e|] w2]; specialize (Hu2 Hu1); cbn [snd] in Hu2;
    destruct (Hfin _ _ eq_refl) as [H0|Hal]; cbn [snd];
    [|..|left; lia|by right|left; lia|by right].
  - destruct (IH s2 w2 Hu2) as [Hle|Hal]; [left; lia|by right].
  - destruct (Nat.eq_dec (running_count (Some "perf"%string) (w_db w2)) O) as [H0|Hp].
    + destruct (IH s2 w2 Hu2) as [Hle|Hal']; [left; lia|by right].
    + right. destruct fuel as [|fuel]; [done|]. rewrite loop_turn.
      destruct (choice_perf_running s2 w2) as (s3 & w3 & -> & Hsc); [lia|]. cbn.
      unfold running_count in *. by rewrite !(same_core_tally _ _ _ Hsc).
Qed.
End LoopRuns.

(** ** Order *)
Lemma min_by_least {A} (leb : A -> A -> bool) (l : list A) x :
  (forall a b, leb a b = true \/ leb b a = true) ->
  (forall a b c, leb a b = true -> leb b c = true -> leb a c = true) ->
  min_by leb l = Some x -> forall y, In y l -> leb x y = true.
Proof.
  intros Htot Htr. assert (Hrefl : forall a, leb a a = true) by (intros a; by destruct (Htot a a)).
  revert x. induction l as [|z l IH]; intros x Hm y Hy; [done|]. cbn in Hm.
  destruct (min_by leb l) as [m|] eqn:Em.
  - specialize (IH m eq_refl). destruct (leb z m) eqn:Hz; injection Hm as <-; destruct Hy as [<-|Hy]; eauto.
    destruct (Htot m z); congruence.
  - apply min_by_none in Em as ->. injection Hm as <-. destruct Hy as [<-|[]]. auto.
Qed.

(** Age of a job: the queueing instant as text, ties by id. *)
Definition job_age (r : job_row) : string * string := (job_queued_at r, job_id r).
Lemma oldest_pending_least d ty j r :
  oldest_pending_queue_job (listing d) ty = Some j -> In r (jobs d) ->
  job_state r = "pending"%string -> job_type r = ty -> text2_leb (rt_queued_at j, rt_id j) (job_age r) = true.
Proof.
  intros Hm Hr Hs Ht. change (job_age r) with (rt_queued_at (runtime_of r), rt_id (runtime_of r)).
  refine (min_by_least _ _ _ _ _ Hm (runtime_of r) _).
  - intros. apply text2_leb_total.
  - intros a b c. apply text2_leb_trans.
  - apply filter_In. split; [apply listing_in; eauto|]. cbn. by rewrite Hs, Ht, !String.eqb_refl.
Qed.

Section Order.
Context {T : TimeCrate} {E : Env} {H : Host} {J : Serde}.

(** The types before the chosen one have nothing to start, are full, or are the
    performance runs that are kept back. *)
Lemma next_admissible_order types js policy s w id s' w' :
  next_admissible_in types js policy s w = (Ok (Some id, s'), w') ->
  exists pre ty post j, types = (pre ++ ty :: post)%list /\ oldest_pending_queue_job js ty = Some j /\ rt_id j = id /\
    (running_queue_job_count js (Some ty) < max_concurrent_jobs policy ty)%nat /\
    forall t, In t pre -> t = "perf"%string \/ oldest_pending_queue_job js t = None \/
      (max_concurrent_jobs policy t <= running_queue_job_count js (Some t))%nat.
Proof.
  revert s w. induction types as [|ty types IH]; intros s w Hrun; cbn [next_admissible_in] in Hrun; [done|].
  assert (Hrest : forall s1 w1, next_admissible_in types js policy s1 w1 = (Ok (Some id, s'), w') ->
    ty = "perf"%string \/ oldest_pending_queue_job js ty = None \/
      (max_concurrent_jobs policy ty <= running_queue_job_count js (Some ty))%nat ->
    exists pre t0 post j, (ty :: types)%list = (pre ++ t0 :: post)%list /\ oldest_pending_queue_job js t0 = Some j /\ rt_id j = id /\
    (running_queue_job_count js (Some t0) < max_concurrent_jobs policy t0)%nat /\
    forall t, In t pre -> t = "perf"%string \/ oldest_pending_queue_job js t = None \/
      (max_concurrent_jobs policy t <= running_queue_job_count js (Some t))%nat).
  { intros s1 w1 H1 Hty. destruct (IH _ _ H1) as (pre & t0 & post & j & -> & Hj & Hid & Hc & Hpre).
    exists (ty :: pre), t0, post, j. repeat (split; [done|]). intros t [<-|Ht]; auto. }
  destruct (oldest_pending_queue_job js ty) as [j|] eqn:Hj; [|by eapply Hrest; auto].
  destruct (Nat.leb_spec (max_concurrent_jobs policy ty) (running_queue_job_count js (Some ty))) as [|Hcap].
  { apply bind_Ok_inv in Hrun as (? & ? & _ & Hrun). eapply Hrest; eauto. }
  apply bind_Ok_inv in Hrun as (cooling & w1 & H1 & Hrun).
  destruct (String.eqb_spec ty "perf") as [->|Hnp].
  - destruct cooling.
    { apply bind_Ok_inv in Hrun as (? & ? & _ & Hrun). apply bind_Ok_inv in Hrun as (? & ? & _ & Hrun). eapply Hrest; eauto. }
    apply bind_Ok_inv in Hrun as (blocked & w2 & H2 & Hrun). destruct blocked.
    { apply bind_Ok_inv in Hrun as (? & ? & _ & Hrun). eapply Hrest; eauto. }
    injection Hrun as <- <- <-. exists [], "perf"%string, types, j. repeat (split; [done|]). by intros t [].
  - injection H1 as <- <-. apply bind_Ok_inv in Hrun as (blocked & w2 & H2 & Hrun). injection H2 as <- <-.
    injection Hrun as <- <- <-. exists [], ty, types, j. repeat (split; [done|]). by intros t [].
Qed.
End Order.

(** ** Whole admissions *)
Section Admissions.
Context {T : TimeCrate} {E : Env} {H : Host} {J : Serde}.

Lemma choice_scan policy s w id s' w' :
  admission_choice policy s w = (Ok (Start id s'), w') ->
  exists w1, next_admissible_in QUEUE_JOB_TYPE_ORDER (listing (w_db w)) policy s w1 = (Ok (Some id, s'), w').
Proof.
  unfold admission_choice. intros Hrun. apply bind_Ok_inv in Hrun as (js & w0 & Hq & Hrun).
  injection Hq as Hjs <-. change (listing (w_db w) = js) in Hjs. rewrite Hjs.
  destruct (negb (existsb _ js)); [done|]. destruct (Nat.ltb _ _); [by inv_ok Hrun|].
  apply bind_Ok_inv in Hrun as (waiting & w1 & _ & Hrun). destruct (waiting && _); [by inv_ok Hrun|].
  apply bind_Ok_inv in Hrun as (remaining & w2 & _ & Hrun). destruct remaining; [by inv_ok Hrun|].
  apply bind_Ok_inv in Hrun as (displaced & w3 & _ & Hrun). destruct displaced; [done|].
  destruct (_ <=? _); [by inv_ok Hrun|].
  apply bind_Ok_inv in Hrun as ([cand s1] & w4 & H4 & Hrun). destruct cand as [cid|]; [|done].
  injection Hrun as <- <- <-. eauto.
Qed.

Lemma same_core_unique d d' : same_core d d' -> unique job_id (jobs d) -> unique job_id (jobs d').
Proof.
  assert (Hm : forall e, map job_id (jobs e) = map (fun c => fst (fst c)) (cores e)) by (intros e; unfold cores; by rewrite map_map).
  unfold unique. rewrite !Hm. by intros ->.
Qed.

(** The capacity reserve: services fit their cap, and the cap leaves a slot. *)
Definition reserve_ok (policy : QueueAdmissionPolicy) (d : runner) : Prop :=
  0 <= max_running_jobs policy /\
  (service_max_concurrent policy = O \/ Z.of_nat (service_max_concurrent policy) < max_running_jobs policy) /\
  (running_count (Some "service"%string) d <= service_max_concurrent policy)%nat.

Lemma ensure_reserve policy w :
  (exists e, ensure_service_capacity_reserve_before_admission (listing (w_db w)) policy w = (Err e, w)) /\
    ~ reserve_ok policy (w_db w) \/
  ensure_service_capacity_reserve_before_admission (listing (w_db w)) policy w = (Ok tt, w) /\
    reserve_ok policy (w_db w).
Proof.
  unfold ensure_service_capacity_reserve_before_admission, reserve_ok.
  destruct (Z.ltb_spec (max_running_jobs policy) 0); [left; split; [by eexists|lia]|].
  rewrite length_map. change (length _) with (running_queue_job_count (listing (w_db w)) (Some "service"%string)) at 1.
  change (length (List.filter _ (listing (w_db w)))) with
    (running_queue_job_count (listing (w_db w)) (Some "service"%string)).
  rewrite listing_count.
  destruct (Nat.leb_spec (Z.to_nat (max_running_jobs policy)) (service_max_concurrent policy)),
    (Nat.eqb_spec (service_max_concurrent policy) 0); cbn [andb negb]; try (left; split; [by eexists|lia]).
  all: destruct (Nat.leb_spec (running_count (Some "service"%string) (w_db w)) (service_max_concurrent policy)),
    (Nat.leb_spec (running_count (Some "service"%string) (w_db w) +
       (Z.to_nat (max_running_jobs policy) - service_max_concurrent policy)) (Z.to_nat (max_running_jobs policy)));
    cbn [andb]; first [left; split; [by eexists|lia] | right; split; [done|lia] | exfalso; lia].
Qed.

(** An admission is refused as a whole, or it is a run of the loop. *)
Lemma admit_runs policy c w :
  (exists e, admit_pending_queue_jobs_conn policy c w = (Err e, w)) /\ ~ reserve_ok policy (w_db w) \/
  reserve_ok policy (w_db w) /\ exists s w1,
    same_core (w_db w) (w_db w1) /\
    cores (w_db (snd (admit_pending_queue_jobs_conn policy c w))) =
      cores (w_db (snd (admission_loop (S (admission_measure (w_db w1))) policy c s w1))).
Proof.
  assert (Hstart : forall r, ensure_service_capacity_reserve_before_admission (listing (w_db w)) policy w = (r, w) ->
    admit_pending_queue_jobs_conn policy c w = bind (fun w => (r, w)) (fun _ => requeue_and_loop policy c) w).
  { intros r Hr. unfold admit_pending_queue_jobs_conn. unfold bind at 1, list_queue_job_runtime_records_conn, query, gets.
    cbn [w_db]. fold (listing (w_db w)). unfold bind at 1. rewrite Hr. by destruct r. }
  destruct (ensure_reserve policy w) as [[(e & He) Hno]|[He Hok]]; rewrite (Hstart _ He); [left; eauto|right; split; [done|]].
  change (bind _ _ w) with (requeue_and_loop policy c w). unfold requeue_and_loop.
  match goal with |- context [bind (execute ?f) ?k w] =>
    exists (AdmissionSummary 0 (snd (f (w_db w))) 0 0 None), (World (fst (f (w_db w))) (w_tick w)) end.
  split; [apply update_same_core; by intros|].
  unfold bind at 1, execute. cbn [fst snd w_db]. unfold bind at 1, query, gets. cbn [w_db]. unfold bind at 1.
  match goal with |- context [admission_loop ?f ?p ?cc ?ss ?ww] =>
    destruct (admission_loop f p cc ss ww) as [[[s2|]|e|] w2] end; [|done..].
  unfold bind at 1. by destruct (retry_after_seconds s2).
Qed.
End Admissions.

(** ** Claims *)
Section Claims.
Context {T : TimeCrate} {E : Env} {H : Host} {J : Serde}.

(** C10: The admission loop ends: every turn that goes on starts a pending job, fails one
    or displaces a running one, so with job ids unique any fuel above twice the pending
    plus the running jobs gives the same run, and that run is not cut short. *)
Theorem admission_terminates policy c s w fuel :
  unique job_id (jobs (w_db w)) -> (admission_measure (w_db w) < fuel)%nat ->
  fst (admission_loop fuel policy c s w) <> Ok None /\
  forall fuel', (admission_measure (w_db w) < fuel')%nat ->
    admission_loop fuel' policy c s w = admission_loop fuel policy c s w.
Proof.
  intros Hu Hlt. destruct (loop_terminates policy c fuel s w Hu Hlt) as [Heq Hne]. split; [done|].
  intros fuel' Hlt'. rewrite Heq. by destruct (loop_terminates policy c fuel' s w Hu Hlt').
Qed.

(** C7: However an admission ends (summary, error, panic), the number of running jobs,
    in all and of each type, exceeds neither what it was before nor the configured
    limit, whichever is larger: an admission never starts a job beyond its limits. *)
Theorem admission_within_capacity policy c w o :
  unique job_id (jobs (w_db w)) ->
  Z.of_nat (running_count o (w_db (snd (admit_pending_queue_jobs_conn policy c w))))
    <= Z.max (Z.of_nat (running_count o (w_db w)))
             (match o with Some ty => Z.of_nat (max_concurrent_jobs policy ty) | None => max_running_jobs policy end).
Proof.
  intros Hu. destruct (admit_runs policy c w) as [[(e & ->) _]|(_ & s & w1 & Hsc & Hc)]; [cbn; lia|].
  pose proof (loop_capped policy c (S (admission_measure (w_db w1))) s w1) as Hl.
  specialize (Hl (same_core_unique _ _ Hsc Hu) o). unfold running_count, tally in *.
  rewrite Hc. rewrite Hsc in Hl. exact Hl.
Qed.

(** C30: A performance job runs alone: when the clock does not move during an admission,
    either it added no running performance job, or no test and no background job runs
    when it ends. *)
Theorem perf_runs_alone policy c w now :
  (forall k, env_now k = now) -> unique job_id (jobs (w_db w)) ->
  let d' := w_db (snd (admit_pending_queue_jobs_conn policy c w)) in
  (running_count (Some "perf"%string) (w_db w) < running_count (Some "perf"%string) d')%nat ->
  running_count (Some "tests"%string) d' = O /\ running_count (Some "background"%string) d' = O.
Proof.
  intros Hclock Hu. cbv zeta. destruct (admit_runs policy c w) as [[(e & ->) _]|(_ & s & w1 & Hsc & Hc)]; [cbn; lia|].
  pose proof (loop_perf_alone policy c now (S (admission_measure (w_db w1))) s w1 Hclock) as Hl.
  specialize (Hl (same_core_unique _ _ Hsc Hu)). unfold perf_alone, running_count, tally in *.
  rewrite Hc. rewrite Hsc in Hl. destruct Hl; [lia|done].
Qed.

(** The job a turn of the loop chooses is the oldest pending job of its type, by
    queueing time and then by id, there is room for it in its type and in all, and every
    pending job of a type earlier in the order is a performance job kept back or has its
    type full. *)
Theorem admission_order policy s w id s' w' :
  admission_choice policy s w = (Ok (Start id s'), w') ->
  exists r pre post, In r (jobs (w_db w)) /\ job_id r = id /\ job_state r = "pending"%string /\
    QUEUE_JOB_TYPE_ORDER = (pre ++ job_type r :: post)%list /\
    (running_count (Some (job_type r)) (w_db w) < max_concurrent_jobs policy (job_type r))%nat /\
    Z.of_nat (running_count None (w_db w)) < max_running_jobs policy /\
    forall r2, In r2 (jobs (w_db w)) -> job_state r2 = "pending"%string ->
      (job_type r2 = job_type r -> text2_leb (job_age r) (job_age r2) = true) /\
      (In (job_type r2) pre -> job_type r2 = "perf"%string \/
         (max_concurrent_jobs policy (job_type r2) <= running_count (Some (job_type r2)) (w_db w))%nat).
Proof.
  intros Hch. destruct (choice_scan _ _ _ _ _ _ Hch) as (w1 & Hn).
  apply next_admissible_order in Hn as Ho. destruct Ho as (pre & ty & post & j & Hsplit & Hj & Hid & Hcap & Hpre).
  apply oldest_pending_in in Hj as Hj'. destruct Hj' as (r & Hr & -> & Hst & Hty). subst ty.
  destruct (choice_start _ _ _ _ _ _ Hch) as [_ (r' & Ha)]. pose proof (adm_cap _ _ _ _ Ha) as Hall. rewrite listing_count in Hcap.
  exists r, pre, post. repeat (split; [done|]). intros r2 Hr2 Hp2. split.
  - intros Ht. exact (oldest_pending_least _ _ _ r2 Hj Hr2 Hp2 Ht).
  - intros Hin. destruct (Hpre _ Hin) as [|[Hnone|Hcap2]]; [by left| |right; by rewrite <- listing_count].
    exfalso. unfold oldest_pending_queue_job in Hnone. apply min_by_none in Hnone.
    assert (In (runtime_of r2) []) as []. rewrite <- Hnone. apply filter_In. split; [apply listing_in; eauto|].
    cbn. by rewrite Hp2, !String.eqb_refl.
Qed.

(** C40: An admission that finds more running services than their cap, a cap that leaves no
    slot for other jobs, or a negative limit, fails without touching anything; otherwise
    the services running afterwards still fit the cap, however the admission ends. *)
Theorem service_reserve_kept policy c w :
  unique job_id (jobs (w_db w)) ->
  (exists e, admit_pending_queue_jobs_conn policy c w = (Err e, w)) /\ ~ reserve_ok policy (w_db w) \/
  reserve_ok policy (w_db w) /\ reserve_ok policy (w_db (snd (admit_pending_queue_jobs_conn policy c w))).
Proof.
  intros Hu. destruct (admit_runs policy c w) as [Hno|(Hok & s & w1 & Hsc & Hc)]; [by left|right; split; [done|]].
  pose proof (loop_capped policy c (S (admission_measure (w_db w1))) s w1) as Hl.
  specialize (Hl (same_core_unique _ _ Hsc Hu) (Some "service"%string)).
  unfold reserve_ok, running_count, tally in *. rewrite Hc. rewrite Hsc in Hl.
  destruct Hok as (? & ? & ?). repeat split; [done..|]. change (capacity policy (Some "service"%string)) with
    (Z.of_nat (service_max_concurrent policy)) in Hl. lia.
Qed.
End Claims.

(** ** Concrete admissions *)
(** A clock that stands, and one that moves by half a second after its first reading. *)
Definition still_env : Env := {|
  env_now := fun _ => 1700000000 * NANOS;
  env_process_id := 77;
  env_random := fun k _ => N.of_nat k |}.
Definition jump_env : Env := {|
  env_now := fun k => 200 * NANOS + (match k with O => 0 | S _ => NANOS / 2 end);
  env_process_id := 77;
  env_random := fun k _ => N.of_nat k |}.

Definition demo_queue_job (id ty state queued_at : string) (finished_at : option string) (pid : option Z) : job_row :=
  demo_job <| job_id := id |> <| job_type := ty |> <| job_state := state |> <| job_queued_at := queued_at |>
    <| job_finished_at := finished_at |> <| job_pid := pid |> <| job_process_group_id := pid |>.
(** A performance job waits; a background job and a service run. *)
Definition demo_mixed : world runner :=
  World (Runner [demo_queue_job "b1" "background" "running" "1" None (Some 41);
                 demo_queue_job "p1" "perf" "pending" "3" None None;
                 demo_queue_job "s1" "service" "running" "1" None (Some 42);
                 demo_queue_job "t1" "tests" "pending" "2" None None;
                 demo_queue_job "t2" "tests" "pending" "1" None None] empty_mqdb []) O.
Definition demo_policy : QueueAdmissionPolicy := default_policy <| service_max_concurrent := 1%nat |> <| max_running_jobs := 3 |>.
Definition demo_tests_policy : QueueAdmissionPolicy := demo_policy <| perf_max_concurrent := O |>.
Definition demo_after_perf : runner :=
  w_db (snd (@admit_pending_queue_jobs_conn demo_time still_env demo_host demo_serde demo_policy true demo_mixed)).
Lemma demo_mixed_unique : unique job_id (jobs (w_db demo_mixed)).
Proof. apply (bool_decide_unpack _). vm_compute. exact I. Qed.

Lemma admission_terminates_witness :
  fst (admission_loop 9 demo_policy true (AdmissionSummary 0 0 0 0 None) demo_mixed) <> Ok None /\
  forall fuel', (8 < fuel')%nat ->
    admission_loop fuel' demo_policy true (AdmissionSummary 0 0 0 0 None) demo_mixed =
    admission_loop 9 demo_policy true (AdmissionSummary 0 0 0 0 None) demo_mixed.
Proof.
  apply (admission_terminates demo_policy true (AdmissionSummary 0 0 0 0 None) demo_mixed 9).
  - exact demo_mixed_unique.
  - vm_compute. lia.
Defined.

Lemma admission_within_capacity_witness :
  Z.of_nat (running_count None (w_db (snd (admit_pending_queue_jobs_conn demo_policy true demo_mixed)))) <= Z.max 2 3.
Proof. exact (admission_within_capacity demo_policy true demo_mixed None demo_mixed_unique). Defined.

Lemma perf_runs_alone_witness :
  running_count (Some "tests"%string) demo_after_perf = O /\ running_count (Some "background"%string) demo_after_perf = O.
Proof.
  apply (@perf_runs_alone demo_time still_env demo_host demo_serde demo_policy true demo_mixed (1700000000 * NANOS)).
  - reflexivity.
  - exact demo_mixed_unique.
  - vm_compute. lia.
Defined.

Lemma admission_order_witness :
  exists r pre post, In r (jobs (w_db demo_mixed)) /\ job_id r = "t2"%string /\ job_state r = "pending"%string /\
    QUEUE_JOB_TYPE_ORDER = (pre ++ job_type r :: post)%list /\
    (running_count (Some (job_type r)) (w_db demo_mixed) < max_concurrent_jobs demo_tests_policy (job_type r))%nat /\
    Z.of_nat (running_count None (w_db demo_mixed)) < max_running_jobs demo_tests_policy /\
    forall r2, In r2 (jobs (w_db demo_mixed)) -> job_state r2 = "pending"%string ->
      (job_type r2 = job_type r -> text2_leb (job_age r) (job_age r2) = true) /\
      (In (job_type r2) pre -> job_type r2 = "perf"%string \/
         (max_concurrent_jobs demo_tests_policy (job_type r2)
            <= running_count (Some (job_type r2)) (w_db demo_mixed))%nat).
Proof.
  eapply (admission_order demo_tests_policy (AdmissionSummary 0 0 0 0 None) demo_mixed "t2").
  vm_compute. reflexivity.
Defined.

Lemma service_reserve_kept_witness :
  (exists e, admit_pending_queue_jobs_conn default_policy true demo_mixed = (Err e, demo_mixed)) /\
    ~ reserve_ok default_policy (w_db demo_mixed) \/
  reserve_ok default_policy (w_db demo_mixed) /\
    reserve_ok default_policy (w_db (snd (admit_pending_queue_jobs_conn default_policy true demo_mixed))).
Proof. exact (service_reserve_kept default_policy true demo_mixed demo_mixed_unique). Defined.

(** A performance run and a test run that ended in the same second of the clock, a
    performance job waiting, and a test running. *)
Definition demo_race : world runner :=
  World (Runner [demo_queue_job "p0" "perf" "succeeded" "1" (Some "100200000000"%string) None;
                 demo_queue_job "p1" "perf" "pending" "5" None None;
                 demo_queue_job "t0" "tests" "succeeded" "2" (Some "100900000000"%string) None;
                 demo_queue_job "t1" "tests" "running" "3" None (Some 42)] empty_mqdb []) O.
Definition demo_after_race : runner :=
  w_db (snd (@admit_pending_queue_jobs_conn demo_time jump_env demo_host demo_serde default_policy true demo_race)).

(** The quiet window is judged with a fresh clock reading at each check of a turn, in
    whole seconds: when the clock passes a half second between two checks, the last
    finished job can change from a performance run to a test run, and a performance job
    starts beside a running test. *)
Theorem perf_started_beside_tests :
  running_count (Some "perf"%string) (w_db demo_race) = O /\
  running_count (Some "perf"%string) demo_after_race = 1%nat /\
  running_count (Some "tests"%string) demo_after_race = 1%nat.
Proof. vm_compute. done. Qed.
