(* ===== verification/QueueRecovery.v ===== *)
(** * Cancellation, recovery and the watching threads of queue jobs

    The operations of queue.rs that end jobs: [cancel], the recovery after a restart,
    and one turn of each of the two loops that run in threads, the monitor of a started
    child and the poll of a recovered job.  The threads open the database anew in every
    turn, so an execution is a sequence of operations and turns in any order. *)
From Stdlib Require Import ZArith Lia Bool String Ascii List Sorted.
From stdpp Require Import base tactics list strings relations.
From S2P Require Import Prelude Text Table Clock Demo Schema MessageQueue QueueJobs DemoHost QueueJobsProps.
From S2P Require Import QueueAdmission QueueAdmissionProps.

(** ** Data *)
Inductive RecoveredQueueJobAction : Type :=
| Polling
| Finished (state : string).

Record QueueRecoverySummary : Type := RecoverySummary {
  recovered_running : nat;
  retried_completion_notifications : nat;
  started_pending : nat;
  requeued_pending : nat;
  held_pending : nat;
  polling_running : nat;
  finished_succeeded : nat;
  finished_failed : nat;
  finished_timed_out : nat;
  finished_cancelled : nat;
  finished_displaced : nat }.
#[export] Instance eta_recovery : Eta QueueRecoverySummary := fun s =>
  RecoverySummary (recovered_running s) (retried_completion_notifications s) (started_pending s)
    (requeued_pending s) (held_pending s) (polling_running s) (finished_succeeded s) (finished_failed s)
    (finished_timed_out s) (finished_cancelled s) (finished_displaced s).
Definition no_recovery : QueueRecoverySummary := RecoverySummary 0 0 0 0 0 0 0 0 0 0 0.

(** What [child.try_wait()] answers: an error, or the exit status once there is one; the
    status has a code unless a signal ended the child. *)
Inductive wait_answer : Type :=
| WaitError
| StillRunning
| Exited (code : option Z).

Definition forced_terminal_state_for_holding_reason (holding_reason : option string) : option string :=
  match holding_reason with
  | Some reason =>
      if reason =?s "cancelling" then Some "cancelled"%string
      else if reason =?s "displacing" then Some "displaced"%string else None
  | None => None
  end.
(** [if exit_code == Some(0) { "succeeded" } else { "failed" }]. *)
Definition state_of_exit (exit_code : option Z) : string :=
  match exit_code with Some 0 => "succeeded" | _ => "failed" end%string.

Section Operations.
Context `{T : TimeCrate} `{E : Env} `{H : Host} `{J : Serde}.

Definition queue_job_timed_out_at (job : QueueJobRuntimeRecord) (now_utc : Z) : bool :=
  if rt_timeout_seconds job <=? 0 then false
  else
    match rt_started_at job with
    | None => false
    | Some started_at =>
        match queue_elapsed_since started_at now_utc with
        | None => false
        | Some elapsed_seconds => rt_timeout_seconds job <=? elapsed_seconds
        end
    end.
Definition queue_job_timed_out (job : QueueJobRuntimeRecord) : RQ bool :=
  now <- now_utc ;; ret (queue_job_timed_out_at job now).
Definition queue_job_exit_code_path_exists (job : QueueJobRuntimeRecord) : RQ bool :=
  match rt_exit_code_path job with
  | Some path => ask (fun k => host_path_exists k path)
  | None => ret false
  end.

(** ** Cancellation *)
Definition cancel_queue_job_in_state_dir (id : string) (policy : QueueAdmissionPolicy)
    (admit_after_cancel : bool) : RQ (option QueueJobRecord) :=
  open_queue_jobs_connection ;;;
  found <- get_queue_job_runtime_conn id ;;
  match found with
  | None => ret None
  | Some job =>
      if is_terminal_queue_state (rt_state job) then get_queue_job_conn id
      else
        (if rt_state job =?s "running" then
           mark_queue_job_cancelling_conn id ;;; terminate_job job
         else ret tt) ;;;
        exit_code <- read_exit_code (rt_exit_code_path job) ;;
        finish_queue_job_conn job "cancelled" exit_code true ;;;
        (if admit_after_cancel then discard (admit_pending_queue_jobs_conn policy true) else ret tt) ;;;
        get_queue_job_conn id
  end.

(** ** Recovery *)
(** The three ends a running job is first tested for, with their signals: a forced state,
    an exit code on disk, the timeout.  [None]: none of them. *)
Definition observed_end (job : QueueJobRuntimeRecord) : RQ (option (string * option Z)) :=
  match forced_terminal_state_for_holding_reason (rt_holding_reason job) with
  | Some final_state =>
      terminate_job job ;;;
      exit_code <- read_exit_code (rt_exit_code_path job) ;;
      ret (Some (final_state, exit_code))
  | None =>
      written <- queue_job_exit_code_path_exists job ;;
      if written : bool then
        exit_code <- read_exit_code (rt_exit_code_path job) ;;
        ret (Some (state_of_exit exit_code, exit_code))
      else
        late <- queue_job_timed_out job ;;
        if late : bool then
          terminate_job job ;;;
          exit_code <- read_exit_code (rt_exit_code_path job) ;;
          ret (Some ("timed_out"%string, exit_code))
        else ret None
  end.

Definition recover_running_queue_job_conn (job : QueueJobRuntimeRecord) : RQ RecoveredQueueJobAction :=
  ended <- observed_end job ;;
  match ended with
  | Some (state, exit_code) =>
      finish_queue_job_conn job state exit_code true ;;; ret (Finished state)
  | None =>
      match rt_pid job with
      | None => finish_queue_job_conn job "failed" None true ;;; ret (Finished "failed")
      | Some pid =>
          alive <- process_exists pid ;;
          if alive : bool then emit (PollStarted (rt_id job) pid) ;;; ret Polling
          else finish_queue_job_conn job "failed" None true ;;; ret (Finished "failed")
      end
  end.

Definition count_action (action : RecoveredQueueJobAction) (s : QueueRecoverySummary) : QueueRecoverySummary :=
  match action with
  | Polling => s <| polling_running := S (polling_running s) |>
  | Finished state =>
      if state =?s "succeeded" then s <| finished_succeeded := S (finished_succeeded s) |>
      else if state =?s "failed" then s <| finished_failed := S (finished_failed s) |>
      else if state =?s "timed_out" then s <| finished_timed_out := S (finished_timed_out s) |>
      else if state =?s "cancelled" then s <| finished_cancelled := S (finished_cancelled s) |>
      else if state =?s "displaced" then s <| finished_displaced := S (finished_displaced s) |>
      else s
  end.
Definition recover_one (summary : QueueRecoverySummary) (id : string) : RQ QueueRecoverySummary :=
  found <- get_queue_job_runtime_conn id ;;
  match found with
  | None => ret summary
  | Some job =>
      if rt_state job =?s "running" then
        let summary := summary <| recovered_running := S (recovered_running summary) |> in
        action <- recover_running_queue_job_conn job ;;
        ret (count_action action summary)
      else ret summary
  end.
(** The recovery of the jobs that were running. *)
Definition recover_running_jobs : RQ QueueRecoverySummary :=
  job_ids <- query (fun d => map job_id (order_by job_order (select (is_state "running") (jobs d)))) ;;
  fold_each job_ids no_recovery recover_one.

(** [db_exists]: whether [queue_runner.db] exists. *)
Definition recover_queue_jobs_in_state_dir_with_policy (db_exists : bool) (policy : QueueAdmissionPolicy)
    : RQ QueueRecoverySummary :=
  if negb db_exists then ret no_recovery
  else
    open_queue_jobs_connection ;;;
    summary <- recover_running_jobs ;;
    admission <- admit_pending_queue_jobs_conn policy true ;;
    let summary := summary <| started_pending := (started_pending summary + started admission)%nat |>
      <| requeued_pending := (requeued_pending summary + requeued admission)%nat |>
      <| held_pending := (held_pending summary + held admission)%nat |>
      <| finished_failed := (finished_failed summary + failed_start admission)%nat |> in
    retried <- retry_unnotified_queue_job_completions_conn true ;;
    ret (summary <| retried_completion_notifications := (retried_completion_notifications summary + retried)%nat |>).
Definition recover_queue_jobs_in_state_dir (db_exists : bool) : RQ QueueRecoverySummary :=
  recover_queue_jobs_in_state_dir_with_policy db_exists default_policy.

Definition retry_unnotified_queue_job_completions_in_state_dir (db_exists : bool) : RQ nat :=
  if negb db_exists then ret O
  else open_queue_jobs_connection ;;; retry_unnotified_queue_job_completions_conn true.

(** ** The threads *)
Definition finish_queue_job_in_state_dir_if_running (id state : string) (exit_code : option Z)
    (policy : QueueAdmissionPolicy) : RQ unit :=
  open_queue_jobs_connection ;;;
  found <- get_queue_job_runtime_conn id ;;
  match found with
  | None => ret tt
  | Some job =>
      if negb (rt_state job =?s "running") then ret tt
      else
        let final_state := unwrap_or state (forced_terminal_state_for_holding_reason (rt_holding_reason job)) in
        finish_queue_job_conn job final_state exit_code true ;;;
        discard (admit_pending_queue_jobs_conn policy true)
  end.
Definition queue_job_is_cancelled_in_state_dir (id : string) : RQ bool :=
  opened <- attempt open_queue_jobs_connection ;;
  match opened with
  | inr _ => ret false
  | inl _ =>
      found <- get_queue_job_runtime_conn id ;;
      ret match found with Some job => rt_state job =?s "cancelled" | None => false end
  end.
Definition read_queue_job_exit_code_from_state_dir (id : string) : RQ (option Z) :=
  opened <- attempt open_queue_jobs_connection ;;
  match opened with
  | inr _ => ret None
  | inl _ =>
      found <- get_queue_job_runtime_conn id ;;
      match bind_opt found rt_exit_code_path with
      | None => ret None
      | Some path => read_exit_code (Some path)
      end
  end.
(** Signals the group, waits for it to go, and forces it once the grace period is over. *)
Definition terminate_child_process_group_with_grace (pgid : Z) : RQ unit :=
  terminate_process_group pgid false ;;;
  outlived <- process_group_exists pgid ;;
  if outlived : bool then terminate_process_group pgid true else ret tt.

(** One turn of the monitor of a child: what [try_wait] answered and the whole seconds
    since the monitor started; [true]: the monitor returns. *)
Definition monitor_turn (id : string) (pgid timeout_seconds : Z) (policy : QueueAdmissionPolicy)
    (wait : wait_answer) (elapsed : Z) : RQ bool :=
  match wait with
  | WaitError =>
      terminate_process_group_with_grace pgid ;;;
      discard (finish_queue_job_in_state_dir_if_running id "failed" None policy) ;;;
      ret true
  | _ =>
      cancelled <- queue_job_is_cancelled_in_state_dir id ;;
      if cancelled : bool then ret true
      else
        gone <- match wait with
                | Exited _ => exists_ <- process_group_exists pgid ;; ret (negb exists_)
                | _ => ret false
                end ;;
        match wait, gone with
        | Exited exit_code, true =>
            discard (finish_queue_job_in_state_dir_if_running id (state_of_exit exit_code) exit_code policy) ;;;
            ret true
        | _, _ =>
            if (0 <? timeout_seconds) && (timeout_seconds <=? elapsed) then
              terminate_child_process_group_with_grace pgid ;;;
              exit_code <- read_queue_job_exit_code_from_state_dir id ;;
              discard (finish_queue_job_in_state_dir_if_running id "timed_out" exit_code policy) ;;;
              ret true
            else ret false
        end
  end.

(** One turn of the poll of a recovered job. *)
Definition poll_turn (id : string) (pid : Z) (policy : QueueAdmissionPolicy) : RQ bool :=
  opened <- attempt open_queue_jobs_connection ;;
  match opened with
  | inr _ => ret true
  | inl _ =>
      found <- get_queue_job_runtime_conn id ;;
      match found with
      | None => ret true
      | Some job =>
          if negb (rt_state job =?s "running") then ret true
          else
            ended <- observed_end job ;;
            let finish state exit_code :=
              discard (finish_queue_job_conn job state exit_code true) ;;;
              discard (admit_pending_queue_jobs_conn policy true) ;;;
              ret true in
            match ended with
            | Some (state, exit_code) => finish state exit_code
            | None =>
                alive <- process_exists pid ;;
                if alive : bool then ret false else finish "failed"%string None
            end
      end
  end.
End Operations.

(** ** Keys and terminal jobs *)
Section Safety.
Context {T : TimeCrate} {E : Env} {H : Host} {J : Serde}.

Lemma cancel_safe id policy a : steps (on_db runner_safe) (cancel_queue_job_in_state_dir id policy a).
Proof.
  unfold cancel_queue_job_in_state_dir, open_queue_jobs_connection, get_queue_job_runtime_conn, get_queue_job_conn. db_steps.
Qed.
Lemma observed_end_safe job : steps (on_db runner_safe) (observed_end job).
Proof. unfold observed_end, queue_job_exit_code_path_exists, queue_job_timed_out. db_steps. Qed.
#[local] Hint Resolve observed_end_safe : steps.
Lemma recover_running_safe job : steps (on_db runner_safe) (recover_running_queue_job_conn job).
Proof. unfold recover_running_queue_job_conn. db_steps. Qed.
#[local] Hint Resolve recover_running_safe : steps.
Lemma recover_one_safe s id : steps (on_db runner_safe) (recover_one s id).
Proof. unfold recover_one, get_queue_job_runtime_conn. db_steps. Qed.
#[local] Hint Resolve recover_one_safe : steps.
Lemma recover_safe b policy : steps (on_db runner_safe) (recover_queue_jobs_in_state_dir_with_policy b policy).
Proof.
  unfold recover_queue_jobs_in_state_dir_with_policy, open_queue_jobs_connection, recover_running_jobs. db_steps.
Qed.
Lemma retry_op_safe b : steps (on_db runner_safe) (retry_unnotified_queue_job_completions_in_state_dir b).
Proof. unfold retry_unnotified_queue_job_completions_in_state_dir, open_queue_jobs_connection. db_steps. Qed.
Lemma finish_if_running_safe id state code policy :
  steps (on_db runner_safe) (finish_queue_job_in_state_dir_if_running id state code policy).
Proof. unfold finish_queue_job_in_state_dir_if_running, open_queue_jobs_connection, get_queue_job_runtime_conn. db_steps. Qed.
#[local] Hint Resolve finish_if_running_safe : steps.
Lemma is_cancelled_safe id : steps (on_db runner_safe) (queue_job_is_cancelled_in_state_dir id).
Proof. unfold queue_job_is_cancelled_in_state_dir, open_queue_jobs_connection, get_queue_job_runtime_conn. db_steps. Qed.
Lemma read_state_dir_safe id : steps (on_db runner_safe) (read_queue_job_exit_code_from_state_dir id).
Proof. unfold read_queue_job_exit_code_from_state_dir, open_queue_jobs_connection, get_queue_job_runtime_conn. db_steps. Qed.
Lemma terminate_group_safe pgid force : steps (on_db runner_safe) (terminate_process_group pgid force).
Proof. unfold terminate_process_group. db_steps. Qed.
#[local] Hint Resolve is_cancelled_safe read_state_dir_safe terminate_group_safe : steps.
Lemma monitor_safe id pgid timeout policy wait elapsed :
  steps (on_db runner_safe) (monitor_turn id pgid timeout policy wait elapsed).
Proof.
  unfold monitor_turn, terminate_child_process_group_with_grace, terminate_process_group_with_grace. db_steps.
Qed.
Lemma poll_safe id pid policy : steps (on_db runner_safe) (poll_turn id pid policy).
Proof. unfold poll_turn, open_queue_jobs_connection, get_queue_job_runtime_conn. db_steps. Qed.
End Safety.
