(* ===== verification/QueueRecoveryProps.v ===== *)
(** * Properties of cancellation, recovery and the watching threads

    Executions of the runner as sequences of operations and thread turns; terminal jobs
    are frozen in all of them.  Cancelling ends the job as cancelled, recovery ends or
    polls every running job, and a forced end wins over what a thread observed. *)
From Stdlib Require Import ZArith Lia Bool String Ascii List Sorted.
From stdpp Require Import base tactics list strings relations.
From S2P Require Import Prelude Text Table Clock Demo Schema MessageQueue MessageQueueProps Store QueueJobs DemoHost.
From S2P Require Import QueueJobsProps QueueAdmission QueueAdmissionProps QueueRecovery.

(** ** Executions *)
Section Executions.
Context {T : TimeCrate} {E : Env} {H : Host} {J : Serde}.

(** An operation of the runner, a turn of one of its threads, or an operation another
    part of the server runs on the message database. *)
Inductive runner_step : world runner -> world runner -> Prop :=
| step_create dir request w : runner_step w (snd (create_queue_job_in_state_dir dir request w))
| step_start id w : runner_step w (snd (start_queue_job_in_state_dir_with_policy id w))
| step_admit policy c w : runner_step w (snd (admit_queue_jobs_in_state_dir_with_policy policy c w))
| step_cancel id policy a w : runner_step w (snd (cancel_queue_job_in_state_dir id policy a w))
| step_recover b policy w : runner_step w (snd (recover_queue_jobs_in_state_dir_with_policy b policy w))
| step_retry b w : runner_step w (snd (retry_unnotified_queue_job_completions_in_state_dir b w))
| step_monitor id pgid timeout policy wait elapsed w :
    runner_step w (snd (monitor_turn id pgid timeout policy wait elapsed w))
| step_poll id pid policy w : runner_step w (snd (poll_turn id pid policy w))
| step_messages w m :
    store_step (World (mq (w_db w)) (w_tick w)) m -> runner_step w (World ((w_db w) <| mq := w_db m |>) (w_tick m))
| step_time w n : runner_step w (World (w_db w) (w_tick w + n)).

Lemma admit_op_safe policy c : steps (on_db runner_safe) (admit_queue_jobs_in_state_dir_with_policy policy c).
Proof. unfold admit_queue_jobs_in_state_dir_with_policy, open_queue_jobs_connection. db_steps. Qed.
Lemma store_in_runner w m :
  store_step (World (mq (w_db w)) (w_tick w)) m -> on_db runner_safe w (World ((w_db w) <| mq := w_db m |>) (w_tick m)).
Proof.
  intros [Hs _]%store_step_safe. split; [done|]. split; [|done]. intros r Hr _. exists r. split; [done|by left].
Qed.
Lemma runner_step_safe w w' : runner_step w w' -> on_db runner_safe w w'.
Proof.
  destruct 1; [apply create_job_safe|apply start_safe|apply admit_op_safe|apply cancel_safe|apply recover_safe
    |apply retry_op_safe|apply monitor_safe|apply poll_safe|by apply store_in_runner|unfold on_db; cbn; reflexivity].
Qed.
Lemma execution_safe w w' : rtc runner_step w w' -> on_db runner_safe w w'.
Proof.
  induction 1 as [w|w1 w2 w3 Hs _ IH]; [reflexivity|]. etransitivity; [by apply runner_step_safe|done].
Qed.

(** C1: In every execution of the queue runner (operations, thread turns and message store
    operations in any order, with any answers of the host, and whether they succeed or
    fail), a job in a terminal state keeps its row: the only change it can still see is
    its completion stamp, set once from empty; job ids stay unique; and the message
    store's invariant holds. *)
Theorem terminal_jobs_frozen w w' r :
  rtc runner_step w w' -> unique job_id (jobs (w_db w)) -> mq_wf (mq (w_db w)) ->
  In r (jobs (w_db w)) -> is_terminal_queue_state (job_state r) = true ->
  unique job_id (jobs (w_db w')) /\ mq_wf (mq (w_db w')) /\
  exists r', lookup_row job_id (job_id r) (jobs (w_db w')) = Some r' /\
    (r' = r \/ (job_completion_notified_at r = None /\
                exists t, r' = r <| job_completion_notified_at := Some t |>)).
Proof.
  intros Hx Hu Hwf Hr Ht. destruct (execution_safe _ _ Hx) as (Hu' & Hs & Hm & _).
  split; [auto|]. split; [auto|]. destruct (Hs r Hr Ht) as (r' & Hr' & Hset). exists r'. split; [|done].
  destruct (settled_state _ _ Hset) as [_ <-]. apply lookup_row_unique; auto.
Qed.
End Executions.

(** ** What the host was asked stays on record *)
Definition host_grows (d d' : runner) : Prop := forall e, In e (host d) -> In e (host d').
#[export] Instance host_grows_preorder : PreOrder host_grows.
Proof. split; [by intros d e|]. intros d1 d2 d3 H1 H2 e He. auto. Qed.

Section HostGrows.
Context {T : TimeCrate} {E : Env} {H : Host} {J : Serde}.

Lemma emit_host e : steps (on_db host_grows) (emit e).
Proof. intros w x Hx. cbn. by right. Qed.
Lemma on_mq_host {A} (m : MQ A) : steps (on_db host_grows) (on_mq m).
Proof. intros w. unfold on_mq, on_db. destruct (m _) as [r w']. cbn. by intros e. Qed.
#[local] Hint Resolve emit_host on_mq_host : steps.
Lemma record_host job state code t q :
  steps (on_db host_grows) (record_queue_job_completion_notification_conn job state code t q).
Proof.
  unfold record_queue_job_completion_notification_conn, queue_job_completion_notified_at. db_steps. by intros e.
Qed.
#[local] Hint Resolve record_host : steps.
Lemma finish_host job state code q : steps (on_db host_grows) (finish_queue_job_conn job state code q).
Proof. unfold finish_queue_job_conn. db_steps. by intros e. Qed.
Lemma mark_running_host id reason : steps (on_db host_grows) (mark_running id reason).
Proof. unfold mark_running. db_steps. by intros e. Qed.
Lemma hold_host id reason s : steps (on_db host_grows) (hold id reason s).
Proof. unfold hold, mark_pending_queue_jobs_holding_conn. db_steps. by intros e. Qed.
Lemma terminate_grace_host pgid : steps (on_db host_grows) (terminate_process_group_with_grace pgid).
Proof. unfold terminate_process_group_with_grace, terminate_process_group, process_group_exists. db_steps. Qed.
#[local] Hint Resolve finish_host mark_running_host hold_host terminate_grace_host : steps.
Lemma terminate_job_host job : steps (on_db host_grows) (terminate_job job).
Proof. unfold terminate_job. db_steps. Qed.
#[local] Hint Resolve terminate_job_host cooldown_frame blocked_frame cooldown_active_frame : steps.
Lemma next_admissible_host types js policy s : steps (on_db host_grows) (next_admissible_in types js policy s).
Proof. revert s. induction types; intros s; cbn [next_admissible_in]; db_steps. Qed.
#[local] Hint Resolve next_admissible_host : steps.
Lemma choice_host policy s : steps (on_db host_grows) (admission_choice policy s).
Proof.
  unfold admission_choice, list_queue_job_runtime_records_conn, next_admissible_queue_job_id_conn,
    displace_background_for_perf_conn, mark_queue_job_displacing_conn. db_steps.
Qed.
Lemma start_candidate_host c id s : steps (on_db host_grows) (start_candidate c id s).
Proof.
  unfold start_candidate, start_queue_job_in_state_dir_with_policy, open_queue_jobs_connection, spawn_queue_job_process,
    get_queue_job_runtime_conn, get_queue_job_conn. db_steps. all: try by intros e.
Qed.
#[local] Hint Resolve choice_host start_candidate_host : steps.
Lemma loop_host fuel policy c s : steps (on_db host_grows) (admission_loop fuel policy c s).
Proof. revert s. induction fuel; intros s; cbn [admission_loop]; db_steps. Qed.
#[local] Hint Resolve loop_host : steps.
Lemma admit_host policy c : steps (on_db host_grows) (admit_pending_queue_jobs_conn policy c).
Proof.
  unfold admit_pending_queue_jobs_conn, requeue_and_loop, ensure_service_capacity_reserve_before_admission,
    list_queue_job_runtime_records_conn. db_steps. by intros e.
Qed.
Lemma retry_host q : steps (on_db host_grows) (retry_unnotified_queue_job_completions_conn q).
Proof.
  unfold retry_unnotified_queue_job_completions_conn, retry_notification, get_queue_job_runtime_conn. db_steps.
Qed.
Lemma recover_one_host s id : steps (on_db host_grows) (recover_one s id).
Proof.
  unfold recover_one, get_queue_job_runtime_conn, recover_running_queue_job_conn, observed_end,
    queue_job_exit_code_path_exists, queue_job_timed_out, process_exists. db_steps.
Qed.

(** ** Ending a job *)
Lemma finish_ends job state code q w r :
  In r (jobs (w_db w)) -> job_id r = rt_id job -> is_terminal_queue_state state = true ->
  exists r', In r' (jobs (w_db (snd (finish_queue_job_conn job state code q w)))) /\ job_id r' = rt_id job /\
    is_terminal_queue_state (job_state r') = true /\
    (is_terminal_queue_state (job_state r) = false -> job_state r' = state).
Proof.
  intros Hin Hid Hst. unfold finish_queue_job_conn. unfold bind at 1. destruct (now_rfc3339_run w) as [t ->].
  unfold bind at 1, execute. cbn [w_db w_tick fst snd].
  set (p := fun x => has_key job_id (rt_id job) x && negb (is_terminal_queue_state (job_state x))).
  set (d1 := (w_db w) <| jobs := _ |>).
  assert (exists r1, In r1 (jobs d1) /\ job_id r1 = rt_id job /\ is_terminal_queue_state (job_state r1) = true /\
    (is_terminal_queue_state (job_state r) = false -> job_state r1 = state)) as (r1 & Hr1 & Hi1 & Ht1 & Hs1).
  { exists (if p r then finished_row state t code r else r). split; [apply in_update; eauto|].
    unfold p, has_key. rewrite Hid, String.eqb_refl. destruct (is_terminal_queue_state (job_state r)) eqn:Ht; cbn;
      [by rewrite Ht|done]. }
  destruct (Nat.eqb _ 0); [cbn [snd ret w_db]; eauto|].
  unfold bind. match goal with |- context [record_queue_job_completion_notification_conn ?a ?b ?c ?d ?e ?x] =>
    destruct (record_notification_safe a b c d e x) as (_ & Hk & _);
    destruct (record_queue_job_completion_notification_conn a b c d e x) as [[]w2] end;
    destruct (Hk r1 Hr1 Ht1) as (r2 & Hr2 & Hset); destruct (settled_state _ _ Hset) as [Hs2 Hi2];
    exists r2; rewrite Hs2, Hi2; auto.
Qed.
End HostGrows.

(** ** Cancellation *)
(** The process group a job's signals go to. *)
Definition job_group (r : job_row) : option Z :=
  match job_process_group_id r with Some g => Some g | None => job_pid r end.

Section Cancel.
Context {T : TimeCrate} {E : Env} {H : Host} {J : Serde}.

Lemma terminate_job_signals r pgid w :
  job_group r = Some pgid -> 0 < pgid -> In (Signalled pgid false) (host (w_db (snd (terminate_job (runtime_of r) w)))).
Proof.
  intros Hg Hpos. unfold terminate_job. change (match rt_process_group_id (runtime_of r) with Some g => Some g | None => rt_pid (runtime_of r) end)
    with (job_group r). rewrite Hg. unfold terminate_process_group_with_grace, terminate_process_group, process_group_exists.
  destruct (Z.leb_spec pgid 0); [lia|]. unfold bind, emit, modify, ask, tick, ret. cbn.
  destruct (host_alive _ _); cbn; auto.
Qed.

Lemma open_db w w' : open_queue_jobs_connection w = (Ok tt, w') -> w_db w' = w_db w.
Proof. intros Hrun. pose proof (check_io_frame (D := runner) host_open w) as Hf. unfold open_queue_jobs_connection in Hrun. by rewrite Hrun in Hf. Qed.
Lemma get_runtime_inv id w o w' :
  get_queue_job_runtime_conn id w = (Ok o, w') -> w' = w /\ o = option_map runtime_of (lookup_row job_id id (jobs (w_db w))).
Proof. by intros [= <- <-]. Qed.

Lemma get_job_none id w w' : get_queue_job_conn id w = (Ok None, w') -> lookup_row job_id id (jobs (w_db w)) = None.
Proof.
  unfold get_queue_job_conn, bind, query, gets, lift. destruct (lookup_row job_id id (jobs (w_db w))) as [r|]; [|done].
  by destruct (queue_job_record_from_row r).
Qed.
(** The row a read after an operation returns. *)
Lemma get_job_found id w o w' r :
  lookup_row job_id id (jobs (w_db w)) = Some r -> get_queue_job_conn id w = (Ok o, w') ->
  w' = w /\ exists j, o = Some j /\ qj_state j = job_state r.
Proof.
  intros Hl Hrun. pose proof (get_job_same id w) as Hg. rewrite Hrun in Hg. cbn in Hg. split; [done|].
  destruct o as [j|]; [|by rewrite (get_job_none _ _ _ Hrun) in Hl].
  destruct (get_job_state _ _ _ _ Hrun) as (r' & Hr' & Hs). rewrite Hl in Hr'. injection Hr' as <-. eauto.
Qed.

(** Preparing the end of a running or pending job. *)
Lemma cancel_prepared r w u w' :
  (if job_state r =?s "running" then mark_queue_job_cancelling_conn (job_id r) ;;; terminate_job (runtime_of r) else ret tt) w
    = (Ok u, w') ->
  same_core (w_db w) (w_db w') /\
  (job_state r = "running"%string -> forall pgid, job_group r = Some pgid -> 0 < pgid ->
     In (Signalled pgid false) (host (w_db w'))).
Proof.
  destruct (String.eqb_spec (job_state r) "running") as [He|Hne]; intros Hrun.
  - apply bind_Ok_inv in Hrun as ([] & w1 & H1 & H2). split.
    + pose proof (mark_running_same_core (job_id r) "cancelling" w) as Hm. unfold mark_queue_job_cancelling_conn in H1. rewrite H1 in Hm.
      pose proof (terminate_job_same_core (runtime_of r) w1) as Ht. rewrite H2 in Ht. unfold on_db in *. cbn in *. by etransitivity.
    + intros _ pgid Hg Hp. pose proof (terminate_job_signals r pgid w1 Hg Hp) as Hs. by rewrite H2 in Hs.
  - injection Hrun as _ <-. split; [reflexivity|done].
Qed.

Lemma discarded_admit_kept (a : bool) policy w u w' r :
  (if a then discard (admit_pending_queue_jobs_conn policy true) else ret tt) w = (Ok u, w') ->
  unique job_id (jobs (w_db w)) -> In r (jobs (w_db w)) -> is_terminal_queue_state (job_state r) = true ->
  unique job_id (jobs (w_db w')) /\ host_grows (w_db w) (w_db w') /\
  exists r', In r' (jobs (w_db w')) /\ job_id r' = job_id r /\ job_state r' = job_state r.
Proof.
  intros Hrun Hu Hin Ht. destruct a; [|injection Hrun as _ <-; split; [done|]; split; [reflexivity|eauto]].
  unfold discard in Hrun. pose proof (steps_discard _ _ (admit_safe policy true) w) as (Hu' & Hk & _).
  pose proof (steps_discard _ _ (admit_host policy true) w) as Hh. unfold discard, on_db in *. rewrite Hrun in *.
  destruct (Hk r Hin Ht) as (r' & Hr' & Hset). destruct (settled_state _ _ Hset). eauto 8.
Qed.

(** Cancelling a job that is not yet in a terminal state, when the call succeeds, leaves it
    cancelled and returns it as cancelled, and its process group was signalled if it was
    running; cancelling a terminal job changes nothing and returns it as it is. *)
Theorem cancel_ends_job id policy a w r o w' :
  unique job_id (jobs (w_db w)) -> lookup_row job_id id (jobs (w_db w)) = Some r ->
  cancel_queue_job_in_state_dir id policy a w = (Ok o, w') ->
  exists j r', o = Some j /\ lookup_row job_id id (jobs (w_db w')) = Some r' /\ qj_state j = job_state r' /\
    if is_terminal_queue_state (job_state r) then w_db w' = w_db w
    else job_state r' = "cancelled"%string /\
      (job_state r = "running"%string -> forall pgid, job_group r = Some pgid -> 0 < pgid ->
         In (Signalled pgid false) (host (w_db w'))).
Proof.
  intros Hu Hl Hrun. unfold cancel_queue_job_in_state_dir in Hrun.
  apply bind_Ok_inv in Hrun as ([] & w1 & H1%open_db & Hrun). apply bind_Ok_inv in Hrun as (found & w2 & H2 & Hrun).
  apply get_runtime_inv in H2 as [-> ->]. rewrite H1, Hl in Hrun. cbn [option_map] in Hrun.
  pose proof (lookup_row_Some _ _ _ _ Hl) as [Hin Hid].
  change (rt_state (runtime_of r)) with (job_state r) in Hrun. change (rt_exit_code_path (runtime_of r)) with (job_exit_code_path r) in Hrun.
  destruct (is_terminal_queue_state (job_state r)) eqn:Hterm.
  - rewrite <- H1 in Hl. destruct (get_job_found _ _ _ _ _ Hl Hrun) as (-> & j & -> & Hs). exists j, r. auto.
  - rewrite <- Hid in Hrun at 1. apply bind_Ok_inv in Hrun as (u & w2 & H2 & Hrun). apply cancel_prepared in H2 as [Hsc Hsig].
    apply bind_Ok_inv in Hrun as (code & w3 & H3 & Hrun). apply bind_Ok_inv in Hrun as ([] & w4 & H4 & Hrun).
    apply bind_Ok_inv in Hrun as (u5 & w5 & H5 & Hrun).
    pose proof (read_exit_code_frame (job_exit_code_path r) w2) as Hf3. rewrite H3 in Hf3. unfold db_eq, on_db in Hf3. cbn in Hf3.
    rewrite <- H1 in Hin, Hu. destruct (same_core_in _ _ r Hsc Hin) as (r2 & Hr2 & Hc2). injection Hc2 as Hi2 _ Hs2.
    pose proof (same_core_unique _ _ Hsc Hu) as Hu2. rewrite <- Hf3 in Hr2, Hu2.
    destruct (finish_ends (runtime_of r) "cancelled" code true w3 r2) as (r4 & Hr4 & Hi4 & Ht4 & Hs4); [done|done|done|].
    destruct (finish_safe (runtime_of r) "cancelled" code true w3) as (Hu4 & _).
    pose proof (finish_host (runtime_of r) "cancelled" code true w3) as Hh4.
    unfold on_db in Hh4. rewrite H4 in *. cbn [snd] in *. rewrite Hs2 in Hs4. specialize (Hs4 Hterm). specialize (Hu4 Hu2).
    destruct (discarded_admit_kept _ _ _ _ _ _ H5 Hu4 Hr4 Ht4) as (Hu5 & Hh5 & r5 & Hr5 & Hi5 & Hs5).
    assert (Hl5 : lookup_row job_id id (jobs (w_db w5)) = Some r5).
    { rewrite <- Hid. change (job_id r) with (rt_id (runtime_of r)). rewrite <- Hi4, <- Hi5. by apply lookup_row_unique. }
    destruct (get_job_found _ _ _ _ _ Hl5 Hrun) as (-> & j & -> & Hs). exists j, r5. repeat (split; [done|]). split; [congruence|].
    intros He pgid Hg Hp. apply Hh5, Hh4. rewrite Hf3. by apply Hsig.
Qed.
End Cancel.

(** ** Recovery *)
(** A job that has ended, or that a thread polls. *)
Definition handled (id : string) (d : runner) : Prop :=
  (exists r, In r (jobs d) /\ job_id r = id /\ is_terminal_queue_state (job_state r) = true) \/
  (exists pid, In (PollStarted id pid) (host d)).
Definition others_kept (id : string) (d d' : runner) : Prop :=
  forall r, In r (jobs d) -> job_id r <> id -> In r (jobs d').
#[export] Instance others_kept_preorder id : PreOrder (others_kept id).
Proof. split; [by intros d r|]. intros d1 d2 d3 H1 H2 r Hr Hne. auto. Qed.

(** Jobs a recovery has accounted for. *)
Definition accounted (s : QueueRecoverySummary) : nat :=
  (polling_running s + finished_succeeded s + finished_failed s + finished_timed_out s + finished_cancelled s
   + finished_displaced s)%nat.
Definition known_action (a : RecoveredQueueJobAction) : bool :=
  match a with Polling => true | Finished state => is_terminal_queue_state state end.
Lemma count_action_accounted a s : known_action a = true ->
  accounted (count_action a s) = S (accounted s) /\ recovered_running (count_action a s) = recovered_running s.
Proof.
  destruct a as [|state]; cbn; [unfold accounted; cbn; lia|]. intros Hs. unfold is_terminal_queue_state in Hs.
  apply str_in_In in Hs. repeat destruct Hs as [<-|Hs]; [..|done]; unfold accounted; cbn; lia.
Qed.

Section Recovery.
Context {T : TimeCrate} {E : Env} {H : Host} {J : Serde}.

Lemma handled_kept id d d' : runner_safe d d' -> host_grows d d' -> handled id d -> handled id d'.
Proof.
  intros (_ & Hk & _) Hh [(r & Hr & Hi & Ht)|(pid & Hp)]; [left|right; eauto].
  destruct (Hk r Hr Ht) as (r' & Hr' & Hset). destruct (settled_state _ _ Hset) as [He Hi'].
  exists r'. rewrite He, Hi'. auto.
Qed.

Lemma update_others id p f d : (forall r, p r = true -> job_id r = id) ->
  others_kept id d (d <| jobs := update p f (jobs d) |>).
Proof.
  intros Hp r Hr Hne. cbn. apply in_update. exists r. split; [done|]. destruct (p r) eqn:Hpr; [|done].
  by apply Hp in Hpr.
Qed.
Lemma key_id id r : has_key job_id id r = true -> job_id r = id.
Proof. unfold has_key. apply String.eqb_eq. Qed.
Lemma emit_others id e : steps (on_db (others_kept id)) (emit e).
Proof. by intros w r. Qed.
Lemma on_mq_others {A} id (m : MQ A) : steps (on_db (others_kept id)) (on_mq m).
Proof. intros w. unfold on_mq, on_db. destruct (m _) as [x w']. cbn. by intros r. Qed.
#[local] Hint Resolve emit_others on_mq_others : steps.
Lemma finish_others job state code q : steps (on_db (others_kept (rt_id job))) (finish_queue_job_conn job state code q).
Proof.
  unfold finish_queue_job_conn, record_queue_job_completion_notification_conn, queue_job_completion_notified_at. db_steps.
  - apply update_others. intros r Hr. apply andb_true_iff in Hr as [Hr _]. by apply key_id.
  - apply update_others. apply key_id.
Qed.
Lemma observed_end_others id job : steps (on_db (others_kept id)) (observed_end job).
Proof.
  unfold observed_end, queue_job_exit_code_path_exists, queue_job_timed_out, terminate_job,
    terminate_process_group_with_grace, terminate_process_group, process_group_exists. db_steps.
Qed.
#[local] Hint Resolve finish_others observed_end_others process_exists_frame : steps.
Lemma recover_running_others job : steps (on_db (others_kept (rt_id job))) (recover_running_queue_job_conn job).
Proof. unfold recover_running_queue_job_conn. db_steps. Qed.

Lemma state_of_exit_terminal code : is_terminal_queue_state (state_of_exit code) = true.
Proof. by destruct code as [[]|]. Qed.
Lemma forced_terminal o st : forced_terminal_state_for_holding_reason o = Some st -> is_terminal_queue_state st = true.
Proof.
  destruct o as [reason|]; cbn; [|done]. destruct (_ =?s _); [by intros [= <-]|]. destruct (_ =?s _); [by intros [= <-]|done].
Qed.
Lemma observed_end_spec job w st code w' :
  observed_end job w = (Ok (Some (st, code)), w') -> is_terminal_queue_state st = true.
Proof.
  unfold observed_end. intros Hrun. destruct (forced_terminal_state_for_holding_reason _) as [f|] eqn:Hf.
  { inv_ok Hrun. match goal with Hx : Some _ = Some _ |- _ => injection Hx as <- _ end. by eapply forced_terminal. }
  apply bind_Ok_inv in Hrun as (written & w1 & _ & Hrun). destruct written.
  { inv_ok Hrun. match goal with Hx : Some _ = Some _ |- _ => injection Hx as <- _ end. apply state_of_exit_terminal. }
  apply bind_Ok_inv in Hrun as (late & w2 & _ & Hrun). destruct late; [|done].
  inv_ok Hrun. match goal with Hx : Some _ = Some _ |- _ => by injection Hx as <- _ end.
Qed.

Lemma observed_end_same_core job : steps (on_db same_core) (observed_end job).
Proof.
  unfold observed_end, queue_job_exit_code_path_exists, queue_job_timed_out. db_steps; apply terminate_job_same_core.
Qed.
Lemma recover_running_spec r w a w' :
  In r (jobs (w_db w)) -> recover_running_queue_job_conn (runtime_of r) w = (Ok a, w') ->
  known_action a = true /\ handled (job_id r) (w_db w').
Proof.
  intros Hr Hrun. unfold recover_running_queue_job_conn in Hrun. apply bind_Ok_inv in Hrun as (ended & w1 & H1 & Hrun).
  assert (Hr1 : exists r1, In r1 (jobs (w_db w1)) /\ job_id r1 = job_id r).
  { pose proof (observed_end_same_core (runtime_of r) w) as Hc. rewrite H1 in Hc.
    destruct (same_core_in _ _ r Hc Hr) as (r1 & Hr1 & Hc1). injection Hc1 as ? _ _. eauto. }
  destruct Hr1 as (r1 & Hr1 & Hi1).
  assert (Hfin : forall state code w2 w3, w_db w2 = w_db w1 -> is_terminal_queue_state state = true ->
    (finish_queue_job_conn (runtime_of r) state code true ;;; ret (Finished state)) w2 = (Ok a, w3) ->
    known_action a = true /\ handled (job_id r) (w_db w3)).
  { intros state code w2 w3 Hw Hst Hf. apply bind_Ok_inv in Hf as ([] & w4 & H4 & Hf). injection Hf as <- <-. split; [done|].
    destruct (finish_ends (runtime_of r) state code true w2 r1) as (r' & Hr' & Hi & Ht & _); [by rewrite Hw|done|done|].
    rewrite H4 in Hr'. left. eauto. }
  destruct ended as [[state code]|]; [apply observed_end_spec in H1; by eapply Hfin|].
  change (rt_pid (runtime_of r)) with (job_pid r) in Hrun. destruct (job_pid r) as [pid|]; [|by apply (Hfin "failed"%string None w1 w')].
  apply bind_Ok_inv in Hrun as (alive & w2 & H2 & Hrun).
  pose proof (process_exists_frame pid w1) as Hf. rewrite H2 in Hf. destruct alive; [|by apply (Hfin "failed"%string None w2 w')].
  inv_ok Hrun. split; [done|]. right. exists pid.
  match goal with Hx : emit _ _ = _ |- _ => injection Hx as _ <- end. by left.
Qed.

Definition running_row (id : string) (d : runner) : Prop :=
  exists r, In r (jobs d) /\ job_id r = id /\ job_state r = "running"%string.

Lemma recover_one_spec s id w s' w' :
  unique job_id (jobs (w_db w)) -> running_row id (w_db w) -> recover_one s id w = (Ok s', w') ->
  handled id (w_db w') /\ others_kept id (w_db w) (w_db w') /\
  recovered_running s' = S (recovered_running s) /\ accounted s' = S (accounted s).
Proof.
  intros Hu (r & Hr & Hid & Hst) Hrun. unfold recover_one in Hrun.
  apply bind_Ok_inv in Hrun as (found & w1 & H1 & Hrun). apply get_runtime_inv in H1 as [-> ->].
  rewrite <- Hid, lookup_row_unique in Hrun by done. cbn [option_map] in Hrun.
  change (rt_state (runtime_of r)) with (job_state r) in Hrun. rewrite Hst, String.eqb_refl in Hrun. cbv zeta in Hrun.
  apply bind_Ok_inv in Hrun as (a & w2 & H2 & Hrun). injection Hrun as <- <-.
  destruct (recover_running_spec r w a w2 Hr H2) as [Hk Hh]. rewrite <- Hid. split; [done|].
  pose proof (recover_running_others (runtime_of r) w) as Ho. rewrite H2 in Ho. split; [exact Ho|].
  match goal with |- context [count_action a ?x] => destruct (count_action_accounted a x Hk) as [-> ->] end. done.
Qed.

Lemma recover_fold ids s w s' w' :
  NoDup ids -> unique job_id (jobs (w_db w)) -> (forall id, In id ids -> running_row id (w_db w)) ->
  fold_each ids s recover_one w = (Ok s', w') ->
  (forall id, In id ids -> handled id (w_db w')) /\
  recovered_running s' = (recovered_running s + length ids)%nat /\ accounted s' = (accounted s + length ids)%nat.
Proof.
  revert s w. induction ids as [|id ids IH]; intros s w Hnd Hu Hall Hrun; cbn [fold_each] in Hrun.
  { injection Hrun as <- <-. cbn. split; [done|lia]. }
  apply NoDup_cons in Hnd as [Hni Hnd]. apply bind_Ok_inv in Hrun as (s1 & w1 & H1 & Hrun).
  pose proof (recover_one_safe s id w) as (Hu1 & _). rewrite H1 in Hu1. specialize (Hu1 Hu).
  destruct (recover_one_spec s id w s1 w1 Hu (Hall id (or_introl eq_refl)) H1) as (Hh & Ho & Hr & Ha).
  destruct (IH s1 w1 Hnd Hu1) as (Hh' & Hr' & Ha'); [|done|].
  - intros k Hk. destruct (Hall k (or_intror Hk)) as (r & Hin & Hi & Hs). exists r. split; [|done].
    apply Ho; [done|]. intros He. apply Hni. apply list_elem_of_In. congruence.
  - split; [|cbn; lia]. intros k [<-|Hk]; [|auto].
    apply (handled_kept id (w_db w1)); [| |done].
    + pose proof (steps_fold_each (on_db runner_safe) ids s1 recover_one (fun b a _ => recover_one_safe b a) w1) as Hx.
      by rewrite Hrun in Hx.
    + pose proof (steps_fold_each (on_db host_grows) ids s1 recover_one (fun b a _ => recover_one_host b a) w1) as Hx.
      by rewrite Hrun in Hx.
Qed.

Lemma recover_running_jobs_spec w s w' :
  unique job_id (jobs (w_db w)) -> recover_running_jobs w = (Ok s, w') ->
  (forall r, In r (jobs (w_db w)) -> job_state r = "running"%string -> handled (job_id r) (w_db w')) /\
  recovered_running s = changes (is_state "running") (jobs (w_db w)) /\ accounted s = recovered_running s.
Proof.
  intros Hu Hrun. unfold recover_running_jobs in Hrun. apply bind_Ok_inv in Hrun as (ids & w1 & H1 & Hrun).
  injection H1 as <- <-.
  assert (Hin : forall id, In id (map job_id (order_by job_order (select (is_state "running") (jobs (w_db w))))) <->
    running_row id (w_db w)).
  { intros id. rewrite in_map_iff. unfold running_row. split; intros (r & Hx).
    - destruct Hx as [<- Hx]. rewrite in_order_by in Hx. apply filter_In in Hx as [Hx Hs]. exists r.
      unfold is_state in Hs. bool_simpl. auto.
    - destruct Hx as (Hr & <- & Hs). exists r. split; [done|]. rewrite in_order_by. apply filter_In. split; [done|].
      unfold is_state. by rewrite Hs. }
  destruct (recover_fold _ _ _ _ _ (unique_listing job_id _ _ _ Hu) Hu (fun id => proj1 (Hin id)) Hrun) as (Hh & Hr & Ha).
  split; [|split].
  - intros r Hr0 Hs. apply Hh, Hin. exists r. auto.
  - rewrite Hr. cbn. rewrite length_map. unfold changes.
    symmetry. apply Permutation.Permutation_length, order_by_perm.
  - rewrite Ha, Hr. done.
Qed.

(** C27: A recovery that returns has dealt with every job that was running: the job is in a
    terminal state or a thread now polls its process; the summary counts those jobs, and
    each is counted under one of the ends or as polled. *)
Theorem recovery_handles_all policy w s w' :
  unique job_id (jobs (w_db w)) -> recover_queue_jobs_in_state_dir_with_policy true policy w = (Ok s, w') ->
  (forall r, In r (jobs (w_db w)) -> job_state r = "running"%string ->
     (exists r', In r' (jobs (w_db w')) /\ job_id r' = job_id r /\ is_terminal_queue_state (job_state r') = true) \/
     (exists pid, In (PollStarted (job_id r) pid) (host (w_db w')))) /\
  recovered_running s = length (List.filter (fun r => job_state r =?s "running") (jobs (w_db w))) /\
  (recovered_running s <= polling_running s + finished_succeeded s + finished_failed s + finished_timed_out s
     + finished_cancelled s + finished_displaced s)%nat.
Proof.
  intros Hu Hrun. unfold recover_queue_jobs_in_state_dir_with_policy in Hrun. cbn [negb] in Hrun.
  apply bind_Ok_inv in Hrun as ([] & w1 & H1%open_db & Hrun). apply bind_Ok_inv in Hrun as (s1 & w2 & H2 & Hrun).
  rewrite <- H1 in *. destruct (recover_running_jobs_spec _ _ _ Hu H2) as (Hh & Hr & Ha).
  apply bind_Ok_inv in Hrun as (adm & w3 & H3 & Hrun). cbv zeta in Hrun.
  apply bind_Ok_inv in Hrun as (n & w4 & H4 & Hrun). injection Hrun as <- <-. split.
  - intros r Hin Hs. apply (handled_kept (job_id r) (w_db w3)).
    + pose proof (retry_safe true w3) as Hx. by rewrite H4 in Hx.
    + pose proof (retry_host true w3) as Hx. by rewrite H4 in Hx.
    + apply (handled_kept (job_id r) (w_db w2)); [| |by apply Hh].
      * pose proof (admit_safe policy true w2) as Hx. by rewrite H3 in Hx.
      * pose proof (admit_host policy true w2) as Hx. by rewrite H3 in Hx.
  - unfold accounted in Ha. cbn. split; [exact Hr|lia].
Qed.
End Recovery.

(** ** Forced ends *)
Section Forced.
Context {T : TimeCrate} {E : Env} {H : Host} {J : Serde}.
Context (r : job_row) (st : string).
Hypothesis r_running : job_state r = "running"%string.
Hypothesis r_forced : forced_terminal_state_for_holding_reason (job_holding_reason r) = Some st.

(** The marked job is as it was, or has ended in the forced state. *)
Definition forced_or_same (d : runner) : Prop :=
  unique job_id (jobs d) /\
  (In r (jobs d) \/ exists r', In r' (jobs d) /\ job_id r' = job_id r /\ job_state r' = st).

Lemma st_terminal : is_terminal_queue_state st = true.
Proof using r_forced. by eapply forced_terminal. Qed.
Lemma ended_kept d d' r1 :
  runner_safe d d' -> unique job_id (jobs d) -> In r1 (jobs d) -> job_id r1 = job_id r -> job_state r1 = st -> forced_or_same d'.
Proof using r_forced.
  intros (Hu' & Hk & _) Hu Hr1 Hi Hs. split; [auto|]. right.
  destruct (Hk r1 Hr1) as (r2 & Hr2 & Hset); [rewrite Hs; apply st_terminal|]. destruct (settled_state _ _ Hset) as [He Hi2].
  exists r2. repeat split; congruence.
Qed.
Lemma emit_forced e : steps (on_db (keeps forced_or_same)) (emit e).
Proof using. intros w Hx. exact Hx. Qed.
Lemma finish_forced code w : unique job_id (jobs (w_db w)) -> In r (jobs (w_db w)) ->
  let d' := w_db (snd (finish_queue_job_conn (runtime_of r) st code true w)) in
  unique job_id (jobs d') /\ exists r', In r' (jobs d') /\ job_id r' = job_id r /\ job_state r' = st.
Proof using r_running r_forced.
  intros Hu Hin. cbv zeta. split; [by apply (finish_safe (runtime_of r) st code true w)|].
  destruct (finish_ends (runtime_of r) st code true w r) as (r' & Hr' & Hi & _ & Hs); [done|done|apply st_terminal|].
  exists r'. repeat split; [done..|]. apply Hs. by rewrite r_running.
Qed.

Lemma finish_if_running_forced state code policy :
  steps (on_db (keeps forced_or_same)) (finish_queue_job_in_state_dir_if_running (job_id r) state code policy).
Proof using r_running r_forced.
  intros w [Hu [Hin|(r1 & Hr1 & Hi & Hs)]]; [|by eapply ended_kept; [apply finish_if_running_safe|..]].
  unfold finish_queue_job_in_state_dir_if_running, open_queue_jobs_connection. unfold bind at 1.
  pose proof (check_io_frame (D := runner) host_open w) as Hf. unfold db_eq, on_db in Hf.
  destruct (check_io host_open w) as [[[]|e|] w1]; cbn [snd] in *; [|rewrite Hf; split; auto..].
  unfold bind at 1, get_queue_job_runtime_conn, query, gets. rewrite Hf, (lookup_row_unique job_id _ r) by done. cbn [option_map].
  change (rt_state (runtime_of r)) with (job_state r). rewrite r_running, String.eqb_refl. cbn [negb]. cbv zeta.
  change (rt_holding_reason (runtime_of r)) with (job_holding_reason r). rewrite r_forced. cbn [unwrap_or].
  destruct (finish_forced code w1) as (Hu2 & r2 & Hr2 & Hi2 & Hs2); [by rewrite Hf..|].
  unfold bind at 1. destruct (finish_queue_job_conn (runtime_of r) st code true w1) as [[[]|e|] w2]; cbn [snd] in *;
    [|split; [done|right; eauto]..].
  eapply ended_kept; [apply (steps_discard _ _ (admit_safe policy true))|..]; eauto.
Qed.

Lemma monitor_forced pgid timeout policy wait elapsed :
  steps (on_db (keeps forced_or_same)) (monitor_turn (job_id r) pgid timeout policy wait elapsed).
Proof using r_running r_forced.
  pose proof finish_if_running_forced as Hf. pose proof emit_forced as He.
  unfold monitor_turn, terminate_child_process_group_with_grace, terminate_process_group_with_grace,
    terminate_process_group, process_group_exists, queue_job_is_cancelled_in_state_dir,
    read_queue_job_exit_code_from_state_dir, open_queue_jobs_connection, get_queue_job_runtime_conn. db_steps.
Qed.

Lemma observed_end_forced w :
  exists res w', observed_end (runtime_of r) w = (res, w') /\ jobs (w_db w') = jobs (w_db w) /\
    (forall o, res = Ok o -> exists code, o = Some (st, code)).
Proof using r_forced.
  assert (Hj : steps (on_db same_jobs) (observed_end (runtime_of r))).
  { assert (He : forall e, steps (on_db same_jobs) (emit e)) by by intros e w'.
    unfold observed_end, queue_job_exit_code_path_exists, queue_job_timed_out, terminate_job,
      terminate_process_group_with_grace, terminate_process_group, process_group_exists. db_steps. }
  specialize (Hj w). destruct (observed_end (runtime_of r) w) as [res w'] eqn:Hrun. exists res, w'. split; [done|].
  split; [exact Hj|]. intros o ->. unfold observed_end in Hrun.
  change (rt_holding_reason (runtime_of r)) with (job_holding_reason r) in Hrun. rewrite r_forced in Hrun. inv_ok Hrun. eauto.
Qed.

Lemma poll_forced pid policy : steps (on_db (keeps forced_or_same)) (poll_turn (job_id r) pid policy).
Proof using r_running r_forced.
  intros w [Hu [Hin|(r1 & Hr1 & Hi & Hs)]]; [|by eapply ended_kept; [apply poll_safe|..]].
  unfold poll_turn, open_queue_jobs_connection, attempt. unfold bind at 1.
  pose proof (check_io_frame (D := runner) host_open w) as Hf. unfold db_eq, on_db in Hf.
  destruct (check_io host_open w) as [[[]|e|] w1]; cbn [snd ret] in *; [|rewrite Hf; split; auto..].
  unfold bind at 1, get_queue_job_runtime_conn, query, gets. rewrite Hf, (lookup_row_unique job_id _ r) by done. cbn [option_map].
  change (rt_state (runtime_of r)) with (job_state r). rewrite r_running, String.eqb_refl. cbn [negb].
  unfold bind at 1. destruct (observed_end_forced w1) as (res & w2 & -> & Hj & Hres). rewrite Hf in Hj.
  destruct res as [o|e|]; cbn [snd]; [|split; rewrite Hj; auto..].
  destruct (Hres o eq_refl) as (code & ->). cbv zeta beta iota.
  destruct (finish_forced code w2) as (Hu2 & r2 & Hr2 & Hi2 & Hs2); [by rewrite Hj..|].
  pose proof (steps_attempt (on_db runner_safe) _ (finish_safe (runtime_of r) st code true) w2) as Hs3.
  unfold bind at 1, discard at 1, bind at 1, attempt.
  destruct (finish_queue_job_conn (runtime_of r) st code true w2) as [[[]|e|] w3]; cbn [snd ret] in *;
    [..|split; [done|right; eauto]];
    (eapply ended_kept; [apply (steps_bind _ _ _ (steps_discard _ _ (admit_safe policy true)) (fun _ => steps_ret _ true))|..]; eauto).
Qed.
End Forced.

Section ForcedClaim.
Context {T : TimeCrate} {E : Env} {H : Host} {J : Serde}.

(** C28: A running job marked for cancellation (or displacement) ends as cancelled (or
    displaced): a turn of either thread, whatever it observes of the process and however
    it ends, leaves the job as it was or ends it in the marked state, never as succeeded,
    failed or timed out. *)
Theorem forced_end_wins id r st policy w :
  unique job_id (jobs (w_db w)) -> lookup_row job_id id (jobs (w_db w)) = Some r ->
  job_state r = "running"%string -> forced_terminal_state_for_holding_reason (job_holding_reason r) = Some st ->
  (forall pgid timeout wait elapsed, exists r',
     lookup_row job_id id (jobs (w_db (snd (monitor_turn id pgid timeout policy wait elapsed w)))) = Some r' /\
     (r' = r \/ job_state r' = st)) /\
  (forall pid, exists r',
     lookup_row job_id id (jobs (w_db (snd (poll_turn id pid policy w)))) = Some r' /\ (r' = r \/ job_state r' = st)).
Proof.
  intros Hu Hl Hs Hf. destruct (lookup_row_Some _ _ _ _ Hl) as [Hin <-].
  assert (Hget : forall d, forced_or_same r st d ->
    exists r', lookup_row job_id (job_id r) (jobs d) = Some r' /\ (r' = r \/ job_state r' = st)).
  { intros d [Hd [Hr|(r' & Hr & Hi & Ht)]]; [exists r|exists r'; rewrite <- Hi]; split; auto; by apply lookup_row_unique. }
  split; intros; apply Hget; [apply monitor_forced|apply poll_forced]; try done; split; auto.
Qed.
End ForcedClaim.

(** ** Concrete executions *)
Definition demo_cancelling : job_row :=
  (demo_queue_job "b1" "background" "running" "1" None (Some 41)) <| job_holding_reason := Some "cancelling"%string |>.
Definition demo_marked : world runner :=
  World (Runner [demo_cancelling;
                 demo_queue_job "p1" "perf" "pending" "3" None None;
                 demo_queue_job "s1" "service" "succeeded" "1" (Some "7"%string) None;
                 demo_queue_job "t1" "tests" "running" "2" None (Some 42)] empty_mqdb []) O.
Lemma demo_marked_unique : unique job_id (jobs (w_db demo_marked)).
Proof. apply (bool_decide_unpack _). vm_compute. exact I. Qed.
(** Cancel a job, let the monitor of another see its exit, recover. *)
Definition demo_step1 : world runner := snd (cancel_queue_job_in_state_dir "b1" default_policy true demo_marked).
Definition demo_step2 : world runner := snd (monitor_turn "t1" 42 0 default_policy (Exited (Some 0)) 3 demo_step1).
Definition demo_later : world runner := snd (recover_queue_jobs_in_state_dir_with_policy true default_policy demo_step2).
Lemma demo_execution : rtc runner_step demo_marked demo_later.
Proof.
  apply (rtc_l _ demo_marked demo_step1); [unfold demo_step1; apply step_cancel|].
  apply (rtc_l _ demo_step1 demo_step2); [unfold demo_step2; apply step_monitor|].
  apply (rtc_l _ demo_step2 demo_later); [unfold demo_later; apply step_recover|apply rtc_refl].
Qed.
Definition demo_done : job_row := demo_queue_job "s1" "service" "succeeded" "1" (Some "7"%string) None.

Lemma terminal_jobs_frozen_witness :
  unique job_id (jobs (w_db demo_later)) /\ mq_wf (mq (w_db demo_later)) /\
  exists r', lookup_row job_id (job_id demo_done) (jobs (w_db demo_later)) = Some r' /\
    (r' = demo_done \/ (job_completion_notified_at demo_done = None /\
                exists t, r' = demo_done <| job_completion_notified_at := Some t |>)).
Proof.
  apply (terminal_jobs_frozen demo_marked demo_later demo_done).
  - exact demo_execution.
  - exact demo_marked_unique.
  - exact empty_mqdb_wf.
  - right. right. by left.
  - reflexivity.
Defined.

Definition demo_cancelled : outcome (option QueueJobRecord) * world runner :=
  cancel_queue_job_in_state_dir "t1" default_policy true demo_marked.
Definition demo_running : job_row := demo_queue_job "t1" "tests" "running" "2" None (Some 42).
Lemma cancel_ends_job_witness :
  exists j r', match fst demo_cancelled with Ok o => o | _ => None end = Some j /\
    lookup_row job_id "t1"%string (jobs (w_db (snd demo_cancelled))) = Some r' /\ qj_state j = job_state r' /\
    if is_terminal_queue_state (job_state demo_running) then w_db (snd demo_cancelled) = w_db demo_marked
    else job_state r' = "cancelled"%string /\
      (job_state demo_running = "running"%string -> forall pgid, job_group demo_running = Some pgid -> 0 < pgid ->
         In (Signalled pgid false) (host (w_db (snd demo_cancelled)))).
Proof.
  apply (cancel_ends_job "t1" default_policy true demo_marked demo_running).
  - exact demo_marked_unique.
  - vm_compute. reflexivity.
  - vm_compute. reflexivity.
Defined.

Definition demo_recovered : outcome QueueRecoverySummary * world runner :=
  recover_queue_jobs_in_state_dir_with_policy true default_policy demo_marked.
Definition demo_summary : QueueRecoverySummary := match fst demo_recovered with Ok s => s | _ => no_recovery end.
Lemma recovery_handles_all_witness :
  (forall r, In r (jobs (w_db demo_marked)) -> job_state r = "running"%string ->
     (exists r', In r' (jobs (w_db (snd demo_recovered))) /\ job_id r' = job_id r /\ is_terminal_queue_state (job_state r') = true) \/
     (exists pid, In (PollStarted (job_id r) pid) (host (w_db (snd demo_recovered))))) /\
  recovered_running demo_summary = length (List.filter (fun r => job_state r =?s "running") (jobs (w_db demo_marked))) /\
  (recovered_running demo_summary <= polling_running demo_summary + finished_succeeded demo_summary
     + finished_failed demo_summary + finished_timed_out demo_summary
     + finished_cancelled demo_summary + finished_displaced demo_summary)%nat.
Proof.
  apply (recovery_handles_all default_policy demo_marked demo_summary (snd demo_recovered)).
  - exact demo_marked_unique.
  - vm_compute. reflexivity.
Defined.

Lemma forced_end_wins_witness :
  (forall pgid timeout wait elapsed, exists r',
     lookup_row job_id "b1"%string (jobs (w_db (snd (monitor_turn "b1" pgid timeout default_policy wait elapsed demo_marked)))) = Some r' /\
     (r' = demo_cancelling \/ job_state r' = "cancelled"%string)) /\
  (forall pid, exists r',
     lookup_row job_id "b1"%string (jobs (w_db (snd (poll_turn "b1" pid default_policy demo_marked)))) = Some r' /\
     (r' = demo_cancelling \/ job_state r' = "cancelled"%string)).
Proof.
  apply (forced_end_wins "b1" demo_cancelling "cancelled" default_policy demo_marked).
  - exact demo_marked_unique.
  - reflexivity.
  - reflexivity.
  - reflexivity.
Defined.
