(* ===== verification/Btw.v ===== *)
(** * Side questions to sessions

    The store of [/btw] requests (btw.rs): one row per request, at most one active request
    per target session, a request's life from pending to its end, and the delivery marks of
    its answer.  The partial unique index is enforced at the insert, the only statement that
    makes a request active. *)
From Stdlib Require Import ZArith Lia Bool String Ascii List Sorted.
From stdpp Require Import base tactics list strings relations.
From S2P Require Import Prelude Text Table Clock Demo.

(** ** Data *)
Record BtwRequestRecord : Type := BtwRecord {
  request_id : string;
  requester_session_id : option string;
  target_session_id : string;
  target_provider : string;
  delivery_mode : string;
  prompt : string;
  status : string;
  provider_correlation : option string;
  created_at : string;
  started_at : option string;
  finished_at : option string;
  result : option string;
  error : option string;
  response_delivered_at : option string;
  response_undeliverable_at : option string }.
#[export] Instance eta_btw : Eta BtwRequestRecord := fun r =>
  BtwRecord (request_id r) (requester_session_id r) (target_session_id r) (target_provider r)
    (delivery_mode r) (prompt r) (status r) (provider_correlation r) (created_at r) (started_at r)
    (finished_at r) (result r) (error r) (response_delivered_at r) (response_undeliverable_at r).

Record btwdb : Type := BtwDb { requests : list BtwRequestRecord }.
#[export] Instance eta_btwdb : Eta btwdb := fun d => BtwDb (requests d).
Abbreviation BQ := (M (world btwdb)).

(** Opening the database at reading [k]: an error text or a success. *)
Class BtwHost : Type := { btw_open : nat -> option string }.

Definition DEFAULT_BTW_PROMPT : string :=
  "Summarize what you have done so far in the main conversation thread. Do not summarize this /btw side conversation.".
Definition MAX_BTW_PROMPT_BYTES : nat := 4 * 1024.
Definition MAX_BTW_RESULT_BYTES : nat := Z.to_nat (32 * 1024).

(** [status IN ('pending', 'running')]. *)
Definition is_active (r : BtwRequestRecord) : bool := str_in (status r) ["pending"; "running"]%string.
#[global] Arguments is_active : simpl never.
Definition active_for (target : string) (r : BtwRequestRecord) : bool :=
  (target_session_id r =?s target) && is_active r.
Definition created_order (a b : BtwRequestRecord) : bool := text_leb (created_at a) (created_at b).
Definition recoverable (r : BtwRequestRecord) : bool :=
  is_active r
  || ((delivery_mode r =?s "session") && is_none (response_delivered_at r) && is_none (response_undeliverable_at r)
      && str_in (status r) ["completed"; "failed"; "timed_out"]%string).
(** The request concerns the session, as target or as requester. *)
Definition involves (session_id : string) (r : BtwRequestRecord) : bool :=
  (target_session_id r =?s session_id) || opt_str_eqb (requester_session_id r) (Some session_id).

Section Store.
Context `{T : TimeCrate} `{E : Env} `{B : BtwHost}.

Definition open : BQ unit :=
  k <- tick ;; match btw_open k with Some e => bail e | None => ret tt end.
Definition with_connection {A} (f : BQ A) : BQ A := open ;;; f.
Definition new_request_id : BQ string := suffix <- random_hex 16 ;; ret ("btw-" +:+ suffix).

Definition get (id : string) : BQ (option BtwRequestRecord) :=
  with_connection (query (fun d => lookup_row request_id id (requests d))).
Definition active_for_target (target : string) : BQ (option BtwRequestRecord) :=
  with_connection (query (fun d => hd_error (order_by created_order (select (active_for target) (requests d))))).
Definition list_recoverable : BQ (list BtwRequestRecord) :=
  with_connection (query (fun d => order_by created_order (select recoverable (requests d)))).

(** [INSERT]: the primary key and the index of active requests are checked. *)
Definition insert_request (row : BtwRequestRecord) : BQ unit :=
  taken <- query (fun d => existsb (has_key request_id (request_id row)) (requests d)) ;;
  if taken : bool then bail "UNIQUE constraint failed: btw_requests.request_id"
  else
    busy <- query (fun d => existsb (active_for (target_session_id row)) (requests d)) ;;
    if is_active row && busy then bail "UNIQUE constraint failed: btw_requests.target_session_id"
    else execute (fun d => (d <| requests := insert (requests d) row |>, 1%nat)) ;;; ret tt.

(** The transaction: the id of the active request, or the row inserted and its id. *)
Definition create_in_transaction (requester : option string) (target provider mode prompt : string)
    : BQ (string + string) :=
  active <- query (fun d => option_map request_id
              (hd_error (order_by created_order (select (active_for target) (requests d))))) ;;
  match active with
  | Some id => ret (inr id)
  | None =>
      id <- new_request_id ;;
      created_at <- now_rfc3339 ;;
      insert_request (BtwRecord id requester target provider mode prompt "pending" None created_at
                        None None None None None None) ;;;
      ret (inl id)
  end.
(** [inr id]: [Err(CreateBtwRequestError::Active(id))]; other errors are [Err]. *)
Definition create (requester : option string) (target provider mode prompt : string)
    : BQ (BtwRequestRecord + string) :=
  open ;;;
  created <- transaction (create_in_transaction requester target provider mode prompt) ;;
  match created with
  | inr id => ret (inr id)
  | inl id =>
      found <- get id ;;
      r <- expect "created btw request disappeared" found ;;
      ret (inl r)
  end.

(** [UPDATE .. WHERE request_id = ?1 AND p]. *)
Definition update_request (id : string) (p : BtwRequestRecord -> bool)
    (f : BtwRequestRecord -> BtwRequestRecord) : BQ unit :=
  execute (fun d =>
    let q r := has_key request_id id r && p r in
    (d <| requests := update q f (requests d) |>, changes q (requests d))) ;;; ret tt.

Definition mark_running (id : string) (correlation : option string) : BQ unit :=
  with_connection (
    now <- now_rfc3339 ;;
    update_request id (fun r => status r =?s "pending")
      (fun r => r <| status := "running"%string |> <| provider_correlation := correlation |> <| started_at := Some now |>)).
Definition set_provider_correlation (id correlation : string) : BQ unit :=
  with_connection (
    update_request id (fun r => status r =?s "running")
      (fun r => r <| provider_correlation := Some correlation |>)).
Definition finish (id status_ : string) (result_ error_ : option string) : BQ unit :=
  with_connection (
    now <- now_rfc3339 ;;
    update_request id is_active
      (fun r => r <| status := status_ |> <| result := result_ |> <| error := error_ |> <| finished_at := Some now |>)).
Definition complete (id result_ : string) : BQ unit :=
  finish id "completed" (Some (bound_utf8 (trim result_) MAX_BTW_RESULT_BYTES)) None.
Definition fail (id error_ : string) : BQ unit :=
  finish id "failed" None (Some (bound_utf8 (trim error_) MAX_BTW_RESULT_BYTES)).
Definition time_out (id error_ : string) : BQ unit :=
  finish id "timed_out" None (Some (bound_utf8 (trim error_) MAX_BTW_RESULT_BYTES)).

Definition mark_response_delivered (id : string) : BQ unit :=
  with_connection (
    now <- now_rfc3339 ;;
    update_request id (fun r => is_none (response_delivered_at r))
      (fun r => r <| response_delivered_at := Some now |>)).
Definition mark_response_undeliverable (id : string) : BQ unit :=
  with_connection (
    now <- now_rfc3339 ;;
    update_request id (fun r => is_none (response_delivered_at r) && is_none (response_undeliverable_at r))
      (fun r => r <| response_undeliverable_at := Some now |>)).

(** The row of a request that fails with a session. *)
Definition failed_row (session_id error_ now : string) (r : BtwRequestRecord) : BtwRequestRecord :=
  r <| status := "failed"%string |> <| result := None |> <| error := Some error_ |> <| finished_at := Some now |>
    <| response_undeliverable_at :=
         if opt_str_eqb (requester_session_id r) (Some session_id) then Some now else response_undeliverable_at r |>.
(** [filter_map(|id| self.get(&id).transpose()).collect()]. *)
Fixpoint get_all (ids : list string) : BQ (list BtwRequestRecord) :=
  match ids with
  | [] => ret []
  | id :: rest =>
      found <- get id ;;
      records <- get_all rest ;;
      ret (match found with Some r => r :: records | None => records end)
  end.
Definition fail_for_session (session_id error_ : string) : BQ (list BtwRequestRecord) :=
  let error_ := bound_utf8 (trim error_) MAX_BTW_RESULT_BYTES in
  open ;;;
  ids <- transaction (
    let p r := is_active r && involves session_id r in
    ids <- query (fun d => map request_id (order_by created_order (select p (requests d)))) ;;
    now <- now_rfc3339 ;;
    execute (fun d => (d <| requests := update p (failed_row session_id error_ now) (requests d) |>,
                       changes p (requests d))) ;;;
    ret ids) ;;
  get_all ids.
End Store.
