(* ===== verification/BtwProps.v ===== *)
(** * Properties of the store of side questions

    At most one active request per target, the life of a request, what creating a request
    and failing a session's requests do, and the bounds on what is stored. *)
From Stdlib Require Import ZArith Lia Bool String Ascii List Sorted.
From stdpp Require Import base tactics list strings relations.
From S2P Require Import Prelude Text Table Clock Demo Btw.

(** ** Bounded text *)
Lemma floor_boundary_le l n : (floor_char_boundary l n <= n)%nat.
Proof. induction n as [|n IH]; cbn -[is_char_boundary]; [lia|]. destruct (is_char_boundary l (S n)); lia. Qed.
Lemma floor_boundary_boundary l n : is_char_boundary l (floor_char_boundary l n) = true.
Proof.
  induction n as [|n IH]; [done|]. cbn [floor_char_boundary].
  destruct (is_char_boundary l (S n)) eqn:Hb; [exact Hb|exact IH].
Qed.
Lemma bound_utf8_length s n : (length (bytes_of (bound_utf8 s n)) <= n)%nat.
Proof.
  unfold bound_utf8. destruct (Nat.leb_spec (length (bytes_of s)) n); [done|].
  rewrite bytes_of_bytes, length_take. pose proof (floor_boundary_le (bytes_of s) n). lia.
Qed.

(** ** Well-formed stores *)
Definition bounded (o : option string) : Prop :=
  match o with Some s => (length (bytes_of s) <= MAX_BTW_RESULT_BYTES)%nat | None => True end.
(** What each status says about the other columns. *)
Definition request_ok (r : BtwRequestRecord) : Prop :=
  bounded (result r) /\ bounded (error r) /\
  match finished_at r with
  | None => is_active r = true /\ result r = None /\ error r = None /\
      (status r = "pending"%string -> started_at r = None)
  | Some _ => is_active r = false /\
      (status r = "completed"%string /\ is_some (result r) = true /\ error r = None \/
       str_in (status r) ["failed"; "timed_out"]%string = true /\ result r = None /\ is_some (error r) = true)
  end.
Record btw_wf (d : btwdb) : Prop := BtwWf {
  wf_ids : unique request_id (requests d);
  wf_one_active : forall r1 r2, In r1 (requests d) -> In r2 (requests d) ->
    is_active r1 = true -> is_active r2 = true -> target_session_id r1 = target_session_id r2 -> r1 = r2;
  wf_rows : forall r, In r (requests d) -> request_ok r }.

(** ** The life of a request *)
Definition rank (s : string) : nat :=
  if s =?s "pending" then 0 else if s =?s "running" then 1 else 2.
(** A stamp that is set stays. *)
Definition stamp_kept (a b : option string) : Prop := match a with Some _ => b = a | None => True end.
Record evolves (r r' : BtwRequestRecord) : Prop := Evolves {
  ev_question : request_id r' = request_id r /\ requester_session_id r' = requester_session_id r /\
    target_session_id r' = target_session_id r /\ target_provider r' = target_provider r /\
    delivery_mode r' = delivery_mode r /\ prompt r' = prompt r /\ created_at r' = created_at r;
  ev_rank : (rank (status r) <= rank (status r'))%nat;
  ev_final : is_active r = false -> status r' = status r /\ provider_correlation r' = provider_correlation r /\
    started_at r' = started_at r /\ finished_at r' = finished_at r /\ result r' = result r /\ error r' = error r /\
    stamp_kept (response_undeliverable_at r) (response_undeliverable_at r');
  ev_delivered : stamp_kept (response_delivered_at r) (response_delivered_at r') }.

Lemma stamp_trans a b c : stamp_kept a b -> stamp_kept b c -> stamp_kept a c.
Proof. destruct a; cbn; [intros ->|]; done. Qed.
Lemma active_status r r' : status r' = status r -> is_active r' = is_active r.
Proof. unfold is_active. by intros ->. Qed.
Lemma evolves_refl r : evolves r r.
Proof. split; [done|lia|intros _|]; repeat split; unfold stamp_kept; by destruct (_ r). Qed.
Lemma evolves_trans r1 r2 r3 : evolves r1 r2 -> evolves r2 r3 -> evolves r1 r3.
Proof.
  intros [Hq1 Hr1 Hf1 Hd1] [Hq2 Hr2 Hf2 Hd2]. split; [intuition congruence|lia| |by eapply stamp_trans].
  intros Ha. destruct (Hf1 Ha) as (Hs & Hf). rewrite (active_status r1 r2 Hs) in Hf2. specialize (Hf2 Ha).
  destruct Hf as (? & ? & ? & ? & ? & Hu1), Hf2 as (? & ? & ? & ? & ? & ? & Hu2). repeat split; try congruence.
  by eapply stamp_trans.
Qed.

(** What every operation guarantees. *)
Definition btw_safe (d d' : btwdb) : Prop :=
  (btw_wf d -> btw_wf d') /\ forall r, In r (requests d) -> exists r', In r' (requests d') /\ evolves r r'.
#[export] Instance btw_safe_preorder : PreOrder btw_safe.
Proof.
  split.
  - intros d. split; [done|]. intros r Hr. exists r. eauto using evolves_refl.
  - intros d1 d2 d3 [A1 B1] [A2 B2]. split; [auto|]. intros r Hr. destruct (B1 r Hr) as (r1 & Hr1 & E1).
    destruct (B2 r1 Hr1) as (r2 & Hr2 & E2). eauto using evolves_trans.
Qed.

Lemma evolves_active r r' : evolves r r' -> is_active r' = true -> is_active r = true.
Proof.
  intros He Ha. destruct (is_active r) eqn:Hx; [done|]. destruct (ev_final _ _ He Hx) as [Hs _].
  by rewrite <- (active_status r r' Hs), Ha in Hx.
Qed.
Lemma update_safe d p f :
  (forall r, p r = true -> evolves r (f r)) -> (forall r, p r = true -> request_ok r -> request_ok (f r)) ->
  btw_safe d (d <| requests := update p f (requests d) |>).
Proof.
  intros He Hok. split.
  - intros [Hu Ho Hr]. split; cbn.
    + apply unique_update; [|done]. intros r Hp. by destruct (He r Hp) as [(Hi & _) _ _ _].
    + intros r1 r2 H1 H2 A1 A2 Ht. apply in_update in H1 as (x1 & I1 & E1). apply in_update in H2 as (x2 & I2 & E2).
      assert (Hx : forall x y, y = (if p x then f x else x) -> evolves x y)
        by (intros x y Hy; destruct (p x) eqn:Hp; rewrite Hy; auto using evolves_refl).
      pose proof (Hx _ _ E1) as V1. pose proof (Hx _ _ E2) as V2.
      assert (x1 = x2) as ->; [|congruence]. apply Ho; eauto using evolves_active.
      destruct (ev_question _ _ V1) as (_ & _ & <- & _), (ev_question _ _ V2) as (_ & _ & <- & _). done.
    + intros r H1. apply in_update in H1 as (x & I1 & E1). destruct (p x) eqn:Hp; subst r; auto.
  - intros r Hr. exists (if p r then f r else r). split; [apply in_update; eauto|].
    destruct (p r) eqn:Hp; auto using evolves_refl.
Qed.

Section Operations.
Context {T : TimeCrate} {E : Env} {B : BtwHost}.

Lemma open_frame : steps (@db_eq btwdb) open.
Proof. unfold open. step_through. Qed.
#[local] Hint Resolve open_frame : steps.
Lemma get_frame id : steps (@db_eq btwdb) (get id).
Proof. unfold get, with_connection. step_through. Qed.
#[local] Hint Resolve get_frame : steps.
Lemma get_all_frame ids : steps (@db_eq btwdb) (get_all ids).
Proof. induction ids; cbn [get_all]; step_through. Qed.
Lemma new_request_id_frame : steps (@db_eq btwdb) new_request_id.
Proof. unfold new_request_id. step_through. Qed.
#[local] Hint Resolve get_all_frame new_request_id_frame : steps.

Lemma is_pending r : (status r =?s "pending") = true -> status r = "pending"%string /\ is_active r = true.
Proof. intros Hs. bool_simpl. split; [done|]. unfold is_active. by rewrite Hs. Qed.
Lemma is_running r : (status r =?s "running") = true -> status r = "running"%string /\ is_active r = true.
Proof. intros Hs. bool_simpl. split; [done|]. unfold is_active. by rewrite Hs. Qed.
Lemma active_rank r : is_active r = true -> (rank (status r) <= 1)%nat.
Proof. unfold is_active. intros Ha. apply str_in_In in Ha as [<-|[<-|[]]]; cbn; lia. Qed.
(** An active request has nothing of an end. *)
Lemma active_ok r : is_active r = true -> request_ok r -> finished_at r = None /\ result r = None /\ error r = None.
Proof. intros Ha (_ & _ & Hf). destruct (finished_at r); [destruct Hf; congruence|]. intuition. Qed.

Lemma update_request_safe id p f :
  (forall r, p r = true -> evolves r (f r)) -> (forall r, p r = true -> request_ok r -> request_ok (f r)) ->
  steps (on_db btw_safe) (update_request id p f).
Proof.
  intros He Hok. unfold update_request. db_steps.
  apply update_safe; intros r Hr; apply andb_true_iff in Hr as [_ Hr]; auto.
Qed.

Lemma btw_mark_running_safe id c : steps (on_db btw_safe) (mark_running id c).
Proof.
  unfold mark_running, with_connection. db_steps. apply update_request_safe; intros r Hp; apply is_pending in Hp as [Hs Ha].
  - split; [done|rewrite Hs; cbn; lia|congruence|]. cbn. unfold stamp_kept. by destruct (response_delivered_at r).
  - intros Hok. destruct (active_ok r Ha Hok) as (Hf & Hr & He). destruct Hok as (Hb1 & Hb2 & _).
    split; [done|]. split; [done|]. cbn. rewrite Hf. done.
Qed.
Lemma set_correlation_safe id c : steps (on_db btw_safe) (set_provider_correlation id c).
Proof.
  unfold set_provider_correlation, with_connection. db_steps. apply update_request_safe; intros r Hp; apply is_running in Hp as [Hs Ha].
  - split; [done|cbn; lia|congruence|]. cbn. unfold stamp_kept. by destruct (response_delivered_at r).
  - intros (Hb1 & Hb2 & Hf). split; [done|]. by split.
Qed.

(** The ends a request can have. *)
Definition end_ok (status_ : string) (result_ error_ : option string) : Prop :=
  bounded result_ /\ bounded error_ /\
  (status_ = "completed"%string /\ is_some result_ = true /\ error_ = None \/
   str_in status_ ["failed"; "timed_out"]%string = true /\ result_ = None /\ is_some error_ = true).
Lemma end_rank status_ result_ error_ : end_ok status_ result_ error_ -> rank status_ = 2%nat.
Proof. intros (_ & _ & [(-> & _)|(Hs & _)]); [done|]. apply str_in_In in Hs as [<-|[<-|[]]]; done. Qed.
Lemma end_inactive status_ result_ error_ : end_ok status_ result_ error_ -> str_in status_ ["pending"; "running"]%string = false.
Proof. intros (_ & _ & [(-> & _)|(Hs & _)]); [done|]. apply str_in_In in Hs as [<-|[<-|[]]]; done. Qed.

Lemma btw_finish_safe id status_ result_ error_ :
  end_ok status_ result_ error_ -> steps (on_db btw_safe) (finish id status_ result_ error_).
Proof.
  intros Hend. unfold finish, with_connection. db_steps. apply update_request_safe; intros r Ha.
  - split; [done| |congruence|].
    + cbn [status]. pose proof (active_rank r Ha). pose proof (end_rank _ _ _ Hend) as Hr. cbn. rewrite Hr. lia.
    + cbn. unfold stamp_kept. by destruct (response_delivered_at r).
  - intros _. pose proof (end_inactive _ _ _ Hend) as Hi. destruct Hend as (Hb1 & Hb2 & Hcase).
    split; [done|]. split; [done|]. cbn. split; [exact Hi|exact Hcase].
Qed.
Lemma complete_safe id s : steps (on_db btw_safe) (complete id s).
Proof. apply btw_finish_safe. split; [apply bound_utf8_length|]. split; [done|by left]. Qed.
Lemma fail_safe id s : steps (on_db btw_safe) (fail id s).
Proof. apply btw_finish_safe. split; [done|]. split; [apply bound_utf8_length|by right]. Qed.
Lemma time_out_safe id s : steps (on_db btw_safe) (time_out id s).
Proof. apply btw_finish_safe. split; [done|]. split; [apply bound_utf8_length|by right]. Qed.

Lemma delivered_safe id : steps (on_db btw_safe) (mark_response_delivered id).
Proof.
  unfold mark_response_delivered, with_connection. db_steps. apply update_request_safe; intros r Hp.
  - split; [done|done| |].
    + intros _. repeat split. cbn. unfold stamp_kept. by destruct (response_undeliverable_at r).
    + by destruct (response_delivered_at r).
  - intros (Hb1 & Hb2 & Hf). split; [done|]. by split.
Qed.
Lemma undeliverable_safe id : steps (on_db btw_safe) (mark_response_undeliverable id).
Proof.
  unfold mark_response_undeliverable, with_connection. db_steps. apply update_request_safe; intros r Hp.
  - apply andb_true_iff in Hp as [_ Hp]. split; [done|done| |].
    + intros _. repeat split. by destruct (response_undeliverable_at r).
    + cbn. unfold stamp_kept. by destruct (response_delivered_at r).
  - intros (Hb1 & Hb2 & Hf). split; [done|]. by split.
Qed.
Lemma fail_for_session_safe session e : steps (on_db btw_safe) (fail_for_session session e).
Proof.
  unfold fail_for_session. cbv zeta. db_steps.
  apply update_safe; intros r Hp; apply andb_true_iff in Hp as [Ha _].
  - split; [done| |congruence|].
    + pose proof (active_rank r Ha). cbn. lia.
    + cbn. unfold stamp_kept. by destruct (response_delivered_at r).
  - intros (Hb1 & _ & _). split; [done|]. split; [apply bound_utf8_length|]. cbn. split; [done|]. by right.
Qed.

Lemma insert_request_safe row :
  request_ok row -> steps (on_db btw_safe) (insert_request row).
Proof.
  intros Hok w. unfold insert_request, bind, query, gets, on_db. rewrite existsb_has_key.
  destruct (lookup_row request_id (request_id row) (requests (w_db w))) eqn:Hl; cbn [is_some]; [cbn; reflexivity|].
  destruct (is_active row && existsb (active_for (target_session_id row)) (requests (w_db w))) eqn:Hbusy; [cbn; reflexivity|].
  cbn. rewrite lookup_row_None in Hl. split.
  - intros [Hu Ho Hr]. split; cbn; [by apply unique_insert| |].
    + assert (Hnew : forall r, In r (requests (w_db w)) -> is_active r = true -> is_active row = true ->
        target_session_id r = target_session_id row -> False).
      { intros r Hin Ha Har Ht. rewrite Har in Hbusy. cbn in Hbusy.
        assert (existsb (active_for (target_session_id row)) (requests (w_db w)) = true) as Hx; [|congruence].
        apply existsb_exists. exists r. split; [done|]. unfold active_for. by rewrite Ht, String.eqb_refl. }
      intros r1 r2 H1 H2 A1 A2 Ht. apply in_app_or in H1, H2. destruct H1 as [H1|[<-|[]]], H2 as [H2|[<-|[]]]; auto.
      * by destruct (Hnew r1).
      * by destruct (Hnew r2).
    + intros r H1. apply in_app_or in H1 as [H1|[<-|[]]]; auto.
  - intros r Hr. exists r. split; [apply in_or_app; by left|apply evolves_refl].
Qed.
#[local] Hint Resolve insert_request_safe : steps.
Lemma btw_create_safe requester target provider mode text : steps (on_db btw_safe) (create requester target provider mode text).
Proof. unfold create, create_in_transaction. db_steps. apply insert_request_safe. repeat split. Qed.
End Operations.

(** ** Executions *)
Section Executions.
Context {T : TimeCrate} {E : Env} {B : BtwHost}.

Inductive btw_step : world btwdb -> world btwdb -> Prop :=
| step_create requester target provider mode text w :
    btw_step w (snd (create requester target provider mode text w))
| step_running id c w : btw_step w (snd (mark_running id c w))
| step_correlation id c w : btw_step w (snd (set_provider_correlation id c w))
| step_complete id s w : btw_step w (snd (complete id s w))
| step_fail id s w : btw_step w (snd (fail id s w))
| step_time_out id s w : btw_step w (snd (time_out id s w))
| step_delivered id w : btw_step w (snd (mark_response_delivered id w))
| step_undeliverable id w : btw_step w (snd (mark_response_undeliverable id w))
| step_fail_session session s w : btw_step w (snd (fail_for_session session s w))
| step_time w n : btw_step w (World (w_db w) (w_tick w + n)).

Lemma btw_step_safe w w' : btw_step w w' -> on_db btw_safe w w'.
Proof.
  destruct 1; [apply btw_create_safe|apply btw_mark_running_safe|apply set_correlation_safe|apply complete_safe|apply fail_safe
    |apply time_out_safe|apply delivered_safe|apply undeliverable_safe|apply fail_for_session_safe|unfold on_db; cbn; reflexivity].
Qed.
Lemma btw_execution_safe w w' : rtc btw_step w w' -> on_db btw_safe w w'.
Proof. induction 1 as [w|w1 w2 w3 Hs _ IH]; [reflexivity|]. etransitivity; [by apply btw_step_safe|done]. Qed.

(** C16: In every execution of the store, from a well-formed database: at most one request per
    target session is pending or running; every request keeps its identity and question, its
    status only moves from pending to running to an end; a request that has ended keeps its
    status, answer, error and times, and a delivery stamp, once set, stays; and stored answers
    and errors never exceed their limit. *)
Theorem btw_lifecycle w w' :
  rtc btw_step w w' -> btw_wf (w_db w) ->
  btw_wf (w_db w') /\
  forall r, In r (requests (w_db w)) ->
    exists r', lookup_row request_id (request_id r) (requests (w_db w')) = Some r' /\ evolves r r'.
Proof.
  intros Hx Hwf. destruct (btw_execution_safe _ _ Hx) as [Hk He]. split; [auto|]. intros r Hr.
  destruct (He r Hr) as (r' & Hr' & Hev). exists r'. split; [|done].
  destruct (ev_question _ _ Hev) as (<- & _). apply lookup_row_unique; [|done]. by apply wf_ids, Hk.
Qed.
End Executions.

(** ** Results *)
Section Results.
Context {T : TimeCrate} {E : Env} {B : BtwHost}.

Lemma open_run w : exists r, open w = (r, World (w_db w) (S (w_tick w))) /\ r <> Panic.
Proof. unfold open, bind, tick, bail, ret. destruct (btw_open (w_tick w)); eexists; done. Qed.
Lemma get_inv id w o w' : get id w = (Ok o, w') -> w_db w' = w_db w /\ o = lookup_row request_id id (requests (w_db w)).
Proof.
  unfold get, with_connection, bind. destruct (open_run w) as (r & -> & _). destruct r; [|done..].
  unfold query, gets. cbn. by intros [= <- <-].
Qed.
Lemma get_db id w : w_db (snd (get id w)) = w_db w.
Proof. exact (get_frame id w). Qed.

Lemma hd_select_none target d :
  hd_error (order_by created_order (select (active_for target) (requests d))) = None ->
  forall r, In r (requests d) -> active_for target r = false.
Proof.
  intros Hh r Hr. destruct (active_for target r) eqn:Ha; [|done].
  assert (In r (order_by created_order (select (active_for target) (requests d)))) as Hin.
  { rewrite in_order_by. by apply filter_In. }
  by destruct (order_by created_order (select (active_for target) (requests d))).
Qed.
Lemma hd_select_some target d r :
  hd_error (order_by created_order (select (active_for target) (requests d))) = Some r ->
  In r (requests d) /\ active_for target r = true.
Proof.
  intros Hh. assert (In r (order_by created_order (select (active_for target) (requests d)))) as Hin.
  { destruct (order_by created_order (select (active_for target) (requests d))); [done|]. injection Hh as ->. by left. }
  rewrite in_order_by in Hin. by apply filter_In in Hin.
Qed.

(** The transaction of [create]: refused, or one row more. *)
Definition fresh_request (requester : option string) (target provider mode text id now : string) : BtwRequestRecord :=
  BtwRecord id requester target provider mode text "pending" None now None None None None None None.

Lemma insert_request_run row w :
  let '(res, w') := insert_request row w in
  (exists e, res = Err e) /\ w' = w \/
  res = Ok tt /\ lookup_row request_id (request_id row) (requests (w_db w)) = None /\
    w' = World ((w_db w) <| requests := (requests (w_db w) ++ [row])%list |>) (w_tick w).
Proof.
  unfold insert_request, bind, query, gets. rewrite existsb_has_key.
  destruct (lookup_row request_id (request_id row) (requests (w_db w))) eqn:Hl; cbn [is_some]; [left; by split; [eexists|]|].
  destruct (is_active row && _); [left; by split; [eexists|]|]. right. done.
Qed.

Lemma new_id_run w : exists id, new_request_id w = (Ok id, World (w_db w) (S (w_tick w))).
Proof. eexists. reflexivity. Qed.

Lemma create_transaction_run requester target provider mode text w :
  let '(res, w') := create_in_transaction requester target provider mode text w in
  (exists e, res = Err e) /\ w_db w' = w_db w \/
  (exists r, res = Ok (inr (request_id r)) /\ In r (requests (w_db w)) /\ active_for target r = true) /\ w_db w' = w_db w \/
  exists id now, res = Ok (inl id) /\ (forall r0, In r0 (requests (w_db w)) -> active_for target r0 = false) /\
    lookup_row request_id id (requests (w_db w)) = None /\
    requests (w_db w') = insert (requests (w_db w)) (fresh_request requester target provider mode text id now).
Proof.
  unfold create_in_transaction. unfold bind at 1, query, gets.
  destruct (hd_error _) as [r0|] eqn:Hh; cbn [option_map].
  - apply hd_select_some in Hh as [Hin Ha]. cbn. right. left. eauto.
  - pose proof (hd_select_none _ _ Hh) as Hnone. unfold bind at 1. destruct (new_id_run w) as [id ->].
    unfold bind at 1. match goal with |- context [now_rfc3339 ?ww] => destruct (now_rfc3339_run ww) as [now ->] end.
    unfold bind. fold (fresh_request requester target provider mode text id now).
    match goal with |- context [insert_request ?row ?ww] => pose proof (insert_request_run row ww) as Hi;
      destruct (insert_request row ww) as [res w2] end.
    destruct Hi as [[(e & ->) ->]|(-> & Hl & ->)]; [left; by split; [eexists|]|].
    right. right. exists id, now. done.
Qed.

(** Creating a request for a target that has an active one fails with that request's id
    and changes nothing; otherwise it adds exactly one row, the pending request asked for,
    under an id not used before, and returns it.  An error leaves the store as it was, unless
    only the final read failed, and then the request is stored. *)
Theorem btw_create_exclusive requester target provider mode text w :
  let '(res, w') := create requester target provider mode text w in
  match res with
  | Ok (inr id) => w_db w' = w_db w /\
      exists r, In r (requests (w_db w)) /\ request_id r = id /\ active_for target r = true
  | Ok (inl r) => (forall r0, In r0 (requests (w_db w)) -> active_for target r0 = false) /\
      exists id now, r = fresh_request requester target provider mode text id now /\
        lookup_row request_id id (requests (w_db w)) = None /\
        requests (w_db w') = (requests (w_db w) ++ [r])%list
  | _ => w_db w' = w_db w \/
      (forall r0, In r0 (requests (w_db w)) -> active_for target r0 = false) /\
      exists id now, requests (w_db w') =
        (requests (w_db w) ++ [fresh_request requester target provider mode text id now])%list
  end.
Proof.
  unfold create. unfold bind at 1. destruct (open_run w) as (r & -> & Hr). destruct r as [[]|e|]; [|by left|done].
  unfold bind at 1, transaction. pose proof (create_transaction_run requester target provider mode text (World (w_db w) (S (w_tick w)))) as Hc.
  cbn [w_db] in Hc.
  destruct (create_in_transaction _ _ _ _ _ _) as [res w1].
  destruct Hc as [[(e & ->) Hd]|[[(r & -> & Hin & Ha) Hd]|(id & now & -> & Hnone & Hl & Hd)]]; [by left|cbn; eauto 6|].
  unfold bind at 1. pose proof (get_inv id w1) as Hg. pose proof (get_db id w1) as Hdb.
  destruct (get id w1) as [[o|e|] w3]; cbn [snd] in Hdb; [|right; split; [done|]; rewrite Hdb; eauto..].
  destruct (Hg o w3 eq_refl) as [_ ->]. rewrite Hd.
  change id with (request_id (fresh_request requester target provider mode text id now)) at 1.
  rewrite lookup_row_insert_eq by done. cbn -[fresh_request]. split; [done|]. exists id, now. rewrite Hdb. done.
Qed.

Lemma get_all_inv ids w rs w' :
  get_all ids w = (Ok rs, w') -> w_db w' = w_db w /\
  rs = flat_map (fun id => match lookup_row request_id id (requests (w_db w)) with Some r => [r] | None => [] end) ids.
Proof.
  revert w rs w'. induction ids as [|id ids IH]; intros w rs w' Hrun; cbn [get_all] in Hrun; [by injection Hrun as <- <-|].
  apply bind_Ok_inv in Hrun as (o & w1 & [Hd ->]%get_inv & Hrun). apply bind_Ok_inv in Hrun as (rest & w2 & [Hd2 ->]%IH & Hrun).
  injection Hrun as <- <-. split; [congruence|]. rewrite Hd. cbn. by destruct (lookup_row request_id id (requests (w_db w))).
Qed.

(** The requests that fail with a session. *)
Definition doomed (session : string) (r : BtwRequestRecord) : bool := is_active r && involves session r.

(** Failing a session's requests, when it returns, has ended exactly the pending and
    running requests the session asked or was asked, with the given error cut to its limit
    and one time for all; requests asked by the session also become undeliverable; no other
    request changes; the result lists the failed requests by creation time; and no active
    request involves the session any more. *)
Theorem btw_session_failed session e w rs w' :
  unique request_id (requests (w_db w)) -> fail_for_session session e w = (Ok rs, w') ->
  exists now,
    requests (w_db w') = map (fun r => if doomed session r
      then failed_row session (bound_utf8 (trim e) MAX_BTW_RESULT_BYTES) now r else r) (requests (w_db w)) /\
    rs = map (failed_row session (bound_utf8 (trim e) MAX_BTW_RESULT_BYTES) now)
           (order_by created_order (List.filter (doomed session) (requests (w_db w)))) /\
    forall r, In r (requests (w_db w')) -> doomed session r = false.
Proof.
  intros Hu Hrun. unfold fail_for_session in Hrun. cbv zeta in Hrun. set (err := bound_utf8 _ _) in *.
  apply bind_Ok_inv in Hrun as ([] & w1 & H1 & Hrun). pose proof (open_frame w) as Hd1. rewrite H1 in Hd1. unfold db_eq, on_db in Hd1. cbn in Hd1.
  apply bind_Ok_inv in Hrun as (ids & w2 & H2%transaction_Ok_inv & Hrun).
  apply bind_Ok_inv in H2 as (ids0 & w3 & H3 & H2). injection H3 as <- <-.
  unfold bind at 1 in H2. destruct (now_rfc3339_run w1) as [now Hnow]. rewrite Hnow in H2.
  unfold bind at 1, execute, ret in H2. cbn [w_db w_tick fst snd] in H2. injection H2 as <- <-. rewrite Hd1 in Hrun.
  apply get_all_inv in Hrun as [Hd ->]. cbn [w_db] in Hd. fold (doomed session) in *. exists now.
  assert (Hreq : requests (w_db w') = update (doomed session) (failed_row session err now) (requests (w_db w))) by (by rewrite Hd).
  split; [exact Hreq|]. split.
  - cbn [w_db requests]. rewrite flat_map_concat_map, map_map, <- flat_map_concat_map.
    change (List.filter (doomed session) (requests (w_db w))) with (select (doomed session) (requests (w_db w))).
    assert (Hall : forall r, In r (order_by created_order (select (doomed session) (requests (w_db w)))) ->
      In r (requests (w_db w)) /\ doomed session r = true) by (intros r; rewrite in_order_by; apply filter_In).
    induction (order_by created_order (select (doomed session) (requests (w_db w)))) as [|r l IH]; [done|].
    cbn [flat_map map]. rewrite IH by (intros; apply Hall; by right). destruct (Hall r (or_introl eq_refl)) as [Hin Hp].
    change (requests _) with (update (doomed session) (failed_row session err now) (requests (w_db w))) at 1.
    rewrite (lookup_row_update request_id), (lookup_row_unique request_id _ r) by done. cbn. by rewrite Hp.
  - intros r Hr. rewrite Hreq in Hr. apply in_update in Hr as (r0 & _ & ->).
    destruct (doomed session r0) eqn:Hp; [done|exact Hp].
Qed.
End Results.

(** ** A concrete store *)
#[export] Instance demo_btw_host : BtwHost := {| btw_open := fun _ => None |}.
Definition demo_asked : world btwdb :=
  snd (create (Some "asker"%string) "worker" "codex" "session" "status?" (World (BtwDb []) O)).
Definition demo_request : BtwRequestRecord :=
  hd (fresh_request None "" "" "" "" "" "") (requests (w_db demo_asked)).
Definition demo_answered : world btwdb :=
  snd (complete (request_id demo_request) "all done" (snd (mark_running (request_id demo_request) None demo_asked))).
Lemma empty_btw_wf : btw_wf (BtwDb []).
Proof. split; cbn; [constructor|done|done]. Qed.
Lemma demo_asked_wf : btw_wf (w_db demo_asked).
Proof.
  destruct (btw_create_safe (Some "asker"%string) "worker" "codex" "session" "status?" (World (BtwDb []) O)) as [Hk _].
  apply Hk, empty_btw_wf.
Qed.
Lemma demo_asked_rows : requests (w_db demo_asked) = [demo_request].
Proof. vm_compute. reflexivity. Qed.
Lemma demo_answer : rtc btw_step demo_asked demo_answered.
Proof.
  apply (rtc_l _ demo_asked (snd (mark_running (request_id demo_request) None demo_asked))); [apply step_running|].
  apply (rtc_l _ _ demo_answered); [unfold demo_answered; apply step_complete|apply rtc_refl].
Qed.

Lemma btw_lifecycle_witness :
  btw_wf (w_db demo_answered) /\
  forall r, In r (requests (w_db demo_asked)) ->
    exists r', lookup_row request_id (request_id r) (requests (w_db demo_answered)) = Some r' /\ evolves r r'.
Proof. exact (btw_lifecycle demo_asked demo_answered demo_answer demo_asked_wf). Defined.

Definition demo_dropped : outcome (list BtwRequestRecord) * world btwdb := fail_for_session "asker" "gone" demo_asked.
Lemma btw_session_failed_witness :
  exists now,
    requests (w_db (snd demo_dropped)) = map (fun r => if doomed "asker" r
      then failed_row "asker" (bound_utf8 (trim "gone") MAX_BTW_RESULT_BYTES) now r else r) (requests (w_db demo_asked)) /\
    (match fst demo_dropped with Ok rs => rs | _ => [] end)
      = map (failed_row "asker" (bound_utf8 (trim "gone") MAX_BTW_RESULT_BYTES) now)
           (order_by created_order (List.filter (doomed "asker") (requests (w_db demo_asked)))) /\
    forall r, In r (requests (w_db (snd demo_dropped))) -> doomed "asker" r = false.
Proof.
  apply (btw_session_failed "asker" "gone" demo_asked).
  - exact (wf_ids _ demo_asked_wf).
  - vm_compute. reflexivity.
Defined.
