(* ===== verification/BtwText.v ===== *)
(** * Prompts and answers of side questions

    The text functions of btw.rs: the prompt check, the event reader, and the extraction of
    an answer from a terminal snapshot.  Text is UTF-8, byte by byte; the JSON parser is a
    parameter. *)
From Stdlib Require Import ZArith Lia Bool String Ascii List.
From stdpp Require Import base tactics list strings.
From S2P Require Import Prelude Text StrMethods Clock Json Btw.

(** ** Prompts *)
(** [chars().any(|ch| ch == '\n' || .. || ch.is_control())]: U+0000..U+001F and
    U+007F..U+009F. *)
Fixpoint has_control (l : list ascii) : bool :=
  match l with
  | [] => false
  | c :: r =>
      ((N_of_ascii c <? 32) || (N_of_ascii c =? 127)
       || ((N_of_ascii c =? 194) && match r with d :: _ => byte_in 128 159 d | [] => false end))%N
      || has_control r
  end.
Definition validate_prompt (prompt : option string) : outcome string :=
  let prompt := trim (unwrap_or DEFAULT_BTW_PROMPT prompt) in
  let prompt := if prompt =?s "" then DEFAULT_BTW_PROMPT else prompt in
  if Nat.ltb MAX_BTW_PROMPT_BYTES (length (bytes_of prompt)) then
    Err ("prompt exceeds " +:+ show_Z (Z.of_nat MAX_BTW_PROMPT_BYTES) +:+ " UTF-8 bytes")
  else if has_control (bytes_of prompt) then Err "prompt must be a single line without control characters"%string
  else Ok prompt.

(** ** Events *)
(** [inl]: the answer; [inr]: the provider's error. *)
Definition codex_btw_event `{P : JsonParser} (line request_id : string) : option (string + string) :=
  bind_opt (parse_json (trim line)) (fun event =>
  bind_opt (bind_opt (get_field "event_type" event) as_str) (fun event_type =>
  bind_opt (bind_opt (get_field "payload" event) as_object) (fun payload =>
  bind_opt (bind_opt (field "request_id" payload) as_str) (fun id =>
  if negb (id =?s request_id) then None
  else if event_type =?s "btw_completed" then
    Some (inl (unwrap_or ""%string (bind_opt (field "result" payload) as_str)))
  else if event_type =?s "btw_failed" then
    Some (inr (unwrap_or "provider_failed"%string (bind_opt (field "error" payload) as_str)))
  else None)))).

(** The frame characters, U+2500, U+2502 and U+256D..U+2570. *)
Definition box (c d e : ascii) : bool :=
  ((N_of_ascii c =? 226)
   && (((N_of_ascii d =? 148) && ((N_of_ascii e =? 128) || (N_of_ascii e =? 130)))
       || ((N_of_ascii d =? 149) && byte_in 173 176 e)))%N.
Fixpoint trim_box_start (l : list ascii) : list ascii :=
  match l with
  | c :: ((d :: (e :: r)) as _) => if box c d e then trim_box_start r else l
  | _ => l
  end.
Fixpoint trim_box_end_rev (l : list ascii) : list ascii :=
  match l with
  | e :: ((d :: (c :: r)) as _) => if box c d e then trim_box_end_rev r else l
  | _ => l
  end.
(** [trim_matches] of the frame characters. *)
Definition trim_box (s : string) : string :=
  of_bytes (rev (trim_box_end_rev (rev (trim_box_start (bytes_of s))))).
(** U+203A. *)
Definition chevron : list ascii := map ascii_of_N [226; 128; 186]%N.
Definition is_chevron (c d e : ascii) : bool :=
  ((N_of_ascii c =? 226) && (N_of_ascii d =? 128) && (N_of_ascii e =? 186))%N.
(** [trim_start_matches] of the two prompt marks. *)
Fixpoint trim_marks (l : list ascii) : list ascii :=
  match l with
  | c :: r =>
      if Ascii.eqb c ">"%char then trim_marks r
      else match r with
           | d :: (e :: r3) => if is_chevron c d e then trim_marks r3 else l
           | _ => l
           end
  | [] => []
  end.

(** ** The answer in a terminal snapshot *)
(** [rposition]. *)
Fixpoint rposition {A} (p : A -> bool) (l : list A) : option nat :=
  match l with
  | [] => None
  | x :: r => match rposition p r with
              | Some i => Some (S i)
              | None => if p x then Some O else None
              end
  end.
Definition normalize (s : string) : string := join " " (split_whitespace s).
Definition prompt_part (line : string) : string :=
  trim (of_bytes (trim_marks (bytes_of (trim (trim_box line))))).
(** The inner loop: the lines from [start] on, [index] the first one's index. *)
Fixpoint match_from (prompt candidate : string) (index : nat) (ls : list string) : option nat :=
  match ls with
  | [] => None
  | line :: rest =>
      let part := prompt_part line in
      if part =?s "" then match_from prompt candidate (S index) rest
      else
        let candidate := (if candidate =?s "" then "" else candidate +:+ " ") +:+ part in
        let normalized := normalize candidate in
        if normalized =?s prompt then Some index
        else if negb (starts_with prompt normalized) then None
        else match_from prompt candidate (S index) rest
  end.
(** The outer loop: [start] from the last line down. *)
Fixpoint match_starts (prompt : string) (ls : list string) (starts : nat) : option nat :=
  match starts with
  | O => None
  | S start =>
      match match_from prompt "" start (drop start ls) with
      | Some index => Some index
      | None => match_starts prompt ls start
      end
  end.
Definition stock_codex_prompt_end (ls : list string) (prompt : string) : option nat :=
  match rposition (fun line => (line =?s prompt) || ends_with line prompt) ls with
  | Some index => Some index
  | None => match_starts (normalize prompt) ls (length ls)
  end.

Definition is_footer (line : string) : bool :=
  contains line "Side from main thread" || contains line "Ctrl+C to return"
  || starts_with line "tokens used" || starts_with line "context left".
Definition is_chrome (cleaned : string) : bool :=
  (cleaned =?s "") || starts_with cleaned (of_bytes chevron) || starts_with cleaned ">"
  || starts_with cleaned "esc ".
Definition answer_line (line : string) : option string :=
  if is_footer line then None
  else
    let cleaned := trim (trim_box line) in
    if is_chrome cleaned then None else Some cleaned.
Fixpoint answer_lines (ls : list string) : list string :=
  match ls with
  | [] => []
  | line :: rest => match answer_line line with Some cleaned => cleaned :: answer_lines rest | None => answer_lines rest end
  end.
Definition extract_stock_codex_answer (snapshot prompt : string) : option string :=
  let ls := map trim (lines snapshot) in
  bind_opt (stock_codex_prompt_end ls prompt) (fun prompt_index =>
  let answer := trim (join NL (answer_lines (drop (S prompt_index) ls))) in
  if answer =?s "" then None else Some answer).

(** ** Lines *)
Definition newline : ascii := ascii_of_N 10.
Definition one_line (l : string) : Prop := ~ In newline (bytes_of l).
(** Lines of text, each ended. *)
Definition unlines (ls : list string) : string := of_bytes (flat_map (fun l => bytes_of l ++ [newline])%list ls).

Lemma no_control_one_line s : has_control (bytes_of s) = false -> one_line s.
Proof.
  unfold one_line. induction (bytes_of s) as [|c l IH]; intros Hc; [by intros []|]. cbn [has_control] in Hc.
  apply orb_false_iff in Hc as [Hc Hl]. intros [->|Hin]; [discriminate Hc|by apply IH].
Qed.
Lemma lines_of_line l rest : ~ In newline l -> lines_of (l ++ newline :: rest)%list = l :: lines_of rest.
Proof.
  induction l as [|c l IH]; intros Hn; [done|]. cbn [app lines_of].
  destruct (Ascii.eqb_spec c (ascii_of_N 10)) as [->|_]; [destruct Hn; by left|].
  rewrite IH; [done|]. intros Hx. apply Hn. by right.
Qed.
Lemma lines_unlines ls : Forall one_line ls -> lines (unlines ls) = ls.
Proof.
  intros Hf. unfold lines, unlines. rewrite bytes_of_bytes.
  assert (lines_of (flat_map (fun l => bytes_of l ++ [newline])%list ls) = map bytes_of ls) as ->.
  { induction Hf as [|l ls Hl Hf IH]; [done|]. cbn [flat_map map]. rewrite <- app_assoc. cbn [app].
    by rewrite lines_of_line, IH. }
  rewrite map_map. rewrite <- (map_id ls) at 2. apply map_ext. intros l. apply of_bytes_of.
Qed.
Lemma rposition_last {A} (p : A -> bool) pre x post :
  p x = true -> (forall y, In y post -> p y = false) -> rposition p (pre ++ x :: post)%list = Some (length pre).
Proof.
  intros Hx Hpost. induction pre as [|y pre IH]; cbn; [|by rewrite IH].
  assert (rposition p post = None) as ->; [|by rewrite Hx].
  induction post as [|y post IH]; [done|]. cbn. rewrite IH by (intros; apply Hpost; by right).
  by rewrite (Hpost y (or_introl eq_refl)).
Qed.

(** A line that echoes the prompt. *)
Definition echoes (prompt line : string) : bool := (trim line =?s prompt) || ends_with (trim line) prompt.

(** The answer taken from a snapshot is what follows the last line that echoes the prompt:
    the lines after it without frames, footers and prompt marks, trimmed; and there is none
    when nothing else is left. *)
Theorem stock_answer_after_prompt prompt pre line post :
  Forall one_line (pre ++ line :: post) -> echoes prompt line = true ->
  (forall l, In l post -> echoes prompt l = false) ->
  extract_stock_codex_answer (unlines (pre ++ line :: post)) prompt =
    let answer := trim (join NL (answer_lines (map trim post))) in
    if answer =?s "" then None else Some answer.
Proof.
  intros Hl He Hpost. unfold extract_stock_codex_answer. rewrite lines_unlines by done. unfold stock_codex_prompt_end.
  rewrite map_app. cbn [map]. rewrite rposition_last.
  - cbn [bind_opt]. rewrite length_map.
    assert (drop (S (length pre)) (map trim pre ++ trim line :: map trim post) = map trim post)%list as ->; [|done].
    rewrite <- (length_map trim pre), drop_app_ge by lia. by rewrite Nat.sub_succ_l, Nat.sub_diag by lia.
  - exact He.
  - intros y Hy. apply in_map_iff in Hy as (l & <- & Hl'). exact (Hpost l Hl').
Qed.

(** A prompt that passes the check is not blank, fits its limit and has no control
    character, in particular no line break; a missing or blank prompt passes as the default
    one; and a prompt is refused only for its length or for a control character. *)
Lemma prompt_checked p :
  match validate_prompt p with
  | Ok s => s = (if is_blank (unwrap_or DEFAULT_BTW_PROMPT p) then DEFAULT_BTW_PROMPT else trim (unwrap_or DEFAULT_BTW_PROMPT p)) /\
      s <> ""%string /\ (length (bytes_of s) <= MAX_BTW_PROMPT_BYTES)%nat /\ has_control (bytes_of s) = false /\ one_line s
  | Err _ => is_blank (unwrap_or DEFAULT_BTW_PROMPT p) = false /\
      ((MAX_BTW_PROMPT_BYTES < length (bytes_of (trim (unwrap_or DEFAULT_BTW_PROMPT p))))%nat \/
       has_control (bytes_of (trim (unwrap_or DEFAULT_BTW_PROMPT p))) = true)
  | Panic => False
  end.
Proof.
  unfold validate_prompt, is_blank. cbv zeta.
  destruct (String.eqb_spec (trim (unwrap_or DEFAULT_BTW_PROMPT p)) "") as [He|Hne].
  - change (Nat.ltb MAX_BTW_PROMPT_BYTES (length (bytes_of DEFAULT_BTW_PROMPT))) with false.
    change (has_control (bytes_of DEFAULT_BTW_PROMPT)) with false. cbv iota.
    split; [done|]. split; [done|]. split; [by apply Nat.leb_le|]. split; [done|]. by apply no_control_one_line.
  - destruct (Nat.ltb_spec MAX_BTW_PROMPT_BYTES (length (bytes_of (trim (unwrap_or DEFAULT_BTW_PROMPT p))))); [auto|].
    destruct (has_control _) eqn:Hc; [auto|]. split; [done|]. split; [done|]. split; [lia|]. split; [done|]. by apply no_control_one_line.
Qed.

Definition demo_before : list string := ["old"%string].
Definition demo_after : list string := ["  yes "; "tokens used 5"; "and no"]%string.
Lemma stock_answer_after_prompt_witness :
  extract_stock_codex_answer (unlines (demo_before ++ "> hi"%string :: demo_after)%list) "hi" =
    let answer := trim (join NL (answer_lines (map trim demo_after))) in
    if answer =?s "" then None else Some answer.
Proof.
  apply (stock_answer_after_prompt "hi" demo_before "> hi" demo_after).
  - repeat constructor; by intros Hin; repeat destruct Hin as [Hin|Hin].
  - reflexivity.
  - intros l Hl. repeat destruct Hl as [<-|Hl]; [reflexivity..|done].
Defined.
