(* ===== verification/CodexEvents.v ===== *)
(** * Listing the events of a Codex session (codex_events.rs)

    A client follows a session by asking for the events after a sequence number, a page at
    a time.  The file belongs to another program: it may be missing, unreadable or without
    the table, which all read as no events. *)
From Stdlib Require Import ZArith Lia Bool String List Sorted Permutation.
From stdpp Require Import base tactics list strings sorting.
From S2P Require Import Prelude Text StrMethods Table Clock Json.

Definition DEFAULT_PAYLOAD_PREVIEW_CHARS : nat := 1500.

(** A row of [codex_session_events], typed as the program that makes the table declares its
    columns (codex_event_store.py: texts and an integer, [NOT NULL] but for the last two, keyed
    by session and sequence number).  Rows of that table always decode, so the branch of
    [list_codex_events_conn] that empties a page when a row does not is not reached. *)
Record event_row : Type := EventRow {
  ev_session_id : string; ev_seq : Z; ev_timestamp : string; ev_event_type : string;
  ev_turn_id : option string; ev_payload_preview_json : option string }.
(** The table, or [None] when there is none to read. *)
Definition events_db : Type := option (list event_row).

Record CodexEventRow : Type := MkEvent {
  ce_session_id : string; ce_seq : Z; ce_timestamp : string; ce_event_type : string;
  ce_turn_id : option string; ce_payload_preview : option json; ce_persisted : bool }.
Record CodexEventsResponse : Type := MkEvents {
  events : list CodexEventRow;
  earliest_seq : option Z;
  latest_seq : option Z;
  next_seq : Z;
  history_gap : bool;
  gap_reason : option string }.

(** [seq.checked_add(1).unwrap_or(i64::MAX)]. *)
Definition next_seq_value (seq : Z) : Z := if in_i64 (seq + 1) then seq + 1 else I64_MAX.
(** [i64::saturating_sub], [i64::checked_sub(1).unwrap_or(i64::MIN)]. *)
Definition i64_saturating_sub (a b : Z) : Z := Z.max I64_MIN (Z.min I64_MAX (a - b)).
Definition pred_or_min (a : Z) : Z := if in_i64 (a - 1) then a - 1 else I64_MIN.
(** [limit.clamp(1, 500)]. *)
Definition page_limit (limit : nat) : nat := Nat.min 500 (Nat.max 1 limit).

Definition empty_response (since_seq : option Z) : CodexEventsResponse :=
  MkEvents [] None None (unwrap_or 1 (option_map next_seq_value since_seq)) false None.

Section Listing.
Context `{J : JsonParser}.

Definition parse_payload_preview (raw : string) : json :=
  match parse_json raw with
  | Some v => v
  | None => json_object [("raw"%string, JString (chars_take DEFAULT_PAYLOAD_PREVIEW_CHARS raw))]
  end.
Definition event_of (session_id : string) (r : event_row) : CodexEventRow :=
  MkEvent session_id (ev_seq r) (ev_timestamp r) (ev_event_type r) (ev_turn_id r)
    (option_map parse_payload_preview (ev_payload_preview_json r)) true.

Definition of_session (session_id : string) (r : event_row) : bool := ev_session_id r =?s session_id.
(** [MIN(seq)] and [MAX(seq)]. *)
Definition min_seq (t : list event_row) : option Z :=
  match map ev_seq t with [] => None | s :: l => Some (fold_left Z.min l s) end.
Definition max_seq (t : list event_row) : option Z :=
  match map ev_seq t with [] => None | s :: l => Some (fold_left Z.max l s) end.
Definition by_seq (a b : event_row) : bool := ev_seq a <=? ev_seq b.
(** [SELECT .. WHERE session_id = ?1 AND seq >= ?2 ORDER BY seq ASC LIMIT ?3]. *)
Definition page (session_id : string) (start_seq : Z) (limit : nat) (t : list event_row) : list event_row :=
  take limit (order_by by_seq (select (fun r => of_session session_id r && (start_seq <=? ev_seq r)) t)).

Definition list_codex_events_conn (t : list event_row) (session_id : string) (since_seq : option Z) (limit : nat)
    : CodexEventsResponse :=
  let limit := page_limit limit in
  let own := select (of_session session_id) t in
  match min_seq own, max_seq own with
  | Some earliest, Some latest =>
      let '(start_seq, gap, reason) :=
        match since_seq with
        | None => (Z.max earliest (i64_saturating_sub latest (Z.of_nat limit - 1)), false, None)
        | Some seq =>
            if seq <? pred_or_min earliest then (earliest, true, Some "retention"%string)
            else (next_seq_value seq, false, None)
        end in
      let events := map (event_of session_id) (page session_id start_seq limit t) in
      let next :=
        match last events with
        | Some e => next_seq_value (ce_seq e)
        | None => unwrap_or earliest (option_map next_seq_value since_seq)
        end in
      MkEvents events (Some earliest) (Some latest) next gap reason
  | _, _ => empty_response since_seq
  end.

Definition list_codex_events_from_path (db : events_db) (session_id : string) (since_seq : option Z) (limit : nat)
    : CodexEventsResponse :=
  match db with
  | None => empty_response since_seq
  | Some t => list_codex_events_conn t session_id since_seq limit
  end.

(** ** Following a session *)
(** A client asks for the page after the last sequence number it has, [fuel] times. *)
Fixpoint follow (fuel : nat) (db : events_db) (session_id : string) (since : Z) (limit : nat)
    : list CodexEventRow :=
  match fuel with
  | O => []
  | S fuel' =>
      let r := list_codex_events_from_path db session_id (Some since) limit in
      events r ++ follow fuel' db session_id (next_seq r - 1) limit
  end%list.
(** Everything after [since], at once. *)
Definition all_after (session_id : string) (since : Z) (t : list event_row) : list CodexEventRow :=
  map (event_of session_id)
    (order_by by_seq (select (fun r => of_session session_id r && (since <? ev_seq r)) t)).
End Listing.

(** ** Sorting and selecting commute *)
Section OrderFilter.
Context {row : Type} (leb : row -> row -> bool).
Context (leb_total : forall a b, leb a b = true \/ leb b a = true)
        (leb_trans : forall a b c, leb a b = true -> leb b c = true -> leb a c = true).

Lemma order_by_strongly t : StronglySorted (fun a b => leb a b = true) (order_by leb t).
Proof. apply Sorted_StronglySorted; [exact leb_trans|]. by apply order_by_sorted. Qed.
Lemma filter_sorted_insert p r t : StronglySorted (fun a b => leb a b = true) t ->
  List.filter p (sorted_insert leb r t) = if p r then sorted_insert leb r (List.filter p t) else List.filter p t.
Proof.
  induction 1 as [|r' t Hs IH Hall]; cbn; [by destruct (p r)|].
  destruct (leb r r') eqn:E; cbn.
  - destruct (p r) eqn:Hr; [|done]. destruct (p r') eqn:Hr'; cbn; [by rewrite E|].
    destruct (List.filter p t) as [|x l] eqn:F; cbn; [done|].
    assert (In x t) as Hin by (apply (proj1 (filter_In p x t)); rewrite F; by left).
    rewrite List.Forall_forall in Hall. by rewrite (leb_trans r r' x) by auto.
  - destruct (p r') eqn:Hr'; rewrite IH; destruct (p r); cbn; by rewrite ?E.
Qed.
Lemma order_by_filter p t : order_by leb (List.filter p t) = List.filter p (order_by leb t).
Proof.
  assert (forall r t, order_by leb (r :: t) = sorted_insert leb r (order_by leb t)) as Hcons by done.
  induction t as [|r t IH]; [done|]. rewrite Hcons, filter_sorted_insert by apply order_by_strongly.
  cbn. destruct (p r); [|done]. by rewrite Hcons, IH.
Qed.
End OrderFilter.

(** In a strictly rising list, what lies above the last of the first [n] is the rest. *)
Lemma strictly_rising_split (l : list event_row) n e :
  StronglySorted (fun a b => ev_seq a < ev_seq b) l -> last (take n l) = Some e ->
  List.filter (fun r => ev_seq e <? ev_seq r) l = drop n l.
Proof.
  intros Hs He. rewrite <- (take_drop n l) in Hs |- * at 1. rewrite List.filter_app.
  apply StronglySorted_app in Hs as (Hcross & Hs1 & Hs2). 
  rewrite (filter_false _ (take n l)).
  - cbn. rewrite (filter_ext_in _ (fun _ => true)); [apply List.filter_true|].
    intros r Hin. apply Z.ltb_lt. apply Hcross; [|by apply list_elem_of_In].
    by apply last_Some_elem_of in He.
  - intros r Hin. apply Z.ltb_ge. apply list_elem_of_In in Hin.
    clear Hcross Hs2. apply last_Some in He as [l' He]. rewrite He in *.
    apply elem_of_app in Hin as [Hin| ->%list_elem_of_singleton]; [|lia].
    apply StronglySorted_app in Hs1 as (Hc & _ & _). specialize (Hc r e Hin). rewrite list_elem_of_singleton in Hc.
    specialize (Hc eq_refl). lia.
Qed.

(** ** Pages put together *)
Section Follow.
Context `{J : JsonParser} (session_id : string) (t : list event_row).
(** The session's sequence numbers are distinct and leave room for the next one. *)
Context (seq_unique : NoDup (map ev_seq (select (of_session session_id) t)))
        (seq_range : forall r, In r t -> I64_MIN < ev_seq r < I64_MAX).

Definition after (since : Z) : list event_row :=
  order_by by_seq (select (fun r => of_session session_id r && (since <? ev_seq r)) t).

Lemma by_seq_total a b : by_seq a b = true \/ by_seq b a = true.
Proof. unfold by_seq. lia. Qed.
Lemma by_seq_trans a b c : by_seq a b = true -> by_seq b c = true -> by_seq a c = true.
Proof. unfold by_seq. lia. Qed.

Lemma own_rising : StronglySorted (fun a b => ev_seq a < ev_seq b) (order_by by_seq (select (of_session session_id) t)).
Proof.
  assert (NoDup (map ev_seq (order_by by_seq (select (of_session session_id) t)))) as Hnd.
  { rewrite NoDup_ListNoDup in *. eapply Permutation_NoDup; [|exact seq_unique]. apply Permutation_map, order_by_perm. }
  pose proof (order_by_strongly by_seq by_seq_total by_seq_trans (select (of_session session_id) t)) as Hs.
  revert Hnd. induction Hs as [|r l Hs IH Hall]; [constructor|]. cbn. intros [Hni Hnd]%NoDup_cons.
  constructor; [by apply IH|]. rewrite List.Forall_forall in *. intros r' Hin. specialize (Hall r' Hin).
  unfold by_seq in Hall. assert (ev_seq r <> ev_seq r'); [|lia]. intros E. apply Hni.
  rewrite list_elem_of_In, in_map_iff. by exists r'.
Qed.
Lemma after_filter since : after since = List.filter (fun r => since <? ev_seq r) (order_by by_seq (select (of_session session_id) t)).
Proof.
  unfold after, select. rewrite filter_and. by rewrite (order_by_filter by_seq by_seq_total by_seq_trans).
Qed.
Lemma after_rising since : StronglySorted (fun a b => ev_seq a < ev_seq b) (after since).
Proof.
  rewrite after_filter. induction own_rising as [|r l Hs IH Hall]; cbn; [constructor|].
  destruct (since <? ev_seq r); [|done]. constructor; [done|]. rewrite List.Forall_forall in *.
  intros x [Hin _]%filter_In. auto.
Qed.
Lemma after_after since s : since <= s -> after s = List.filter (fun r => s <? ev_seq r) (after since).
Proof.
  intros H. rewrite !after_filter, <- filter_and. apply filter_ext. intros r. lia.
Qed.
Lemma in_after since r : In r (after since) <-> In r t /\ of_session session_id r = true /\ since < ev_seq r.
Proof. unfold after. rewrite in_order_by, in_select, andb_true_iff. by rewrite Z.ltb_lt. Qed.

Lemma fold_min_le l s x : x = s \/ In x l -> fold_left Z.min l s <= x.
Proof.
  revert s x. induction l as [|y l IH]; intros s x; cbn; [intros [->|[]]; reflexivity|].
  intros H. assert (fold_left Z.min l (Z.min s y) <= Z.min s y) by (apply IH; by left).
  destruct H as [->|[->|H]]; [lia..|]. apply IH. by right.
Qed.
Lemma min_seq_le earliest r : min_seq (select (of_session session_id) t) = Some earliest ->
  In r t -> of_session session_id r = true -> earliest <= ev_seq r.
Proof.
  unfold min_seq. destruct (map ev_seq _) as [|s l] eqn:E; [done|]. intros [= <-] Hin Ho.
  assert (In (ev_seq r) (s :: l)) as [->|Hl] by (rewrite <- E; apply in_map, in_select; done).
  - apply fold_min_le. by left.
  - apply fold_min_le. by right.
Qed.

Lemma fold_min_in l s : fold_left Z.min l s = s \/ In (fold_left Z.min l s) l.
Proof.
  revert s. induction l as [|y l IH]; intros s; cbn; [by left|].
  destruct (IH (Z.min s y)) as [->|H]; [|by right; right].
  destruct (Z.min_spec s y) as [[_ ->]|[_ ->]]; auto.
Qed.
Lemma min_seq_in earliest : min_seq (select (of_session session_id) t) = Some earliest ->
  exists r, In r t /\ ev_seq r = earliest.
Proof.
  unfold min_seq. destruct (map ev_seq _) as [|s l] eqn:E; [done|]. intros [= <-].
  assert (In (fold_left Z.min l s) (s :: l)) as Hin by (destruct (fold_min_in l s) as [->|?]; cbn; auto).
  rewrite <- E in Hin. apply in_map_iff in Hin as (r & Hr & Hin). exists r. split; [|done]. by apply in_select in Hin as [? _].
Qed.

Lemma next_seq_ok s : I64_MIN <= s < I64_MAX -> next_seq_value s = s + 1.
Proof.
  intros H. unfold next_seq_value, in_i64. destruct (Z.leb_spec I64_MIN (s + 1)); [|lia].
  by destruct (Z.leb_spec (s + 1) I64_MAX); [|lia].
Qed.

(** One page is the first rows after [since]. *)
Lemma page_after since limit : I64_MIN <= since < I64_MAX ->
  let r := list_codex_events_conn t session_id (Some since) limit in
  events r = map (event_of session_id) (take (page_limit limit) (after since))
  /\ next_seq r = match last (take (page_limit limit) (after since)) with
                  | Some e => ev_seq e + 1 | None => since + 1 end.
Proof.
  intros Hs. unfold list_codex_events_conn.
  assert (next_seq_value since = since + 1) as Hnext by (by apply next_seq_ok).
  destruct (min_seq _) as [earliest|] eqn:Emin.
  2: { cbn. unfold min_seq in Emin. rewrite Hnext. destruct (map ev_seq _) eqn:E; [|done]. apply map_eq_nil in E.
       assert (after since = []) as ->; [|by rewrite take_nil]. rewrite after_filter, E. done. }
  destruct (max_seq _) as [latest|] eqn:Emax.
  2: { unfold min_seq, max_seq in *. by destruct (map ev_seq _). }
  set (start := if since <? pred_or_min earliest then earliest else next_seq_value since).
  assert (page session_id start (page_limit limit) t = take (page_limit limit) (after since)) as Hpage.
  { unfold page, after. do 2 f_equal. unfold select. apply filter_ext_in. intros r Hin.
    destruct (of_session session_id r) eqn:Ho; [|done]. cbn. pose proof (min_seq_le _ _ Emin Hin Ho) as Hle.
    unfold start. rewrite Hnext. destruct (Z.ltb_spec since (pred_or_min earliest)) as [Hg|Hg]; [|lia].
    assert (pred_or_min earliest <= earliest).
    { destruct (min_seq_in _ Emin) as (r0 & Hin0 & <-). pose proof (seq_range r0 Hin0).
      unfold pred_or_min. destruct (in_i64 _); lia. }
    lia. }
  assert (forall e, last (take (page_limit limit) (after since)) = Some e -> next_seq_value (ev_seq e) = ev_seq e + 1) as Hlast.
  { intros e He. apply last_Some_elem_of in He. apply elem_of_take in He as (i & He & _).
    apply list_elem_of_lookup_2, list_elem_of_In, in_after in He as [Hin _]. specialize (seq_range e Hin).
    apply next_seq_ok. lia. }
  destruct (since <? pred_or_min earliest) eqn:Eg; fold start; cbn [events next_seq]; rewrite Hpage, fmap_last.
  all: destruct (last (take (page_limit limit) (after since))) as [e|] eqn:El; cbn; rewrite ?Hnext; by rewrite ?(Hlast e).
Qed.

Lemma page_limit_pos limit : (0 < page_limit limit)%nat.
Proof. unfold page_limit. lia. Qed.

Lemma follow_after fuel since limit : I64_MIN <= since < I64_MAX -> (length (after since) <= fuel)%nat ->
  follow fuel (Some t) session_id since limit = map (event_of session_id) (after since).
Proof.
  revert since. induction fuel as [|fuel IH]; intros since Hs Hlen.
  - destruct (after since); cbn in *; [done|lia].
  - cbn [follow list_codex_events_from_path]. destruct (page_after since limit Hs) as [-> ->].
    destruct (last (take (page_limit limit) (after since))) as [e|] eqn:El.
    + replace (ev_seq e + 1 - 1) with (ev_seq e) by lia.
      pose proof (strictly_rising_split _ _ _ (after_rising since) El) as Hsplit.
      assert (In e (after since)) as He.
      { apply last_Some_elem_of, elem_of_take in El as (i & El & _). by eapply list_elem_of_In, list_elem_of_lookup_2. }
      apply in_after in He as (Hin & _ & Hlt). pose proof (seq_range e Hin).
      assert (after (ev_seq e) = drop (page_limit limit) (after since)) as Hrest
        by (rewrite (after_after since) by lia; done).
      rewrite IH; [|lia|].
      * rewrite Hrest, <- map_app. by rewrite take_drop.
      * rewrite Hrest, length_drop. pose proof (page_limit_pos limit).
        destruct (after since) as [|x l]; [by rewrite take_nil in El|]. cbn [length] in *. lia.
    + apply last_None in El. assert (after since = []) as Hnil.
      { pose proof (page_limit_pos limit). destruct (after since) as [|x l]; [done|]. by destruct (page_limit limit); [lia|]. }
      replace (since + 1 - 1) with since by lia. rewrite IH by (try done; rewrite Hnil; cbn; lia).
      by rewrite El, Hnil.
Qed.
End Follow.

(** C23: Reading a session page by page is reading it at once: a client that always asks
    for what follows the last sequence number it was given sees every event after [since]
    exactly once and in order, whatever the page size, after as many requests as there are
    events. *)
Theorem following_is_complete `{J : JsonParser} t session_id since limit fuel :
  NoDup (map ev_seq (select (of_session session_id) t)) ->
  (forall r, In r t -> I64_MIN < ev_seq r < I64_MAX) ->
  I64_MIN <= since < I64_MAX ->
  (length (all_after session_id since t) <= fuel)%nat ->
  follow fuel (Some t) session_id since limit = all_after session_id since t.
Proof.
  intros Hu Hr Hs Hf. apply follow_after; try done. unfold all_after in Hf. by rewrite length_map in Hf.
Qed.

#[local] Instance events_json : JsonParser := {| parse_json := fun _ => None; json_text := fun _ => ""%string |}.
Definition demo_events : list event_row :=
  [EventRow "a" 7 "t" "turn" None None; EventRow "b" 1 "t" "turn" None None;
   EventRow "a" 3 "t" "turn" None (Some "x"%string); EventRow "a" 5 "t" "turn" None None].
Lemma following_is_complete_witness :
  follow 3 (Some demo_events) "a" 0 1 = all_after "a" 0 demo_events
  /\ map ce_seq (follow 3 (Some demo_events) "a" 0 1) = [3; 5; 7].
Proof.
  split; [|reflexivity]. apply (following_is_complete demo_events "a" 0 1 3).
  - apply (bool_decide_unpack (NoDup [7; 3; 5])). exact I.
  - intros r [<-|[<-|[<-|[<-|[]]]]]; cbn; unfold I64_MIN, I64_MAX; lia.
  - unfold I64_MIN, I64_MAX. lia.
  - apply Nat.leb_le. vm_compute. reflexivity.
Defined.
