(* ===== verification/CodexTools.v ===== *)
(** * Tool calls and pending requests (tool_usage.rs, codex_activity.rs, codex_requests.rs)

    The log of tool calls with its classification of dangerous ones, and the listings of
    Codex tool events and of requests that wait for an answer.  The listings read databases
    that other programs write: one that is missing or has no such table reads as empty. *)
From Stdlib Require Import ZArith Lia Bool String Ascii List Sorted.
From stdpp Require Import base tactics list strings.
From S2P Require Import Prelude Text StrMethods Table Clock Json.

(** ** Tool calls (tool_usage.rs) *)
Record ToolUsageEvent : Type := MkToolEvent {
  te_session_id : option string; te_claude_session_id : option string; te_session_name : option string;
  te_parent_session_id : option string; te_hook_type : string; te_tool_name : string;
  te_tool_input : option json; te_tool_response : option json; te_tool_use_id : option string;
  te_cwd : option string; te_agent_id : option string }.
Record tool_row : Type := ToolRow {
  tu_timestamp : option string; tu_event : ToolUsageEvent; tu_project_name : option string;
  tu_input : option string; tu_response : option string;
  tu_is_destructive : bool; tu_destructive_type : option string; tu_is_sensitive_file : bool;
  tu_target_file : option string; tu_bash_command : option string; tu_exit_code : option Z }.
Record ToolCallRow : Type := MkToolCall {
  tc_timestamp : option string; tc_tool_name : string; tc_hook_type : string }.

Definition json_object_string (value : option json) (key : string) : option string :=
  trimmed (bind_opt (bind_opt (bind_opt value as_object) (field key)) as_str).
Definition json_object_i64 (value : option json) (key : string) : option Z :=
  bind_opt (bind_opt (bind_opt value as_object) (field key)) as_i64.
Definition is_file_tool (tool_name : string) : bool := str_in tool_name ["Write"; "Edit"; "Read"]%string.

(** The patterns in the order they are tried, all of a list having to occur. *)
Definition destructive_patterns : list (list string * string) :=
  [(["git push"; "main"], "git_push_main"); (["git push"; "--force"], "git_push_force");
   (["git reset --hard"], "git_reset_hard"); (["git branch -d"], "git_branch_delete");
   (["rm -rf /"], "rm_root"); (["rm -rf"], "rm_recursive"); (["rm -r"], "rm_recursive");
   (["chmod 777"], "chmod_777"); (["chown"], "chown"); (["drop table"], "drop_table");
   (["drop database"], "drop_database"); (["truncate"], "truncate");
   (["npm install -g"], "npm_global_install"); (["pip install"], "pip_install");
   (["brew install"], "brew_install"); (["sudo "], "sudo"); ([".env"], "env_file");
   (["credentials"], "credentials_file"); ([".ssh"], "ssh_file"); (["id_rsa"], "ssh_key")]%string.
Definition detect_destructive (tool_name : string) (tool_input : option json) : bool * option string :=
  let text :=
    if tool_name =?s "Bash" then json_object_string tool_input "command"
    else if is_file_tool tool_name then json_object_string tool_input "file_path" else None in
  let text := to_ascii_lowercase (unwrap_or ""%string text) in
  match List.find (fun p => forallb (contains text) (fst p)) destructive_patterns with
  | Some (_, kind) => (true, Some kind)
  | None => (false, None)
  end.
Definition sensitive_needles : list string :=
  [".env"; "credentials"; "secrets"; ".ssh/"; "id_rsa"; ".aws/"; ".npmrc"; ".pypirc"]%string.
Definition detect_sensitive_file (tool_name : string) (tool_input : option json) : bool * option string :=
  let file_path :=
    if is_file_tool tool_name then json_object_string tool_input "file_path"
    else if tool_name =?s "Bash" then json_object_string tool_input "command" else None in
  match file_path with
  | None => (false, None)
  | Some path =>
      let lower := to_ascii_lowercase path in
      if existsb (contains lower) sensitive_needles then (true, Some path) else (false, None)
  end.

(** [Path::file_name]: the last component, none for a root, [.] or [..]. *)
Fixpoint drop_trailing (segments : list string) : list string :=
  match segments with
  | s :: r => if (s =?s "") || (s =?s ".") then drop_trailing r else segments
  | [] => []
  end.
Definition file_name (path : string) : option string :=
  match drop_trailing (rev (split_char "/" path)) with
  | [] => None
  | s :: _ => if s =?s ".." then None else Some s
  end.

(** The clock of SQLite's [CURRENT_TIMESTAMP]. *)
Class SqliteClock : Type := { current_timestamp : nat -> string }.

Section ToolUsage.
Context `{J : JsonParser} `{C : SqliteClock}.

Definition non_empty_json_payload (value : option json) : option string :=
  match value with
  | Some (JObject []) | Some JNull | None => None
  | Some v => Some (json_text v)
  end.
Definition tool_usage_row (timestamp : string) (e : ToolUsageEvent) : tool_row :=
  let '(is_destructive, destructive_type) := detect_destructive (te_tool_name e) (te_tool_input e) in
  let '(is_sensitive, sensitive_file) := detect_sensitive_file (te_tool_name e) (te_tool_input e) in
  let target_file :=
    match sensitive_file with
    | Some f => Some f
    | None => if is_file_tool (te_tool_name e) then json_object_string (te_tool_input e) "file_path" else None
    end in
  ToolRow (Some timestamp) e (bind_opt (te_cwd e) file_name)
    (non_empty_json_payload (te_tool_input e)) (non_empty_json_payload (te_tool_response e))
    is_destructive destructive_type is_sensitive target_file
    (json_object_string (te_tool_input e) "command") (json_object_i64 (te_tool_response e) "exitCode").
Definition log_tool_usage (e : ToolUsageEvent) : M (world (list tool_row)) unit :=
  k <- tick ;;
  execute (fun t => (insert t (tool_usage_row (current_timestamp k) e), 1%nat)) ;;; ret tt.

(** [limit as i64]: SQLite reads a negative limit as none. *)
Definition sql_limit {A} (limit : Z) (l : list A) : list A :=
  let n := if limit <=? I64_MAX then limit else limit - (U64_MAX + 1) in
  if n <? 0 then l else take (Z.to_nat n) l.
(** The rows from the newest. *)
Definition list_recent_tool_calls (db : option (list tool_row)) (session_id : string) (limit : Z) : list ToolCallRow :=
  match db with
  | None => []
  | Some t =>
      map (fun r => MkToolCall (tu_timestamp r) (te_tool_name (tu_event r)) (te_hook_type (tu_event r)))
        (sql_limit limit (rev (select (fun r =>
           opt_str_eqb (te_session_id (tu_event r)) (Some session_id)
           && (te_hook_type (tu_event r) =?s "PreToolUse")) t)))
  end.

(** *** Calls of the forked Codex *)
Record fork_row : Type := ForkRow {
  fk_session_id : string; fk_created_at : option string; fk_raw_payload_json : option string }.
Definition fork_call (r : fork_row) : option ToolCallRow :=
  bind_opt (fk_raw_payload_json r) (fun raw =>
  bind_opt (parse_json raw) (fun payload =>
  bind_opt (bind_opt (bind_opt (as_object payload) (field "tool_name")) as_str) (fun name =>
  if name =?s "" then None else Some (MkToolCall (fk_created_at r) name "CodexForkToolCall")))).
(** The loop: rows are read until [limit] calls are selected. *)
Fixpoint select_calls (rows : list fork_row) (selected : list ToolCallRow) (limit : nat) : list ToolCallRow :=
  match rows with
  | [] => selected
  | r :: rest =>
      match fork_call r with
      | None => select_calls rest selected limit
      | Some c =>
          let selected := (selected ++ [c])%list in
          if Nat.leb limit (length selected) then selected else select_calls rest selected limit
      end
  end.
Definition list_recent_codex_fork_tool_calls (db : option (list fork_row)) (session_id : string) (limit : nat)
    : list ToolCallRow :=
  match db with
  | None => []
  | Some t =>
      let scan_limit := Nat.min (limit * 4) 500 in
      let rows := take scan_limit (rev (select (fun r => fk_session_id r =?s session_id) t)) in
      rev (select_calls rows [] limit)
  end.

Lemma select_calls_take rows selected limit : (length selected < limit)%nat ->
  select_calls rows selected limit = (selected ++ take (limit - length selected) (omap fork_call rows))%list.
Proof.
  revert selected. induction rows as [|r rows IH]; intros selected Hl; cbn; [by rewrite take_nil, app_nil_r|].
  destruct (fork_call r) as [c|]; [|by apply IH].
  destruct (Nat.leb_spec limit (length (selected ++ [c]))) as [H|H]; rewrite length_app in H; cbn in H.
  - replace (limit - length selected)%nat with 1%nat by lia. cbn. by rewrite take_0.
  - rewrite IH by (rewrite length_app; cbn; lia). rewrite length_app. cbn.
    replace (limit - length selected)%nat with (S (limit - (length selected + 1))) by lia. cbn. by rewrite <- app_assoc.
Qed.
(** The newest named calls among the rows scanned, oldest first. *)
Lemma fork_calls_are_newest t session_id limit : (0 < limit)%nat ->
  list_recent_codex_fork_tool_calls (Some t) session_id limit
  = rev (take limit (omap fork_call (take (Nat.min (limit * 4) 500)
           (rev (select (fun r => fk_session_id r =?s session_id) t))))).
Proof.
  intros H. unfold list_recent_codex_fork_tool_calls. rewrite select_calls_take by (cbn; lia).
  cbn [app length]. by rewrite Nat.sub_0_r.
Qed.
(** A logged call heads the list of its session. *)
Lemma logged_call_listed w e session_id :
  te_session_id e = Some session_id -> te_hook_type e = "PreToolUse"%string ->
  exists w', log_tool_usage e w = (Ok tt, w')
    /\ list_recent_tool_calls (Some (w_db w')) session_id 1
       = [MkToolCall (Some (current_timestamp (w_tick w))) (te_tool_name e) "PreToolUse"].
Proof.
  intros Hs Hh. eexists. split; [reflexivity|]. cbn [list_recent_tool_calls w_db fst snd].
  unfold select, insert. rewrite List.filter_app.
  assert (tu_event (tool_usage_row (current_timestamp (w_tick w)) e) = e
          /\ tu_timestamp (tool_usage_row (current_timestamp (w_tick w)) e) = Some (current_timestamp (w_tick w))) as [He Ht].
  { unfold tool_usage_row. destruct (detect_destructive _ _), (detect_sensitive_file _ _). done. }
  cbn [List.filter]. rewrite He, Hs, Hh. cbn [opt_str_eqb]. rewrite String.eqb_refl. cbn [andb String.eqb Ascii.eqb Bool.eqb].
  rewrite rev_unit. unfold sql_limit. change (Z.to_nat (if 1 <=? I64_MAX then 1 else 1 - (U64_MAX + 1))) with 1%nat. cbn. by rewrite firstn_O, Ht, He, Hh.
Qed.
End ToolUsage.

(** ** Requests that wait (codex_requests.rs) *)
Record CodexPendingRequestRow (payload : Type) : Type := MkRequest {
  rq_request_id : string; rq_session_id : string; rq_thread_id : option string; rq_turn_id : option string;
  rq_item_id : option string; rq_request_type : string; rq_request_method : string; rq_status : string;
  rq_requested_at : string; rq_expires_at : option string; rq_resolved_payload : option payload;
  rq_resolved_at : option string; rq_resolution_source : option string; rq_error_code : option string;
  rq_error_message : option string }.
Arguments MkRequest {payload}.
Arguments rq_session_id {payload}.
Arguments rq_status {payload}.
Arguments rq_requested_at {payload}.
Arguments rq_resolved_payload {payload}.
(** A stored row holds the payload as text. *)
Definition request_row : Type := CodexPendingRequestRow string.

Section Requests.
Context `{J : JsonParser}.

Definition request_with {A B} (r : CodexPendingRequestRow A) (payload : option B) : CodexPendingRequestRow B :=
  match r with
  | MkRequest a b c d e f g h i j _ l m n o => MkRequest a b c d e f g h i j payload l m n o
  end.
(** A payload that is not JSON fails the listing. *)
Definition codex_pending_request_row_from_sql (r : request_row) : outcome (CodexPendingRequestRow json) :=
  match rq_resolved_payload r with
  | None => Ok (request_with r None)
  | Some raw =>
      match parse_json raw with
      | Some v => Ok (request_with r (Some v))
      | None => Err "Conversion error from type Text at index: 10"%string
      end
  end.
(** [collect::<Result<Vec<_>, _>>()]: the first error, or all rows. *)
Fixpoint collect {A B} (f : A -> outcome B) (l : list A) : outcome (list B) :=
  match l with
  | [] => Ok []
  | x :: r =>
      match f x with
      | Ok y => match collect f r with Ok ys => Ok (y :: ys) | Err e => Err e | Panic => Panic end
      | Err e => Err e
      | Panic => Panic
      end
  end.
Definition request_listed (session_id : string) (include_orphaned : bool) (r : request_row) : bool :=
  (rq_session_id r =?s session_id)
  && (if include_orphaned then str_in (rq_status r) ["pending"; "orphaned"]%string else rq_status r =?s "pending").
Definition list_codex_pending_requests (db : option (list request_row)) (session_id : string)
    (include_orphaned : bool) : outcome (list (CodexPendingRequestRow json)) :=
  match db with
  | None => Ok []
  | Some t =>
      collect codex_pending_request_row_from_sql
        (order_by (fun a b => text_leb (rq_requested_at a) (rq_requested_at b))
           (select (request_listed session_id include_orphaned) t))
  end.
End Requests.

(** ** Tool events as actions (codex_activity.rs) *)
Record CodexToolEventRow : Type := MkToolEventRow {
  ct_session_id : string; ct_turn_id : option string; ct_item_id : option string; ct_event_type : string;
  ct_item_type : option string; ct_command : option string; ct_file_path : option string;
  ct_approval_decision : option string; ct_latency_ms : option Z; ct_final_status : option string;
  ct_error_message : option string; ct_created_at : option string }.
Record CodexActivityAction : Type := MkAction {
  ca_source_provider : string; ca_action_kind : string; ca_summary_text : string; ca_status : string;
  ca_started_at : option string; ca_ended_at : option string; ca_session_id : string;
  ca_turn_id : option string; ca_item_id : option string }.

(** A date-time with its offset, in the [time] crate: parsing keeps the offset in seconds,
    and the civil fields are those of the local time (nanoseconds since 1970-01-01T00:00). *)
Record civil : Type := Civil {
  cv_year : Z; cv_month : Z; cv_day : Z; cv_hour : Z; cv_minute : Z; cv_second : Z; cv_nanosecond : Z }.
Class CivilTime : Type := {
  parse_with_offset : string -> option (Z * Z);
  civil_of : Z -> civil }.

Definition TERMINAL_EVENTS : list string := ["completed"; "failed"; "interrupted"; "cancelled"; "timeout"]%string.
Definition is_terminal_event (event_type : string) : bool :=
  str_in event_type (TERMINAL_EVENTS ++ ["approval_decision"; "user_input_submitted"]%string).
Definition action_kind (event_type : string) (item_type : option string) : string :=
  if str_in event_type ["request_approval"; "approval_decision"]%string then "approval"
  else if str_in event_type ["request_user_input"; "user_input_submitted"]%string then "user_input"
  else if opt_str_eqb item_type (Some "commandExecution"%string) then "command"
  else if opt_str_eqb item_type (Some "fileChange"%string) then "file_change"
  else "tool".
Definition action_status (event_type : string) (final_status : option string) : string :=
  if str_in event_type ["request_approval"; "request_user_input"]%string then "pending"
  else if str_in event_type TERMINAL_EVENTS then unwrap_or event_type final_status
  else if str_in event_type ["approval_decision"; "user_input_submitted"]%string then "completed"
  else "running".
Definition capitalize_ascii (value : string) : string :=
  match value with String c r => String (ascii_upper c) r | EmptyString => "" end.
Definition summary_text (r : CodexToolEventRow) : string :=
  let item_type := unwrap_or "tool"%string (ct_item_type r) in
  let e := ct_event_type r in
  if e =?s "request_approval" then "Approval requested (" +:+ item_type +:+ ")"
  else if e =?s "approval_decision" then
    match ct_approval_decision r with
    | Some d => "Approval decision: " +:+ d
    | None => "Approval decision submitted"
    end
  else if e =?s "request_user_input" then "User input requested"
  else if e =?s "user_input_submitted" then "User input submitted"
  else if e =?s "started" then
    match ct_command r, ct_file_path r with
    | Some c, _ => "Started: " +:+ chars_take 80 c
    | None, Some f => "Started file change: " +:+ f
    | None, None => "Started " +:+ item_type
    end
  else if e =?s "output_delta" then
    match ct_command r, ct_file_path r with
    | Some c, _ => "Output update: " +:+ chars_take 60 c
    | None, Some f => "File update: " +:+ f
    | None, None => "Output update"
    end
  else if str_in e TERMINAL_EVENTS then
    let target := unwrap_or item_type (or_else (ct_command r) (ct_file_path r)) in
    match (if e =?s "failed" then ct_error_message r else None) with
    | Some m => "Failed " +:+ target +:+ ": " +:+ chars_take 120 m
    | None => capitalize_ascii e +:+ " " +:+ target
    end
  else e +:+ " (" +:+ item_type +:+ ")".

Section Activity.
Context `{T : TimeCrate} `{V : CivilTime}.

Definition format_python_datetime (t offset : Z) : string :=
  let c := civil_of (t + seconds offset) in
  let sign := if offset <? 0 then "-" else "+" in
  let a := Z.abs offset in
  let base := show_padded 4 (cv_year c) +:+ "-" +:+ show_padded 2 (cv_month c) +:+ "-" +:+ show_padded 2 (cv_day c)
              +:+ "T" +:+ show_padded 2 (cv_hour c) +:+ ":" +:+ show_padded 2 (cv_minute c) +:+ ":"
              +:+ show_padded 2 (cv_second c) in
  let fraction := if cv_nanosecond c =? 0 then "" else "." +:+ show_padded 6 (cv_nanosecond c / 1000) in
  base +:+ fraction +:+ sign +:+ show_padded 2 (a / 3600) +:+ ":" +:+ show_padded 2 (a mod 3600 / 60).

(** [Panic]: the start lies outside the range of the crate. *)
Definition derive_started_at (created_at : option string) (latency_ms : option Z) : outcome (option string) :=
  match created_at with
  | None => Ok None
  | Some created =>
      match latency_ms with
      | None => Ok (Some created)
      | Some ms =>
          if ms =? 0 then Ok (Some created)
          else match parse_with_offset created with
               | None => Ok (Some created)
               | Some (ended, offset) =>
                   match instant_checked_add ended (- (ms * 1000000)) with
                   | None => Panic
                   | Some start => Ok (Some (format_python_datetime start offset))
                   end
               end
      end
  end.
Definition project_row (r : CodexToolEventRow) : outcome CodexActivityAction :=
  match derive_started_at (ct_created_at r) (ct_latency_ms r) with
  | Ok started =>
      Ok (MkAction "codex-app" (action_kind (ct_event_type r) (ct_item_type r)) (summary_text r)
            (action_status (ct_event_type r) (ct_final_status r)) started
            (if is_terminal_event (ct_event_type r) then ct_created_at r else None)
            (ct_session_id r) (ct_turn_id r) (ct_item_id r))
  | Err e => Err e
  | Panic => Panic
  end.
(** The newest [limit] events, oldest first. *)
Definition list_codex_activity_actions (db : option (list CodexToolEventRow)) (session_id : string) (limit : nat)
    : outcome (list CodexActivityAction) :=
  match db with
  | None => Ok []
  | Some t =>
      let limit := Nat.min 200 (Nat.max 1 limit) in
      collect project_row (rev (take limit (rev (select (fun r => ct_session_id r =?s session_id) t))))
  end.

Lemma collect_Ok {A B} (f : A -> outcome B) l ys : collect f l = Ok ys -> Forall2 (fun x y => f x = Ok y) l ys.
Proof.
  revert ys. induction l as [|x l IH]; intros ys; cbn; [by intros [= <-]|].
  destruct (f x) as [y| |] eqn:E; try done. destruct (collect f l) as [zs| |]; try done.
  intros [= <-]. constructor; auto.
Qed.

(** An action that has ended is not reported as pending or running, unless its event says so. *)
Lemma ended_action_status r a : project_row r = Ok a -> ca_ended_at a <> None -> ct_final_status r = None ->
  ca_status a <> "running"%string /\ ca_status a <> "pending"%string.
Proof.
  unfold project_row. destruct (derive_started_at _ _) as [s| |]; [|done..]. intros [= <-]. cbn [ca_ended_at ca_status].
  destruct (is_terminal_event (ct_event_type r)) eqn:Et; [|done]. intros _ Hf. rewrite Hf.
  unfold is_terminal_event in Et. apply str_in_In in Et. cbn in Et.
  repeat (destruct Et as [<-|Et]; [vm_compute; split; discriminate|]). done.
Qed.
End Activity.
