(* ===== verification/QueueAuthority.v ===== *)
(** * The queue authority: one job per connection (queue_authority.rs)

    A local socket answers one request per connection with the record of a queue job.  The
    bytes of a request arrive in pieces of the sender's choosing; the job comes from the
    job table of [QueueJobs].  The JSON of requests and answers is [serde]'s. *)
From Stdlib Require Import ZArith Lia Bool String Ascii List.
From stdpp Require Import base tactics list strings.
From S2P Require Import Prelude Text StrMethods Table Clock Schema MessageQueue QueueJobs Demo DemoHost.

Definition REQUEST_SCHEMA : string := "sm.queue_authority.request.v1".
Definition RESPONSE_SCHEMA : string := "sm.queue_authority.response.v1".
Definition MAX_REQUEST_BYTES : nat := 1024.
Definition CHUNK_BYTES : nat := 256.

Record QueueAuthorityServiceIdentity : Type := MkService {
  sv_pid : Z; sv_launchd_label : string; sv_executable_path : string; sv_code_sign_identifier : string }.
Record AuthorityRequest : Type := MkAuthRequest { ar_schema : string; ar_job_id : string }.
Record AuthorityError : Type := MkAuthError { ae_code : string; ae_message : string }.
Record AuthorityResponse : Type := MkAuthResponse {
  as_schema : string; as_ok : bool; as_service : QueueAuthorityServiceIdentity;
  as_job : option QueueJobRecord; as_error : option AuthorityError }.

(** ** Reading the request *)
(** What [stream.read] gives: bytes, or an error; the end of the list is the end of the
    stream. *)
Inductive piece : Type := Bytes (l : list ascii) | ReadError (e : string).
Definition LF : ascii := ascii_of_N 10.
(** [bytes.iter().position(|byte| *byte == b'\n')], as the bytes before and after it. *)
Fixpoint split_newline (l : list ascii) : option (list ascii * list ascii) :=
  match l with
  | [] => None
  | c :: r =>
      if Ascii.eqb c LF then Some ([], r)
      else match split_newline r with Some (a, b) => Some (c :: a, b) | None => None end
  end.
Definition too_long : string :=
  "queue authority request exceeds " +:+ show_Z (Z.of_nat MAX_REQUEST_BYTES) +:+ " bytes".
Fixpoint read_loop (pieces : list piece) (request : list ascii) : outcome (list ascii) :=
  match pieces with
  | [] => Err "queue authority request ended before newline"%string
  | ReadError e :: _ => Err e
  | Bytes bytes :: rest =>
      match bytes with
      | [] => Err "queue authority request ended before newline"%string
      | _ =>
          match split_newline bytes with
          | Some (before, after) =>
              if existsb (fun c => negb (is_ascii_whitespace c)) after
              then Err "queue authority accepts exactly one request per connection"%string
              else Ok (request ++ before)%list
          | None =>
              let request := (request ++ bytes)%list in
              if Nat.ltb MAX_REQUEST_BYTES (length request) then Err too_long
              else read_loop rest request
          end
      end
  end.
Definition read_request (pieces : list piece) : outcome (list ascii) :=
  match read_loop pieces [] with
  | Ok request =>
      match request with
      | [] => Err "queue authority request is empty"%string
      | _ => if Nat.ltb MAX_REQUEST_BYTES (length request) then Err too_long else Ok request
      end
  | e => e
  end.

Definition valid_job_id (job_id : string) : bool :=
  match strip_prefix "job_" job_id with
  | Some suffix =>
      Nat.eqb (String.length suffix) 12
      && forallb (fun c => is_ascii_hexdigit c && negb (is_ascii_uppercase c)) (bytes_of suffix)
  | None => false
  end.

(** ** Answering *)
Class AuthoritySerde : Type := {
  (** [from_slice::<AuthorityRequest>] with [deny_unknown_fields]: the request or the error. *)
  parse_request : list ascii -> AuthorityRequest + string;
  (** [to_vec(&response)]. *)
  response_bytes : AuthorityResponse -> outcome (list ascii) }.

Definition error_response (service : QueueAuthorityServiceIdentity) (code message : string) : AuthorityResponse :=
  MkAuthResponse RESPONSE_SCHEMA false service None (Some (MkAuthError code message)).

Section Handler.
Context {T : TimeCrate} {E : Env} {H : Host} {J : Serde} {A : AuthoritySerde}.
Context (service : QueueAuthorityServiceIdentity) (db_exists : bool).

Definition authority_response (request : list ascii) : RQ AuthorityResponse :=
  match parse_request request with
  | inr e => ret (error_response service "invalid_request" e)
  | inl r =>
      if negb (ar_schema r =?s REQUEST_SCHEMA) then
        ret (error_response service "unsupported_schema" ("unsupported request schema " +:+ ar_schema r))
      else if negb (valid_job_id (ar_job_id r)) then
        ret (error_response service "invalid_job_id" "job_id must match job_<12 lowercase hex characters>")
      else
        found <- attempt (get_queue_job_strict_from_path db_exists (ar_job_id r)) ;;
        match found with
        | inl (Some job) => ret (MkAuthResponse RESPONSE_SCHEMA true service (Some job) None)
        | inl None =>
            ret (error_response service "not_found" ("queue job " +:+ ar_job_id r +:+ " was not found"))
        | inr e => ret (error_response service "queue_read_failed" e)
        end
  end.
(** The bytes written to the stream, which takes them ([inl]) or fails ([inr]). *)
Definition handle_connection (pieces : list piece) (write : list ascii -> option string) : RQ (list ascii) :=
  request <- lift (read_request pieces) ;;
  response <- authority_response request ;;
  body <- lift (response_bytes response) ;;
  let body := (body ++ [LF])%list in
  match write body with Some e => bail e | None => ret body end.
End Handler.

(** ** The socket file *)
(** What the file system answers for the path: [symlink_metadata], [connect], [remove_file]. *)
Inductive metadata_answer : Type := MetaMissing | MetaError (e : string) | MetaFile (is_socket : bool).
Inductive connect_answer : Type := Connected | RefusedOrMissing | ConnectError.
(** The result, and whether the file was removed. *)
Definition remove_stale_socket (path : string) (meta : metadata_answer) (connect : connect_answer)
    (remove : option string) : outcome unit * bool :=
  match meta with
  | MetaMissing => (Ok tt, false)
  | MetaError e => (Err e, false)
  | MetaFile false => (Err ("refusing to replace non-socket queue authority path " +:+ path), false)
  | MetaFile true =>
      match connect with
      | Connected => (Err ("queue authority socket " +:+ path +:+ " is already active"), false)
      | RefusedOrMissing =>
          match remove with
          | None => (Ok tt, true)
          | Some _ => (Err ("failed to remove stale queue authority socket " +:+ path), true)
          end
      | ConnectError => (Err ("failed to verify queue authority socket " +:+ path), false)
      end
  end.

(** ** Framing *)
Definition sent (p : piece) : list ascii := match p with Bytes l => l | ReadError _ => [] end.

Lemma split_newline_Some l a b : split_newline l = Some (a, b) -> l = (a ++ LF :: b)%list /\ ~ In LF a.
Proof.
  revert a. induction l as [|c l IH]; intros a; cbn [split_newline]; [done|]. destruct (Ascii.eqb_spec c LF) as [->|Hne].
  - intros [= <- <-]. split; [done|intros []].
  - destruct (split_newline l) as [[a' b']|]; [|done]. intros [= <- <-]. destruct (IH a' eq_refl) as [-> Hni].
    split; [done|]. intros [->|Hin]; [done|by apply Hni].
Qed.
Lemma split_newline_None l : split_newline l = None <-> ~ In LF l.
Proof.
  induction l as [|c l IH]; cbn [split_newline]; [split; [intros _ []|done]|]. destruct (Ascii.eqb_spec c LF) as [->|Hne].
  - split; [done|]. intros H. exfalso. apply H. by left.
  - destruct (split_newline l) as [[a b]|].
    + split; [done|]. intros H. exfalso. enough (@Some (list ascii * list ascii) (a, b) = None) by done.
      apply IH. intros Hin. apply H. by right.
    + split; [|done]. intros _ [->|Hin]; [done|]. by apply IH in Hin.
Qed.
(** The first newline of a text splits it in one way. *)
Lemma newline_split_unique (a b a' b' : list ascii) :
  (a ++ LF :: b = a' ++ LF :: b')%list -> ~ In LF a -> ~ In LF a' -> a = a' /\ b = b'.
Proof.
  revert a'. induction a as [|c a IH]; intros [|c' a'] Heq Ha Ha'; cbn [app] in Heq.
  - by injection Heq as ->.
  - injection Heq as E1 E2. exfalso. apply Ha'. by left.
  - injection Heq as E1 E2. exfalso. apply Ha. by left.
  - injection Heq as E1 E2. subst c'.
    destruct (IH a' E2) as [-> ->]; [by intros ?; apply Ha; right|by intros ?; apply Ha'; right|done].
Qed.

Lemma app_not_in {X} (x : X) a b : ~ In x a -> ~ In x b -> ~ In x (a ++ b)%list.
Proof. intros Ha Hb [?|?]%in_app_or; auto. Qed.
(** Pieces without a newline are collected while they fit. *)
Lemma read_loop_before before : forall request rest,
  Forall (fun l => l <> [] /\ ~ In LF l) before -> (length request <= MAX_REQUEST_BYTES)%nat ->
  read_loop (map Bytes before ++ rest) request
  = if Nat.ltb MAX_REQUEST_BYTES (length (request ++ List.concat before)) then Err too_long
    else read_loop rest (request ++ List.concat before)%list.
Proof.
  induction before as [|p before IH]; intros request rest Hne Hreq; cbn [map app List.concat].
  - rewrite app_nil_r. by destruct (Nat.ltb_spec MAX_REQUEST_BYTES (length request)); [lia|].
  - apply Forall_cons in Hne as [[Hp Hni] Hne]. cbn [read_loop]. destruct p as [|c p']; [done|].
    set (p := c :: p') in *. apply split_newline_None in Hni. rewrite Hni.
    destruct (Nat.ltb_spec MAX_REQUEST_BYTES (length (request ++ p))) as [Hlong|Hfit].
    + destruct (Nat.ltb_spec MAX_REQUEST_BYTES (length (request ++ p ++ List.concat before))) as [|Hx]; [done|].
      rewrite app_assoc, length_app in Hx. lia.
    + rewrite IH by done. by rewrite <- app_assoc.
Qed.
(** The piece with the newline is the last one looked at. *)
Lemma read_loop_newline a b later request : ~ In LF a ->
  read_loop (Bytes (a ++ LF :: b) :: later) request
  = if existsb (fun c => negb (is_ascii_whitespace c)) b
    then Err "queue authority accepts exactly one request per connection"%string else Ok (request ++ a)%list.
Proof.
  intros Ha. cbn [read_loop]. destruct (a ++ LF :: b)%list as [|c l] eqn:El; [by destruct a|]. rewrite <- El.
  destruct (split_newline (a ++ LF :: b)) as [[a' b']|] eqn:Es.
  - apply split_newline_Some in Es as [Heq Ha']. by apply newline_split_unique in Heq as [<- <-].
  - apply split_newline_None in Es. exfalso. apply Es, in_or_app. right. by left.
Qed.
Lemma read_loop_sound pieces : forall request r, read_loop pieces request = Ok r -> ~ In LF request ->
  exists before a b later, pieces = (map Bytes before ++ Bytes (a ++ LF :: b) :: later)%list
    /\ Forall (fun l => l <> [] /\ ~ In LF l) before /\ ~ In LF a
    /\ r = (request ++ List.concat before ++ a)%list /\ forallb is_ascii_whitespace b = true.
Proof.
  induction pieces as [|[l|e] pieces IH]; intros request r; cbn [read_loop]; [done| |done]. destruct l as [|c l']; [done|].
  set (l := c :: l') in *. destruct (split_newline l) as [[a b]|] eqn:Es.
  - destruct (existsb _ b) eqn:Eb; [done|]. intros [= <-] Hreq. apply split_newline_Some in Es as [-> Ha].
    exists [], a, b, pieces. split_and!; try done. apply forallb_forall. intros x Hin.
    destruct (is_ascii_whitespace x) eqn:Ex; [done|]. exfalso. enough (true = false) by done. rewrite <- Eb. symmetry.
    apply existsb_exists. exists x. by rewrite Ex.
  - apply split_newline_None in Es. destruct (Nat.ltb MAX_REQUEST_BYTES (length (request ++ l))); [done|]. intros Hr Hreq.
    destruct (IH _ _ Hr) as (before & a & b & later & -> & Hb & Ha & -> & Hws); [by apply app_not_in|].
    exists (l :: before), a, b, later. split_and!; try done; [by constructor|]. cbn. by rewrite <- !app_assoc.
Qed.
Lemma concat_no_newline before : Forall (fun l => l <> [] /\ ~ In LF l) before -> ~ In LF (List.concat before).
Proof. induction 1 as [|l before [_ Hl] _ IH]; cbn; [by intros []|by apply app_not_in]. Qed.
(** Pieces whose text has a newline, cut at the piece that holds the first. *)
Lemma cut_at_newline pieces : Forall (fun l : list ascii => l <> []) pieces -> In LF (List.concat pieces) ->
  exists before a b later, pieces = (before ++ (a ++ LF :: b) :: later)%list
    /\ Forall (fun l => l <> [] /\ ~ In LF l) before /\ ~ In LF a.
Proof.
  induction 1 as [|l pieces Hl _ IH]; cbn [List.concat]; [by intros []|]. intros Hin.
  destruct (split_newline l) as [[a b]|] eqn:Es.
  - apply split_newline_Some in Es as [-> Ha]. by exists [], a, b, pieces.
  - apply split_newline_None in Es. apply in_app_or in Hin as [?|Hin]; [done|].
    destruct (IH Hin) as (before & a & b & later & -> & Hb & Ha). exists (l :: before), a, b, later. split_and!; try done.
    by constructor.
Qed.

(** What is read of the pieces up to the one with the newline. *)
Lemma read_request_framed before a b later :
  Forall (fun l => l <> [] /\ ~ In LF l) before -> ~ In LF a ->
  read_request (map Bytes before ++ Bytes (a ++ LF :: b) :: later)
  = if Nat.ltb MAX_REQUEST_BYTES (length (List.concat before)) then Err too_long
    else if existsb (fun c => negb (is_ascii_whitespace c)) b
    then Err "queue authority accepts exactly one request per connection"%string
    else match (List.concat before ++ a)%list with
         | [] => Err "queue authority request is empty"%string
         | line => if Nat.ltb MAX_REQUEST_BYTES (length line) then Err too_long else Ok line
         end.
Proof.
  intros Hb Ha. unfold read_request. rewrite read_loop_before by (done || cbn; lia). cbn [app].
  destruct (Nat.ltb _ _); [done|]. rewrite read_loop_newline by done. destruct (existsb _ b); [done|]. by destruct (List.concat before ++ a)%list.
Qed.

(** C24: A request is framed by its first newline.  (1) Whatever the pieces, the one with
    the first newline is the last one looked at: more than white space after the newline in
    that piece is refused, whatever later pieces hold is not looked at, and otherwise the
    request is the text before the newline, refused when it is empty or longer than 1024
    bytes.  (2) So how the sender cuts a line, its newline and trailing white space into
    pieces does not matter.  (3) And what is accepted is always the text before the first
    newline, not empty, at most 1024 bytes, with only white space after the newline in its
    piece. *)
Theorem request_framing :
  (forall before a b later,
     Forall (fun l => l <> [] /\ ~ In LF l) before -> ~ In LF a ->
     read_request (map Bytes before ++ Bytes (a ++ LF :: b) :: later)
     = if Nat.ltb MAX_REQUEST_BYTES (length (List.concat before)) then Err too_long
       else if existsb (fun c => negb (is_ascii_whitespace c)) b
       then Err "queue authority accepts exactly one request per connection"%string
       else match (List.concat before ++ a)%list with
            | [] => Err "queue authority request is empty"%string
            | line => if Nat.ltb MAX_REQUEST_BYTES (length line) then Err too_long else Ok line
            end)
  /\ (forall pieces line rest,
     Forall (fun l => l <> []) pieces -> (List.concat pieces = line ++ LF :: rest)%list -> ~ In LF line ->
     forallb is_ascii_whitespace rest = true ->
     read_request (map Bytes pieces)
     = match line with
       | [] => Err "queue authority request is empty"%string
       | _ => if Nat.ltb MAX_REQUEST_BYTES (length line) then Err too_long else Ok line
       end)
  /\ (forall pieces r, read_request pieces = Ok r ->
        r <> [] /\ (length r <= MAX_REQUEST_BYTES)%nat /\ ~ In LF r
        /\ exists before a b later, pieces = (map Bytes before ++ Bytes (a ++ LF :: b) :: later)%list
             /\ r = (List.concat before ++ a)%list /\ forallb is_ascii_whitespace b = true).
Proof.
  split; [|split].
  - intros before a b later. apply read_request_framed.
  - intros pieces line rest Hne Heq Hline Hws.
    destruct (cut_at_newline pieces Hne) as (before & a & b & later & -> & Hb & Ha).
    { rewrite Heq. apply in_or_app. right. by left. }
    rewrite concat_app in Heq. cbn in Heq. rewrite <- (app_assoc a), app_assoc in Heq. cbn in Heq.
    apply newline_split_unique in Heq as [<- <-]; [|by apply app_not_in, Ha; apply concat_no_newline|done].
    rewrite map_app. cbn [map]. rewrite read_request_framed by done. rewrite forallb_app in Hws. apply andb_true_iff in Hws as [Hws _].
    assert (existsb (fun c => negb (is_ascii_whitespace c)) b = false) as ->.
    { apply not_true_iff_false. intros (x & Hin & Hx)%existsb_exists. rewrite forallb_forall in Hws. by rewrite (Hws x Hin) in Hx. }
    destruct (Nat.ltb_spec MAX_REQUEST_BYTES (length (List.concat before))) as [Hlong|]; [|by destruct (List.concat before ++ a)%list].
    destruct (List.concat before ++ a)%list eqn:El; apply (f_equal length) in El; rewrite length_app in El; cbn in El; [lia|].
    by destruct (Nat.ltb_spec MAX_REQUEST_BYTES (length (a0 :: l))); [|cbn in *; lia].
  - intros pieces r. unfold read_request. destruct (read_loop pieces []) as [q| |] eqn:El; [|done..].
    destruct q as [|c q]; [done|]. destruct (Nat.ltb_spec MAX_REQUEST_BYTES (length (c :: q))); [done|].
    intros [= <-]. apply read_loop_sound in El as (before & a & b & later & -> & Hb & Ha & Hq & Hws); [|intros []].
    cbn [app] in Hq. split_and!; [done|done| |by exists before, a, b, later].
    rewrite Hq. apply app_not_in; [by apply concat_no_newline|done].
Qed.
Lemma request_framing_witness :
  read_request (map Bytes [bytes_of "{a"; bytes_of ("b}" +:+ NL); bytes_of " "]) = Ok (bytes_of "{ab}")
  /\ read_request [Bytes (bytes_of ("{}" +:+ NL +:+ "{}"))]
     = Err "queue authority accepts exactly one request per connection"%string
  /\ exists before a b later,
       [Bytes (bytes_of ("{}" +:+ NL)); Bytes (bytes_of "more")] = (map Bytes before ++ Bytes (a ++ LF :: b) :: later)%list
       /\ bytes_of "{}" = (List.concat before ++ a)%list /\ forallb is_ascii_whitespace b = true.
Proof.
  split; [|split].
  - rewrite (proj1 (proj2 request_framing) _ (bytes_of "{ab}") [" "%char]); [done| |done| |done].
    + repeat constructor; done.
    + cbn. intros H. repeat destruct H as [H|H]; try done.
  - apply (proj1 request_framing [] (bytes_of "{}") (bytes_of "{}") []); [constructor|].
    cbn. intros H. repeat destruct H as [H|H]; try done.
  - apply (proj2 (proj2 request_framing) _ (bytes_of "{}")). vm_compute. reflexivity.
Defined.

(** ** Answers *)
Section Answers.
Context {T : TimeCrate} {E : Env} {H : Host} {J : Serde} {A : AuthoritySerde}.
Context (service : QueueAuthorityServiceIdentity) (db_exists : bool).

Lemma get_job_frame id : steps (@db_eq runner) (get_queue_job_strict_from_path db_exists id).
Proof.
  unfold get_queue_job_strict_from_path, check_io, ask, get_queue_job_conn, query. step_through.
Qed.
#[local] Hint Resolve get_job_frame : steps.
Lemma authority_response_frame request : steps (@db_eq runner) (authority_response service db_exists request).
Proof. unfold authority_response. step_through. Qed.
Lemma handle_connection_frame pieces write : steps (@db_eq runner) (handle_connection service db_exists pieces write).
Proof. unfold handle_connection, authority_response. step_through. Qed.

Lemma read_job_runs id w :
  exists r w', attempt (get_queue_job_strict_from_path db_exists id) w = (Ok r, w')
    /\ forall j, r = inl (Some j) ->
        exists row, lookup_row job_id id (jobs (w_db w)) = Some row /\ queue_job_record_from_row row = Ok j.
Proof.
  unfold attempt, get_queue_job_strict_from_path, check_io, ask, get_queue_job_conn, bind, tick, query, gets, lift.
  destruct db_exists; cbn; [|by eexists _, _]. destruct (host_open (w_tick w)); cbn; [by eexists _, _|].
  destruct (lookup_row job_id id (jobs (w_db w))) as [row|]; [|by eexists _, _].
  destruct (queue_job_record_from_row row) as [j|e|] eqn:Ej.
  - eexists _, _. split; [done|]. intros j' [= <-]. by exists row.
  - by eexists _, _.
  - unfold queue_job_record_from_row in Ej. by repeat case_match.
Qed.

(** A record for the job that was asked for, or an error. *)
Definition answers (request : list ascii) (d : runner) (resp : AuthorityResponse) : Prop :=
  as_schema resp = RESPONSE_SCHEMA /\ as_service resp = service
  /\ match as_job resp with
     | Some j =>
         as_ok resp = true /\ as_error resp = None
         /\ exists r row, parse_request request = inl r /\ ar_schema r = REQUEST_SCHEMA
              /\ valid_job_id (ar_job_id r) = true
              /\ lookup_row job_id (ar_job_id r) (jobs d) = Some row
              /\ queue_job_record_from_row row = Ok j
     | None => as_ok resp = false /\ as_error resp <> None
     end.
Lemma authority_response_run request w :
  exists resp w', authority_response service db_exists request w = (Ok resp, w') /\ answers request (w_db w) resp.
Proof.
  unfold authority_response. destruct (parse_request request) as [r|e] eqn:Ep; [|by eexists _, _].
  destruct (String.eqb_spec (ar_schema r) REQUEST_SCHEMA) as [Hs|]; [|by eexists _, _].
  destruct (valid_job_id (ar_job_id r)) eqn:Hv; [|by eexists _, _]. cbn [negb].
  destruct (read_job_runs (ar_job_id r) w) as (o & w1 & Ho & Hj). unfold bind. rewrite Ho.
  destruct o as [[j|]|e]; [|by eexists _, _..]. destruct (Hj j eq_refl) as (row & ? & ?).
  eexists _, _. split; [reflexivity|]. unfold answers. cbn. repeat split. by exists r, row.
Qed.

(** C25: Every request is answered, and answering reads only: the answer carries this
    service's identity and either the record of a job or an error, and a record only for
    a well-formed request of the right schema whose job id has the required form, and it is
    the record of that job in the table. *)
Theorem authority_answers_request request w :
  exists resp w', authority_response service db_exists request w = (Ok resp, w')
    /\ w_db w' = w_db w /\ answers request (w_db w) resp.
Proof.
  destruct (authority_response_run request w) as (resp & w' & Hr & Ha). exists resp, w'. split; [done|].
  split; [|done]. pose proof (authority_response_frame request w) as Hf. by rewrite Hr in Hf.
Qed.
End Answers.
