(* ===== verification/UsageDb.v ===== *)
(** * The usage database

    The tables of usage.db that usage_identity.rs, usage_burn.rs and seat_sessions.rs
    declare, their constraints, and the timestamps they hold.  The three stores open the
    same file, so their state is one record.  Timestamps are written with the fixed-width
    format [DB_TIMESTAMP_FORMAT] of the [time] crate (class [UsageTime]), which
    is what makes the text comparisons of the SQL statements comparisons of instants
    ([UsageTimeLaws]). *)
From Stdlib Require Import ZArith Lia Bool String List.
From stdpp Require Import base tactics list strings.
From S2P Require Import Prelude Text Table Clock Json.

(** ** Timestamps *)
Class UsageTime : Type := {
  (** [timestamp.to_offset(UTC).format(DB_TIMESTAMP_FORMAT)]. *)
  format_db : Z -> option string;
  (** [OffsetDateTime::from_unix_timestamp] and [.._nanos]. *)
  from_unix_timestamp : Z -> option Z;
  from_unix_timestamp_nanos : Z -> option Z;
  (** The text of [time::error::Parse]. *)
  time_parse_error : string -> string }.

(** From the Unix epoch on, years have four digits: every field has a fixed width, so a
    written instant reads back and texts compare like instants.  Going back from an instant
    to one that is not before the epoch stays in the range of the crate. *)
Class UsageTimeLaws (T : TimeCrate) (U : UsageTime) : Prop := {
  parse_format_db : forall t s, 0 <= t -> format_db t = Some s -> parse_rfc3339 s = Some t;
  format_db_order : forall t1 s1 t2 s2, 0 <= t1 -> 0 <= t2 ->
    format_db t1 = Some s1 -> format_db t2 = Some s2 -> String.compare s1 s2 = (t1 ?= t2);
  format_db_down : forall t s t', 0 <= t' <= t -> format_db t = Some s -> is_Some (format_db t');
  go_back : forall t s d, 0 <= d <= t -> format_db t = Some s -> instant_checked_add t (- d) = Some (t - d) }.

(** ** Rows *)
Record account_row : Type := AccountRow {
  acc_key : string; acc_provider : string; acc_external_id : string;
  acc_label : option string; acc_plan_tier : option string; acc_extra_usage : option bool;
  acc_first_seen : string; acc_last_seen : string }.
#[export] Instance eta_account_row : Eta account_row := fun r =>
  AccountRow (acc_key r) (acc_provider r) (acc_external_id r) (acc_label r) (acc_plan_tier r)
    (acc_extra_usage r) (acc_first_seen r) (acc_last_seen r).

Record timeline_row : Type := TimelineRow {
  tl_provider : string; tl_account_key : string; tl_from : string; tl_to : option string;
  tl_uncertain_ms : Z; tl_assumed : bool }.
#[export] Instance eta_timeline_row : Eta timeline_row := fun r =>
  TimelineRow (tl_provider r) (tl_account_key r) (tl_from r) (tl_to r) (tl_uncertain_ms r) (tl_assumed r).

Record metadata_row : Type := MetadataRow {
  md_account_key : string; md_observed_at : string;
  md_plan_tier : option string; md_extra_usage : option bool }.
#[export] Instance eta_metadata_row : Eta metadata_row := fun r =>
  MetadataRow (md_account_key r) (md_observed_at r) (md_plan_tier r) (md_extra_usage r).

(** The [id] column of burn_samples is the position of the row. *)
Record burn_row : Type := BurnRow {
  bs_account_key : string; bs_window_kind : string; bs_window_scope : option string;
  bs_window_start : string; bs_percent : f64; bs_resets_at : string; bs_severity : option string;
  bs_is_active : option bool; bs_source : string; bs_observed_at : string }.

Record seat_row : Type := SeatRow {
  ss_seat_id : string; ss_provider : string; ss_provider_session_id : string;
  ss_artifact_path : option string; ss_first_seen : string; ss_last_seen : string }.
#[export] Instance eta_seat_row : Eta seat_row := fun r =>
  SeatRow (ss_seat_id r) (ss_provider r) (ss_provider_session_id r) (ss_artifact_path r)
    (ss_first_seen r) (ss_last_seen r).

Record usage_db : Type := UsageDb {
  accounts : list account_row;
  account_timeline : list timeline_row;
  account_metadata_history : list metadata_row;
  burn_samples : list burn_row;
  seat_sessions : list seat_row }.
#[export] Instance eta_usage_db : Eta usage_db := fun d =>
  UsageDb (accounts d) (account_timeline d) (account_metadata_history d) (burn_samples d) (seat_sessions d).
Definition empty_usage_db : usage_db := UsageDb [] [] [] [] [].
Abbreviation UM := (M (world usage_db)).

(** ** Constraints *)
Definition UNIQUE_FAILED : string := "UNIQUE constraint failed".
Definition FOREIGN_KEY_FAILED : string := "FOREIGN KEY constraint failed".
(** A statement that fails when [check] names a violated constraint. *)
Definition checked {D} (check : D -> option string) (f : D -> D * nat) : M (world D) nat :=
  violated <- query check ;;
  match violated with Some e => bail e | None => execute f end.

Lemma checked_Ok_inv {D} (check : D -> option string) f n (w w' : world D) :
  checked check f w = (Ok n, w') ->
  check (w_db w) = None /\ n = snd (f (w_db w)) /\ w' = World (fst (f (w_db w))) (w_tick w).
Proof.
  unfold checked. intros H. unfold query, gets, bind in H. cbn in H.
  destruct (check (w_db w)); [done|]. unfold execute in H. by injection H as <- <-.
Qed.
Lemma checked_run {D} (check : D -> option string) f (w : world D) :
  check (w_db w) = None -> checked check f w = (Ok (snd (f (w_db w))), World (fst (f (w_db w))) (w_tick w)).
Proof. intros H. unfold checked, query, gets, bind. cbn. by rewrite H. Qed.
Lemma steps_checked {D} (Q : D -> D -> Prop) `{!PreOrder Q} check f :
  (forall d, check d = None -> Q d (fst (f d))) -> steps (on_db Q) (checked check f).
Proof.
  intros H w. unfold checked, query, gets, bind, on_db. cbn.
  destruct (check (w_db w)) eqn:E; cbn; [reflexivity|by apply H].
Qed.

Definition account_exists (key : string) (d : usage_db) : bool := is_some (lookup_row acc_key key (accounts d)).

Section Reads.
Context `{T : TimeCrate} `{U : UsageTime}.

Definition format_timestamp (context : string) (timestamp : Z) : UM string := expect context (format_db timestamp).
(** [{timestamp:?}]: a stored timestamp holds no character that is escaped. *)
Definition parse_timestamp (timestamp : string) : UM Z :=
  expect ("invalid usage timestamp " +:+ QT +:+ timestamp +:+ QT) (parse_rfc3339 timestamp).
End Reads.

(** [a - b] of two instants and of an instant and a duration, which panics out of range. *)
Definition instant_sub `{T : TimeCrate} {S} (t d : Z) : M S Z :=
  match instant_checked_add t (- d) with Some z => ret z | None => panic end.
Definition instant_add `{T : TimeCrate} {S} (t d : Z) : M S Z :=
  match instant_checked_add t d with Some z => ret z | None => panic end.
Definition MILLIS : Z := 1000000.
(** [Duration::milliseconds], and [Duration::minutes] with its overflow check. *)
Definition milliseconds (ms : Z) : Z := ms * MILLIS.
Definition minutes {S} (m : Z) : M S Z := if in_i64 (m * 60) then ret (seconds (m * 60)) else panic.

(** ** Texts in the order of their instants *)
Section Order.
Context {T : TimeCrate} {U : UsageTime} {L : UsageTimeLaws T U}.

Lemma format_db_inj t1 t2 s : 0 <= t1 -> 0 <= t2 -> format_db t1 = Some s -> format_db t2 = Some s -> t1 = t2.
Proof.
  intros H1 H2 F1 F2. pose proof (format_db_order _ _ _ _ H1 H2 F1 F2) as H.
  rewrite string_compare_refl in H. by apply Z.compare_eq.
Qed.
Lemma format_db_leb t1 s1 t2 s2 : 0 <= t1 -> 0 <= t2 -> format_db t1 = Some s1 -> format_db t2 = Some s2 ->
  text_leb s1 s2 = (t1 <=? t2).
Proof. intros H1 H2 F1 F2. unfold text_leb, String.leb. by rewrite (format_db_order _ _ _ _ H1 H2 F1 F2). Qed.
Lemma format_db_ltb t1 s1 t2 s2 : 0 <= t1 -> 0 <= t2 -> format_db t1 = Some s1 -> format_db t2 = Some s2 ->
  String.ltb s1 s2 = (t1 <? t2).
Proof. intros H1 H2 F1 F2. unfold String.ltb. by rewrite (format_db_order _ _ _ _ H1 H2 F1 F2). Qed.
Lemma format_db_eqb t1 s1 t2 s2 : 0 <= t1 -> 0 <= t2 -> format_db t1 = Some s1 -> format_db t2 = Some s2 ->
  (s1 =?s s2) = (t1 =? t2).
Proof.
  intros H1 H2 F1 F2. destruct (Z.eqb_spec t1 t2) as [->|Hne].
  - rewrite F1 in F2. injection F2 as <-. apply String.eqb_refl.
  - apply String.eqb_neq. intros ->. apply Hne. by eapply format_db_inj.
Qed.
End Order.
