(* ===== verification/DemoUsage.v ===== *)
(** * Concrete timestamps of the usage database

    An instance of [UsageTime] on which the usage model is run: instants are written as
    twenty-one decimal digits after a mark, so that texts compare like the instants. *)
From Stdlib Require Import ZArith Lia Bool String Ascii List DecimalString.
From stdpp Require Import base tactics list strings.
From S2P Require Import Prelude Text Table Clock Demo Json UsageDb.

Definition digit_of (z : Z) : ascii := ascii_of_N (Z.to_N (48 + z)).
(** The last [n] decimal digits of [z]. *)
Fixpoint fixed_digits (n : nat) (z : Z) : string :=
  match n with
  | O => ""
  | S n' => String (digit_of (z / 10 ^ Z.of_nat n' mod 10)) (fixed_digits n' z)
  end.
Definition FIXED : nat := 21.
Definition demo_instant (t : Z) : bool := Z.abs t <=? 253402300800 * NANOS.

#[export] Instance demo_usage_time : UsageTime := {|
  format_db := fun t =>
    if demo_instant t then
      Some (if 0 <=? t then String "#" (fixed_digits FIXED t) else show_Z t)
    else None;
  from_unix_timestamp := fun s => if demo_instant (seconds s) then Some (seconds s) else None;
  from_unix_timestamp_nanos := fun n => if demo_instant n then Some n else None;
  time_parse_error := fun s => ("cannot parse " ++ s)%string |}.

Lemma digit_bounds z : N_of_ascii (digit_of (z mod 10)) = Z.to_N (48 + z mod 10).
Proof.
  unfold digit_of. rewrite N_ascii_embedding; [done|]. pose proof (Z.mod_pos_bound z 10). lia.
Qed.

Lemma parse_fixed n z acc : 0 <= z -> parse_digits (bytes_of (fixed_digits n z)) acc = Some (acc * 10 ^ Z.of_nat n + z mod 10 ^ Z.of_nat n).
Proof.
  intros Hz. revert acc. induction n as [|n IH]; intros acc.
  - cbn. rewrite Z.mod_1_r. f_equal. lia.
  - cbn [fixed_digits bytes_of list_ascii_of_string parse_digits]. fold (bytes_of (fixed_digits n z)).
    rewrite digit_bounds. pose proof (Z.mod_pos_bound (z / 10 ^ Z.of_nat n) 10 ltac:(lia)) as Hd.
    rewrite Z2N.id by lia.
    destruct (Z.leb_spec 48 (48 + (z / 10 ^ Z.of_nat n) mod 10)); [|lia].
    destruct (Z.leb_spec (48 + (z / 10 ^ Z.of_nat n) mod 10) 57); [|lia]. cbn [andb].
    rewrite IH. f_equal. rewrite Nat2Z.inj_succ, Z.pow_succ_r by lia.
    pose proof (Z.pow_pos_nonneg 10 (Z.of_nat n) ltac:(lia) ltac:(lia)) as Hp.
    rewrite (Z.mul_comm 10 (10 ^ _)), Z.rem_mul_r by lia. lia.
Qed.

Lemma compare_fixed n a b : 0 <= a -> 0 <= b ->
  String.compare (fixed_digits n a) (fixed_digits n b) = (a mod 10 ^ Z.of_nat n ?= b mod 10 ^ Z.of_nat n).
Proof.
  intros Ha Hb. induction n as [|n IH]; [cbn; by rewrite !Z.mod_1_r|].
  cbn [fixed_digits String.compare]. unfold Ascii.compare. rewrite !digit_bounds, IH.
  rewrite Nat2Z.inj_succ, Z.pow_succ_r by lia.
  pose proof (Z.pow_pos_nonneg 10 (Z.of_nat n) ltac:(lia) ltac:(lia)) as Hp.
  rewrite (Z.mul_comm 10 (10 ^ _)), !Z.rem_mul_r by lia. set (e := 10 ^ Z.of_nat n) in *.
  pose proof (Z.mod_pos_bound (a / e) 10 ltac:(lia)). pose proof (Z.mod_pos_bound (b / e) 10 ltac:(lia)).
  pose proof (Z.mod_pos_bound a e ltac:(lia)). pose proof (Z.mod_pos_bound b e ltac:(lia)).
  destruct (N.compare_spec (Z.to_N (48 + (a / e) mod 10)) (Z.to_N (48 + (b / e) mod 10))) as [E|E|E].
  - assert ((a / e) mod 10 = (b / e) mod 10) as -> by lia. 
    destruct (Z.compare_spec (a mod e) (b mod e)); symmetry;
      [apply Z.compare_eq_iff|apply Z.compare_lt_iff|apply Z.compare_gt_iff]; lia.
  - symmetry. apply Z.compare_lt_iff. nia.
  - symmetry. apply Z.compare_gt_iff. nia.
Qed.

Lemma fixed_small t : 0 <= t -> demo_instant t = true -> t mod 10 ^ Z.of_nat FIXED = t.
Proof. unfold demo_instant, NANOS, FIXED. intros H Hd%Z.leb_le. apply Z.mod_small. lia. Qed.

#[export] Instance demo_usage_laws : UsageTimeLaws demo_time demo_usage_time.
Proof.
  split; cbn [format_db demo_usage_time].
  - intros t s Ht H. destruct (demo_instant t) eqn:E; [|done]. destruct (Z.leb_spec 0 t); [|lia].
    assert (s = String "#" (fixed_digits FIXED t)) as -> by congruence. cbn [parse_rfc3339 demo_time]. unfold demo_parse.
        assert (NilZero.int_of_string (String "#" (fixed_digits FIXED t)) = None) as ->.
    { generalize (fixed_digits FIXED t). intros r. cbn. by destruct (NilEmpty.uint_of_string r). }
    unfold demo_parse_fixed. cbn [bytes_of list_ascii_of_string Ascii.eqb]. fold (bytes_of (fixed_digits FIXED t)).
      rewrite parse_fixed by done. by rewrite fixed_small.
  - intros t1 s1 t2 s2 H1 H2 F1 F2. destruct (demo_instant t1) eqn:E1, (demo_instant t2) eqn:E2; try done.
    destruct (Z.leb_spec 0 t1), (Z.leb_spec 0 t2); try lia. 
    assert (s1 = String "#" (fixed_digits FIXED t1)) as -> by congruence.
    assert (s2 = String "#" (fixed_digits FIXED t2)) as -> by congruence.
    cbn [String.compare]. change (Ascii.compare "#" "#") with Eq. cbv iota.
    by rewrite compare_fixed, !fixed_small.
  - intros t s t' Ht H. destruct (demo_instant t) eqn:E; [|done]. unfold demo_instant in *.
    destruct (Z.leb_spec (Z.abs t') (253402300800 * NANOS)); [by eexists|]. lia.
  - intros t s d Hd H. destruct (demo_instant t) eqn:E; [|done]. unfold demo_instant, NANOS in *. cbn.
    unfold NANOS. destruct (Z.leb_spec (Z.abs (t + - d)) (377705116800 * 1000000000)); [f_equal; lia|lia].
Qed.
