(* ===== verification/UsageIdentity.v ===== *)
(** * Account identity: who was logged in when (usage_identity.rs)

    The identity files of the two providers are polled; every successful poll is recorded
    in the timeline of accounts, from which a message is attributed to the account that was
    logged in at its time. *)
From Stdlib Require Import ZArith Lia Bool String Ascii List.
From stdpp Require Import base tactics list strings.
From S2P Require Import Prelude Text StrMethods Table Clock Json UsageDb.

(** ** Data *)
Inductive Provider : Type := Claude | Codex.
#[export] Instance Provider_eq_dec : EqDecision Provider.
Proof. solve_decision. Defined.
Definition Provider_as_str (p : Provider) : string :=
  match p with Claude => "claude" | Codex => "codex" end.

Record AccountIdentity : Type := MkIdentity {
  id_provider : Provider;
  external_id : string;
  id_label : option string;
  id_plan_tier : option string;
  id_extra_usage_enabled : option bool }.
Definition account_key (i : AccountIdentity) : string :=
  Provider_as_str (id_provider i) +:+ ":" +:+ external_id i.
Definition validate (i : AccountIdentity) : UM unit :=
  if is_blank (external_id i)
  then bail (Provider_as_str (id_provider i) +:+ " account identity is empty") else ret tt.

Record TimelineAttribution : Type := MkAttribution {
  at_account_key : string; at_is_assumed : bool; at_is_uncertain : bool }.

Inductive ObservationOutcome : Type :=
| Opened (account_key : string)
| Unchanged (account_key : string)
| Switched (previous_account_key account_key : string) (uncertainty_ms : Z)
| LoggedOut (previous_account_key : string)
| RemainedLoggedOut.

(** ** Statements *)
Definition of_provider (p : Provider) (r : timeline_row) : bool := tl_provider r =?s Provider_as_str p.
Definition is_current (p : Provider) (r : timeline_row) : bool := of_provider p r && is_none (tl_to r).
Definition from_desc (a b : timeline_row) : bool := text_leb (tl_from b) (tl_from a).
Definition from_asc (a b : timeline_row) : bool := text_leb (tl_from a) (tl_from b).
(** [SELECT .. WHERE p ORDER BY .. LIMIT 1]. *)
Definition first_row {row} (leb : row -> row -> bool) (p : row -> bool) (t : list row) : option row :=
  head (order_by leb (select p t)).

Definition current_account (p : Provider) : UM (option (string * string)) :=
  query (fun d =>
    bind_opt (first_row from_desc (fun r => is_current p r && account_exists (tl_account_key r) d)
                (account_timeline d)) (fun r =>
    bind_opt (lookup_row acc_key (tl_account_key r) (accounts d)) (fun a =>
    Some (tl_account_key r, acc_last_seen a)))).

Definition close_current (p : Provider) (to_ts : string) : UM unit :=
  execute (fun d =>
    (d <| account_timeline := update (is_current p) (fun r => r <| tl_to := Some to_ts |>) (account_timeline d) |>,
     changes (is_current p) (account_timeline d))) ;;; ret tt.

(** [COALESCE(excluded.c, accounts.c)]. *)
Definition coalesce {A} (new old : option A) : option A := match new with Some _ => new | None => old end.
(** [INSERT INTO accounts .. ON CONFLICT(account_key) DO UPDATE], with [seen] what becomes
    of the old and the new [last_seen]. *)
Definition upsert_account_row (seen : string -> string -> string) (i : AccountIdentity) (ts : string)
    (t : list account_row) : list account_row :=
  let key := account_key i in
  match lookup_row acc_key key t with
  | None =>
      insert t (AccountRow key (Provider_as_str (id_provider i)) (external_id i) (id_label i)
                  (id_plan_tier i) (id_extra_usage_enabled i) ts ts)
  | Some _ =>
      update (has_key acc_key key) (fun r =>
        r <| acc_label := coalesce (id_label i) (acc_label r) |>
          <| acc_plan_tier := coalesce (id_plan_tier i) (acc_plan_tier r) |>
          <| acc_extra_usage := coalesce (id_extra_usage_enabled i) (acc_extra_usage r) |>
          <| acc_last_seen := seen (acc_last_seen r) ts |>) t
  end.

Definition md_at (key ts : string) (m : metadata_row) : bool :=
  (md_account_key m =?s key) && (md_observed_at m =?s ts).
Definition record_account_metadata (key observed_ts : string) : UM unit :=
  execute (fun d =>
    match lookup_row acc_key key (accounts d) with
    | None => (d, O)
    | Some a =>
        let t := account_metadata_history d in
        let t' :=
          if existsb (md_at key observed_ts) t then
            update (md_at key observed_ts) (fun m =>
              m <| md_plan_tier := acc_plan_tier a |> <| md_extra_usage := acc_extra_usage a |>) t
          else insert t (MetadataRow key observed_ts (acc_plan_tier a) (acc_extra_usage a)) in
        (d <| account_metadata_history := t' |>, 1%nat)
    end) ;;; ret tt.

Definition upsert_account (i : AccountIdentity) (observed_ts : string) : UM unit :=
  execute (fun d =>
    (d <| accounts := upsert_account_row (fun _ new => new) i observed_ts (accounts d) |>, 1%nat)) ;;;
  record_account_metadata (account_key i) observed_ts.

(** [PRIMARY KEY (provider, from_ts)]. *)
Definition at_from (p : Provider) (from_ts : string) (r : timeline_row) : bool :=
  of_provider p r && (tl_from r =?s from_ts).
Definition timeline_violation (p : Provider) (key from_ts : string) (to_ts : option string) (d : usage_db)
    : option string :=
  if existsb (at_from p from_ts) (account_timeline d) then Some UNIQUE_FAILED
  else if is_none to_ts && existsb (is_current p) (account_timeline d) then Some UNIQUE_FAILED
  else if account_exists key d then None else Some FOREIGN_KEY_FAILED.
Definition insert_timeline_row (p : Provider) (key from_ts : string) (to_ts : option string)
    (uncertainty_ms : Z) (is_assumed : bool) : UM unit :=
  checked (timeline_violation p key from_ts to_ts) (fun d =>
    (d <| account_timeline := insert (account_timeline d)
            (TimelineRow (Provider_as_str p) key from_ts to_ts uncertainty_ms is_assumed) |>, 1%nat)) ;;;
  ret tt.

(** ** Operations *)
(** [whole_milliseconds] truncates; a difference that is no [i64] counts as zero. *)
Definition uncertainty_width (previous_poll_at : option Z) (observed_at : Z) : Z :=
  match previous_poll_at with
  | Some previous =>
      if previous <=? observed_at then
        let ms := Z.quot (observed_at - previous) MILLIS in if in_i64 ms then ms else 0
      else 0
  | None => 0
  end.

Section Store.
Context `{T : TimeCrate} `{U : UsageTime}.

Definition format_usage_timestamp : Z -> UM string := format_timestamp "failed to format usage timestamp".

Definition move_assumed_start (p : Provider) (existing_from bootstrap_ts : string) : UM unit :=
  checked (fun d => if existsb (at_from p bootstrap_ts) (account_timeline d)
                    then Some UNIQUE_FAILED else None)
    (fun d =>
      (d <| account_timeline := update (at_from p existing_from) (fun r => r <| tl_from := bootstrap_ts |>)
                                  (account_timeline d) |>,
       changes (at_from p existing_from) (account_timeline d))) ;;;
  ret tt.

Definition ensure_bootstrap_interval_tx (p : Provider) (earliest_open_message_at : Z) : UM bool :=
  first_observed <- query (fun d =>
    first_row from_asc (fun r => of_provider p r && negb (tl_assumed r)) (account_timeline d)) ;;
  match first_observed with
  | None => ret false
  | Some first =>
      first_observed_at <- parse_timestamp (tl_from first) ;;
      if first_observed_at <=? earliest_open_message_at then ret false
      else
        bootstrap_ts <- format_usage_timestamp earliest_open_message_at ;;
        existing <- query (fun d =>
          first_row from_asc
            (fun r => of_provider p r && tl_assumed r && opt_str_eqb (tl_to r) (Some (tl_from first)))
            (account_timeline d)) ;;
        match existing with
        | Some r =>
            if String.ltb bootstrap_ts (tl_from r) then
              move_assumed_start p (tl_from r) bootstrap_ts ;;; ret true
            else ret false
        | None =>
            insert_timeline_row p (tl_account_key first) bootstrap_ts (Some (tl_from first)) 0 true ;;;
            ret true
        end
  end.

(** The body of the transaction. *)
Definition record_observation_tx (p : Provider) (identity : option AccountIdentity) (observed_at : Z)
    (previous_poll_at bootstrap_from : option Z) : UM ObservationOutcome :=
  observed_ts <- format_usage_timestamp observed_at ;;
  current <- current_account p ;;
  outcome <-
    match current, identity with
    | Some (current_key, _), None =>
        close_current p observed_ts ;;; ret (LoggedOut current_key)
    | None, None => ret RemainedLoggedOut
    | Some (current_key, previous_last_seen), Some i =>
        if current_key =?s account_key i then
          upsert_account i observed_ts ;;; ret (Unchanged current_key)
        else
          upsert_account i observed_ts ;;;
          close_current p observed_ts ;;;
          persisted_previous <-
            match previous_poll_at with
            | None => t <- parse_timestamp previous_last_seen ;; ret (Some t)
            | Some _ => ret None
            end ;;
          let uncertainty_ms :=
            uncertainty_width (or_else previous_poll_at persisted_previous) observed_at in
          insert_timeline_row p (account_key i) observed_ts None uncertainty_ms false ;;;
          ret (Switched current_key (account_key i) uncertainty_ms)
    | None, Some i =>
        upsert_account i observed_ts ;;;
        insert_timeline_row p (account_key i) observed_ts None
          (uncertainty_width previous_poll_at observed_at) false ;;;
        ret (Opened (account_key i))
    end ;;
  match bootstrap_from with
  | Some earliest => ensure_bootstrap_interval_tx p earliest ;;; ret outcome
  | None => ret outcome
  end.

Definition check_identity (p : Provider) (identity : option AccountIdentity) : UM unit :=
  match identity with
  | None => ret tt
  | Some i =>
      if negb (bool_decide (id_provider i = p)) then
        bail ("identity provider " +:+ Provider_as_str (id_provider i)
                +:+ " does not match observation provider " +:+ Provider_as_str p)
      else validate i
  end.

Definition record_observation (p : Provider) (identity : option AccountIdentity) (observed_at : Z)
    (previous_poll_at bootstrap_from : option Z) : UM ObservationOutcome :=
  check_identity p identity ;;;
  transaction (record_observation_tx p identity observed_at previous_poll_at bootstrap_from).

(** [MAX(a, b)] of two texts. *)
Definition text_max (a b : string) : string := if text_leb a b then b else a.
Definition ensure_account (i : AccountIdentity) (observed_at : Z) : UM unit :=
  validate i ;;;
  transaction (
    observed_ts <- format_usage_timestamp observed_at ;;
    execute (fun d =>
      (d <| accounts := upsert_account_row text_max i observed_ts (accounts d) |>, 1%nat)) ;;;
    record_account_metadata (account_key i) observed_ts).

Definition ensure_bootstrap_interval (p : Provider) (earliest_message_at : Z) : UM bool :=
  transaction (ensure_bootstrap_interval_tx p earliest_message_at).

(** The row a message falls in. *)
Definition covers (p : Provider) (ts : string) (r : timeline_row) : bool :=
  of_provider p r && text_leb (tl_from r) ts
  && match tl_to r with None => true | Some to_ts => String.ltb ts to_ts end.
(** [from_uncertain_ms] of the row that starts at the boundary, or zero. *)
Definition boundary_uncertainty (p : Provider) (to_ts : option string) (d : usage_db) : Z :=
  match to_ts with
  | None => 0
  | Some boundary =>
      unwrap_or 0 (option_map tl_uncertain_ms (List.find (at_from p boundary) (account_timeline d)))
  end.
Definition account_at (p : Provider) (message_at : Z) : UM (option TimelineAttribution) :=
  message_ts <- format_usage_timestamp message_at ;;
  covering <- query (fun d => first_row from_desc (covers p message_ts) (account_timeline d)) ;;
  match covering with
  | None => ret None
  | Some r =>
      uncertainty <- query (boundary_uncertainty p (tl_to r)) ;;
      from <- parse_timestamp (tl_from r) ;;
      is_uncertain <-
        (if (0 <? uncertainty) && (from <=? message_at) then
           match tl_to r with
           | None => ret false
           | Some to_ts =>
               boundary <- parse_timestamp to_ts ;;
               start <- instant_sub boundary (milliseconds uncertainty) ;;
               ret ((start <=? message_at) && (message_at <? boundary))
           end
         else ret false) ;;
      ret (Some (MkAttribution (tl_account_key r) (tl_assumed r) is_uncertain))
  end.
End Store.

(** ** Reading the identity files *)
(** What reading a file gives: its text, or that there is none, or another error. *)
Inductive file_read : Type := FileText (raw : string) | FileMissing | FileError.
(** [URL_SAFE_NO_PAD.decode] of the base64 crate. *)
Class Base64 : Type := { base64_decode : string -> option string; base64_encode : list N -> string }.

Section Files.
Context `{J : JsonParser} `{B : Base64}.

(** [token.split('.').nth(1)] is the payload. *)
Definition decode_jwt_claims (token : string) : option json :=
  bind_opt (split_char "." token !! 1%nat) (fun payload =>
  bind_opt (base64_decode payload) parse_json).

Definition json_string (value : json) (key : string) : option string :=
  trimmed (bind_opt (get_field key value) as_str).
Definition required_json_string (value : json) (key path : string) : outcome string :=
  match json_string value key with
  | Some s => Ok s
  | None => Err (path +:+ " is missing non-empty " +:+ key)
  end.

Definition read_claude_identity (path : string) (file : file_read) : outcome (option AccountIdentity) :=
  match file with
  | FileMissing | FileError => Err ("failed to read " +:+ path)
  | FileText raw =>
      match parse_json raw with
      | None => Err ("failed to parse " +:+ path)
      | Some root =>
          match get_field "oauthAccount" root with
          | None => Ok None
          | Some account =>
              match required_json_string account "accountUuid" path with
              | Ok id =>
                  Ok (Some (MkIdentity Claude id (json_string account "emailAddress")
                              (json_string account "organizationRateLimitTier")
                              (bind_opt (get_field "hasExtraUsageEnabled" account) as_bool)))
              | Err e => Err e
              | Panic => Panic
              end
          end
      end
  end.

Definition CODEX_AUTH : string := "https://api.openai.com/auth".
Definition codex_plan_tier (claims : json) : option string :=
  or_else (bind_opt (get_field CODEX_AUTH claims) (fun auth => json_string auth "chatgpt_plan_type"))
          (json_string claims (CODEX_AUTH +:+ ".chatgpt_plan_type")).
Definition read_codex_identity (path : string) (file : file_read) : outcome (option AccountIdentity) :=
  match file with
  | FileMissing => Ok None
  | FileError => Err ("failed to read " +:+ path)
  | FileText raw =>
      match parse_json raw with
      | None => Err ("failed to parse " +:+ path)
      | Some root =>
          if negb (opt_str_eqb (bind_opt (get_field "auth_mode" root) as_str) (Some "chatgpt"%string))
          then Ok None
          else
            match bind_opt (get_field "tokens" root) as_object with
            | None => Err (path +:+ " has chatgpt auth without tokens")
            | Some tokens =>
                match trimmed (bind_opt (field "account_id" tokens) as_str) with
                | None => Err (path +:+ " has chatgpt auth without account_id")
                | Some id =>
                    let claims := bind_opt (bind_opt (field "id_token" tokens) as_str) decode_jwt_claims in
                    Ok (Some (MkIdentity Codex id (bind_opt claims (fun c => json_string c "email"))
                                (bind_opt claims codex_plan_tier) None))
                end
            end
      end
  end.
End Files.
