(* ===== verification/UsageBurn.v ===== *)
(** * Burn samples: how much of a rate-limit window is used (usage_burn.rs)

    Samples of the rate-limit windows of an account arrive from the status line, from the
    cache file of one provider and from the events of the other, and are recorded once. *)
From Stdlib Require Import ZArith Lia Bool String List.
From stdpp Require Import base tactics list strings.
From S2P Require Import Prelude Text Table Clock Json UsageDb UsageIdentity.

Definition SESSION_WINDOW_MINUTES : Z := 300.
Definition WEEKLY_WINDOW_MINUTES : Z := 10080.

Record BurnWindowSample : Type := MkWindow {
  window_kind : string;
  window_scope : option string;
  duration_minutes : Z;
  percent : f64;
  resets_at : Z;
  severity : option string;
  is_active : option bool }.

Definition F64_0 : f64 := f64_of_Z 0.
Definition F64_100 : f64 := f64_of_Z 100.
(** [window.percent.is_finite() && (0.0..=100.0).contains(&window.percent)]. *)
Definition valid_percent (f : f64) : bool := f64_is_finite f && (f64_leb F64_0 f && f64_leb f F64_100).
Definition validate_window {S} (w : BurnWindowSample) : M S unit :=
  if is_blank (window_kind w) || (duration_minutes w <=? 0)
  then bail "burn sample window kind and duration must be valid"
  else if negb (valid_percent (percent w))
  then bail "burn sample percent must be finite and between 0 and 100"
  else ret tt.

(** ** JSON helpers *)
Definition json_i64 (value : option json) : option Z :=
  bind_opt value (fun v =>
    or_else (as_i64 v) (bind_opt (as_u64 v) (fun n => if n <=? I64_MAX then Some n else None))).
Definition json_f64 (value : option json) : option f64 :=
  bind_opt value (fun v => or_else (as_f64 v) (option_map f64_of_Z (as_i64 v))).
(** [json_string] on a map. *)
Definition map_string (fields : list (string * json)) (key : string) : option string :=
  trimmed (bind_opt (field key fields) as_str).

Definition codex_rate_limits (event : list (string * json)) : option (list (string * json)) :=
  let payload := bind_opt (field "payload" event) as_object in
  or_else
    (or_else
       (bind_opt (bind_opt payload (fun p => or_else (field "rateLimits" p) (field "rate_limits" p))) as_object)
       (bind_opt (bind_opt (bind_opt (bind_opt payload (field "info")) as_object) (field "rate_limits")) as_object))
    (bind_opt (field "rate_limits" event) as_object).
Definition is_codex_rate_limit_event (event : list (string * json)) : bool :=
  if is_none (codex_rate_limits event) then false
  else
    let event_type := unwrap_or ""%string (or_else (map_string event "event_type") (map_string event "type")) in
    (event_type =?s "account/rateLimits/updated") || (event_type =?s "account_rate_limits_updated")
    || (event_type =?s "event_msg")
       && opt_str_eqb (bind_opt (bind_opt (field "payload" event) as_object) (fun p => map_string p "type"))
            (Some "token_count"%string).

(** ** Statements *)
(** The samples of one window of an account. *)
Definition same_window (key kind : string) (scope : option string) (b : burn_row) : bool :=
  (bs_account_key b =?s key) && (bs_window_kind b =?s kind) && opt_str_eqb (bs_window_scope b) scope.
Definition same_sample (key kind : string) (scope : option string) (source observed_at : string)
    (b : burn_row) : bool :=
  same_window key kind scope b && (bs_source b =?s source) && (bs_observed_at b =?s observed_at).

Section Store.
Context `{T : TimeCrate} `{U : UsageTime}.

Definition format_burn_timestamp : Z -> UM string := format_timestamp "failed to format timestamp".

(** [ORDER BY observed_at DESC, id DESC LIMIT 1]: among the latest, the last row. *)
Definition latest_sample (key kind : string) (scope : option string) (observed_at : string) (d : usage_db)
    : option burn_row :=
  head (order_by (fun a b => text_leb (bs_observed_at b) (bs_observed_at a))
          (rev (select (fun b => same_window key kind scope b && text_leb (bs_observed_at b) observed_at)
                  (burn_samples d)))).
Definition latest_window (key kind : string) (scope : option string) (observed_at : string)
    : UM (option (f64 * Z * option string)) :=
  row <- query (latest_sample key kind scope observed_at) ;;
  match row with
  | None => ret None
  | Some b =>
      t <- expect (time_parse_error (bs_resets_at b)) (parse_rfc3339 (bs_resets_at b)) ;;
      ret (Some (bs_percent b, t, bs_severity b))
  end.

Definition insert_window (key source observed_at : string) (w : BurnWindowSample) : UM nat :=
  resets <- format_burn_timestamp (resets_at w) ;;
  length_ <- minutes (duration_minutes w) ;;
  start <- instant_sub (resets_at w) length_ ;;
  window_start <- format_burn_timestamp start ;;
  let known d := existsb (same_sample key (window_kind w) (window_scope w) source observed_at) (burn_samples d) in
  checked (fun d => if known d || account_exists key d then None else Some FOREIGN_KEY_FAILED)
    (fun d =>
      if known d then (d, O)
      else (d <| burn_samples := insert (burn_samples d)
                   (BurnRow key (window_kind w) (window_scope w) window_start (percent w) resets
                      (severity w) (is_active w) source observed_at) |>, 1%nat)).
Definition insert_windows (key : string) (windows : list BurnWindowSample) (source observed_at : string) : UM nat :=
  fold_each windows O (fun inserted w =>
    n <- insert_window key source observed_at w ;; ret (inserted + n)%nat).

(** ** Operations *)
Definition record_for_account (key : string) (windows : list BurnWindowSample) (source : string)
    (observed_at : Z) : UM nat :=
  if is_blank key || is_blank source then bail "burn sample account and source must not be empty"
  else
    for_each windows validate_window ;;;
    observed_at <- format_burn_timestamp observed_at ;;
    transaction (insert_windows key windows source observed_at).

Definition record_for_provider (p : Provider) (windows : list BurnWindowSample) (source : string)
    (observed_at : Z) : UM nat :=
  attribution <- account_at p observed_at ;;
  match attribution with
  | None => ret O
  | Some a => record_for_account (at_account_key a) windows source observed_at
  end.

Definition paired_claude_window (kind : string) (duration : Z) (percent : option f64)
    (resets_at : option string) : UM (option BurnWindowSample) :=
  match percent, resets_at with
  | Some percent, Some resets_at =>
      t <- expect ("invalid " +:+ kind +:+ " reset timestamp") (parse_rfc3339 resets_at) ;;
      ret (Some (MkWindow kind None duration percent t None None))
  | _, _ => ret None
  end.
Definition push_some {A} (l : list A) (o : option A) : list A :=
  match o with Some a => l ++ [a] | None => l end%list.
Definition record_claude_statusline (observed_at : Z) (five_hour_percent : option f64)
    (five_hour_resets_at : option string) (seven_day_percent : option f64)
    (seven_day_resets_at : option string) : UM nat :=
  session <- paired_claude_window "session_5h" SESSION_WINDOW_MINUTES five_hour_percent five_hour_resets_at ;;
  weekly <- paired_claude_window "weekly_all" WEEKLY_WINDOW_MINUTES seven_day_percent seven_day_resets_at ;;
  record_for_provider Claude (push_some (push_some [] session) weekly) "statusline" observed_at.

(** *** The cache file *)
Record ClaudeCachedUsage : Type := MkCachedUsage {
  cu_identity : AccountIdentity; cu_observed_at : Z; cu_windows : list BurnWindowSample }.
Definition parse_instant (o : option string) : option Z := bind_opt o parse_rfc3339.
(** One entry of [limits]. *)
Definition cached_limit (limit : list (string * json)) : option BurnWindowSample :=
  bind_opt (map_string limit "kind") (fun kind =>
  bind_opt
    (if kind =?s "session" then Some ("session_5h"%string, SESSION_WINDOW_MINUTES)
     else if kind =?s "weekly_all" then Some ("weekly_all"%string, WEEKLY_WINDOW_MINUTES)
     else if kind =?s "weekly_scoped" then Some ("weekly_scoped"%string, WEEKLY_WINDOW_MINUTES)
     else None) (fun '(window_kind, duration) =>
  bind_opt (json_f64 (field "percent" limit)) (fun percent =>
  bind_opt (parse_instant (map_string limit "resets_at")) (fun resets_at =>
  let scope :=
    bind_opt (bind_opt (field "scope" limit) as_object) (fun scope =>
    bind_opt (bind_opt (field "model" scope) as_object) (fun model => map_string model "display_name")) in
  Some (MkWindow window_kind scope duration percent resets_at (map_string limit "severity")
          (bind_opt (field "is_active" limit) as_bool)))))).
(** One of the two windows of the older format. *)
Definition cached_window (utilization : list (string * json)) (key kind : string) (duration : Z)
    : option BurnWindowSample :=
  bind_opt (bind_opt (field key utilization) as_object) (fun window =>
  bind_opt (json_f64 (field "utilization" window)) (fun percent =>
  bind_opt (parse_instant (map_string window "resets_at")) (fun resets_at =>
  Some (MkWindow kind None duration percent resets_at None None)))).
Definition cached_windows (utilization : list (string * json)) : list BurnWindowSample :=
  let windows :=
    match bind_opt (field "limits" utilization) as_array with
    | Some limits => omap cached_limit (omap as_object limits)
    | None => []
    end in
  match windows with
  | [] => push_some (push_some [] (cached_window utilization "five_hour" "session_5h" SESSION_WINDOW_MINUTES))
            (cached_window utilization "seven_day" "weekly_all" WEEKLY_WINDOW_MINUTES)
  | _ => windows
  end.
Definition parse_claude_cached_usage (value : json) : UM (option ClaudeCachedUsage) :=
  match bind_opt (get_field "cachedUsageUtilization" value) as_object with
  | None => ret None
  | Some cached =>
      account_id <- expect "Claude usage cache is missing accountUuid"
        (or_else (map_string cached "accountUuid")
           (bind_opt (bind_opt (get_field "oauthAccount" value) as_object) (fun a => map_string a "accountUuid"))) ;;
      fetched_at_ms <- expect "Claude usage cache is missing fetchedAtMs" (json_i64 (field "fetchedAtMs" cached)) ;;
      observed_at <- expect "Claude usage fetchedAtMs is out of range"
        (from_unix_timestamp_nanos (fetched_at_ms * 1000000)) ;;
      utilization <- expect "Claude usage cache is missing utilization"
        (bind_opt (field "utilization" cached) as_object) ;;
      ret (Some (MkCachedUsage (MkIdentity Claude account_id None None None) observed_at
                   (cached_windows utilization)))
  end.
Definition record_claude_json_file `{J : JsonParser} (path : string) (file : file_read) : UM nat :=
  raw <- match file with
         | FileText raw => ret raw
         | _ => bail ("failed to read Claude usage cache " +:+ path)
         end ;;
  value <- expect ("failed to parse Claude usage cache " +:+ path) (parse_json raw) ;;
  snapshot <- parse_claude_cached_usage value ;;
  match snapshot with
  | None => ret O
  | Some s =>
      ensure_account (cu_identity s) (cu_observed_at s) ;;;
      record_for_account (account_key (cu_identity s)) (cu_windows s) "claude_json" (cu_observed_at s)
  end.

(** *** Events *)
Definition codex_reset_at (update : list (string * json)) (observed_at : Z) : UM (option Z) :=
  match json_i64 (or_else (field "resetsAt" update) (field "resets_at" update)) with
  | Some timestamp => ret (from_unix_timestamp timestamp)
  | None =>
      let observed_second := observed_at - observed_at mod NANOS in
      match json_i64 (field "resets_in_seconds" update) with
      | None => ret None
      | Some s => t <- instant_add observed_second (seconds s) ;; ret (Some t)
      end
  end.
Definition same_reading (previous : option (f64 * Z * option string)) (percent : f64) (resets_at : Z)
    (severity : option string) : bool :=
  match previous with
  | Some (p, t, s) => f64_eqb p percent && (t =? resets_at) && opt_str_eqb s severity
  | None => false
  end.
(** One slot of the event: the new sample, if it says something new. *)
Definition changed_window (rate_limits : list (string * json)) (key : string) (scope severity : option string)
    (observed_at : Z) (observed_at_text slot : string) : UM (option BurnWindowSample) :=
  match bind_opt (field slot rate_limits) as_object with
  | None => ret None
  | Some update =>
      match json_i64 (or_else (field "windowDurationMins" update) (field "window_minutes" update)) with
      | None => ret None
      | Some duration =>
          let percent_update := json_f64 (or_else (field "usedPercent" update) (field "used_percent" update)) in
          reset_update <- codex_reset_at update observed_at ;;
          if is_none percent_update && is_none reset_update then ret None
          else
            let kind := "codex_" +:+ show_Z duration in
            previous <- latest_window key kind scope observed_at_text ;;
            match or_else percent_update (option_map (fun p => fst (fst p)) previous),
                  or_else reset_update (option_map (fun p => snd (fst p)) previous) with
            | Some percent, Some resets_at =>
                if same_reading previous percent resets_at severity then ret None
                else
                  let window := MkWindow kind scope duration percent resets_at severity None in
                  validate_window window ;;; ret (Some window)
            | _, _ => ret None
            end
      end
  end.
Definition changed_windows (rate_limits : list (string * json)) (key : string) (scope severity : option string)
    (observed_at : Z) (observed_at_text : string) : UM (list BurnWindowSample) :=
  fold_each ["primary"; "secondary"]%string [] (fun windows slot =>
    w <- changed_window rate_limits key scope severity observed_at observed_at_text slot ;;
    ret (push_some windows w)).

Definition codex_attribution (observed_at : Z) : UM (option TimelineAttribution) :=
  attribution <- account_at Codex observed_at ;;
  match attribution with
  | Some a => ret (Some a)
  | None => ensure_bootstrap_interval Codex observed_at ;;; account_at Codex observed_at
  end.
Definition codex_scope (rate_limits : list (string * json)) : option string :=
  let limit_id := unwrap_or "codex"%string
    (or_else (map_string rate_limits "limitId") (map_string rate_limits "limit_id")) in
  if limit_id =?s "codex" then None else Some limit_id.
Definition codex_severity (rate_limits : list (string * json)) : option string :=
  option_map (fun _ => "critical"%string)
    (or_else (map_string rate_limits "rateLimitReachedType") (map_string rate_limits "rate_limit_reached_type")).
Definition codex_observed_at (event : list (string * json)) (received_at : Z) : Z :=
  unwrap_or received_at (parse_instant (or_else (map_string event "ts") (map_string event "timestamp"))).

Definition record_codex_event (event : list (string * json)) (received_at : Z) : UM nat :=
  if negb (is_codex_rate_limit_event event) then ret O
  else
    let observed_at := codex_observed_at event received_at in
    attribution <- codex_attribution observed_at ;;
    match attribution, codex_rate_limits event with
    | Some a, Some rate_limits =>
        let key := at_account_key a in
        let scope := codex_scope rate_limits in
        let severity := codex_severity rate_limits in
        observed_at_text <- format_burn_timestamp observed_at ;;
        preflight <- changed_windows rate_limits key scope severity observed_at observed_at_text ;;
        match preflight with
        | [] => ret O
        | _ =>
            transaction (
              windows <- changed_windows rate_limits key scope severity observed_at observed_at_text ;;
              match windows with
              | [] => ret O
              | _ => insert_windows key windows "codex_event" observed_at_text
              end)
        end
    | _, _ => ret O
    end.
End Store.
