(* ===== verification/UsagePoller.v ===== *)
(** * The identity poller (usage_identity.rs, [IdentityPoller])

    The poller's memory is the database and, for each provider, the time of the last
    successful poll, which is lost when the process restarts. *)
From Stdlib Require Import ZArith Lia Bool String List.
From stdpp Require Import base tactics list strings.
From S2P Require Import Prelude Text Table Clock Json UsageDb UsageIdentity UsageBurn.

Record poller : Type := Poller {
  po_usage : usage_db;
  last_successful_poll : list (Provider * Z) }.
#[export] Instance eta_poller : Eta poller := fun d => Poller (po_usage d) (last_successful_poll d).
Abbreviation PM := (M (world poller)).

(** The answers of the file system at reading [k]. *)
Class UsageFiles : Type := {
  usage_file : nat -> string -> file_read;
  usage_path_exists : nat -> string -> bool }.

(** An operation of the stores, on the poller's database. *)
Definition on_usage {A} (m : UM A) : PM A :=
  fun w =>
    let '(r, w') := m (World (po_usage (w_db w)) (w_tick w)) in
    (r, World ((w_db w) <| po_usage := w_db w' |>) (w_tick w')).
(** [BTreeMap::get] and [insert]. *)
Definition last_poll (p : Provider) (l : list (Provider * Z)) : option Z :=
  option_map snd (List.find (fun kv => bool_decide (fst kv = p)) l).
Definition set_last_poll (p : Provider) (t : Z) (l : list (Provider * Z)) : list (Provider * Z) :=
  (p, t) :: List.filter (fun kv => negb (bool_decide (fst kv = p))) l.

Section Poller.
Context `{T : TimeCrate} `{U : UsageTime} `{J : JsonParser} `{B : Base64} `{F : UsageFiles}.

(** The result and the errors pushed. *)
Definition poll_provider (p : Provider) (observed_at : Z) (identity : outcome (option AccountIdentity))
    : PM (bool * list (Provider * string)) :=
  match identity with
  | Panic => panic
  | Err e => ret (false, [(p, e)])
  | Ok identity =>
      previous <- query (fun d => last_poll p (last_successful_poll d)) ;;
      recorded <- attempt (on_usage (record_observation p identity observed_at previous None)) ;;
      match recorded with
      | inl _ =>
          execute (fun d =>
            (d <| last_successful_poll := set_last_poll p observed_at (last_successful_poll d) |>, O)) ;;;
          ret (true, [])
      | inr e => ret (false, [(p, e)])
      end
  end.

Definition poll_once (claude_identity_path codex_identity_path : string) (observed_at : Z)
    : PM (list (Provider * string)) :=
  k <- tick ;;
  claude <- poll_provider Claude observed_at
              (read_claude_identity claude_identity_path (usage_file k claude_identity_path)) ;;
  k <- tick ;;
  codex <- poll_provider Codex observed_at
             (read_codex_identity codex_identity_path (usage_file k codex_identity_path)) ;;
  let errors := (snd claude ++ snd codex)%list in
  cache <- (if fst claude then k <- tick ;; ret (usage_path_exists k claude_identity_path) else ret false) ;;
  if (cache : bool) then
    k <- tick ;;
    burn <- attempt (on_usage (record_claude_json_file claude_identity_path
                                 (usage_file k claude_identity_path))) ;;
    match burn with
    | inl _ => ret errors
    | inr e => ret (errors ++ [(Claude, e)])%list
    end
  else ret errors.
End Poller.
