(* ===== verification/UsageIdentityProps.v ===== *)
(** * What the account timeline says

    The abstract view of the timeline is the list of polls: at any time the account is the
    one of the latest poll.  The rows of the table are shown to implement it, whatever
    the polls see and whenever the process restarts. *)
From Stdlib Require Import ZArith Lia Bool String List.
From stdpp Require Import base tactics list strings.
From S2P Require Import Prelude Text Table Clock Json UsageDb UsageIdentity UsagePoller.
From S2P Require Import Demo DemoUsage.

(** ** The abstract view *)
(** One successful poll of a provider: when, and the account it saw. *)
Record obs : Type := Obs { o_at : Z; o_key : option string }.
Implicit Types (h : list obs) (m : Z).

(** Whole milliseconds of the time between two polls. *)
Definition poll_gap (previous at_ : Z) : Z := uncertainty_width (Some previous) at_.
(** The account at [m], newest poll first, and whether the message may belong to the next
    one: it lies between two polls that saw different accounts. *)
Fixpoint attributed (h : list obs) (m : Z) : option (string * bool) :=
  match h with
  | [] => None
  | o :: h' =>
      if o_at o <=? m then option_map (fun k => (k, false)) (o_key o)
      else
        match h' with
        | [] => None
        | o' :: _ =>
            if o_at o' <=? m then
              option_map (fun k =>
                (k, match o_key o with
                    | Some k' => negb (k' =?s k)
                                 && (o_at o - milliseconds (poll_gap (o_at o') (o_at o)) <=? m)
                    | None => false
                    end)) (o_key o')
            else attributed h' m
        end
  end.

(** Polls at different times, newest first. *)
Fixpoint polls_ok (fits : Z -> Prop) (h : list obs) : Prop :=
  match h with
  | [] => True
  | o :: h' =>
      0 <= o_at o /\ fits (o_at o)
      /\ match h' with [] => True | o' :: _ => o_at o' < o_at o end /\ polls_ok fits h'
  end.

(** ** Spans: the rows of one provider, newest first *)
Record span : Type := Span { sp_key : string; sp_from : Z; sp_to : option Z; sp_unc : Z }.
Definition close_head (at_ : Z) (l : list span) : list span :=
  match l with
  | s :: l' => match sp_to s with None => Span (sp_key s) (sp_from s) (Some at_) (sp_unc s) :: l' | Some _ => l end
  | [] => []
  end.
Definition prev_gap (h : list obs) (at_ : Z) : Z :=
  match h with [] => 0 | o' :: _ => poll_gap (o_at o') at_ end.
(** The account of the latest poll. *)
Definition current (h : list obs) : option string := match h with o :: _ => o_key o | [] => None end.
(** The rows that a list of polls leads to.  The width recorded when an account opens after
    a logout depends on whether the process knew the last poll. *)
Inductive spans : list obs -> list span -> Prop :=
| spans_nil : spans [] []
| spans_out o h l : spans h l -> o_key o = None -> spans (o :: h) (close_head (o_at o) l)
| spans_same o h l k : spans h l -> o_key o = Some k -> current h = Some k -> spans (o :: h) l
| spans_switch o h l k k' : spans h l -> o_key o = Some k -> current h = Some k' -> k' <> k ->
    spans (o :: h) (Span k (o_at o) None (prev_gap h (o_at o)) :: close_head (o_at o) l)
| spans_open o h l k u : spans h l -> o_key o = Some k -> current h = None ->
    0 <= u -> milliseconds u <= o_at o ->
    spans (o :: h) (Span k (o_at o) None u :: l).

Definition sp_covers (m : Z) (s : span) : bool :=
  (sp_from s <=? m) && match sp_to s with None => true | Some t => m <? t end.
(** The width recorded at the end of a span. *)
Definition end_unc (l : list span) (s : span) : Z :=
  match sp_to s with
  | None => 0
  | Some b => unwrap_or 0 (option_map sp_unc (List.find (fun s' => sp_from s' =? b) l))
  end.
Definition sp_uncertain (l : list span) (m : Z) (s : span) : bool :=
  (0 <? end_unc l s)
  && match sp_to s with
     | None => false
     | Some b => (b - milliseconds (end_unc l s) <=? m) && (m <? b)
     end.
Definition look (l : list span) (m : Z) : option (string * bool) :=
  option_map (fun s => (sp_key s, sp_uncertain l m s)) (List.find (sp_covers m) l).

(** The order of spans: newest first, apart, only the newest open, and inside [bound]. *)
Fixpoint spans_wf (fits : Z -> Prop) (bound : Z) (l : list span) : Prop :=
  match l with
  | [] => True
  | s :: l' =>
      0 <= sp_from s <= bound /\ fits (sp_from s)
      /\ match sp_to s with None => True | Some t => sp_from s < t <= bound /\ fits t end
      /\ (forall s', In s' l' -> exists t, sp_to s' = Some t /\ t <= sp_from s)
      /\ spans_wf fits (sp_from s) l'
  end.

(** ** Spans implement the abstract view *)
Section Spans.
Context (fits : Z -> Prop).

Lemma poll_gap_bounds a b : a <= b -> 0 <= poll_gap a b /\ milliseconds (poll_gap a b) <= b - a.
Proof.
  intros H. unfold poll_gap, uncertainty_width, milliseconds, MILLIS.
  destruct (Z.leb_spec a b); [|lia].
  pose proof (Z.quot_pos (b - a) 1000000 ltac:(lia) ltac:(lia)).
  pose proof (Z.mul_quot_le (b - a) 1000000 ltac:(lia) ltac:(lia)).
  destruct (in_i64 _); lia.
Qed.

Lemma spans_wf_mono b b' l : b <= b' -> spans_wf fits b l -> spans_wf fits b' l.
Proof.
  destruct l as [|s l]; cbn; [done|]. intros Hb (H1 & H2 & H3 & H4 & H5).
  repeat split; try done; try lia. destruct (sp_to s); [|done]. destruct H3. split; [lia|done].
Qed.
Lemma spans_wf_in b l s : spans_wf fits b l -> In s l ->
  0 <= sp_from s <= b /\ fits (sp_from s) /\ forall t, sp_to s = Some t -> sp_from s < t <= b /\ fits t.
Proof.
  revert b. induction l as [|s0 l IH]; intros b; cbn; [done|].
  intros (H1 & H2 & H3 & H4 & H5) [<-|Hin].
  - split; [done|]. split; [done|]. intros t Ht. rewrite Ht in H3. done.
  - destruct (IH _ H5 Hin) as (? & ? & Ht'). split; [lia|]. split; [done|].
    intros t Ht. destruct (Ht' t Ht). split; [lia|done].
Qed.
Lemma close_head_wf b b' l : b < b' -> fits b' -> spans_wf fits b l -> spans_wf fits b' (close_head b' l).
Proof.
  destruct l as [|s l]; cbn; [done|]. intros Hb Hf (H1 & H2 & H3 & H4 & H5).
  destruct (sp_to s) as [t|] eqn:E; cbn; rewrite ?E.
  - split; [lia|]. split; [done|]. split; [|done]. destruct H3. split; [lia|done].
  - split; [lia|]. split; [done|]. split; [|done]. split; [lia|done].
Qed.
Lemma close_head_closed at_ b l s : spans_wf fits b l -> b < at_ -> In s (close_head at_ l) ->
  exists t, sp_to s = Some t /\ t <= at_.
Proof.
  destruct l as [|s0 l]; cbn; [done|]. intros (H1 & H2 & H3 & H4 & H5) Hb.
  destruct (sp_to s0) as [t|] eqn:E; cbn; intros [<-|Hin].
  - exists t. split; [done|lia].
  - destruct (H4 _ Hin) as (t' & ? & ?). exists t'. split; [done|lia].
  - exists at_. split; [done|lia].
  - destruct (H4 _ Hin) as (t' & ? & ?). exists t'. split; [done|lia].
Qed.
Lemma close_head_froms at_ l f :
  option_map sp_unc (List.find (fun s => sp_from s =? f) (close_head at_ l))
  = option_map sp_unc (List.find (fun s => sp_from s =? f) l).
Proof.
  destruct l as [|s l]; cbn; [done|]. destruct (sp_to s) as [t|]; cbn; [done|]. by destruct (sp_from s =? f).
Qed.

Definition last_at (h : list obs) : Z := match h with o :: _ => o_at o | [] => 0 end.

(** The newest span is open exactly when the latest poll saw an account. *)
Lemma spans_current h l : spans h l ->
  match current h with
  | Some k => exists f u l', l = Span k f None u :: l'
  | None => l = [] \/ exists s l', l = s :: l' /\ sp_to s <> None
  end.
Proof.
  induction 1 as [|o h l H IH Hk|o h l k H IH Hk Hc|o h l k k' H IH Hk Hc Hne|o h l k u H IH Hk Hc Hu Hu'];
    cbn [current]; rewrite ?Hk; eauto.
  - destruct l as [|s l]; [by left|]. right. cbn. destruct (sp_to s) eqn:E; [|by eexists _, _].
    exists s, l. by rewrite E.
  - by rewrite Hc in IH.
Qed.

Lemma spans_unc h l : spans h l -> polls_ok fits h ->
  forall s, In s l -> 0 <= sp_unc s /\ milliseconds (sp_unc s) <= sp_from s.
Proof.
  assert (forall at_ l (P : span -> Prop), (forall s t, P s -> P (Span (sp_key s) (sp_from s) t (sp_unc s))) ->
            (forall s, In s l -> P s) -> forall s, In s (close_head at_ l) -> P s) as Hclose.
  { intros at_ [|s0 l0] P HP Hl s; cbn; [done|]. destruct (sp_to s0); cbn; intros [<-|Hin]; auto using in_eq, in_cons. }
  induction 1 as [|o h l H IH Hk|o h l k H IH Hk Hc|o h l k k' H IH Hk Hc Hne|o h l k u H IH Hk Hc Hu Hu'];
    [done|intros (H1 & H2 & H3 & H4); specialize (IH H4)..].
  - by apply Hclose.
  - done.
  - destruct h as [|o' h]; [done|]. destruct H4 as (? & _).
    destruct (poll_gap_bounds (o_at o') (o_at o)); [lia|].
    intros s [<-|Hin]; [cbn [sp_unc sp_from prev_gap]; lia|]. revert s Hin. by apply Hclose.
  - intros s [<-|Hin]; [cbn; lia|auto].
Qed.

Lemma spans_bounded h l : spans h l -> polls_ok fits h -> spans_wf fits (last_at h) l.
Proof.
  induction 1 as [|o h l H IH Hk|o h l k H IH Hk Hc|o h l k k' H IH Hk Hc Hne|o h l k u H IH Hk Hc Hu Hu'];
    cbn [polls_ok last_at]; [done|..]; intros (H1 & H2 & H3 & H4); specialize (IH H4).
  - destruct h as [|o' h]; [by inversion H; subst|]. by apply (close_head_wf (o_at o')).
  - apply (spans_wf_mono (last_at h)); [|done]. destruct h; cbn in *; lia.
  - destruct h as [|o' h]; [done|]. cbn in H3, IH. cbn [spans_wf sp_from sp_to].
    split; [lia|]. split; [done|]. split; [done|]. split.
    + intros s' Hs'. by eapply close_head_closed.
    + by apply (close_head_wf (o_at o')).
  - cbn [spans_wf sp_from sp_to]. split; [lia|]. split; [done|]. split; [done|].
    assert (last_at h <= o_at o) as Hle by (destruct h; cbn in *; lia). split.
    + intros s' Hs'. apply spans_current in H. rewrite Hc in H.
      destruct H as [->|(s & l' & -> & Hs)]; [done|]. destruct IH as (? & ? & Ht & Hrest & ?).
      destruct Hs' as [<-|Hin].
      * destruct (sp_to s) as [t|]; [|done]. exists t. split; [done|]. lia.
      * destruct (Hrest _ Hin) as (t & ? & ?). exists t. split; [done|lia].
    + by apply (spans_wf_mono (last_at h)).
Qed.

Lemma look_ext l l' m :
  option_map sp_key (List.find (sp_covers m) l) = option_map sp_key (List.find (sp_covers m) l') ->
  (forall s s', List.find (sp_covers m) l = Some s -> List.find (sp_covers m) l' = Some s' ->
    sp_uncertain l m s = sp_uncertain l' m s') ->
  look l m = look l' m.
Proof.
  unfold look. intros Hk Hu. destruct (List.find _ l) as [s|], (List.find _ l') as [s'|]; try done.
  cbn in *. injection Hk as ->. by rewrite (Hu s s').
Qed.
Lemma end_unc_later N l s : (forall t, sp_to s = Some t -> t <> sp_from N) -> end_unc (N :: l) s = end_unc l s.
Proof.
  intros H. unfold end_unc. destruct (sp_to s) as [t|]; [|done]. cbn.
  destruct (Z.eqb_spec (sp_from N) t); [|done]. by destruct (H t).
Qed.
Lemma sp_uncertain_ext l l' m s : end_unc l s = end_unc l' s -> sp_uncertain l m s = sp_uncertain l' m s.
Proof. unfold sp_uncertain. by intros ->. Qed.

(** A span that starts later does not touch the past. *)
Lemma look_later N l m at_ :
  sp_from N = at_ -> m < at_ -> (forall s, In s l -> exists t, sp_to s = Some t /\ t < at_) ->
  look (N :: l) m = look l m.
Proof.
  intros HN Hm Hl. apply look_ext; cbn.
  - unfold sp_covers at 1. by destruct (Z.leb_spec (sp_from N) m); [lia|].
  - intros s s'. unfold sp_covers at 1. destruct (Z.leb_spec (sp_from N) m); [lia|].
    intros Hs [= <-]%(eq_trans (eq_sym Hs)). apply sp_uncertain_ext, end_unc_later.
    apply find_some in Hs as [Hin _]. destruct (Hl _ Hin) as (t & -> & ?). intros ? [= <-]. lia.
Qed.
(** Ending the open span now leaves the past as it was. *)
Lemma look_close b l m at_ : spans_wf fits b l -> b < at_ -> m < at_ -> look (close_head at_ l) m = look l m.
Proof.
  intros Hwf Hb Hm. destruct l as [|s l]; [done|]. cbn [close_head].
  destruct (sp_to s) as [t|] eqn:E; [done|]. apply look_ext; cbn [List.find].
  - unfold sp_covers at 1 3. cbn [sp_from sp_to sp_key]. rewrite E. destruct (Z.ltb_spec m at_); [|lia].
    by destruct (_ && true).
  - unfold sp_covers at 1 3. cbn [sp_from sp_to sp_key]. rewrite E. destruct (Z.ltb_spec m at_); [|lia].
    destruct (_ && true).
    + intros ? ? [= <-] [= <-]. unfold sp_uncertain. unfold end_unc at 1. cbn [sp_to]. rewrite E.
      destruct (List.find _ _) as [s'|] eqn:F; cbn; [|by rewrite andb_false_r].
      apply find_some in F as [Hin Hf%Z.eqb_eq]. exfalso.
      assert (exists s0, In s0 (s :: l) /\ sp_from s0 = at_) as (s0 & Hin0 & <-).
      { destruct Hin as [<-|Hin]; [exists s; cbn in *; auto|exists s'; auto using in_cons]. }
      destruct (spans_wf_in _ _ _ Hwf Hin0). lia.
    + intros s1 ? H1 [= <-]%(eq_trans (eq_sym H1)). apply sp_uncertain_ext. unfold end_unc.
      destruct (sp_to s1); [|done]. f_equal.
      pose proof (close_head_froms at_ (s :: l) z) as Hc. cbn [close_head] in Hc. by rewrite E in Hc.
Qed.

Lemma look_after_all l m : (forall s, In s l -> exists t, sp_to s = Some t /\ t <= m) -> look l m = None.
Proof.
  intros H. unfold look. destruct (List.find _ l) as [s|] eqn:E; [|done].
  apply find_some in E as [Hin Hc]. destruct (H _ Hin) as (t & Ht & ?). unfold sp_covers in Hc.
  rewrite Ht in Hc. lia.
Qed.

(** The time between the last two polls, when they saw different accounts. *)
Lemma look_switch k' f u l k at_ gap m o_prev :
  f <= o_prev -> o_prev < at_ -> 0 <= gap -> milliseconds gap <= at_ - o_prev -> m < at_ ->
  spans_wf fits o_prev (Span k' f None u :: l) ->
  look (Span k at_ None gap :: Span k' f (Some at_) u :: l) m
  = if o_prev <=? m then Some (k', at_ - milliseconds gap <=? m) else look (Span k' f None u :: l) m.
Proof.
  intros Hf Ho Hg0 Hg Hm Hwf.
  assert (sp_covers m (Span k at_ None gap) = false) as HN by (unfold sp_covers; cbn; lia).
  unfold look at 1. cbn [List.find]. rewrite HN.
  unfold sp_covers at 1. cbn [sp_from sp_to]. destruct (Z.ltb_spec m at_); [|lia]. rewrite andb_true_r.
  assert (forall s, sp_to s = Some at_ -> end_unc (Span k at_ None gap :: Span k' f (Some at_) u :: l) s = gap) as He.
  { intros s Hs. unfold end_unc. rewrite Hs. cbn. by rewrite Z.eqb_refl. }
  destruct (Z.leb_spec f m) as [Hfm|Hfm].
  - cbn. unfold sp_uncertain. rewrite He by done. cbn.
    assert (look (Span k' f None u :: l) m = Some (k', false)) as ->.
    { unfold look. cbn. unfold sp_covers at 1. cbn. destruct (Z.leb_spec f m); [|lia]. cbn.
      done. }
    destruct (Z.ltb_spec m at_); [|lia]. rewrite andb_true_r.
    destruct (Z.leb_spec o_prev m), (Z.ltb_spec 0 gap), (Z.leb_spec (at_ - milliseconds gap) m);
      unfold milliseconds, MILLIS in *; cbn; try done; nia.
  - destruct (Z.leb_spec o_prev m); [lia|].
    unfold look. cbn [List.find]. unfold sp_covers at 2. cbn [sp_from sp_to].
    destruct (Z.leb_spec f m); [lia|]. cbn [andb].
    destruct (List.find (sp_covers m) l) as [s|] eqn:Es; [|done]. cbn. do 2 f_equal.
    apply find_some in Es as [Hin _]. cbn in Hwf. destruct Hwf as (_ & _ & _ & Hcl & _).
    destruct (Hcl _ Hin) as (t & Ht & ?). apply sp_uncertain_ext.
    rewrite end_unc_later by (intros ?; rewrite Ht; cbn; intros [= <-]; lia).
    unfold end_unc. rewrite Ht. cbn. by destruct (f =? t).
Qed.

Lemma attributed_past o h m : m < o_at o -> current h = o_key o \/ o_key o = None \/ current h = None ->
  attributed (o :: h) m = attributed h m.
Proof.
  intros Hm Hc. cbn. destruct (Z.leb_spec (o_at o) m); [lia|]. destruct h as [|o' h]; [done|].
  cbn. destruct (o_at o' <=? m); [|done]. cbn in Hc.
  destruct (o_key o') as [k'|], (o_key o) as [k|]; cbn; try done.
  destruct Hc as [[= ->]|[?|?]]; try done. by rewrite String.eqb_refl.
Qed.

Lemma attributed_gap o o' h m : m < o_at o ->
  attributed (o :: o' :: h) m
  = if o_at o' <=? m then
      option_map (fun k =>
        (k, match o_key o with
            | Some k' => negb (k' =?s k) && (o_at o - milliseconds (poll_gap (o_at o') (o_at o)) <=? m)
            | None => false
            end)) (o_key o')
    else attributed (o' :: h) m.
Proof. intros Hm. cbn [attributed]. by destruct (Z.leb_spec (o_at o) m); [lia|]. Qed.

Lemma spans_look h l : spans h l -> polls_ok fits h -> forall m, look l m = attributed h m.
Proof.
  induction 1 as [|o h l H IH Hk|o h l k H IH Hk Hc|o h l k k' H IH Hk Hc Hne|o h l k u H IH Hk Hc Hu Hu'];
    intros Hok m; [done|..]; destruct (Hok) as (H1 & H2 & H3 & H4); specialize (IH H4);
    pose proof (spans_bounded _ _ H H4) as Hwf; pose proof (spans_current _ _ H) as Hcur.
  - destruct h as [|o' h].
    { inversion H; subst. cbn. rewrite Hk. by destruct (_ <=? _). }
    destruct (Z.le_gt_cases (o_at o) m).
    + rewrite (look_after_all (close_head _ _)).
      * cbn. rewrite Hk. by destruct (Z.leb_spec (o_at o) m); [|lia].
      * intros s Hs. destruct (close_head_closed _ _ _ _ Hwf H3 Hs) as (t & ? & ?). exists t. split; [done|lia].
    + rewrite attributed_past by auto. rewrite <- IH. by apply (look_close (o_at o')).
  - destruct (Z.le_gt_cases (o_at o) m).
    + rewrite Hc in Hcur. destruct Hcur as (f & u & l' & ->). cbn. rewrite Hk.
      destruct (Z.leb_spec (o_at o) m); [|lia]. unfold look. cbn. unfold sp_covers at 1. cbn.
      destruct Hwf as (Hf & _). cbn in Hf.
      assert (last_at h <= o_at o) by (destruct h; cbn in *; lia).
      destruct (Z.leb_spec f m); [|lia]. done.
    + rewrite attributed_past by (first [done|left; congruence]). apply IH.
  - rewrite Hc in Hcur. destruct Hcur as (f & u & l' & ->).
    destruct h as [|o' h]; [done|]. cbn [current] in Hc. cbn [close_head sp_to sp_key sp_from sp_unc prev_gap].
    destruct (Z.le_gt_cases (o_at o) m).
    + cbn. rewrite Hk. unfold look. cbn. unfold sp_covers at 1. cbn.
      destruct (Z.leb_spec (o_at o) m); [|lia]. done.
    + destruct (poll_gap_bounds (o_at o') (o_at o)); [lia|].
      rewrite (look_switch _ _ _ _ _ _ _ _ (o_at o')); try done; [|by destruct Hwf as ((? & ?) & _)].
      rewrite attributed_gap by done. rewrite Hk, Hc, IH.
      destruct (o_at o' <=? m); cbn [option_map]; [|done]. destruct (String.eqb_spec k k'); [by subst|]. done.
  - destruct (Z.le_gt_cases (o_at o) m).
    + cbn. rewrite Hk. unfold look. cbn. unfold sp_covers at 1. cbn.
      destruct (Z.leb_spec (o_at o) m); [|lia]. done.
    + rewrite attributed_past by auto. rewrite <- IH. apply (look_later _ _ _ (o_at o)); [done..|].
      rewrite Hc in Hcur. destruct Hcur as [->|(s & l' & -> & Hs)]; [done|].
      destruct h as [|o' h]; [by inversion H|]. cbn [last_at] in Hwf. cbn in H3.
      intros s' Hin. destruct (spans_wf_in _ _ _ Hwf Hin) as (? & _ & Ht).
      destruct (sp_to s') as [t|] eqn:Et; [exists t; split; [done|]; specialize (Ht t eq_refl); lia|].
      destruct Hin as [<-|Hin]; [done|]. destruct Hwf as (_ & _ & _ & Hcl & _).
      destruct (Hcl _ Hin) as (? & ? & ?). congruence.
Qed.
End Spans.

(** ** Tables of several providers *)

Lemma spans_covers_once fits b l m : spans_wf fits b l -> (length (List.filter (sp_covers m) l) <= 1)%nat.
Proof.
  revert b. induction l as [|s l IH]; intros b; cbn; [lia|]. intros (H1 & H2 & H3 & H4 & H5).
  destruct (sp_covers m s) eqn:E; [|by eapply IH]. cbn. rewrite (filter_false (sp_covers m) l); [cbn; lia|].
  intros s' Hin. destruct (H4 _ Hin) as (t & Ht & ?). unfold sp_covers in *. rewrite Ht. lia.
Qed.
Lemma spans_from_once fits b l f : spans_wf fits b l -> (length (List.filter (fun s => Z.eqb (sp_from s) f) l) <= 1)%nat.
Proof.
  revert b. induction l as [|s l IH]; intros b; cbn; [lia|]. intros (H1 & H2 & H3 & H4 & H5).
  destruct (sp_from s =? f) eqn:E; [|by eapply IH]. cbn.
  rewrite (filter_false (fun s => sp_from s =? f) l); [cbn; lia|].
  intros s' Hin. destruct (H4 _ Hin) as (t & Ht & ?). destruct (spans_wf_in _ _ _ _ H5 Hin) as (? & _ & Hb).
  specialize (Hb _ Ht). lia.
Qed.
Definition sp_open (s : span) : bool := is_none (sp_to s).
Lemma spans_open_once fits b l : spans_wf fits b l ->
  List.filter sp_open l = match l with s :: _ => if sp_open s then [s] else [] | [] => [] end.
Proof.
  destruct l as [|s l]; cbn; [done|]. intros (_ & _ & _ & H & _).
  rewrite (filter_false sp_open l); [by destruct (sp_open s)|].
  intros s' Hin. destruct (H _ Hin) as (t & Ht & _). unfold sp_open. by rewrite Ht.
Qed.
Definition close_span (at_ : Z) (s : span) : span :=
  if sp_open s then Span (sp_key s) (sp_from s) (Some at_) (sp_unc s) else s.
Lemma close_head_map fits b l at_ : spans_wf fits b l -> close_head at_ l = map (close_span at_) l.
Proof.
  destruct l as [|s l]; cbn; [done|]. intros (_ & _ & _ & H & _).
  rewrite (map_ext_in (close_span at_) id l).
  - rewrite map_id. unfold close_span, sp_open. by destruct (sp_to s).
  - intros s' Hin. destruct (H _ Hin) as (t & Ht & _). unfold close_span, sp_open. by rewrite Ht.
Qed.

(** ** The rows of the table *)
Section Refinement.
Context {T : TimeCrate} {U : UsageTime} {L : UsageTimeLaws T U}.

Definition fits (t : Z) : Prop := is_Some (format_db t).
Definition fmt (t : Z) : string := unwrap_or ""%string (format_db t).
Lemma fits_fmt t : fits t -> format_db t = Some (fmt t).
Proof. unfold fmt. by intros [s ->]. Qed.

Definition row_of (p : Provider) (s : span) : timeline_row :=
  TimelineRow (Provider_as_str p) (sp_key s) (fmt (sp_from s)) (option_map fmt (sp_to s)) (sp_unc s) false.

(** The keys of a provider. *)
Definition own_key (p : Provider) (k : string) : Prop := exists x, k = Provider_as_str p +:+ ":" +:+ x.
Lemma own_key_provider p q k : own_key p k -> own_key q k -> p = q.
Proof. intros [x ->] [y H]. by destruct p, q. Qed.

(** The table holds the spans of the polls of [p], oldest first. *)
Record timeline_rel (p : Provider) (h : list obs) (l : list span) (d : usage_db) : Prop := {
  rel_spans : spans h l;
  rel_rows : select (of_provider p) (account_timeline d) = map (row_of p) (rev l);
  rel_accounts : forall s, In s l -> account_exists (sp_key s) d = true;
  rel_own : forall k, current h = Some k -> own_key p k;
  rel_seen : forall k, current h = Some k ->
    exists a, lookup_row acc_key k (accounts d) = Some a /\ acc_last_seen a = fmt (last_at h) }.

Lemma of_provider_row p q s : of_provider p (row_of q s) = bool_decide (q = p).
Proof. unfold of_provider. cbn. by destruct p, q. Qed.
Lemma row_of_to p s : is_none (tl_to (row_of p s)) = sp_open s.
Proof. unfold sp_open. cbn. by destruct (sp_to s). Qed.

Lemma select_rows p h l d (q : timeline_row -> bool) (c : span -> bool) :
  timeline_rel p h l d -> (forall s, In s l -> q (row_of p s) = c s) ->
  select (fun r => of_provider p r && q r) (account_timeline d) = map (row_of p) (rev (List.filter c l)).
Proof.
  intros R Hq. unfold select. rewrite filter_and. fold (select (of_provider p) (account_timeline d)).
  rewrite (rel_rows _ _ _ _ R), filter_map. f_equal.
  rewrite <- List.filter_rev. apply filter_ext_in. intros s Hin. apply Hq. by apply in_rev.
Qed.

Lemma row_covers p l b m s : spans_wf fits b l -> In s l -> 0 <= m -> fits m ->
  text_leb (tl_from (row_of p s)) (fmt m)
  && match tl_to (row_of p s) with None => true | Some to_ts => String.ltb (fmt m) to_ts end
  = sp_covers m s.
Proof.
  intros Hwf Hin Hm Hfm. destruct (spans_wf_in _ _ _ _ Hwf Hin) as (Hf & Hff & Ht). cbn.
  rewrite (format_db_leb (sp_from s) _ m) by (auto using fits_fmt; lia). unfold sp_covers. f_equal.
  destruct (sp_to s) as [t|]; [|done]. destruct (Ht t eq_refl). cbn.
  by rewrite (format_db_ltb m _ t) by (auto using fits_fmt; lia).
Qed.

Lemma covering_row p h l d m : timeline_rel p h l d -> polls_ok fits h -> 0 <= m -> fits m ->
  first_row from_desc (covers p (fmt m)) (account_timeline d)
  = option_map (row_of p) (List.find (sp_covers m) l).
Proof.
  intros R Hok Hm Hfm. pose proof (spans_bounded _ _ _ (rel_spans _ _ _ _ R) Hok) as Hwf.
  pose proof (spans_covers_once _ _ _ m Hwf) as Hone. unfold first_row.
  replace (select (covers p (fmt m)) (account_timeline d))
    with (map (row_of p) (rev (List.filter (sp_covers m) l))).
  - rewrite (one_rev (List.filter _ _)) by done. rewrite order_by_one by (by rewrite length_map).
    rewrite find_head. by destruct (List.filter _ _).
  - symmetry.
    rewrite <- (select_rows p h l d (fun r => text_leb (tl_from r) (fmt m)
       && match tl_to r with None => true | Some to_ts => String.ltb (fmt m) to_ts end)); [|done|].
    + unfold select, covers. apply filter_ext. intros r. by rewrite andb_assoc.
    + intros s Hin. by eapply row_covers.
Qed.

Lemma boundary_row p h l d s : timeline_rel p h l d -> polls_ok fits h -> In s l ->
  boundary_uncertainty p (tl_to (row_of p s)) d = end_unc l s.
Proof.
  intros R Hok Hin. pose proof (spans_bounded _ _ _ (rel_spans _ _ _ _ R) Hok) as Hwf.
  destruct (spans_wf_in _ _ _ _ Hwf Hin) as (? & _ & Ht).
  unfold boundary_uncertainty, end_unc. cbn. destruct (sp_to s) as [b|]; cbn; [|done]. do 1 f_equal.
  destruct (Ht b eq_refl) as [? Hb]. pose proof (spans_from_once _ _ _ b Hwf) as Hone.
  rewrite !find_head. unfold at_from.
  fold (select (fun r => of_provider p r && (tl_from r =?s fmt b)) (account_timeline d)).
  rewrite (select_rows p h l d _ (fun s => sp_from s =? b) R).
  - rewrite (one_rev (List.filter _ _)) by done. by destruct (List.filter _ _).
  - intros s' Hin'. destruct (spans_wf_in _ _ _ _ Hwf Hin') as (? & ? & _). cbn.
    apply format_db_eqb; auto using fits_fmt; lia.
Qed.

(** Reading the table is reading the polls. *)
Lemma account_at_rel p h l d k m : timeline_rel p h l d -> polls_ok fits h -> 0 <= m -> fits m ->
  account_at p m (World d k)
  = (Ok (option_map (fun a => MkAttribution (fst a) false (snd a)) (attributed h m)), World d k).
Proof.
  intros R Hok Hm Hfm. rewrite <- (spans_look fits h l (rel_spans _ _ _ _ R) Hok m).
  pose proof (spans_bounded _ _ _ (rel_spans _ _ _ _ R) Hok) as Hwf.
  unfold account_at, format_usage_timestamp, format_timestamp. rewrite (fits_fmt m Hfm).
  unfold bind, expect, ret, query, gets. cbn [w_db]. rewrite (covering_row p h l) by done. unfold look.
  destruct (List.find (sp_covers m) l) as [s|] eqn:Es; [|done]. cbn [option_map fst snd].
  apply find_some in Es as [Hin Hc]. rewrite (boundary_row p h l) by done.
  destruct (spans_wf_in _ _ _ _ Hwf Hin) as (Hf & Hff & Ht).
  unfold parse_timestamp. cbn [tl_from row_of tl_to].
  rewrite (parse_format_db (sp_from s)) by (auto using fits_fmt; lia). cbn [expect ret].
  unfold sp_covers in Hc. apply andb_true_iff in Hc as [Hc1 Hc2]. rewrite Hc1, andb_true_r.
  unfold sp_uncertain. destruct (0 <? end_unc l s) eqn:Eu; [|done]. cbn [andb].
  destruct (sp_to s) as [b|] eqn:Eto; [|done]. cbn [option_map].
  destruct (Ht b eq_refl) as [Hb Hfb].
  rewrite (parse_format_db b) by (auto using fits_fmt; lia). cbn [expect ret].
  assert (0 <= milliseconds (end_unc l s) <= b) as Hgap.
  { unfold end_unc in *. rewrite Eto in *. destruct (List.find _ l) as [s'|] eqn:Ef; cbn in Eu |- *; [|lia].
    apply find_some in Ef as [Hin' Hb'%Z.eqb_eq].
    destruct (spans_unc _ _ _ (rel_spans _ _ _ _ R) Hok _ Hin'). unfold milliseconds, MILLIS in *. lia. }
  unfold instant_sub. rewrite (go_back b (fmt b)) by (auto using fits_fmt). done.
Qed.
(** *** Statements, run *)
Lemma lookup_upsert_same seen i ts t :
  exists a, lookup_row acc_key (account_key i) (upsert_account_row seen i ts t) = Some a
    /\ acc_last_seen a = match lookup_row acc_key (account_key i) t with
                         | Some a0 => seen (acc_last_seen a0) ts | None => ts end.
Proof.
  unfold upsert_account_row. destruct (lookup_row acc_key (account_key i) t) as [a0|] eqn:E.
  - rewrite lookup_row_update by done. rewrite E. cbn. apply lookup_row_Some in E as [_ E].
    unfold has_key. rewrite E, String.eqb_refl. by eexists.
  - match goal with |- context [insert t ?r] => exists r; split; [by apply (lookup_row_insert_eq acc_key t r)|done] end.
Qed.
Lemma lookup_upsert_new i ts t :
  exists a, lookup_row acc_key (account_key i) (upsert_account_row (fun _ new => new) i ts t) = Some a
    /\ acc_last_seen a = ts.
Proof.
  destruct (lookup_upsert_same (fun _ new => new) i ts t) as (a & ? & E). exists a. split; [done|].
  by destruct (lookup_row acc_key (account_key i) t).
Qed.
Lemma lookup_upsert_ne seen i ts t k : k <> account_key i ->
  lookup_row acc_key k (upsert_account_row seen i ts t) = lookup_row acc_key k t.
Proof.
  intros Hne. unfold upsert_account_row. destruct (lookup_row acc_key (account_key i) t) as [a0|] eqn:E.
  - rewrite lookup_row_update by done. destruct (lookup_row acc_key k t) as [a|] eqn:Ek; [|done].
    cbn. apply lookup_row_Some in Ek as [_ Hk]. unfold has_key. rewrite Hk.
    by destruct (String.eqb_spec k (account_key i)).
  - by apply lookup_row_insert_ne.
Qed.
Lemma account_exists_upsert seen i ts d d' k :
  accounts d' = upsert_account_row seen i ts (accounts d) -> account_exists k d = true -> account_exists k d' = true.
Proof.
  unfold account_exists. intros -> H. destruct (String.eqb_spec k (account_key i)) as [->|].
  - by destruct (lookup_upsert_same seen i ts (accounts d)) as (a & -> & _).
  - by rewrite lookup_upsert_ne.
Qed.

Lemma record_account_metadata_run key ts (w : world usage_db) :
  exists t, record_account_metadata key ts w
            = (Ok tt, World ((w_db w) <| account_metadata_history := t |>) (w_tick w)).
Proof.
  destruct w as [d k]. unfold record_account_metadata, bind, execute, ret. cbn.
  destruct (lookup_row acc_key key (accounts d)); cbn; [by eexists|].
  exists (account_metadata_history d). by destruct d.
Qed.
Lemma upsert_account_run i ts d k :
  exists d', upsert_account i ts (World d k) = (Ok tt, World d' k)
    /\ accounts d' = upsert_account_row (fun _ new => new) i ts (accounts d)
    /\ account_timeline d' = account_timeline d.
Proof.
  unfold upsert_account, bind at 1, execute. cbn [w_db w_tick fst snd].
  edestruct (record_account_metadata_run (account_key i) ts) as [t ->]. by eexists.
Qed.

(** A step that leaves the rows of [q] and the readings of its accounts alone. *)
Lemma rel_frame q h l d d' :
  timeline_rel q h l d ->
  select (of_provider q) (account_timeline d') = select (of_provider q) (account_timeline d) ->
  (forall k, account_exists k d = true -> account_exists k d' = true) ->
  (forall k, own_key q k -> lookup_row acc_key k (accounts d') = lookup_row acc_key k (accounts d)) ->
  timeline_rel q h l d'.
Proof.
  intros [H1 H2 H3 H4 H5] Ht Ha Hl. split; [done|congruence|auto|done|].
  intros k Hk. rewrite Hl by auto. auto.
Qed.

Lemma current_account_rel p h l d k : timeline_rel p h l d -> polls_ok fits h ->
  current_account p (World d k)
  = (Ok (option_map (fun key => (key, fmt (last_at h))) (current h)), World d k).
Proof.
  intros R Hok. pose proof (spans_bounded _ _ _ (rel_spans _ _ _ _ R) Hok) as Hwf.
  unfold current_account, query, gets. cbn [w_db]. repeat f_equal. unfold first_row.
  replace (select _ (account_timeline d)) with (map (row_of p) (rev (List.filter sp_open l))).
  - rewrite (spans_open_once _ _ _ Hwf). pose proof (spans_current _ _ (rel_spans _ _ _ _ R)) as Hc.
    destruct (current h) as [key|] eqn:Ec.
    + destruct Hc as (f & u & l' & ->). cbn [sp_open is_none is_some sp_to negb map rev app]. rewrite order_by_one by (cbn; lia). cbn.
      destruct (rel_seen _ _ _ _ R key Ec) as (a & -> & <-). done.
    + destruct Hc as [->|(s & l' & -> & Hs)]; [done|]. unfold sp_open. by destruct (sp_to s).
  - rewrite <- (select_rows p h l d (fun r => is_none (tl_to r) && account_exists (tl_account_key r) d)); [|done|].
    + unfold select, is_current. apply filter_ext. intros r. by rewrite andb_assoc.
    + intros s Hin. cbn [row_of tl_account_key]. rewrite row_of_to, (rel_accounts _ _ _ _ R s Hin). by rewrite andb_true_r.
Qed.

Lemma close_current_run p ts d k :
  close_current p ts (World d k)
  = (Ok tt, World (d <| account_timeline :=
       update (is_current p) (fun r => r <| tl_to := Some ts |>) (account_timeline d) |>) k).
Proof. done. Qed.
Lemma close_rows p h l d at_ : timeline_rel p h l d -> polls_ok fits h ->
  select (of_provider p) (update (is_current p) (fun r => r <| tl_to := Some (fmt at_) |>) (account_timeline d))
  = map (row_of p) (rev (close_head at_ l)).
Proof.
  intros R Hok. pose proof (spans_bounded _ _ _ (rel_spans _ _ _ _ R) Hok) as Hwf.
  rewrite select_update by done. rewrite (rel_rows _ _ _ _ R), (close_head_map _ _ _ _ Hwf), <- map_rev.
  unfold update. rewrite !map_map. apply map_ext. intros s. unfold is_current.
  rewrite of_provider_row, bool_decide_eq_true_2, row_of_to by done. unfold close_span. cbn [andb].
  by destruct (sp_open s).
Qed.
Lemma close_rows_other p q ts t : p <> q ->
  select (of_provider q) (update (is_current p) (fun r => r <| tl_to := Some ts |>) t) = select (of_provider q) t.
Proof.
  intros Hne. rewrite select_update by done. apply update_none, changes_zero.
  intros r [_ Hr]%in_select. unfold is_current, of_provider in *. bool_simpl. rewrite Hr. by destruct p, q.
Qed.

Lemma insert_rows p s t :
  select (of_provider p) (insert t (row_of p s)) = (select (of_provider p) t ++ [row_of p s])%list.
Proof. unfold select, insert. rewrite List.filter_app. cbn [List.filter]. by rewrite of_provider_row, bool_decide_eq_true_2. Qed.
Lemma insert_rows_other p q s t : p <> q ->
  select (of_provider q) (insert t (row_of p s)) = select (of_provider q) t.
Proof.
  intros H. unfold select, insert. rewrite List.filter_app. cbn [List.filter].
  by rewrite of_provider_row, bool_decide_eq_false_2, app_nil_r.
Qed.
(** The new row violates no constraint. *)
Lemma insert_span_run p l s d k :
  (forall s', In s' l -> 0 <= sp_from s' < sp_from s /\ fits (sp_from s')) ->
  0 <= sp_from s -> fits (sp_from s) -> sp_to s = None ->
  select (of_provider p) (account_timeline d) = map (row_of p) (rev l) ->
  List.filter sp_open l = [] -> account_exists (sp_key s) d = true ->
  insert_timeline_row p (sp_key s) (fmt (sp_from s)) None (sp_unc s) false (World d k)
  = (Ok tt, World (d <| account_timeline := insert (account_timeline d) (row_of p s) |>) k).
Proof.
  intros Hlt Hb Hf Hto Hrows Hopen Hacc. unfold insert_timeline_row, bind at 1.
  assert (forall q c, (forall s', In s' l -> q (row_of p s') = c s') -> List.filter c l = [] ->
            existsb (fun r => of_provider p r && q r) (account_timeline d) = false) as Hnone.
  { intros q c Hq Hc. apply not_true_iff_false. rewrite existsb_exists. intros (r & Hin & Hr).
    assert (In r (select (fun r => of_provider p r && q r) (account_timeline d))) as Hs by (by apply in_select).
    unfold select in Hs. rewrite filter_and in Hs. fold (select (of_provider p) (account_timeline d)) in Hs.
    rewrite Hrows, filter_map, (filter_ext_in _ c), List.filter_rev, Hc in Hs; [done|].
    intros s' Hs'. apply Hq. by apply in_rev. }
  rewrite checked_run.
  - unfold row_of. by rewrite Hto.
  - cbn [w_db]. unfold timeline_violation, at_from, is_current.
    rewrite (Hnone _ (fun s' => sp_from s' =? sp_from s)).
    + rewrite (Hnone _ sp_open); [by rewrite Hacc|by intros; rewrite row_of_to|done].
    + intros s' Hin. destruct (Hlt _ Hin). cbn.
      apply format_db_eqb; auto using fits_fmt; lia.
    + apply filter_false. intros s' Hin. destruct (Hlt _ Hin). lia.
Qed.

(** *** One poll *)
Definition identity_ok (p : Provider) (i : option AccountIdentity) : Prop :=
  match i with Some i => id_provider i = p /\ is_blank (external_id i) = false | None => True end.
Lemma check_identity_ok p i (w : world usage_db) : identity_ok p i -> check_identity p i w = (Ok tt, w).
Proof.
  destruct i as [i|]; [|done]. intros [Hp Hb]. unfold check_identity.
  rewrite bool_decide_eq_true_2 by done. cbn. unfold validate. by rewrite Hb.
Qed.
Lemma identity_own p i : identity_ok p (Some i) -> own_key p (account_key i).
Proof. intros [<- _]. by exists (external_id i). Qed.
Lemma own_key_ne p q k i : p <> q -> own_key q k -> identity_ok p (Some i) -> k <> account_key i.
Proof. intros Hne Hk Hi ->. apply Hne. eapply own_key_provider; [by apply identity_own|done]. Qed.

Definition obs_of (i : option AccountIdentity) (t : Z) : obs := Obs t (option_map account_key i).
(** What a poll does to the table, and that it leaves the other provider's part alone. *)
Definition poll_spec (p : Provider) (i : option AccountIdentity) (t : Z) (h : list obs) (d d' : usage_db) : Prop :=
  (exists l', timeline_rel p (obs_of i t :: h) l' d')
  /\ forall q h' l', q <> p -> timeline_rel q h' l' d -> timeline_rel q h' l' d'.

Lemma close_head_in at_ l s : In s (close_head at_ l) ->
  exists s', In s' l /\ sp_key s' = sp_key s /\ sp_from s = sp_from s'.
Proof.
  destruct l as [|s0 l]; [done|]. cbn. destruct (sp_to s0); [by exists s|].
  intros [<-|Hin]; [exists s0|exists s]; cbn; auto.
Qed.
Lemma poll_logout p h l d t : timeline_rel p h l d -> polls_ok fits (obs_of None t :: h) ->
  poll_spec p None t h d
    (d <| account_timeline := update (is_current p) (fun r => r <| tl_to := Some (fmt t) |>) (account_timeline d) |>).
Proof.
  intros R (_ & _ & _ & Hok). split.
  - exists (close_head t l). split; try done.
    + by apply (spans_out (obs_of None t)); [apply (rel_spans _ _ _ _ R)|].
    + by apply (close_rows p h).
    + intros s (s' & Hs' & <- & _)%close_head_in. by apply (rel_accounts _ _ _ _ R).
  - intros q h' l' Hq Rq. apply (rel_frame _ _ _ _ _ Rq); [|done..]. by apply close_rows_other.
Qed.

Lemma poll_none p h l d t : timeline_rel p h l d -> current h = None -> polls_ok fits (obs_of None t :: h) ->
  poll_spec p None t h d d.
Proof.
  intros R Hc (_ & _ & _ & Hok). split; [|done]. exists l. destruct R as [H1 H2 H3 H4 H5]. split; try done.
  replace l with (close_head t l); [by apply (spans_out (obs_of None t))|].
  apply spans_current in H1. rewrite Hc in H1. destruct H1 as [->|(s & l' & -> & Hs)]; [done|].
  cbn. by destruct (sp_to s).
Qed.

Lemma poll_same p h l d d' i t :
  timeline_rel p h l d -> identity_ok p (Some i) -> current h = Some (account_key i) ->
  polls_ok fits (obs_of (Some i) t :: h) ->
  accounts d' = upsert_account_row (fun _ new => new) i (fmt t) (accounts d) ->
  account_timeline d' = account_timeline d ->
  poll_spec p (Some i) t h d d'.
Proof.
  intros R Hi Hc (_ & _ & _ & Hok) Ha Ht. split.
  - exists l. destruct R as [H1 H2 H3 H4 H5]. split.
    + by apply (spans_same _ _ _ (account_key i)).
    + by rewrite Ht.
    + intros s Hin. by eapply account_exists_upsert, H3.
    + intros k [= <-]. by apply identity_own.
    + intros k [= <-]. rewrite Ha. apply lookup_upsert_new.
  - intros q h' l' Hq Rq. apply (rel_frame _ _ _ _ _ Rq); [by rewrite Ht|eauto using account_exists_upsert|].
    intros k Hk. rewrite Ha. apply lookup_upsert_ne. by apply (own_key_ne p q).
Qed.

(** An account opens: the new row, over what the old rows have become. *)
Lemma poll_opens p h l l0 d d' i t u :
  timeline_rel p h l d -> identity_ok p (Some i) ->
  spans (obs_of (Some i) t :: h) (Span (account_key i) t None u :: l0) ->
  (forall s, In s l0 -> exists s', In s' l /\ sp_key s' = sp_key s) ->
  select (of_provider p) (account_timeline d') = map (row_of p) (rev (Span (account_key i) t None u :: l0)) ->
  (forall q, q <> p -> select (of_provider q) (account_timeline d') = select (of_provider q) (account_timeline d)) ->
  accounts d' = upsert_account_row (fun _ new => new) i (fmt t) (accounts d) ->
  poll_spec p (Some i) t h d d'.
Proof.
  intros R Hi Hs Hl Ht Hq Ha. destruct (lookup_upsert_new i (fmt t) (accounts d)) as (a & Hla & E).
  split.
  - exists (Span (account_key i) t None u :: l0). split; [done|done|..].
    + intros s [<-|Hin]; [unfold account_exists; cbn; by rewrite Ha, Hla|].
      destruct (Hl _ Hin) as (s' & Hin' & <-). eapply account_exists_upsert; [done|].
      by apply (rel_accounts _ _ _ _ R).
    + intros k [= <-]. by apply identity_own.
    + intros k [= <-]. rewrite Ha. by exists a.
  - intros q h' l' Hne Rq. apply (rel_frame _ _ _ _ _ Rq); [by apply Hq|eauto using account_exists_upsert|].
    intros k Hk. rewrite Ha. apply lookup_upsert_ne. by apply (own_key_ne p q).
Qed.
Lemma transaction_run {D A} (m : M (world D) A) a w w' : m w = (Ok a, w') -> transaction m w = (Ok a, w').
Proof. unfold transaction. by intros ->. Qed.

(** The polls so far, as the process may still know them. *)
Definition previous_ok (h : list obs) (prev : option Z) : Prop :=
  prev = None \/ prev = option_map o_at (head h).

Lemma record_switch p h l d k i t prev key :
  timeline_rel p h l d -> identity_ok p (Some i) -> polls_ok fits (obs_of (Some i) t :: h) ->
  previous_ok h prev -> current h = Some key -> key <> account_key i ->
  exists out d', record_observation_tx p (Some i) t prev None (World d k) = (Ok out, World d' k)
    /\ poll_spec p (Some i) t h d d'.
Proof.
  intros R Hi Hpolls Hprev Hc Hne. destruct (Hpolls) as (H1 & H2 & H3 & Hok). cbn in H2.
  pose proof (spans_bounded _ _ _ (rel_spans _ _ _ _ R) Hok) as Hwf.
  destruct h as [|o' h]; [done|]. cbn [last_at] in Hwf. cbn in H1, H3.
  unfold record_observation_tx, format_usage_timestamp, format_timestamp. rewrite (fits_fmt t) by done.
  unfold bind at 1, expect at 1, ret at 1.
  unfold bind at 1. rewrite (current_account_rel p (o' :: h) l) by done. rewrite Hc. cbn [option_map last_at].
  destruct (String.eqb_spec key (account_key i)) as [|_]; [done|].
  destruct (upsert_account_run i (fmt t) d k) as (d1 & E1 & Ha1 & Ht1).
  unfold bind at 1. unfold bind at 1. rewrite E1. unfold bind at 1. rewrite close_current_run.
  assert (uncertainty_width (or_else prev (match prev with None => Some (o_at o') | Some _ => None end)) t
          = prev_gap (o' :: h) t) as Hgap by (destruct Hprev as [-> | ->]; done).
  unfold bind at 1.
  assert (match prev with
          | Some _ => ret None
          | None => t0 <- parse_timestamp (fmt (o_at o')) ;; ret (Some t0)
          end = (fun w : world usage_db =>
                   (Ok (match prev with None => Some (o_at o') | Some _ => None end), w))) as ->.
  { destruct prev; [done|]. unfold parse_timestamp.
    destruct Hok as (? & ? & _). by rewrite (parse_format_db (o_at o')) by (auto using fits_fmt). }
  rewrite Hgap. unfold bind at 1.
  set (s := Span (account_key i) t None (prev_gap (o' :: h) t)).
  match goal with |- context [insert_timeline_row _ _ _ _ _ _ (World ?x k)] => set (d2 := x) end.
  assert (account_timeline d2 = update (is_current p) (fun r => r <| tl_to := Some (fmt t) |>) (account_timeline d)) as Ht2
    by (unfold d2; cbn; by rewrite Ht1).
  assert (accounts d2 = upsert_account_row (fun _ new => new) i (fmt t) (accounts d)) as Ha2 by (by rewrite <- Ha1).
  pose proof (close_rows p (o' :: h) l d t R Hok) as Hrows.
  change (account_key i) with (sp_key s). change (prev_gap (o' :: h) t) with (sp_unc s). change t with (sp_from s) at 1.
  rewrite (insert_span_run p (close_head t l)).
  2: { intros s' (s0 & Hin & _ & Hf)%close_head_in. rewrite Hf. destruct (spans_wf_in _ _ _ _ Hwf Hin) as (? & ? & _).
       cbn. split; [lia|done]. }
  2-4: done.
  2: by rewrite Ht2.
  2: { apply filter_false. intros s' Hs'. destruct (close_head_closed _ _ _ _ _ Hwf H3 Hs') as (? & E & _).
       unfold sp_open. by rewrite E. }
  2: { unfold account_exists, s. cbn [sp_key]. rewrite Ha2. by destruct (lookup_upsert_new i (fmt t) (accounts d)) as (a & -> & _). }
  eexists _, _. split; [reflexivity|].
  apply (poll_opens p (o' :: h) l (close_head t l) d _ i t (prev_gap (o' :: h) t)); try done.
  - by apply (spans_switch (obs_of (Some i) t) _ _ _ key), Hne; [apply (rel_spans _ _ _ _ R)|..].
  - by intros s' (s0 & ? & ? & _)%close_head_in; exists s0.
  - match goal with |- select _ ?x = _ => change x with (insert (account_timeline d2) (row_of p s)) end.
    cbn [rev]. by rewrite Ht2, insert_rows, Hrows, map_app.
  - intros q Hq. match goal with |- select _ ?x = _ => change x with (insert (account_timeline d2) (row_of p s)) end.
    rewrite Ht2, insert_rows_other by done. by apply close_rows_other.
Qed.

Lemma record_open p h l d k i t prev :
  timeline_rel p h l d -> identity_ok p (Some i) -> polls_ok fits (obs_of (Some i) t :: h) ->
  previous_ok h prev -> current h = None ->
  exists out d', record_observation_tx p (Some i) t prev None (World d k) = (Ok out, World d' k)
    /\ poll_spec p (Some i) t h d d'.
Proof.
  intros R Hi Hpolls Hprev Hc. destruct (Hpolls) as (H1 & H2 & H3 & Hok). cbn in H1, H2, H3.
  pose proof (spans_bounded _ _ _ (rel_spans _ _ _ _ R) Hok) as Hwf.
  unfold record_observation_tx, format_usage_timestamp, format_timestamp. rewrite (fits_fmt t) by done.
  unfold bind at 1, expect at 1, ret at 1.
  unfold bind at 1. rewrite (current_account_rel p h l) by done. rewrite Hc. cbn [option_map].
  destruct (upsert_account_run i (fmt t) d k) as (d1 & E1 & Ha1 & Ht1).
  unfold bind at 1. unfold bind at 1. rewrite E1. unfold bind at 1.
  assert (0 <= uncertainty_width prev t /\ milliseconds (uncertainty_width prev t) <= t) as [Hu Hu'].
  { destruct Hprev as [-> | ->]; [unfold uncertainty_width, milliseconds; lia|]. destruct h as [|o' h]; cbn [head option_map]; [unfold uncertainty_width, milliseconds; lia|].
    destruct Hok as (? & _). destruct (poll_gap_bounds (o_at o') t); [lia|]. unfold poll_gap in *. cbn in H. lia. }
  set (s := Span (account_key i) t None (uncertainty_width prev t)).
  change (account_key i) with (sp_key s). change (uncertainty_width prev t) with (sp_unc s). change t with (sp_from s) at 1.
  pose proof (spans_current _ _ (rel_spans _ _ _ _ R)) as Hcur. rewrite Hc in Hcur.
  rewrite (insert_span_run p l).
  2: { intros s' Hin. destruct (spans_wf_in _ _ _ _ Hwf Hin) as (? & ? & _).
       destruct h as [|o' h]; [by inversion_clear R as [Hn]; inversion Hn; subst|]. cbn in *. split; [lia|done]. }
  2-4: done.
  2: by rewrite Ht1, (rel_rows _ _ _ _ R).
  2: { rewrite (spans_open_once _ _ _ Hwf). destruct Hcur as [->|(s0 & l' & -> & Hs)]; [done|].
       unfold sp_open. by destruct (sp_to s0). }
  2: { unfold account_exists, s. cbn [sp_key]. rewrite Ha1. by destruct (lookup_upsert_new i (fmt t) (accounts d)) as (a & -> & _). }
  eexists _, _. split; [reflexivity|].
  apply (poll_opens p h l l d _ i t (uncertainty_width prev t)); try done.
  - by apply (spans_open (obs_of (Some i) t)); [apply (rel_spans _ _ _ _ R)|..].
  - by intros s' Hs'; exists s'.
  - match goal with |- select _ ?x = _ => change x with (insert (account_timeline d1) (row_of p s)) end.
    cbn [rev]. by rewrite Ht1, insert_rows, (rel_rows _ _ _ _ R), map_app.
  - intros q Hq. match goal with |- select _ ?x = _ => change x with (insert (account_timeline d1) (row_of p s)) end.
    by rewrite Ht1, insert_rows_other.
Qed.

(** Every poll is recorded. *)
Lemma record_poll p h l d k i t prev :
  timeline_rel p h l d -> identity_ok p i -> polls_ok fits (obs_of i t :: h) -> previous_ok h prev ->
  exists out d', record_observation p i t prev None (World d k) = (Ok out, World d' k)
    /\ poll_spec p i t h d d'.
Proof.
  intros R Hi Hpolls Hprev. unfold record_observation, bind. rewrite check_identity_ok by done.
  enough (exists out d', record_observation_tx p i t prev None (World d k) = (Ok out, World d' k)
            /\ poll_spec p i t h d d') as (out & d' & E & Hs) by (exists out, d'; auto using transaction_run).
  destruct (Hpolls) as (H1 & H2 & H3 & Hok). cbn in H2.
  destruct i as [i|], (current h) as [key|] eqn:Hc.
  - destruct (String.eqb_spec key (account_key i)) as [->|]; [|by eapply record_switch].
    unfold record_observation_tx, format_usage_timestamp, format_timestamp. rewrite (fits_fmt t) by done.
    unfold bind at 1, expect at 1, ret at 1. unfold bind at 1. rewrite (current_account_rel p h l) by done.
    rewrite Hc. cbn [option_map]. rewrite String.eqb_refl.
    destruct (upsert_account_run i (fmt t) d k) as (d1 & E1 & Ha1 & Ht1).
    unfold bind. rewrite E1. eexists _, _. split; [reflexivity|]. by eapply poll_same.
  - by eapply record_open.
  - unfold record_observation_tx, format_usage_timestamp, format_timestamp. rewrite (fits_fmt t) by done.
    unfold bind at 1, expect at 1, ret at 1. unfold bind at 1. rewrite (current_account_rel p h l) by done.
    rewrite Hc. cbn [option_map]. eexists _, _. split; [reflexivity|]. by eapply poll_logout.
  - unfold record_observation_tx, format_usage_timestamp, format_timestamp. rewrite (fits_fmt t) by done.
    unfold bind at 1, expect at 1, ret at 1. unfold bind at 1. rewrite (current_account_rel p h l) by done.
    rewrite Hc. cbn [option_map]. eexists _, _. split; [reflexivity|]. by eapply poll_none.
Qed.

End Refinement.

(** ** Executions of the poller *)
(** A poll of one provider with what its identity file gave, or a restart of the server,
    which forgets the times of the last polls. *)
Inductive poll_event : Type :=
| EvPoll (p : Provider) (identity : outcome (option AccountIdentity)) (observed_at : Z)
| EvRestart.

(** The polls of [p] that read an identity file, newest first. *)
Definition poll_obs (p : Provider) (e : poll_event) : option obs :=
  match e with
  | EvPoll q (Ok i) t => if bool_decide (q = p) then Some (obs_of i t) else None
  | _ => None
  end.
Definition history (p : Provider) (evs : list poll_event) : list obs := rev (omap (poll_obs p) evs).

Section Poller.
Context {T : TimeCrate} {U : UsageTime} {L : UsageTimeLaws T U}.

Definition run_event (e : poll_event) : PM unit :=
  match e with
  | EvPoll p identity t => poll_provider p t identity ;;; ret tt
  | EvRestart => execute (fun d => (d <| last_successful_poll := [] |>, O)) ;;; ret tt
  end.
Definition run_events (evs : list poll_event) : PM unit := for_each evs run_event.

(** What the files give, and times that go up and can be written. *)
Definition event_ok (e : poll_event) : Prop :=
  match e with
  | EvPoll p (Ok i) _ => identity_ok p i
  | EvPoll _ Panic _ => False
  | _ => True
  end.
Definition events_ok (evs : list poll_event) : Prop :=
  (forall e, In e evs -> event_ok e) /\ forall p, polls_ok fits (history p evs).

Definition poller_inv (evs : list poll_event) (po : poller) : Prop :=
  forall p, (exists l, timeline_rel p (history p evs) l (po_usage po))
    /\ previous_ok (history p evs) (last_poll p (last_successful_poll po)).

Lemma history_snoc p evs e :
  history p (evs ++ [e]) = match poll_obs p e with Some o => o :: history p evs | None => history p evs end.
Proof.
  unfold history. rewrite omap_app. cbn. destruct (poll_obs p e); cbn; [by rewrite rev_unit|by rewrite app_nil_r].
Qed.
Lemma events_ok_snoc evs e : events_ok (evs ++ [e]) -> events_ok evs /\ event_ok e.
Proof.
  intros [H1 H2]. split; [split|].
  - intros x Hx. apply H1, in_or_app. by left.
  - intros p. specialize (H2 p). rewrite history_snoc in H2. destruct (poll_obs p e); [|done]. by destruct H2 as (_ & _ & _ & ?).
  - apply H1, in_or_app. right. by left.
Qed.
Lemma last_poll_set p q t l : last_poll q (set_last_poll p t l) = if bool_decide (p = q) then Some t else last_poll q l.
Proof.
  unfold last_poll, set_last_poll. cbn. case_bool_decide as Hpq; [done|]. f_equal.
  induction l as [|[r u] l IH]; cbn; [done|]. case_bool_decide as Hr; cbn.
  - subst r. rewrite bool_decide_eq_false_2 by done. done.
  - by rewrite IH.
Qed.

Lemma run_event_inv evs e po k : events_ok (evs ++ [e]) -> poller_inv evs po ->
  exists po', run_event e (World po k) = (Ok tt, World po' k) /\ poller_inv (evs ++ [e]) po'.
Proof.
  intros Hok Hinv. destruct (events_ok_snoc _ _ Hok) as [Hevs He].
  destruct e as [p [i|msg|] t|]; cbn [event_ok] in He; [| |done|].
  - destruct (Hinv p) as [[l Rp] Hprev]. destruct Hok as [_ Hpolls].
    assert (polls_ok fits (obs_of i t :: history p evs)) as Hp.
    { specialize (Hpolls p). rewrite history_snoc in Hpolls. cbn in Hpolls. by rewrite bool_decide_eq_true_2 in Hpolls. }
    destruct (record_poll p _ l (po_usage po) k i t (last_poll p (last_successful_poll po)) Rp He Hp Hprev)
      as (out & d' & E & [Hl Hother]).
    eexists. split.
    + unfold run_event, poll_provider, bind, query, gets, attempt, on_usage. cbn [w_db w_tick]. rewrite E. reflexivity.
    + intros q. rewrite history_snoc. cbn. rewrite last_poll_set. case_bool_decide as Hpq.
      * subst q. split; [done|]. by right.
      * destruct (Hinv q) as [[lq Rq] Hq]. split; [|done]. exists lq. by apply Hother.
  - exists po. split; [done|]. intros q. rewrite history_snoc. apply Hinv.
  - eexists. split; [reflexivity|]. intros q. rewrite history_snoc. cbn.
    destruct (Hinv q) as [Hl _]. split; [done|by left].
Qed.

Lemma for_each_snoc {S A} (body : A -> M S unit) l x (s s1 s2 : S) :
  for_each l body s = (Ok tt, s1) -> body x s1 = (Ok tt, s2) -> for_each (l ++ [x]) body s = (Ok tt, s2).
Proof.
  revert s. induction l as [|y l IH]; intros s; cbn.
  - unfold ret at 1, bind. intros [= <-] ->. done.
  - unfold bind. destruct (body y s) as [[a|e|] s']; [|done..]. intros H Hx. by apply IH.
Qed.
Lemma run_events_inv evs k : events_ok evs ->
  exists po, run_events evs (World (Poller empty_usage_db []) k) = (Ok tt, World po k) /\ poller_inv evs po.
Proof.
  induction evs as [|e evs IH] using rev_ind; intros Hok.
  - eexists. split; [reflexivity|]. intros p. split; [|by left]. exists []. split; try done. constructor.
  - destruct (events_ok_snoc _ _ Hok) as [Hevs _]. destruct (IH Hevs) as (po & E & Hinv).
    destruct (run_event_inv evs e po k Hok Hinv) as (po' & E' & Hinv'). exists po'. split; [|done].
    unfold run_events in *. by eapply for_each_snoc.
Qed.

(** C2: The account timeline implements its specification: after any polls of the two
    providers at rising times, with unreadable files and restarts in between, all
    polls are recorded, and the account the store gives a message is the account of the
    latest poll before it, marked uncertain exactly when the next poll saw another account
    and the message lies in the whole milliseconds before it. *)
Theorem timeline_refines_polls evs p m k : events_ok evs -> 0 <= m -> fits m ->
  exists po, run_events evs (World (Poller empty_usage_db []) k) = (Ok tt, World po k)
    /\ account_at p m (World (po_usage po) k)
       = (Ok (option_map (fun a => MkAttribution (fst a) false (snd a)) (attributed (history p evs) m)),
          World (po_usage po) k).
Proof.
  intros Hok Hm Hfm. destruct (run_events_inv evs k Hok) as (po & E & Hinv).
  exists po. split; [done|]. destruct (Hinv p) as [[l R] _]. apply (account_at_rel p (history p evs) l); try done.
  apply Hok.
Qed.
End Poller.

Definition alice : AccountIdentity := MkIdentity Claude "alice" None None None.
Definition bob : AccountIdentity := MkIdentity Claude "bob" None None None.
(** Alice, an unreadable file, a restart, Bob, and the other provider in between. *)
Definition demo_polls : list poll_event :=
  [EvPoll Claude (Ok (Some alice)) (seconds 10); EvPoll Codex (Ok None) (seconds 10);
   EvPoll Claude (Err "failed to read"%string) (seconds 20); EvRestart;
   EvPoll Claude (Ok (Some bob)) (seconds 30)].
Lemma timeline_refines_polls_witness :
  exists po, run_events demo_polls (World (Poller empty_usage_db []) 0) = (Ok tt, World po 0%nat)
    /\ account_at Claude (seconds 25) (World (po_usage po) 0%nat)
       = (Ok (Some (MkAttribution "claude:alice" false true)), World (po_usage po) 0%nat).
Proof.
  assert (events_ok demo_polls) as Hok.
  { split.
    - intros e He. cbn in He. repeat destruct He as [<-|He]; try done; cbn; by split.
    - intros []; cbn; repeat split; first [done|by eexists|unfold seconds, NANOS; lia]. }
  apply (timeline_refines_polls demo_polls Claude (seconds 25) 0 Hok); [unfold seconds, NANOS; lia|by eexists].
Defined.
