(* ===== verification/UsageBurnProps.v ===== *)
(** * The usage database keeps its constraints

    Every operation of the identity and burn stores keeps the keys, the foreign keys and
    the ranges of the database, never drops an account or a sample, and a sample of a
    window is recorded once per source and instant. *)
From Stdlib Require Import ZArith Lia Bool String List.
From stdpp Require Import base tactics list strings.
From S2P Require Import Prelude Text Table Clock Json UsageDb UsageIdentity UsageBurn UsagePoller.
From S2P Require Import Demo DemoUsage UsageIdentityProps.

(** ** The constraints *)
Definition tl_key (r : timeline_row) : string * string := (tl_provider r, tl_from r).
Definition md_key (m : metadata_row) : string * string := (md_account_key m, md_observed_at m).
Definition burn_key (b : burn_row) : string * string * option string * string * string :=
  (bs_account_key b, bs_window_kind b, bs_window_scope b, bs_source b, bs_observed_at b).
Definition open_row (r : timeline_row) : bool := is_none (tl_to r).

Record usage_wf (d : usage_db) : Prop := {
  wf_accounts : unique acc_key (accounts d);
  wf_timeline : NoDup (map tl_key (account_timeline d));
  wf_current : NoDup (map tl_provider (select open_row (account_timeline d)));
  wf_timeline_fk : forall r, In r (account_timeline d) -> account_exists (tl_account_key r) d = true;
  wf_metadata : NoDup (map md_key (account_metadata_history d));
  wf_metadata_fk : forall m, In m (account_metadata_history d) -> account_exists (md_account_key m) d = true;
  wf_burn : NoDup (map burn_key (burn_samples d));
  wf_burn_fk : forall b, In b (burn_samples d) -> account_exists (bs_account_key b) d = true;
  wf_percent : forall b, In b (burn_samples d) -> valid_percent (bs_percent b) = true }.

(** What an operation guarantees. *)
Definition usage_safe (d d' : usage_db) : Prop :=
  (usage_wf d -> usage_wf d')
  /\ burn_samples d `prefix_of` burn_samples d'
  /\ (forall k, account_exists k d = true -> account_exists k d' = true)
  /\ seat_sessions d' = seat_sessions d.
#[export] Instance usage_safe_preorder : PreOrder usage_safe.
Proof.
  split; [by intros d|]. intros d1 d2 d3 (H1 & H2 & H3 & H4) (H1' & H2' & H3' & H4').
  split; [auto|]. split; [by etransitivity|]. split; [auto|congruence].
Qed.


(** *** Statements *)
Lemma usage_safe_timeline d t :
  (usage_wf d -> NoDup (map tl_key t)) ->
  (usage_wf d -> NoDup (map tl_provider (select open_row t))) ->
  (usage_wf d -> forall r, In r t -> account_exists (tl_account_key r) d = true) ->
  usage_safe d (d <| account_timeline := t |>).
Proof.
  intros H1 H2 H3. split; [|done]. intros Hwf. destruct (Hwf). split; first [done|by apply H1|by apply H2|by apply H3].
Qed.
Lemma account_exists_accounts t d k :
  account_exists k (d <| accounts := t |>) = is_some (lookup_row acc_key k t).
Proof. done. Qed.


Lemma close_current_safe p ts : steps (on_db usage_safe) (close_current p ts).
Proof.
  unfold close_current. db_steps. apply usage_safe_timeline; intros Hwf.
  - by apply NoDup_map_update, wf_timeline.
  - assert (select open_row (update (is_current p) (fun r => r <| tl_to := Some ts |>) (account_timeline d))
            = List.filter (fun r => negb (is_current p r)) (select open_row (account_timeline d))) as ->
      by (by apply filter_update_drop).
    by apply NoDup_map_filter, wf_current.
  - intros r (r0 & Hin & ->)%in_update. apply (wf_timeline_fk _ Hwf) in Hin. by destruct (is_current p r0).
Qed.

Lemma upsert_accounts_safe seen i ts : steps (on_db usage_safe)
  (execute (fun d => (d <| accounts := upsert_account_row seen i ts (accounts d) |>, 1%nat))).
Proof.
  apply steps_execute. intros d. cbn.
  assert (forall k, account_exists k d = true ->
            account_exists k (d <| accounts := upsert_account_row seen i ts (accounts d) |>) = true) as Hex
    by (intros k; by apply account_exists_upsert with (seen := seen) (i := i) (ts := ts)).
  split; [|done]. intros [H1 H2 H3 H4 H5 H6 H7 H8 H9]. split; cbn; auto.
  unfold upsert_account_row. destruct (lookup_row acc_key (account_key i) (accounts d)) eqn:E.
  - by apply unique_update.
  - apply unique_insert; [done|]. by apply lookup_row_None.
Qed.

Lemma record_account_metadata_safe key ts : steps (on_db usage_safe) (record_account_metadata key ts).
Proof.
  unfold record_account_metadata. db_steps. destruct (lookup_row acc_key key (accounts d)) as [a|] eqn:E; cbn; [|done].
  split; [|done]. intros Hwf. destruct (Hwf). split; try done; cbn.
  - destruct (existsb (md_at key ts) (account_metadata_history d)) eqn:Ee; [by apply NoDup_map_update|].
    apply NoDup_map_insert; [done|]. intros m Hin Hk.
    assert (existsb (md_at key ts) (account_metadata_history d) = true) as Hc; [|congruence].
    apply existsb_exists. exists m. split; [done|]. unfold md_key in Hk. cbn in Hk. injection Hk as H1 H2.
    unfold md_at. by rewrite H1, H2, !String.eqb_refl.
  - intros m Hin. assert (account_exists key d = true) as Hex by (unfold account_exists; by rewrite E).
    destruct (existsb _ _).
    + apply in_update in Hin as (m0 & Hin & ->). apply wf_metadata_fk0 in Hin. by destruct (md_at key ts m0).
    + unfold insert in Hin. apply in_app_or in Hin as [Hin|[<-|[]]]; [by apply wf_metadata_fk0|done].
Qed.
#[local] Hint Resolve close_current_safe upsert_accounts_safe record_account_metadata_safe : steps.
Lemma upsert_account_safe i ts : steps (on_db usage_safe) (upsert_account i ts).
Proof. unfold upsert_account. step_through. Qed.

Lemma at_from_key p ts r : at_from p ts r = true <-> tl_key r = (Provider_as_str p, ts).
Proof.
  unfold at_from, of_provider, tl_key. rewrite andb_true_iff, !String.eqb_eq. split; [by intros [-> ->]|by intros [= -> ->]].
Qed.
Lemma insert_timeline_safe p key from_ts to_ts u a :
  steps (on_db usage_safe) (insert_timeline_row p key from_ts to_ts u a).
Proof.
  unfold insert_timeline_row. apply steps_bind; [tc_solve| |intros; apply steps_ret; tc_solve].
  apply steps_checked; [tc_solve|]. intros d Hv. unfold timeline_violation in Hv.
  destruct (existsb (at_from p from_ts) _) eqn:E1; [done|].
  destruct (is_none to_ts && existsb (is_current p) _) eqn:E2; [done|].
  destruct (account_exists key d) eqn:E3; [|done]. apply usage_safe_timeline; intros Hwf.
  - apply NoDup_map_insert; [by apply wf_timeline|]. intros r Hin Hk.
    pose proof (existsb_false _ _ E1 _ Hin) as Hf. by rewrite (proj2 (at_from_key p from_ts r)) in Hf.
  - unfold select, insert. rewrite List.filter_app. cbn. unfold open_row at 2. cbn.
    destruct (is_none to_ts); cbn; [|rewrite app_nil_r; by apply wf_current].
    apply (NoDup_map_insert tl_provider); [by apply wf_current|].
    intros r [Hin Ho]%filter_In Hk. cbn in E2. pose proof (existsb_false _ _ E2 _ Hin) as Hf.
    unfold is_current, of_provider in Hf. cbn in Hk. rewrite Hk, String.eqb_refl in Hf.
    unfold open_row in Ho. by rewrite Ho in Hf.
  - intros r. unfold insert. intros [Hin|[<-|[]]]%in_app_or; [by apply wf_timeline_fk|done].
Qed.

Lemma move_assumed_start_safe p existing ts : steps (on_db usage_safe) (move_assumed_start p existing ts).
Proof.
  unfold move_assumed_start. apply steps_bind; [tc_solve| |intros; apply steps_ret; tc_solve].
  apply steps_checked; [tc_solve|]. intros d Hv. destruct (existsb _ _) eqn:E1; [done|].
  apply usage_safe_timeline; intros Hwf.
  - apply (NoDup_map_rekey _ _ _ (Provider_as_str p, ts)); [by apply wf_timeline|..].
    + apply (changes_key_once tl_key (Provider_as_str p, existing)); [by apply wf_timeline|].
      intros r Hr. by apply at_from_key.
    + intros r Hin Hk. pose proof (existsb_false _ _ E1 _ Hin) as Hf.
      by rewrite (proj2 (at_from_key p ts r)) in Hf.
    + intros r Hr. apply at_from_key in Hr. unfold tl_key in *. cbn. by injection Hr as -> _.
  - unfold select. rewrite map_filter_update by done. by apply wf_current.
  - intros r (r0 & Hin & ->)%in_update. apply (wf_timeline_fk _ Hwf) in Hin. by destruct (at_from p existing r0).
Qed.
#[local] Hint Resolve upsert_account_safe insert_timeline_safe move_assumed_start_safe : steps.

(** *** Operations *)
Section Operations.
Context {T : TimeCrate} {U : UsageTime}.

Lemma format_timestamp_frame c t : steps (@db_eq usage_db) (format_timestamp c t).
Proof. unfold format_timestamp. step_through. Qed.
Lemma parse_timestamp_frame t : steps (@db_eq usage_db) (parse_timestamp t).
Proof. unfold parse_timestamp. step_through. Qed.
Lemma instant_sub_frame t d : steps (@db_eq usage_db) (instant_sub t d).
Proof. unfold instant_sub. step_through. Qed.
Lemma instant_add_frame t d : steps (@db_eq usage_db) (instant_add t d).
Proof. unfold instant_add. step_through. Qed.
Lemma minutes_frame m : steps (@db_eq usage_db) (minutes m).
Proof. unfold minutes. step_through. Qed.
#[local] Hint Resolve format_timestamp_frame parse_timestamp_frame instant_sub_frame instant_add_frame
  minutes_frame : steps.
Lemma query_frame {D A} (f : D -> A) : steps (@db_eq D) (query f).
Proof. done. Qed.
#[local] Hint Resolve query_frame : steps.
Lemma account_at_frame p m : steps (@db_eq usage_db) (account_at p m).
Proof. unfold account_at, format_usage_timestamp. step_through. Qed.
#[local] Hint Resolve account_at_frame : steps.

Lemma bootstrap_tx_safe p t : steps (on_db usage_safe) (ensure_bootstrap_interval_tx p t).
Proof. unfold ensure_bootstrap_interval_tx, format_usage_timestamp. db_steps. Qed.
#[local] Hint Resolve bootstrap_tx_safe : steps.
Lemma check_identity_frame p i : steps (@db_eq usage_db) (check_identity p i).
Proof. unfold check_identity, validate. step_through. Qed.
#[local] Hint Resolve check_identity_frame : steps.
Lemma record_observation_safe p i t prev boot : steps (on_db usage_safe) (record_observation p i t prev boot).
Proof.
  unfold record_observation, record_observation_tx, format_usage_timestamp, current_account. db_steps.
Qed.
Lemma ensure_account_safe i t : steps (on_db usage_safe) (ensure_account i t).
Proof. unfold ensure_account, validate, format_usage_timestamp. db_steps. Qed.
Lemma ensure_bootstrap_safe p t : steps (on_db usage_safe) (ensure_bootstrap_interval p t).
Proof. unfold ensure_bootstrap_interval. db_steps. Qed.
#[local] Hint Resolve record_observation_safe ensure_account_safe ensure_bootstrap_safe : steps.

Lemma same_sample_key key kind scope source ts b :
  same_sample key kind scope source ts b = true <-> burn_key b = (key, kind, scope, source, ts).
Proof.
  unfold same_sample, same_window, burn_key.
  rewrite !andb_true_iff, !String.eqb_eq, opt_str_eqb_eq. split; [by intros [[[[-> ->] ->] ->] ->]|by intros [= -> -> -> -> ->]].
Qed.
Lemma insert_window_safe key source ts w : valid_percent (percent w) = true ->
  steps (on_db usage_safe) (insert_window key source ts w).
Proof.
  intros Hp. unfold insert_window, format_burn_timestamp. db_steps.
  apply steps_checked; [tc_solve|]. intros d Hv.
  destruct (existsb _ (burn_samples d)) eqn:E1; cbn; [done|]. cbn in Hv.
  destruct (account_exists key d) eqn:E2; [|done].
  split; [|split; [by eexists|done]]. intros Hwf. destruct (Hwf). split; try done; cbn.
  - apply NoDup_map_insert; [done|]. intros b Hin Hk. pose proof (existsb_false _ _ E1 _ Hin) as Hf.
    by rewrite (proj2 (same_sample_key _ _ _ _ _ _)) in Hf.
  - intros b. unfold insert. intros [Hin|[<-|[]]]%in_app_or; [by apply wf_burn_fk0|done].
  - intros b. unfold insert. intros [Hin|[<-|[]]]%in_app_or; [by apply wf_percent0|done].
Qed.
Definition valid_windows (ws : list BurnWindowSample) : Prop := forall w, In w ws -> valid_percent (percent w) = true.
Lemma insert_windows_safe key ws source ts : valid_windows ws ->
  steps (on_db usage_safe) (insert_windows key ws source ts).
Proof.
  intros Hws. unfold insert_windows. apply steps_fold_each; [tc_solve|]. intros n w Hin.
  apply steps_bind; [tc_solve|by apply insert_window_safe, Hws|intros; apply steps_ret; tc_solve].
Qed.
Lemma validate_window_frame {D} w : steps (@db_eq D) (validate_window w).
Proof. unfold validate_window. step_through. Qed.
Lemma validate_window_valid {S} w (s s' : S) u : validate_window w s = (Ok u, s') -> valid_percent (percent w) = true /\ s' = s.
Proof.
  unfold validate_window. destruct (_ || _); [done|]. destruct (valid_percent (percent w)); [|done].
  by intros [= _ <-].
Qed.
Lemma validate_all_valid {S} ws (s s' : S) u : for_each ws validate_window s = (Ok u, s') -> valid_windows ws.
Proof.
  revert s. induction ws as [|w ws IH]; intros s; cbn; [by intros _ w []|]. intros H. inv_ok H.
  apply validate_window_valid in Hrun as [Hv ->]. intros w' [<-|Hin]; [done|]. by apply (IH _ H).
Qed.
#[local] Hint Resolve validate_window_frame : steps.
Lemma record_for_account_safe key ws source t : steps (on_db usage_safe) (record_for_account key ws source t).
Proof.
  unfold record_for_account, format_burn_timestamp. destruct (_ || _); [db_steps|].
  apply (steps_bind_post _ (fun _ => valid_windows ws)); [|by intros; eapply validate_all_valid|].
  - apply steps_for_each; [tc_solve|]. db_steps.
  - intros _ Hws. apply steps_bind; [tc_solve|db_steps|]. intros ts. apply steps_transaction; [tc_solve|].
    by apply insert_windows_safe.
Qed.
#[local] Hint Resolve record_for_account_safe : steps.
Lemma record_for_provider_safe p ws source t : steps (on_db usage_safe) (record_for_provider p ws source t).
Proof. unfold record_for_provider. db_steps. Qed.
#[local] Hint Resolve record_for_provider_safe : steps.
Lemma statusline_safe t p1 r1 p2 r2 : steps (on_db usage_safe) (record_claude_statusline t p1 r1 p2 r2).
Proof. unfold record_claude_statusline, paired_claude_window. db_steps. Qed.
Lemma parse_cached_frame v : steps (@db_eq usage_db) (parse_claude_cached_usage v).
Proof. unfold parse_claude_cached_usage. step_through. Qed.
#[local] Hint Resolve parse_cached_frame : steps.
Lemma json_file_safe {J : JsonParser} path file : steps (on_db usage_safe) (record_claude_json_file path file).
Proof. unfold record_claude_json_file. db_steps. Qed.

Lemma changed_window_frame rl key scope sev t ts slot :
  steps (@db_eq usage_db) (changed_window rl key scope sev t ts slot).
Proof. unfold changed_window, codex_reset_at, latest_window. step_through. Qed.
#[local] Hint Resolve changed_window_frame : steps.
Lemma changed_windows_frame rl key scope sev t ts : steps (@db_eq usage_db) (changed_windows rl key scope sev t ts).
Proof. unfold changed_windows. step_through. Qed.
#[local] Hint Resolve changed_windows_frame : steps.
Lemma changed_window_valid rl key scope sev t ts slot s w s' :
  changed_window rl key scope sev t ts slot s = (Ok (Some w), s') -> valid_percent (percent w) = true.
Proof.
  unfold changed_window. destruct (bind_opt _ _); [|done]. destruct (json_i64 _); [|done]. intros H. inv_ok H.
  destruct (_ && _); [done|]. inv_ok H.
  destruct (or_else (json_f64 _) _) as [pc|]; [|done]. destruct (or_else a _) as [ra|]; [|done].
  destruct (same_reading _ _ _ _); [done|]. inv_ok H.
  match goal with H : validate_window _ _ = _ |- _ => apply validate_window_valid in H as [Hv _] end.
  by match goal with H : Some _ = Some _ |- _ => injection H as <- end.
Qed.
Lemma changed_windows_valid rl key scope sev t ts s ws s' :
  changed_windows rl key scope sev t ts s = (Ok ws, s') -> valid_windows ws.
Proof.
  unfold changed_windows. cbn. intros H. inv_ok H. 
  assert (forall o l slot sa sb, changed_window rl key scope sev t ts slot sa = (Ok o, sb) ->
            valid_windows l -> valid_windows (push_some l o)) as Hpush.
  { intros [w|] l slot sa sb E Hl; cbn; [|done]. intros w' [Hin|[<-|[]]]%in_app_or; [auto|].
    by eapply changed_window_valid. }
  do 2 (eapply Hpush; [eassumption|]). by intros w [].
Qed.
Lemma codex_event_safe ev t : steps (on_db usage_safe) (record_codex_event ev t).
Proof.
  unfold record_codex_event, codex_attribution, format_burn_timestamp. destruct (negb _); [db_steps|].
  apply steps_bind; [tc_solve|db_steps|]. intros [a|]; [|db_steps]. destruct (codex_rate_limits ev) as [rl|]; [|db_steps].
  cbv zeta. apply steps_bind; [tc_solve|db_steps|]. intros ts. apply steps_bind; [tc_solve|db_steps|].
  intros [|w ws]; [db_steps|]. apply steps_transaction; [tc_solve|].
  eapply steps_bind_post; [tc_solve|db_steps|intros s a0 s'; apply changed_windows_valid|].
  intros [|w' ws'] Hv; [db_steps|]. by apply insert_windows_safe.
Qed.
End Operations.
