(* ===== verification/SeatSessions.v ===== *)
(** * Seat sessions: which seat used which provider session (seat_sessions.rs)

    The table maps the seats of the server to the provider sessions they used.  A session
    that no seat has claimed is held by the seat [unassigned] until one does. *)
From Stdlib Require Import ZArith Lia Bool String List.
From stdpp Require Import base tactics list strings gmap.
From S2P Require Import Prelude Text Table Clock Json UsageDb.

Definition UNASSIGNED : string := "unassigned".

Record SeatSessionIdentity : Type := MkSeatSession {
  seat_id : string; seat_provider : string; provider_session_id : string; artifact_path : option string }.

Definition required_text (value field : string) : UM string :=
  let value := trim value in
  if value =?s "" then bail (field +:+ " must not be empty") else ret value.

(** ** Statements *)
Definition same_session (provider session : string) (r : seat_row) : bool :=
  (ss_provider r =?s provider) && (ss_provider_session_id r =?s session).
Definition unassigned_row (r : seat_row) : bool := ss_seat_id r =?s UNASSIGNED.
(** [PRIMARY KEY (seat_id, provider_session_id)]. *)
Definition same_seat (seat session : string) (r : seat_row) : bool :=
  (ss_seat_id r =?s seat) && (ss_provider_session_id r =?s session).

Definition drop_unassigned (provider session : string) : UM unit :=
  execute (fun d =>
    let hit r := unassigned_row r && same_session provider session r in
    (d <| seat_sessions := delete_rows hit (seat_sessions d) |>, changes hit (seat_sessions d))) ;;; ret tt.
Definition insert_seat (seat provider session : string) (artifact : option string) (observed_at : string) : UM unit :=
  execute (fun d =>
    let t := seat_sessions d in
    if (negb (seat =?s UNASSIGNED)
        || negb (existsb (fun r => negb (unassigned_row r) && same_session provider session r) t))
       && negb (existsb (same_seat seat session) t)
    then (d <| seat_sessions := insert t (SeatRow seat provider session artifact observed_at observed_at) |>, 1%nat)
    else (d, O)) ;;; ret tt.
Definition append_identity (seat provider session : string) (artifact : option string) (observed_at : string)
    : UM unit :=
  (if negb (seat =?s UNASSIGNED) then drop_unassigned provider session else ret tt) ;;;
  insert_seat seat provider session artifact observed_at.
Definition repair_artifact (s : SeatSessionIdentity) : UM unit :=
  execute (fun d =>
    let hit r := same_seat (seat_id s) (provider_session_id s) r && (ss_provider r =?s seat_provider s)
                 && is_none (ss_artifact_path r) in
    (d <| seat_sessions := update hit (fun r => r <| ss_artifact_path := artifact_path s |>) (seat_sessions d) |>,
     changes hit (seat_sessions d))) ;;; ret tt.

(** ** Operations *)
Section Store.
Context `{T : TimeCrate} `{E : Env}.

Definition seat_timestamp : UM string :=
  now <- now_utc ;; expect "failed to format seat session timestamp" (format_rfc3339 now).

Definition append (seat provider session : string) (artifact : option string) : UM unit :=
  seat <- required_text seat "seat_id" ;;
  provider <- required_text provider "provider" ;;
  session <- required_text session "provider_session_id" ;;
  let artifact := trimmed artifact in
  transaction (
    observed_at <- seat_timestamp ;;
    append_identity seat provider session artifact observed_at).

Definition append_one (observed_at : string) (s : SeatSessionIdentity) : UM unit :=
  append_identity (seat_id s) (seat_provider s) (provider_session_id s) (artifact_path s) observed_at ;;;
  if is_some (artifact_path s) then repair_artifact s else ret tt.
Definition append_batch (sessions : list SeatSessionIdentity) : UM unit :=
  match sessions with
  | [] => ret tt
  | _ =>
      transaction (
        observed_at <- seat_timestamp ;;
        for_each sessions (append_one observed_at))
  end.
End Store.

Definition claims (t : list seat_row) : gset (string * string) :=
  list_to_set (map (fun r => (ss_provider r, ss_provider_session_id r)) t).
Definition claimed_provider_sessions : UM (gset (string * string)) := query (fun d => claims (seat_sessions d)).
Definition no_artifact (r : seat_row) : bool :=
  match ss_artifact_path r with None => true | Some p => sqlite_trim p =?s "" end.
Definition provider_sessions_missing_artifacts (provider : string) : UM (gset string) :=
  query (fun d => list_to_set (map ss_provider_session_id
    (select (fun r => (ss_provider r =?s provider) && no_artifact r) (seat_sessions d)))).

(** ** What the table promises *)
Definition seat_key (r : seat_row) : string * string := (ss_seat_id r, ss_provider_session_id r).
Record seats_wf (t : list seat_row) : Prop := {
  seats_unique : NoDup (map seat_key t);
  seats_exclusive : forall r1 r2, In r1 t -> In r2 t ->
    ss_provider r1 = ss_provider r2 -> ss_provider_session_id r1 = ss_provider_session_id r2 ->
    unassigned_row r1 = unassigned_row r2 }.
(** A row as another operation may leave it: an artifact found later. *)
Definition row_kept (r r' : seat_row) : Prop :=
  exists a, r' = r <| ss_artifact_path := a |> /\ (ss_artifact_path r = None \/ a = ss_artifact_path r).
(** The table holds the session under no other provider. *)
Definition no_other_provider (provider session : string) (t : list seat_row) : Prop :=
  forall r, In r t -> ss_provider_session_id r = session -> ss_provider r = provider.

Record seats_safe (d d' : usage_db) : Prop := {
  safe_seats_wf : seats_wf (seat_sessions d) -> seats_wf (seat_sessions d');
  safe_seats_kept : forall r, In r (seat_sessions d) -> unassigned_row r = false ->
    exists r', In r' (seat_sessions d') /\ row_kept r r';
  safe_seats_rest : d' = d <| seat_sessions := seat_sessions d' |> }.
#[export] Instance seats_safe_preorder : PreOrder seats_safe.
Proof.
  split.
  - intros d. split; [done| |by destruct d]. intros r Hin _. exists r. split; [done|].
    exists (ss_artifact_path r). split; [by destruct r|by right].
  - intros d1 d2 d3 [H1 H2 H3] [H1' H2' H3']. split; [auto| |].
    + intros r Hin Hu. destruct (H2 r Hin Hu) as (r' & Hin' & a & -> & Ha).
      destruct (H2' _ Hin') as (r'' & Hin'' & a' & -> & Ha'); [done|].
      eexists. split; [exact Hin''|]. exists a'. split; [done|]. cbn in Ha'. destruct Ha as [|Ha]; [by left|].
      destruct Ha' as [Ha'|Ha']; [left|right]; congruence.
    + rewrite H3', H3. done.
Qed.

Lemma same_seat_key seat session r : same_seat seat session r = true <-> seat_key r = (seat, session).
Proof.
  unfold same_seat, seat_key. rewrite andb_true_iff, !String.eqb_eq. split; [by intros [-> ->]|by intros [= -> ->]].
Qed.
Lemma same_session_iff p s r : same_session p s r = true <-> ss_provider r = p /\ ss_provider_session_id r = s.
Proof. unfold same_session. by rewrite andb_true_iff, !String.eqb_eq. Qed.

(** ** One append *)
(** The rows after the sessions of a seat that claims are taken from [unassigned]. *)
Definition released (seat provider session : string) (t : list seat_row) : list seat_row :=
  if seat =?s UNASSIGNED then t
  else delete_rows (fun r => unassigned_row r && same_session provider session r) t.
(** Is a row added? *)
Definition seat_added (seat provider session : string) (t : list seat_row) : bool :=
  (negb (seat =?s UNASSIGNED)
   || negb (existsb (fun r => negb (unassigned_row r) && same_session provider session r) t))
  && negb (existsb (same_seat seat session) t).
Definition appended (seat provider session : string) (artifact : option string) (ts : string) (t : list seat_row)
    : list seat_row :=
  let t1 := released seat provider session t in
  if seat_added seat provider session t1 then insert t1 (SeatRow seat provider session artifact ts ts) else t1.

Lemma append_identity_run seat provider session artifact ts d k :
  append_identity seat provider session artifact ts (World d k)
  = (Ok tt, World (d <| seat_sessions := appended seat provider session artifact ts (seat_sessions d) |>) k).
Proof.
  unfold append_identity, drop_unassigned, insert_seat, appended, released, seat_added, bind, execute, ret.
  destruct (seat =?s UNASSIGNED); cbn.
  - destruct (_ && _); cbn; [done|]. by destruct d.
  - destruct (negb _); done.
Qed.

Lemma released_in seat provider session t r : In r (released seat provider session t) ->
  In r t /\ (seat <> UNASSIGNED -> same_session provider session r = true -> unassigned_row r = false).
Proof.
  unfold released. destruct (String.eqb_spec seat UNASSIGNED); [by intros ?; split|].
  intros [Hin Hd]%in_delete_rows. split; [done|]. intros _ Hs. rewrite Hs, andb_true_r in Hd. done.
Qed.
Lemma released_wf seat provider session t : seats_wf t -> seats_wf (released seat provider session t).
Proof.
  intros [H1 H2]. split.
  - unfold released. destruct (_ =?s _); [done|]. by apply NoDup_map_filter.
  - intros r1 r2 [Hr1 _]%released_in [Hr2 _]%released_in. auto.
Qed.
Lemma appended_wf seat provider session artifact ts t : seats_wf t -> seats_wf (appended seat provider session artifact ts t).
Proof.
  intros Hwf%(released_wf seat provider session). unfold appended.
  destruct (seat_added _ _ _ _) eqn:Ha; [|done]. unfold seat_added in Ha.
  apply andb_true_iff in Ha as [Ha Hpk]. bool_simpl. destruct Hwf as [H1 H2].
  set (t1 := released seat provider session t) in *.
  assert (forall r, In r t1 -> same_session provider session r = true ->
            unassigned_row r = unassigned_row (SeatRow seat provider session artifact ts ts)) as Hnew.
  { intros r Hin Hs. unfold unassigned_row at 2. cbn. destruct (String.eqb_spec seat UNASSIGNED) as [->|Hne].
    - cbn in Ha. bool_simpl. pose proof (existsb_false _ _ Ha _ Hin) as Hf. cbn in Hf. rewrite Hs in Hf.
      by destruct (unassigned_row r).
    - by apply (released_in _ _ _ _ _ Hin). }
  split.
  - apply NoDup_map_insert; [done|]. intros r Hin Hk. pose proof (existsb_false _ _ Hpk _ Hin) as Hf.
    by rewrite (proj2 (same_seat_key seat session r) Hk) in Hf.
  - unfold insert. intros r1 r2 [Hr1|[<-|[]]]%in_app_or [Hr2|[<-|[]]]%in_app_or; cbn; intros Hp Hs; auto.
    + apply Hnew; [done|]. by apply same_session_iff.
    + symmetry. apply Hnew; [done|]. by apply same_session_iff.
Qed.
Lemma appended_kept seat provider session artifact ts t r :
  In r t -> unassigned_row r = false -> In r (appended seat provider session artifact ts t).
Proof.
  intros Hin Hu. assert (In r (released seat provider session t)) as Hr.
  { unfold released. destruct (_ =?s _); [done|]. apply in_delete_rows. by rewrite Hu. }
  unfold appended. destruct (seat_added _ _ _ _); [|done]. unfold insert. apply in_or_app. by left.
Qed.
Lemma row_kept_refl r : row_kept r r.
Proof. exists (ss_artifact_path r). split; [by destruct r|by right]. Qed.

Lemma append_identity_safe seat provider session artifact ts :
  steps (on_db seats_safe) (append_identity seat provider session artifact ts).
Proof.
  intros [d k]. rewrite append_identity_run. unfold on_db. cbn. split; cbn.
  - apply appended_wf.
  - intros r Hin Hu. exists r. split; [by apply appended_kept|apply row_kept_refl].
  - by destruct d.
Qed.
Lemma repair_artifact_safe s : steps (on_db seats_safe) (repair_artifact s).
Proof.
  unfold repair_artifact. db_steps. cbn. split; cbn.
  - intros [H1 H2]. split; [by apply NoDup_map_update|].
    assert (forall r, In r (update (fun r => same_seat (seat_id s) (provider_session_id s) r
              && (ss_provider r =?s seat_provider s) && is_none (ss_artifact_path r))
              (fun r => r <| ss_artifact_path := artifact_path s |>) (seat_sessions d)) ->
            exists r0, In r0 (seat_sessions d) /\ ss_provider r0 = ss_provider r
              /\ ss_provider_session_id r0 = ss_provider_session_id r /\ unassigned_row r0 = unassigned_row r) as Hold.
    { intros r (r0 & Hin & ->)%in_update. exists r0. by destruct (_ && _). }
    intros r1 r2 (a & Ha & Hpa & Hsa & Hua)%Hold (b & Hb & Hpb & Hsb & Hub)%Hold Hp Hs.
    rewrite <- Hua, <- Hub. apply H2; congruence.
  - intros r Hin Hu. eexists. split; [apply in_update; exists r; by split|].
    destruct (_ && is_none (ss_artifact_path r)) eqn:E; [|apply row_kept_refl].
    apply andb_true_iff in E as [_ E]. exists (artifact_path s). split; [done|left].
    by destruct (ss_artifact_path r).
  - by destruct d.
Qed.
#[local] Hint Resolve append_identity_safe repair_artifact_safe : steps.

Section Safe.
Context {T : TimeCrate} {E : Env}.
Lemma seat_timestamp_frame : steps (@db_eq usage_db) seat_timestamp.
Proof. unfold seat_timestamp. step_through. Qed.
#[local] Hint Resolve seat_timestamp_frame : steps.
Lemma append_safe seat provider session artifact : steps (on_db seats_safe) (append seat provider session artifact).
Proof. unfold append, required_text. db_steps. Qed.
Lemma append_batch_safe l : steps (on_db seats_safe) (append_batch l).
Proof. unfold append_batch, append_one. db_steps. Qed.

(** A claim is not lost, when the session has no other provider. *)
Lemma appended_claims seat provider session artifact ts t :
  no_other_provider provider session t ->
  claims (appended seat provider session artifact ts t) = claims t ∪ {[ (provider, session) ]}.
Proof.
  intros Hone. unfold appended. set (t1 := released seat provider session t).
  assert (forall x, x ∈ claims t1 ∪ {[ (provider, session) ]} <-> x ∈ claims t ∪ {[ (provider, session) ]}) as Hrel.
  { intros [p s]. unfold claims. rewrite !elem_of_union, !elem_of_singleton, !elem_of_list_to_set, !list_elem_of_In, !in_map_iff.
    split; intros [(r & [= <- <-] & Hin)|?]; auto.
    - left. exists r. split; [done|]. by apply released_in in Hin as [? _].
    - destruct (same_session provider session r) eqn:Es.
      + right. apply same_session_iff in Es as [-> ->]. done.
      + left. exists r. split; [done|]. unfold t1, released. destruct (_ =?s _); [done|].
        apply in_delete_rows. by rewrite Es, andb_false_r. }
  destruct (seat_added seat provider session t1) eqn:Ha.
  - apply set_eq. intros x. rewrite <- Hrel. clear Hrel Ha Hone.
    unfold claims, insert. rewrite map_app. cbn. set_solver.
  - apply set_eq. intros x. rewrite <- Hrel.
    enough ((provider, session) ∈ claims t1) as Hin by (clear Hrel Ha Hone; set_solver). clear Hrel.
    unfold claims. rewrite elem_of_list_to_set, list_elem_of_In, in_map_iff. unfold seat_added in Ha.
    apply andb_false_iff in Ha as [Ha|Ha].
    + bool_simpl. apply existsb_exists in H0 as (r & Hin & Hr). bool_simpl.
      apply same_session_iff in H1 as [<- <-]. by exists r.
    + bool_simpl. apply existsb_exists in Ha as (r & Hin & Hr%same_seat_key). injection Hr as _ Hs. exists r.
      split; [|done]. f_equal; [|done]. apply Hone; [|done]. by apply released_in in Hin as [? _].
Qed.
End Safe.
