(* ===== verification/UsageStore.v ===== *)
(** * Executions of the usage database

    The identity poller, the burn recorders and the seat bookkeeping work on one database
    in any order; every operation may fail or panic half way. *)
From Stdlib Require Import ZArith Lia Bool String List.
From stdpp Require Import base tactics list strings gmap relations.
From S2P Require Import Prelude Text Table Clock Json UsageDb UsageIdentity UsageBurn SeatSessions.
From S2P Require Import Demo DemoUsage UsageIdentityProps UsageBurnProps.

Inductive usage_op : Type :=
| OpObserve (p : Provider) (i : option AccountIdentity) (at_ : Z) (previous bootstrap : option Z)
| OpEnsureAccount (i : AccountIdentity) (at_ : Z)
| OpBootstrap (p : Provider) (earliest : Z)
| OpForAccount (key : string) (windows : list BurnWindowSample) (source : string) (at_ : Z)
| OpForProvider (p : Provider) (windows : list BurnWindowSample) (source : string) (at_ : Z)
| OpStatusline (at_ : Z) (p5 : option f64) (r5 : option string) (p7 : option f64) (r7 : option string)
| OpJsonFile (path : string) (file : file_read)
| OpCodexEvent (event : list (string * json)) (received_at : Z)
| OpAppend (seat provider session : string) (artifact : option string)
| OpAppendBatch (sessions : list SeatSessionIdentity).

Section Executions.
Context {T : TimeCrate} {U : UsageTime} {E : Env} {J : JsonParser}.

Definition run_usage (op : usage_op) : UM unit :=
  match op with
  | OpObserve p i t prev boot => record_observation p i t prev boot ;;; ret tt
  | OpEnsureAccount i t => ensure_account i t
  | OpBootstrap p t => ensure_bootstrap_interval p t ;;; ret tt
  | OpForAccount key ws source t => record_for_account key ws source t ;;; ret tt
  | OpForProvider p ws source t => record_for_provider p ws source t ;;; ret tt
  | OpStatusline t p5 r5 p7 r7 => record_claude_statusline t p5 r5 p7 r7 ;;; ret tt
  | OpJsonFile path file => record_claude_json_file path file ;;; ret tt
  | OpCodexEvent event t => record_codex_event event t ;;; ret tt
  | OpAppend seat provider session artifact => append seat provider session artifact
  | OpAppendBatch sessions => append_batch sessions
  end.
(** One operation, however it ends. *)
Definition usage_step (w w' : world usage_db) : Prop := exists op, w' = snd (run_usage op w).
(** A prefix of an execution, evaluated. *)
Definition usage_runs (ops : list usage_op) (w : world usage_db) : world usage_db :=
  fold_left (fun w op => snd (run_usage op w)) ops w.
Lemma usage_runs_steps ops w : rtc usage_step w (usage_runs ops w).
Proof.
  revert w. induction ops as [|op ops IH]; intros w; cbn; [done|]. eapply rtc_l; [by exists op|]. apply IH.
Qed.

(** Everything the database promises across operations. *)
Record usage_promise (d d' : usage_db) : Prop := {
  promise_wf : usage_wf d -> usage_wf d';
  promise_seats : seats_wf (seat_sessions d) -> seats_wf (seat_sessions d');
  promise_samples : burn_samples d `prefix_of` burn_samples d';
  promise_accounts : forall k, account_exists k d = true -> account_exists k d' = true;
  promise_claims : forall r, In r (seat_sessions d) -> unassigned_row r = false ->
    exists r', In r' (seat_sessions d') /\ row_kept r r' }.

Lemma promise_of_usage d d' : usage_safe d d' -> usage_promise d d'.
Proof.
  intros (H1 & H2 & H3 & H4). split; rewrite ?H4; auto. intros r Hin _. exists r. split; [done|apply row_kept_refl].
Qed.
Lemma usage_wf_seats d t : usage_wf d -> usage_wf (d <| seat_sessions := t |>).
Proof. intros []. by split. Qed.
Lemma promise_of_seats d d' : seats_safe d d' -> usage_promise d d'.
Proof.
  intros [H1 H2 H3]. split; [|auto| | |auto]; rewrite H3; [apply usage_wf_seats|done|done].
Qed.
Lemma seats_promise {A} (m : UM A) : steps (on_db seats_safe) m -> forall w, usage_promise (w_db w) (w_db (snd (m w))).
Proof. intros H w. apply promise_of_seats, H. Qed.

Lemma run_usage_promise op w : usage_promise (w_db w) (w_db (snd (run_usage op w))).
Proof.
  destruct op; cbn [run_usage];
    first [apply seats_promise; first [apply append_safe|apply append_batch_safe]
          |apply promise_of_usage; revert w; match goal with |- forall w, usage_safe _ (w_db (snd (?m w))) =>
             change (steps (on_db usage_safe) m) end;
           repeat (apply steps_bind; [tc_solve| |intros; apply steps_ret; tc_solve]);
           first [apply record_observation_safe|apply ensure_account_safe|apply ensure_bootstrap_safe
                 |apply record_for_account_safe|apply record_for_provider_safe|apply statusline_safe
                 |apply json_file_safe|apply codex_event_safe]].
Qed.

Lemma empty_usage_wf : usage_wf empty_usage_db /\ seats_wf (seat_sessions empty_usage_db).
Proof. split; split; cbn; try done; constructor. Qed.

(** C11: In every state the usage database reaches from an empty one, through any operations that
    succeed, fail or panic, its keys are unique, at most one account per provider is current,
    every row's account exists, every sample lies between 0 and 100 percent and is the only
    one of its window, source and instant, and no session is both claimed and unassigned. *)
Theorem usage_database_wf k w : rtc usage_step (World empty_usage_db k) w ->
  usage_wf (w_db w) /\ seats_wf (seat_sessions (w_db w)).
Proof.
  intros H. remember (World empty_usage_db k) as w0 eqn:E0.
  assert (usage_wf (w_db w0) /\ seats_wf (seat_sessions (w_db w0))) as H0 by (subst; apply empty_usage_wf).
  clear E0. induction H as [w|w1 w2 w3 [op ->] _ IH]; [done|]. apply IH. destruct H0.
  split; [by apply (promise_wf _ _ (run_usage_promise op w1))|by apply (promise_seats _ _ (run_usage_promise op w1))].
Qed.

(** C26: Nothing recorded is lost: across any operations the samples only grow at the end,
    accounts stay, and a session claimed by a seat stays claimed by it with the time it was
    first seen; only a missing artifact path is filled in. *)
Theorem usage_history_kept w w' : rtc usage_step w w' ->
  burn_samples (w_db w) `prefix_of` burn_samples (w_db w')
  /\ (forall k, account_exists k (w_db w) = true -> account_exists k (w_db w') = true)
  /\ (forall r, In r (seat_sessions (w_db w)) -> ss_seat_id r <> UNASSIGNED ->
        exists r', In r' (seat_sessions (w_db w')) /\ row_kept r r').
Proof.
  induction 1 as [w|w1 w2 w3 [op ->] _ (IH1 & IH2 & IH3)].
  - split; [done|]. split; [done|]. intros r Hin _. exists r. split; [done|apply row_kept_refl].
  - pose proof (run_usage_promise op w1) as [_ _ Hs Ha Hc]. split; [by etransitivity|]. split; [auto|].
    intros r Hin Hu. destruct (Hc r Hin) as (r' & Hin' & a & -> & Hk); [by apply String.eqb_neq|].
    destruct (IH3 _ Hin') as (r'' & Hin'' & a' & -> & Hk'); [done|]. exists (r <| ss_artifact_path := a' |>).
    split; [exact Hin''|]. exists a'. split; [done|]. cbn in Hk'. destruct Hk as [|Hk]; [by left|].
    destruct Hk' as [Hk'|Hk']; [left|right]; congruence.
Qed.

(** C39: Appending a session to a seat returns, and the claimed sessions are exactly those of
    before and the new one, when seat, provider and session are not blank, the time of the call
    can be written, and the database holds this session under no other provider; the other
    sessions may be held under any. *)
Theorem seat_append_claims seat provider session artifact w now :
  is_blank seat = false -> is_blank provider = false -> is_blank session = false ->
  format_rfc3339 (env_now (w_tick w)) = Some now ->
  no_other_provider (trim provider) (trim session) (seat_sessions (w_db w)) ->
  exists w', append seat provider session artifact w = (Ok tt, w')
    /\ claims (seat_sessions (w_db w')) = claims (seat_sessions (w_db w)) ∪ {[ (trim provider, trim session) ]}.
Proof.
  intros H1 H2 H3 Hnow Hone. unfold is_blank in *. unfold append, required_text.
  destruct w as [d k]. unfold bind at 1. rewrite H1. cbn [ret]. unfold bind at 1. rewrite H2. cbn [ret].
  unfold bind at 1. rewrite H3. cbn [ret]. unfold transaction, seat_timestamp, now_utc, bind, tick, ret, expect.
  cbn [w_db w_tick] in *. rewrite Hnow. cbv beta iota delta [ret]. rewrite append_identity_run. eexists. split; [reflexivity|]. cbn. by apply appended_claims.
Qed.
End Executions.

(** ** Runs *)
#[local] Instance no_json : JsonParser := {| parse_json := fun _ => None; json_text := fun _ => ""%string |}.

Definition demo_window : BurnWindowSample :=
  MkWindow "session_5h" None 300 (f64_of_Z 40) (seconds 20000) None None.
(** Alice logs in, a sample is recorded twice, her session is found, then claimed. *)
Definition demo_usage_ops : list usage_op :=
  [OpObserve Claude (Some alice) (seconds 10) None None;
   OpForProvider Claude [demo_window] "statusline" (seconds 12);
   OpForProvider Claude [demo_window] "statusline" (seconds 12);
   OpAppend "unassigned" "claude" "s1" None;
   OpAppend "seat1" "claude" "s1" (Some "/tmp/a.jsonl"%string)].
Definition demo_usage_end : world usage_db := usage_runs demo_usage_ops (World empty_usage_db 0).

Lemma demo_usage_state :
  length (burn_samples (w_db demo_usage_end)) = 1%nat
  /\ map seat_key (seat_sessions (w_db demo_usage_end)) = [("seat1", "s1")]%string.
Proof. vm_compute. done. Qed.
Lemma usage_database_wf_witness :
  usage_wf (w_db demo_usage_end) /\ seats_wf (seat_sessions (w_db demo_usage_end)).
Proof. apply (usage_database_wf 0). apply usage_runs_steps. Defined.

Definition demo_before_claim : world usage_db := usage_runs (take 3 demo_usage_ops) (World empty_usage_db 0).
Lemma usage_history_kept_witness :
  burn_samples (w_db demo_before_claim) `prefix_of` burn_samples (w_db (usage_runs (drop 3 demo_usage_ops) demo_before_claim)).
Proof. apply (usage_history_kept demo_before_claim). apply usage_runs_steps. Defined.

Definition demo_seats : world usage_db :=
  World (UsageDb [] [] [] [] [SeatRow "seat1" "claude" "s1" None "1" "1"; SeatRow "seat2" "codex" "s1" None "1" "1"]) 0.
Lemma seat_append_claims_witness :
  exists w', append "seat2" "codex" " s2 " None demo_seats = (Ok tt, w')
    /\ claims (seat_sessions (w_db w')) = claims (seat_sessions (w_db demo_seats)) ∪ {[ ("codex", "s2")%string ]}.
Proof.
  apply (seat_append_claims "seat2" "codex" " s2 " None demo_seats (show_Z (env_now 0))); [done..|].
  intros r [<-|[<-|[]]]; vm_compute; congruence.
Defined.

(** *** Behaviour the code does not mean to have *)
(** A rate-limit event whose window lasts [minutes] minutes. *)
Definition window_event (mins : Z) : list (string * json) :=
  [("payload", JObject [("rate_limits", JObject [("primary", JObject
      [("resets_at", JNumber (PosInt 2000)); ("used_percent", JNumber (PosInt 50));
       ("window_minutes", JNumber (PosInt mins))])])]);
   ("type", JString "account_rate_limits_updated")]%string.
Definition codex_user : AccountIdentity := MkIdentity Codex "bob" None None None.
Definition codex_logged_in : world usage_db :=
  usage_runs [OpObserve Codex (Some codex_user) (seconds 10) None None] (World empty_usage_db 0).

(** A Codex event with an absurd window length is not refused: recording it panics, although
    the same event with a sensible length is recorded. *)
Theorem huge_window_panics :
  fst (record_codex_event (window_event 300) (seconds 20) codex_logged_in) = Ok 1%nat
  /\ fst (record_codex_event (window_event 1000000000000) (seconds 20) codex_logged_in) = Panic.
Proof. vm_compute. done. Qed.

(** A session can lose its record: when a seat that already holds the same session id
    under another provider claims it, the unassigned row is deleted and nothing is added. *)
Theorem seat_claim_lost :
  let w := usage_runs [OpAppend "seat1" "codex" "s1" None; OpAppend "unassigned" "claude" "s1" None]
             (World empty_usage_db 0) in
  let w' := snd (append "seat1" "claude" "s1" None w) in
  fst (append "seat1" "claude" "s1" None w) = Ok tt
  /\ map (fun r => (ss_seat_id r, ss_provider r)) (seat_sessions (w_db w))
     = [("seat1", "codex"); ("unassigned", "claude")]%string
  /\ map (fun r => (ss_seat_id r, ss_provider r)) (seat_sessions (w_db w')) = [("seat1", "codex")]%string.
Proof. vm_compute. done. Qed.
