(* ===== verification/MobilePolicy.v ===== *)
(** * The device policy at the access provider (mobile_devices.rs, the policy client)

    The provider lets a device in when its common name is in the policy's include list.  A
    change reads the policy, edits the list and writes the policy back; the provider itself
    is a parameter. *)
From Stdlib Require Import ZArith Lia Bool String Ascii List.
From stdpp Require Import base tactics list strings gmap.
From S2P Require Import Prelude Text StrMethods Table Clock Json ServerConfig.

(** ** The HTTP client *)
Inductive http_method : Type := GET | POST | PUT.
(** A response; the body is absent when it cannot be read. *)
Record http_response : Type := MkResponse { rs_status : Z; rs_body : option string }.
(** [R]: the state of the outside; a call gets no response when the connection fails. *)
Class HttpAgent (R : Type) : Type := {
  http_send : http_method -> string -> string -> option string -> R -> option http_response * R }.

Definition EMPTY_DEVICE_COMMON_NAME : string := "__sm_no_enrolled_mobile_devices__".
Inductive DevicePolicyAction : Type := Allow | Revoke.
#[export] Instance policy_action_eq_dec : EqDecision DevicePolicyAction.
Proof. solve_decision. Defined.

(** ** Editing the policy *)
Definition common_name_from_rule (rule : json) : option string :=
  bind_opt (bind_opt (get_field "common_name" rule) (get_field "common_name")) as_str.
Definition name_rule (name : string) : json :=
  json_object [("common_name", json_object [("common_name", JString name)])]%string.
Definition edit_include (common_name : string) (action : DevicePolicyAction) (include : list json) : list json :=
  let include := List.filter (fun rule => is_none (get_field "certificate" rule)) include in
  let include := List.filter (fun rule =>
    match common_name_from_rule rule with
    | Some value => negb (value =?s common_name) && negb (value =?s EMPTY_DEVICE_COMMON_NAME)
    | None => true
    end) include in
  let include := match action with Allow => include ++ [name_rule common_name] | Revoke => include end in
  if negb (existsb (fun rule => is_some (common_name_from_rule rule)) include)
  then include ++ [name_rule EMPTY_DEVICE_COMMON_NAME] else include.
Definition mutate_policy_common_name_allowlist (policy : json) (common_name : string) (action : DevicePolicyAction)
    : outcome json :=
  match policy with
  | JObject fields =>
      match bind_opt (field "include" fields) as_array with
      | Some include => Ok (JObject (set_existing "include" (JArray (edit_include common_name action include)) fields))
      | None => Err "Cloudflare Access policy result missing include array"
      end
  | _ => Err "Cloudflare Access policy result missing include array"
  end.

Definition update_keys : list string :=
  ["name"; "decision"; "include"; "exclude"; "require"; "precedence"; "session_duration"; "approval_groups";
   "approval_required"; "purpose_justification_required"; "purpose_justification_prompt"; "isolation_required"]%string.
Definition policy_update_payload (policy : json) : outcome json :=
  match as_object policy with
  | None => Err "Cloudflare Access policy result must be an object"
  | Some object =>
      let payload := fold_left (fun payload key =>
        match field key object with Some value => map_insert key value payload | None => payload end) update_keys [] in
      if negb (contains_key "name" payload) || negb (contains_key "decision" payload)
         || negb (contains_key "include" payload)
      then Err "Cloudflare Access policy result missing required update fields"
      else Ok (JObject payload)
  end.

(** ** The requests *)
Section Client.
Context {R : Type} `{H : HttpAgent R} `{J : JsonParser}.

Definition parse_cloudflare_response (response : http_response) : M R json :=
  body <- expect "Cloudflare API response body was unreadable" (rs_body response) ;;
  value <- expect "Cloudflare API returned non-JSON response" (parse_json body) ;;
  if (400 <=? rs_status response) || negb (bool_decide (bind_opt (get_field "success" value) as_bool = Some true))
  then bail ("Cloudflare API request failed with status " +:+ show_Z (rs_status response) +:+ ": " +:+ json_text value)
  else ret value.
Definition cloudflare_call (method : http_method) (url token : string) (body : option json) : M R json :=
  response <- (fun r => let '(resp, r') := http_send method url token (option_map json_text body) r in (Ok resp, r')) ;;
  response <- expect ("Cloudflare API request failed: " +:+ url) response ;;
  parse_cloudflare_response response.
Definition cloudflare_get (url token : string) : M R json := cloudflare_call GET url token None.
Definition cloudflare_post (url token : string) (body : json) : M R json := cloudflare_call POST url token (Some body).
Definition cloudflare_put (url token : string) (body : json) : M R json := cloudflare_call PUT url token (Some body).

Record DevicePolicyRequest : Type := MkPolicyRequest {
  rq_account_id : string; rq_app_id : option string; rq_policy_id : string; rq_api_token : string;
  rq_common_name : string; rq_action : DevicePolicyAction }.
Definition policy_request_from_config (config : CloudflareAccessConfig) (common_name : string)
    (action : DevicePolicyAction) : option DevicePolicyRequest :=
  bind_opt (trimmed (account_id config)) (fun account =>
  bind_opt (trimmed (mobile_device_policy_id config)) (fun policy =>
  bind_opt (trimmed (api_token config)) (fun token =>
  Some (MkPolicyRequest account (trimmed (ap_app_id (mobile_app config))) policy token (trim common_name) action)))).
Definition API : string := "https://api.cloudflare.com/client/v4/".
Definition policy_url (q : DevicePolicyRequest) : string :=
  match rq_app_id q with
  | Some app => API +:+ "accounts/" +:+ rq_account_id q +:+ "/access/apps/" +:+ app +:+ "/policies/" +:+ rq_policy_id q
  | None => API +:+ "accounts/" +:+ rq_account_id q +:+ "/access/policies/" +:+ rq_policy_id q
  end.
Definition policy_request_execute (q : DevicePolicyRequest) : M R unit :=
  if rq_common_name q =?s "" then bail "Cloudflare mobile device policy sync requires a non-empty common name"
  else
    let url := policy_url q in
    current <- cloudflare_get url (rq_api_token q) ;;
    policy <- expect "Cloudflare Access policy response missing result" (get_field "result" current) ;;
    policy <- lift (mutate_policy_common_name_allowlist policy (rq_common_name q) (rq_action q)) ;;
    payload <- lift (policy_update_payload policy) ;;
    cloudflare_put url (rq_api_token q) payload ;;; ret tt.
Definition sync_device_common_name (config : CloudflareAccessConfig) (common_name : string)
    (action : DevicePolicyAction) : M R unit :=
  match policy_request_from_config config common_name action with
  | None => ret tt
  | Some q => policy_request_execute q
  end.

(** ** Trusting the device certificate authority *)
Record DeviceCaTrustRequest : Type := MkTrustRequest {
  ca_account_id : string; ca_zone_id : option string; ca_api_token : string; ca_hostname : string;
  ca_configured_certificate_id : option string; ca_cert_path : string; ca_cert_pem : string; ca_name : string }.

Definition cloudflare_result_id (response : json) : option string :=
  bind_opt (bind_opt (get_field "result" response) (get_field "id")) as_str.
Definition push_hostname (hostname : string) (l : list string) : list string :=
  if trim hostname =?s "" then l else l ++ [trim hostname].
Fixpoint collect_hostnames (value : json) (hostnames : list string) : list string :=
  match value with
  | JString hostname => push_hostname hostname hostnames
  | JArray values => fold_left (fun acc v => collect_hostnames v acc) values hostnames
  | JObject object =>
      let hostnames := match bind_opt (field "hostname" object) as_str with
                       | Some hostname => push_hostname hostname hostnames
                       | None => hostnames
                       end in
      (fix in_hostnames (l : list (string * json)) : list string :=
         match l with
         | [] => hostnames
         | (key, values) :: rest => if key =?s "hostnames" then collect_hostnames values hostnames else in_hostnames rest
         end) object
  | _ => hostnames
  end.
(** [sort] and [dedup]. *)
Fixpoint dedup (l : list string) : list string :=
  match l with
  | a :: (b :: _) as r => if a =?s b then dedup r else a :: dedup r
  | _ => l
  end.
Definition sort_dedup (l : list string) : list string := dedup (order_by String.leb l).
Definition hostname_associations_from_response (response : json) : outcome (list string) :=
  match get_field "result" response with
  | None => Err "Cloudflare hostname association response missing result"
  | Some result => Ok (sort_dedup (collect_hostnames result []))
  end.
Definition parent_zone_name (hostname : string) : outcome string :=
  let labels := List.filter (fun label => negb (label =?s "")) (split_char "." (trim_end_char "." (trim hostname))) in
  match rev labels with
  | last :: previous :: _ => Ok (previous +:+ "." +:+ last)
  | _ => Err "Cloudflare mobile_app.hostname must be a fully qualified hostname"
  end.

Definition find_uploaded_ca (q : DeviceCaTrustRequest) : M R (option string) :=
  response <- cloudflare_get (API +:+ "accounts/" +:+ ca_account_id q +:+ "/mtls_certificates?type=custom") (ca_api_token q) ;;
  results <- expect "Cloudflare mTLS certificate list response missing result array"
               (bind_opt (get_field "result" response) as_array) ;;
  ret (bind_opt (List.find (fun certificate =>
                   opt_str_eqb (bind_opt (get_field "name" certificate) as_str) (Some (ca_name q))
                   && is_some (bind_opt (get_field "id" certificate) as_str)) results)
         (fun certificate => bind_opt (get_field "id" certificate) as_str)).
Definition ensure_uploaded_ca (q : DeviceCaTrustRequest) : M R string :=
  found <- find_uploaded_ca q ;;
  match found with
  | Some certificate_id => ret certificate_id
  | None =>
      response <- cloudflare_post (API +:+ "accounts/" +:+ ca_account_id q +:+ "/mtls_certificates") (ca_api_token q)
        (json_object [("name", JString (ca_name q)); ("ca", JBool true); ("certificates", JString (ca_cert_pem q))]%string) ;;
      expect ("Cloudflare mTLS upload response missing certificate id for " +:+ ca_cert_path q)
        (cloudflare_result_id response)
  end.
Definition lookup_zone_id (q : DeviceCaTrustRequest) : M R string :=
  zone_name <- lift (parent_zone_name (ca_hostname q)) ;;
  response <- cloudflare_get (API +:+ "zones?name=" +:+ zone_name +:+ "&account.id=" +:+ ca_account_id q) (ca_api_token q) ;;
  zones <- expect "Cloudflare zone lookup response missing result array"
             (bind_opt (get_field "result" response) as_array) ;;
  match zones with
  | [] => bail ("Cloudflare zone lookup found no zone for mobile_app.hostname " +:+ ca_hostname q
                +:+ "; set cloudflare_access.zone_id explicitly")
  | zone :: _ => expect "Cloudflare zone lookup response missing zone id" (bind_opt (get_field "id" zone) as_str)
  end.
Definition ensure_hostname_association (q : DeviceCaTrustRequest) (zone_id certificate_id : string) : M R unit :=
  let associations := API +:+ "zones/" +:+ zone_id +:+ "/certificate_authorities/hostname_associations" in
  response <- cloudflare_get (associations +:+ "?mtls_certificate_id=" +:+ certificate_id) (ca_api_token q) ;;
  hostnames <- lift (hostname_associations_from_response response) ;;
  if str_in (ca_hostname q) hostnames then ret tt
  else
    let hostnames := sort_dedup (hostnames ++ [ca_hostname q]) in
    cloudflare_put associations (ca_api_token q)
      (json_object [("hostnames", JArray (map JString hostnames)); ("mtls_certificate_id", JString certificate_id)]%string) ;;;
    ret tt.
Definition trust_request_execute (q : DeviceCaTrustRequest) : M R unit :=
  certificate_id <- match ca_configured_certificate_id q with
                    | Some id => ret id | None => ensure_uploaded_ca q end ;;
  zone_id <- match ca_zone_id q with Some id => ret id | None => lookup_zone_id q end ;;
  ensure_hostname_association q zone_id certificate_id.
(** [cert_file]: what reading the certificate gives; [fingerprint]: SHA-256 in hexadecimal of
    the trimmed text. *)
Definition trust_request_from_config (config : CloudflareAccessConfig) (path : string) (cert_file : option string)
    (fingerprint : string -> string) : outcome (option DeviceCaTrustRequest) :=
  match trimmed (account_id config), trimmed (api_token config), trimmed (ap_hostname (mobile_app config)) with
  | Some account, Some token, Some hostname =>
      if negb (ap_enabled (mobile_app config)) then Ok None
      else
        match cert_file with
        | None => Err ("failed to read device CA certificate " +:+ path)
        | Some pem =>
            Ok (Some (MkTrustRequest account (trimmed (zone_id config)) token hostname
              (trimmed (mobile_device_ca_certificate_id config)) path pem
              ("session-manager-mobile-device-ca-" +:+ of_bytes (take 16 (bytes_of (fingerprint (trim pem)))))))
        end
  | _, _, _ => Ok None
  end.
Definition ensure_cloudflare_mobile_device_ca (config : CloudflareAccessConfig) (path : string)
    (cert_file : option string) (fingerprint : string -> string) : M R unit :=
  request <- lift (trust_request_from_config config path cert_file fingerprint) ;;
  match request with None => ret tt | Some q => trust_request_execute q end.
End Client.

(** ** The list as a set of devices *)
(** The devices a policy lets in by name: the names of its rules, the placeholder apart.  A
    certificate rule lets in every certificate, whoever holds it: it names no device, and a
    list of named devices has none ([certificate_rule]). *)
Definition certificate_rule (rule : json) : bool := is_some (get_field "certificate" rule).
Definition rule_device (rule : json) : option string :=
  if certificate_rule rule then None
  else bind_opt (common_name_from_rule rule) (fun n => if n =?s EMPTY_DEVICE_COMMON_NAME then None else Some n).
Definition include_of (policy : json) : list json :=
  unwrap_or [] (bind_opt (get_field "include" policy) as_array).
Definition devices (include : list json) : gset string := list_to_set (omap rule_device include).
(** The rules that are about neither names nor certificates: groups, addresses and the like. *)
Definition other_rules (include : list json) : list json :=
  List.filter (fun rule => negb (certificate_rule rule) && is_none (common_name_from_rule rule)) include.
(** What a change of the list means; the placeholder is never a device. *)
Definition allowlist_step (action : DevicePolicyAction) (n : string) (allowed : gset string) : gset string :=
  match action with Allow => ({[ n ]} ∪ allowed) ∖ {[ EMPTY_DEVICE_COMMON_NAME ]} | Revoke => allowed ∖ {[ n ]} end.

Lemma elem_of_devices n include : n ∈ devices include <-> exists rule, In rule include /\ rule_device rule = Some n.
Proof.
  unfold devices. rewrite elem_of_list_to_set, list_elem_of_omap. split; intros (r & Hin & Hr); exists r;
    (split; [|done]); by apply list_elem_of_In.
Qed.
Lemma rule_device_name n : rule_device (name_rule n) = if n =?s EMPTY_DEVICE_COMMON_NAME then None else Some n.
Proof. done. Qed.
Lemma devices_app a b : devices (a ++ b) = devices a ∪ devices b.
Proof. unfold devices. rewrite omap_app. apply leibniz_equiv. by rewrite list_to_set_app. Qed.
Lemma devices_placeholder : devices [name_rule EMPTY_DEVICE_COMMON_NAME] = ∅.
Proof. done. Qed.
Lemma devices_not_placeholder include : EMPTY_DEVICE_COMMON_NAME ∉ devices include.
Proof.
  rewrite elem_of_devices. intros (r & _ & Hr). unfold rule_device in Hr. destruct (certificate_rule r); [done|].
  destruct (common_name_from_rule r) as [v|]; [|done]. cbn in Hr.
  destruct (String.eqb_spec v EMPTY_DEVICE_COMMON_NAME); congruence.
Qed.
(** The rules an edit keeps of the list it was given. *)
Definition kept_rules (n : string) (include : list json) : list json :=
  List.filter (fun rule =>
    match common_name_from_rule rule with
    | Some value => negb (value =?s n) && negb (value =?s EMPTY_DEVICE_COMMON_NAME)
    | None => true
    end) (List.filter (fun rule => is_none (get_field "certificate" rule)) include).
(** The name rules an edit adds. *)
Lemma edit_include_shape n a include : exists added,
  edit_include n a include = kept_rules n include ++ map name_rule added
  /\ devices (map name_rule added)
     = match a with Allow => {[ n ]} ∖ {[ EMPTY_DEVICE_COMMON_NAME ]} | Revoke => ∅ end.
Proof.
  unfold edit_include. fold (kept_rules n include). cbv zeta.
  set (placeholder := if negb (existsb (fun rule => is_some (common_name_from_rule rule))
         match a with Allow => kept_rules n include ++ [name_rule n] | Revoke => kept_rules n include end)
       then [EMPTY_DEVICE_COMMON_NAME] else []).
  exists (match a with Allow => [n] | Revoke => [] end ++ placeholder). split.
  - unfold placeholder. rewrite map_app, app_assoc. destruct a; cbn [map]; rewrite ?app_nil_r; destruct (negb _);
      cbn [map]; by rewrite ?app_nil_r.
  - rewrite map_app, devices_app.
    assert (devices (map name_rule placeholder) = ∅) as -> by (unfold placeholder; by destruct (negb _)).
    rewrite union_empty_r_L. destruct a; [|done]. unfold devices. cbn [map omap list_omap]. rewrite rule_device_name.
    destruct (String.eqb_spec n EMPTY_DEVICE_COMMON_NAME) as [->|Hne]; cbn; set_solver.
Qed.
Lemma devices_kept n include : devices (kept_rules n include) = devices include ∖ {[ n ]}.
Proof.
  apply leibniz_equiv, set_equiv. intros m. rewrite elem_of_difference, elem_of_singleton, !elem_of_devices.
  unfold kept_rules, rule_device, certificate_rule. split.
  - intros (r & Hin & Hr). apply filter_In in Hin as [[Hin Hc]%filter_In Hf]. split; [by exists r|].
    destruct (is_some _); [done|]. destruct (common_name_from_rule r) as [v|]; [|done].
    cbn in Hr. destruct (v =?s EMPTY_DEVICE_COMMON_NAME); [done|]. injection Hr as ->. intros ->.
    by rewrite String.eqb_refl in Hf.
  - intros [(r & Hin & Hr) Hm]. exists r. split; [|done]. apply filter_In. rewrite filter_In.
    destruct (is_some (get_field "certificate" r)) eqn:Ec; [done|].
    unfold is_none. rewrite Ec. split; [done|]. destruct (common_name_from_rule r) as [v|]; [|done].
    cbn in Hr. destruct (v =?s EMPTY_DEVICE_COMMON_NAME) eqn:Ee; [done|]. injection Hr as ->. rewrite andb_true_r.
    apply negb_true_iff, String.eqb_neq. done.
Qed.
Lemma devices_edited n a include : devices (edit_include n a include) = allowlist_step a n (devices include).
Proof.
  destruct (edit_include_shape n a include) as (added & -> & Hadd). rewrite devices_app, Hadd, devices_kept.
  pose proof (devices_not_placeholder include). destruct a; cbn [allowlist_step]; [|by rewrite union_empty_r_L].
  apply leibniz_equiv, set_equiv. intros m. destruct (decide (m = n)), (decide (m = EMPTY_DEVICE_COMMON_NAME)); set_solver.
Qed.
Lemma edited_no_certificate n a include rule : In rule (edit_include n a include) -> certificate_rule rule = false.
Proof.
  destruct (edit_include_shape n a include) as (added & -> & _). intros [Hin|Hin]%in_app_iff.
  - apply filter_In in Hin as [[_ Hc]%filter_In _]. unfold certificate_rule. by destruct (get_field "certificate" rule).
  - by apply in_map_iff in Hin as (m & <- & _).
Qed.
Lemma edited_other_rules n a include : other_rules (edit_include n a include) = other_rules include.
Proof.
  destruct (edit_include_shape n a include) as (added & -> & _). unfold other_rules. rewrite List.filter_app.
  assert (forall l, List.filter (fun rule => negb (certificate_rule rule) && is_none (common_name_from_rule rule))
    (map name_rule l) = []) as -> by (by induction l). rewrite app_nil_r.
  unfold kept_rules. induction include as [|r l IH]; [done|]. cbn [List.filter].
  unfold certificate_rule at 2, is_none at 2. destruct (is_some (get_field "certificate" r)) eqn:Ec; cbn [negb andb]; [done|].
  cbn [List.filter]. destruct (common_name_from_rule r) as [v|] eqn:Ev; cbn [is_none is_some negb].
  - destruct (_ && _); [|done]. cbn [List.filter]. by rewrite Ev, andb_false_r.
  - cbn [List.filter]. unfold certificate_rule at 1. rewrite Ec, Ev. cbn. by rewrite IH.
Qed.
(** The list never loses its last rule on names: without one, it would let in nobody or
    anybody, as its other rules say. *)
Lemma edited_names_someone n a include :
  existsb (fun rule => is_some (common_name_from_rule rule)) (edit_include n a include) = true.
Proof.
  unfold edit_include. destruct (negb _) eqn:E; [|by apply negb_false_iff in E].
  rewrite existsb_app. apply orb_true_iff. right. done.
Qed.

Section PolicyProofs.
Context {R : Type} `{H : HttpAgent R} `{J : JsonParser}.

(** The body of an accepted response. *)
Definition accepted (response : http_response) : option json :=
  bind_opt (bind_opt (rs_body response) parse_json) (fun value =>
  if (400 <=? rs_status response) || negb (bool_decide (bind_opt (get_field "success" value) as_bool = Some true))
  then None else Some value).
Lemma cloudflare_call_Ok m url tok body (r r' : R) v : cloudflare_call m url tok body r = (Ok v, r') ->
  exists resp, http_send m url tok (option_map json_text body) r = (Some resp, r') /\ accepted resp = Some v.
Proof.
  unfold cloudflare_call. intros Hrun. apply bind_Ok_inv in Hrun as (o & r1 & H1 & Hrun).
  destruct (http_send _ _ _ _ r) as [o' r2] eqn:Es. injection H1 as -> ->. inv_ok Hrun.
  unfold parse_cloudflare_response in Hrun. inv_ok Hrun. exists a. unfold accepted.
  rewrite Hval. cbn [bind_opt]. rewrite Hval0. cbn [bind_opt]. destruct (_ || _); [done|]. by inv_ok Hrun.
Qed.

Lemma field_update_keys object keys key acc : In key keys \/ field key acc = field key object ->
  (forall k, In k keys -> field k acc = field k object \/ field k acc = None) ->
  field key (fold_left (fun payload key => match field key object with
     Some value => map_insert key value payload | None => payload end) keys acc) = field key object.
Proof.
  revert acc. induction keys as [|k keys IH]; intros acc Hk Hacc; cbn; [by destruct Hk|]. apply IH.
  - destruct Hk as [[->|Hin]|Heq]; [right|by left|right].
    + destruct (field key object) eqn:E; [apply field_insert_eq|]. destruct (Hacc key (or_introl eq_refl)); congruence.
    + destruct (decide (k = key)) as [->|Hne].
      * destruct (field key object) eqn:E; [apply field_insert_eq|congruence].
      * destruct (field k object); [|done]. by rewrite field_insert_ne.
  - intros k' Hin. destruct (decide (k' = k)) as [->|Hne].
    + destruct (field k object) eqn:E; [left; apply field_insert_eq|]. right. destruct (Hacc k (or_introl eq_refl)); congruence.
    + destruct (field k object); [rewrite field_insert_ne by done|]; apply Hacc; by right.
Qed.
Lemma payload_field policy payload key : policy_update_payload policy = Ok payload -> In key update_keys ->
  get_field key payload = get_field key policy.
Proof.
  unfold policy_update_payload, get_field. destruct (as_object policy) as [object|]; [|done].
  cbv zeta. intros Hp Hin. match type of Hp with context [fold_left ?f ?l ?a] => set (sent := fold_left f l a) in Hp end.
  assert (payload = JObject sent) as ->. { clearbody sent. destruct (_ || _); [done|]. by injection Hp. }
  cbn [as_object bind_opt]. apply field_update_keys; [by left|]. intros k _. by right.
Qed.

(** C12: Changing a device's access changes the policy's set of named devices in that device
    alone: the policy written back names the devices of the policy read, with the named
    device added or removed (the reserved placeholder name never counts as a device).  The
    list written back has no rule that lets in every certificate, always holds a rule on
    names, and keeps the rules on anything else as they were; the other settings sent are
    those read. *)
Theorem policy_sync_refines_allowlist q (r r' : R) :
  policy_request_execute q r = (Ok tt, r') ->
  exists r1 policy payload resp,
    cloudflare_get (policy_url q) (rq_api_token q) r = (Ok policy, r1)
    /\ http_send PUT (policy_url q) (rq_api_token q) (Some (json_text payload)) r1 = (Some resp, r')
    /\ devices (include_of payload)
         = allowlist_step (rq_action q) (rq_common_name q) (devices (include_of (unwrap_or JNull (get_field "result" policy))))
    /\ (forall rule, In rule (include_of payload) -> certificate_rule rule = false)
    /\ existsb (fun rule => is_some (common_name_from_rule rule)) (include_of payload) = true
    /\ other_rules (include_of payload) = other_rules (include_of (unwrap_or JNull (get_field "result" policy)))
    /\ (forall key, In key update_keys -> key <> "include"%string ->
          get_field key payload = bind_opt (get_field "result" policy) (get_field key)).
Proof.
  intros Hrun. unfold policy_request_execute in Hrun. destruct (rq_common_name q =?s ""); [done|].
  inv_ok Hrun. rename a into policy, a0 into result, a1 into edited, a2 into payload.
  unfold cloudflare_put in Hrun1. apply cloudflare_call_Ok in Hrun1 as (resp & Hsend & _).
  exists s0, policy, payload, resp. rewrite Hval. cbn [unwrap_or bind_opt].
  destruct result as [| | | | |fields]; try done. cbn in Hval0.
  destruct (bind_opt (field "include" fields) as_array) as [include|] eqn:Ei; [|done]. injection Hval0 as <-.
  assert (include_of payload = edit_include (rq_common_name q) (rq_action q) include) as Hinc.
  { unfold include_of. erewrite payload_field; [|done|cbn; auto]. unfold get_field. cbn [as_object bind_opt].
    rewrite field_set_existing. destruct (field "include" fields) eqn:E; [|done]. done. }
  assert (include_of (JObject fields) = include) as Hinc0 by (unfold include_of, get_field; cbn [as_object bind_opt]; by rewrite Ei).
  split; [done|]. split; [done|]. rewrite Hinc, Hinc0. split; [apply devices_edited|].
  split; [intros rule; apply edited_no_certificate|]. split; [apply edited_names_someone|]. split; [apply edited_other_rules|].
  intros key Hin Hne. erewrite payload_field by done. unfold get_field. cbn [as_object bind_opt]. by apply field_set_existing_ne.
Qed.
End PolicyProofs.

(** ** Concrete runs *)
Definition demo_policy : json :=
  JObject [("decision", JString "allow"); ("id", JString "p1");
           ("include", JArray [name_rule EMPTY_DEVICE_COMMON_NAME; name_rule "old-phone";
                               JObject [("certificate", JObject [])]; JObject [("group", JString "staff")]]);
           ("name", JString "devices")]%string.
#[local] Instance demo_parser : JsonParser := {|
  parse_json := fun s => if s =?s "policy" then Some (JObject [("result", demo_policy); ("success", JBool true)]%string)
                         else Some (JObject [("success", JBool true)]%string);
  json_text := fun _ => "sent"%string |}.
(** The outside counts the policies written. *)
#[local] Instance demo_agent : HttpAgent nat := {|
  http_send := fun m _ _ _ n =>
    match m with GET => (Some (MkResponse 200 (Some "policy"%string)), n)
               | _ => (Some (MkResponse 200 (Some "done"%string)), S n) end |}.
Definition demo_request : DevicePolicyRequest := MkPolicyRequest "acct" None "p1" "token" "phone" Allow.
Lemma policy_sync_refines_allowlist_witness :
  exists r1 policy payload resp,
    cloudflare_get (R := nat) (policy_url demo_request) "token" 0%nat = (Ok policy, r1)
    /\ http_send PUT (policy_url demo_request) "token" (Some (json_text payload)) r1 = (Some resp, 1%nat)
    /\ devices (include_of payload)
         = allowlist_step Allow "phone" (devices (include_of (unwrap_or JNull (get_field "result" policy))))
    /\ (forall rule, In rule (include_of payload) -> certificate_rule rule = false).
Proof.
  destruct (policy_sync_refines_allowlist demo_request 0%nat 1%nat) as (r1 & policy & payload & resp & H1 & H2 & H3 & H4 & _);
    [vm_compute; reflexivity|]. exists r1, policy, payload, resp. split; [exact H1|]. split; [exact H2|]. split; [exact H3|exact H4].
Defined.
Lemma demo_policy_edited :
  edit_include "phone" Allow (include_of demo_policy)
  = [name_rule "old-phone"; JObject [("group", JString "staff")]%string; name_rule "phone"]
  /\ edit_include "old-phone" Revoke (include_of demo_policy)
  = [JObject [("group", JString "staff")]%string; name_rule EMPTY_DEVICE_COMMON_NAME].
Proof. split; reflexivity. Qed.
