(* ===== verification/MobileDevices.v ===== *)
(** * Paired mobile devices (mobile_devices.rs, the database)

    A device is enrolled by presenting a pairing token before it expires, once and with at
    most five failed attempts.  The state is the three tables of the enrollment database;
    local time and hashing belong to crates. *)
From Stdlib Require Import ZArith Lia Bool String Ascii List.
From stdpp Require Import base tactics list strings gmap relations.
From S2P Require Import Prelude Text StrMethods Table Clock Json UsageDb.

(** ** Data *)
Record pairing_row : Type := PairingRow {
  pr_token : string; pr_user_id : string; pr_created_at : string; pr_expires_at : string;
  pr_paired_at : option string; pr_failed_attempts : Z; pr_last_failed_attempt_at : option string }.
#[export] Instance eta_pairing_row : Eta pairing_row := fun r =>
  PairingRow (pr_token r) (pr_user_id r) (pr_created_at r) (pr_expires_at r) (pr_paired_at r)
    (pr_failed_attempts r) (pr_last_failed_attempt_at r).

Record device_row : Type := DeviceRow {
  dv_user_id : string; dv_device_id : string; dv_device_name : string; dv_public_key_pem : string;
  dv_common_name : string; dv_paired_at : string; dv_revoked_at : option string }.
#[export] Instance eta_device_row : Eta device_row := fun r =>
  DeviceRow (dv_user_id r) (dv_device_id r) (dv_device_name r) (dv_public_key_pem r) (dv_common_name r)
    (dv_paired_at r) (dv_revoked_at r).

Record audit_row : Type := AuditRow {
  au_timestamp : string; au_user_id : option string; au_device_id : option string; au_event : string;
  au_remote_addr : option string; au_details_json : option string }.

Record device_db : Type := DeviceDb {
  pairings : list pairing_row; enrollments : list device_row; audit : list audit_row }.
#[export] Instance eta_device_db : Eta device_db := fun d => DeviceDb (pairings d) (enrollments d) (audit d).
Definition empty_device_db : device_db := DeviceDb [] [] [].
Abbreviation DM := (M (world device_db)).

Record PairingRegistration : Type := MkRegistration {
  reg_token : string; reg_user_id : string; reg_expires_at : string }.

(** ** Crates *)
Class LocalTime : Type := {
  (** The local offset in seconds at a reading; zero when it cannot be determined. *)
  local_offset : nat -> Z;
  (** [.format(&Rfc3339)] of an instant at an offset. *)
  format_local : Z -> Z -> option string }.
(** Lower-case hexadecimal SHA-256, base64 without padding for URLs. *)
Class DeviceCrypto : Type := { sha256_hex : string -> string; urlsafe_base64 : list N -> string }.

Definition EPOCH_TEXT : string := "1970-01-01T00:00:00Z".
Definition MAX_FAILED_ATTEMPTS : Z := 5.

Section Store.
Context `{T : TimeCrate} `{E : Env} `{F : LocalTime} `{K : DeviceCrypto} `{J : JsonParser}.

Definition local_timestamp : DM string :=
  k <- tick ;; ret (unwrap_or EPOCH_TEXT (format_local (env_now k) (local_offset k))).
Definition random_urlsafe_token (byte_len : nat) : DM string :=
  k <- tick ;; ret (urlsafe_base64 (fill_bytes k byte_len)).
Definition public_key_fingerprint (value : string) : string := sha256_hex (trim value).

Definition insert_audit_event (user_id device_id : option string) (event : string) (remote_addr : option string)
    (details : option json) : DM unit :=
  timestamp <- local_timestamp ;;
  execute (fun d => (d <| audit := insert (audit d)
    (AuditRow timestamp user_id device_id event remote_addr (option_map json_text details)) |>, 1%nat)) ;;;
  ret tt.

(** ** Devices *)
Definition is_device (user_id device_id : string) (r : device_row) : bool :=
  (dv_user_id r =?s user_id) && (dv_device_id r =?s device_id).
Definition active (r : device_row) : bool := is_none (dv_revoked_at r).

(** The readers; [db_exists]: whether the file is there. *)
Definition active_device_public_key (db_exists : bool) (user_id device_id : string) : DM (option string) :=
  if negb db_exists then ret None
  else query (fun d => option_map dv_public_key_pem
                (List.find (fun r => is_device user_id device_id r && active r) (enrollments d))).
Definition active_device_exists (db_exists : bool) (user_id device_id : string) : DM bool :=
  key <- active_device_public_key db_exists user_id device_id ;; ret (is_some key).
Definition user_has_active_device (db_exists : bool) (user_id : string) : DM bool :=
  if negb db_exists then ret false
  else query (fun d => Nat.ltb 0 (changes (fun r => (dv_user_id r =?s user_id) && active r) (enrollments d))).
Definition device_exists (db_exists : bool) (user_id device_id : string) : DM bool :=
  if negb db_exists then ret false
  else query (fun d => Nat.ltb 0 (changes (is_device user_id device_id) (enrollments d))).
Definition list_active_devices_for_users (db_exists : bool) (allowed_users : gset string) : DM (list device_row) :=
  if negb db_exists then ret []
  else query (fun d =>
    List.filter (fun r => bool_decide (dv_user_id r ∈ allowed_users))
      (order_by (fun a b => text2_leb (dv_user_id a, dv_device_id a) (dv_user_id b, dv_device_id b))
         (select active (enrollments d)))).

Definition revoke_device (db_exists : bool) (user_id device_id : string) : DM bool :=
  if negb db_exists then ret false
  else
    now <- local_timestamp ;;
    changed <- execute (fun d =>
      let hit r := is_device user_id device_id r && active r in
      (d <| enrollments := update hit (fun r => r <| dv_revoked_at := Some now |>) (enrollments d) |>,
       changes hit (enrollments d))) ;;
    if Nat.ltb 0 changed then
      insert_audit_event (Some user_id) (Some device_id) "device_revoked" None None ;;; ret true
    else ret false.

(** ** Pairings *)
Definition clamp_ttl (minutes : Z) : Z := Z.max 1 (Z.min (60 * 24) minutes).
Definition create_pairing_registration (user_id : string) (expires_in_minutes : Z) : DM PairingRegistration :=
  let user_id := trim user_id in
  if user_id =?s "" then bail "user_id must not be empty"
  else
    token <- random_urlsafe_token 24 ;;
    now <- local_timestamp ;;
    k <- tick ;;
    ttl <- minutes (clamp_ttl expires_in_minutes) ;;
    expires <- instant_add (env_now k) ttl ;;
    let expires_at := unwrap_or now (format_local expires (local_offset k)) in
    checked (fun d => if existsb (has_key pr_token token) (pairings d)
                      then Some "failed to create mobile device pairing registration"%string else None)
      (fun d => (d <| pairings := insert (pairings d) (PairingRow token user_id now expires_at None 0 None) |>, 1%nat)) ;;;
    insert_audit_event (Some user_id) None "pairing_created" None
      (Some (json_object [("expires_at"%string, JString expires_at)])) ;;;
    ret (MkRegistration token user_id expires_at).

(** [WHERE token = ? AND paired_at IS NULL AND expires_at > ? AND failed_attempts < 5]. *)
Definition unused (token now : string) (r : pairing_row) : bool :=
  has_key pr_token token r && is_none (pr_paired_at r) && String.ltb now (pr_expires_at r).
Definition eligible (token now : string) (r : pairing_row) : bool :=
  unused token now r && (pr_failed_attempts r <? MAX_FAILED_ATTEMPTS).
Definition eligible_registration (token now : string) (d : device_db) : option PairingRegistration :=
  option_map (fun r => MkRegistration (pr_token r) (pr_user_id r) (pr_expires_at r))
    (List.find (eligible token now) (pairings d)).

Definition pending_pairing_registration (token : string) : DM (option PairingRegistration) :=
  now <- local_timestamp ;; query (eligible_registration token now).

Definition mark_paired (token now : string) : DM unit :=
  execute (fun d =>
    (d <| pairings := update (has_key pr_token token) (fun r => r <| pr_paired_at := Some now |>) (pairings d) |>,
     changes (has_key pr_token token) (pairings d))) ;;; ret tt.
(** [INSERT .. ON CONFLICT(user_id, device_id) DO UPDATE]. *)
Definition upsert_enrollment (user_id device_id device_name public_key now : string) : DM unit :=
  execute (fun d =>
    let t := enrollments d in
    let t' :=
      if existsb (is_device user_id device_id) t then
        update (is_device user_id device_id) (fun r =>
          r <| dv_device_name := device_name |> <| dv_public_key_pem := public_key |>
            <| dv_common_name := device_id |> <| dv_paired_at := now |> <| dv_revoked_at := None |>) t
      else insert t (DeviceRow user_id device_id device_name public_key device_id now None) in
    (d <| enrollments := t' |>, 1%nat)) ;;; ret tt.
Definition complete_pairing_registration (token device_id device_name public_key_pem : string)
    (remote_addr : option string) : DM (option PairingRegistration) :=
  transaction (
    now <- local_timestamp ;;
    registration <- query (eligible_registration token now) ;;
    match registration with
    | None => ret None
    | Some reg =>
        mark_paired token now ;;;
        upsert_enrollment (reg_user_id reg) device_id device_name (trim public_key_pem) now ;;;
        insert_audit_event (Some (reg_user_id reg)) (Some device_id) "pairing_completed" remote_addr
          (Some (json_object [("public_key_fingerprint"%string, JString (public_key_fingerprint public_key_pem))])) ;;;
        ret (Some reg)
    end).

Definition record_pairing_failure (token event : string) (remote_addr : option string) (error : string) : DM bool :=
  now <- local_timestamp ;;
  changed <- execute (fun d =>
    (d <| pairings := update (unused token now) (fun r =>
            r <| pr_failed_attempts := pr_failed_attempts r + 1 |>
              <| pr_last_failed_attempt_at := Some now |>) (pairings d) |>,
     changes (unused token now) (pairings d))) ;;
  exhausted <-
    (if Nat.ltb 0 changed then
       attempts <- query (fun d => unwrap_or 0 (option_map pr_failed_attempts (lookup_row pr_token token (pairings d)))) ;;
       ret (MAX_FAILED_ATTEMPTS <=? attempts)
     else ret false) ;;
  insert_audit_event None None event remote_addr
    (Some (json_object [("token_hash"%string, JString (public_key_fingerprint token));
                        ("error"%string, JString error); ("exhausted"%string, JBool exhausted)])) ;;;
  ret exhausted.

Definition log_unknown_pairing_attempt (token : string) (remote_addr : option string) (event : string) : DM unit :=
  insert_audit_event None None "pairing_token_rejected" remote_addr
    (Some (json_object [("token_hash"%string, JString (public_key_fingerprint token)); ("reason"%string, JString event)])).
End Store.

Definition valid_device_id (value : string) : bool :=
  let len := String.length value in
  Nat.leb 3 len && Nat.leb len 128
  && forallb (fun c => is_ascii_alphanumeric c || existsb (Ascii.eqb c) ["-"; "_"; "."]%char) (bytes_of value).
