(* ===== verification/MobileDevicesProps.v ===== *)
(** * Pairing tokens and enrollments

    A token enrolls at most one device and dies after five failures, in every execution of
    the pairing service; what enrolling and revoking do to the table of devices. *)
From Stdlib Require Import ZArith Lia Bool String List.
From stdpp Require Import base tactics list strings gmap relations.
From S2P Require Import Prelude Text StrMethods Table Clock Json UsageDb MobileDevices.
From S2P Require Import Demo DemoUsage.

(** ** The constraints and what operations keep *)
Definition device_key (r : device_row) : string * string := (dv_user_id r, dv_device_id r).
Record devices_wf (d : device_db) : Prop := {
  wf_tokens : unique pr_token (pairings d);
  wf_devices : NoDup (map device_key (enrollments d)) }.
(** A token as later operations may leave it. *)
Record pairing_later (r r' : pairing_row) : Prop := {
  later_token : pr_token r' = pr_token r;
  later_user : pr_user_id r' = pr_user_id r;
  later_expires : pr_expires_at r' = pr_expires_at r;
  later_paired : pr_paired_at r <> None -> pr_paired_at r' <> None;
  later_failed : pr_failed_attempts r <= pr_failed_attempts r' }.
#[export] Instance pairing_later_preorder : PreOrder pairing_later.
Proof.
  split; [intros r; by split|]. intros r1 r2 r3 [] []. split; try congruence; auto; lia.
Qed.
Record devices_safe (d d' : device_db) : Prop := {
  safe_wf : devices_wf d -> devices_wf d';
  safe_pairings : forall r, In r (pairings d) -> exists r', In r' (pairings d') /\ pairing_later r r';
  safe_audit : audit d `prefix_of` audit d' }.
#[export] Instance devices_safe_preorder : PreOrder devices_safe.
Proof.
  split.
  - intros d. split; [done| |done]. intros r Hin. by exists r.
  - intros d1 d2 d3 [H1 H2 H3] [H1' H2' H3']. split; [auto| |by etransitivity].
    intros r Hin. destruct (H2 r Hin) as (r' & Hin' & Hl). destruct (H2' r' Hin') as (r'' & Hin'' & Hl').
    exists r''. split; [done|]. by etransitivity.
Qed.

Lemma safe_pairings_update d p f :
  (forall r, p r = true -> pairing_later r (f r)) -> devices_safe d (d <| pairings := update p f (pairings d) |>).
Proof.
  intros Hf. split; cbn; [|intros r Hin|done].
  - intros [H1 H2]. split; cbn; [|done]. apply unique_update; [|done]. intros r Hr. by destruct (Hf r Hr).
  - exists (if p r then f r else r). split; [apply in_update; by exists r|]. by destruct (p r) eqn:E; [apply Hf|].
Qed.
Lemma is_device_key u v r : is_device u v r = true <-> device_key r = (u, v).
Proof. unfold is_device, device_key. rewrite andb_true_iff, !String.eqb_eq. split; [by intros [-> ->]|by intros [= -> ->]]. Qed.
Lemma safe_enrollments d t : (devices_wf d -> NoDup (map device_key t)) -> devices_safe d (d <| enrollments := t |>).
Proof.
  intros H. split; cbn; [|by intros r Hin; exists r|done]. intros Hwf. split; cbn; [by apply wf_tokens|auto].
Qed.

Section Operations.
Context {T : TimeCrate} {E : Env} {F : LocalTime} {K : DeviceCrypto} {J : JsonParser}.

Lemma local_timestamp_frame : steps (@db_eq device_db) local_timestamp.
Proof. unfold local_timestamp. step_through. Qed.
Lemma token_frame n : steps (@db_eq device_db) (random_urlsafe_token n).
Proof. unfold random_urlsafe_token. step_through. Qed.
Lemma device_minutes_frame m : steps (@db_eq device_db) (minutes m).
Proof. unfold minutes. step_through. Qed.
Lemma device_instant_frame t d : steps (@db_eq device_db) (instant_add t d).
Proof. unfold instant_add. step_through. Qed.
#[local] Hint Resolve local_timestamp_frame token_frame device_minutes_frame device_instant_frame : steps.

Lemma audit_event_safe u v e r x : steps (on_db devices_safe) (insert_audit_event u v e r x).
Proof.
  unfold insert_audit_event. db_steps. split; cbn; [by intros []; split|by intros p Hin; exists p|by eexists].
Qed.
#[local] Hint Resolve audit_event_safe : steps.
Lemma revoke_device_safe b u v : steps (on_db devices_safe) (revoke_device b u v).
Proof.
  unfold revoke_device. db_steps. apply safe_enrollments. intros Hwf. by apply NoDup_map_update, wf_devices.
Qed.
Lemma create_pairing_safe u m : steps (on_db devices_safe) (create_pairing_registration u m).
Proof.
  unfold create_pairing_registration. db_steps. apply steps_checked; [tc_solve|]. intros d Hv.
  destruct (existsb _ _) eqn:Ee; [done|]. split; cbn; [|intros r Hin|done].
  - intros [H1 H2]. split; cbn; [|done]. apply unique_insert; [done|]. intros r Hin Hk.
    pose proof (existsb_false _ _ Ee r Hin) as Hf. unfold has_key in Hf. cbn in Hk. by rewrite Hk, String.eqb_refl in Hf.
  - exists r. split; [|done]. unfold insert. apply in_or_app. by left.
Qed.
Lemma mark_paired_safe token now : steps (on_db devices_safe) (mark_paired token now).
Proof. unfold mark_paired. db_steps. apply safe_pairings_update. intros r _. split; cbn; try done; lia. Qed.
Lemma upsert_enrollment_safe u v n k now : steps (on_db devices_safe) (upsert_enrollment u v n k now).
Proof.
  unfold upsert_enrollment. db_steps. apply safe_enrollments. intros [_ Hwf].
  destruct (existsb (is_device u v) _) eqn:Ee; [by apply NoDup_map_update|].
  apply NoDup_map_insert; [done|]. intros r Hin Hk. pose proof (existsb_false _ _ Ee r Hin) as Hf.
  by rewrite (proj2 (is_device_key u v r)) in Hf.
Qed.
#[local] Hint Resolve mark_paired_safe upsert_enrollment_safe : steps.
Lemma complete_pairing_safe t v n k r : steps (on_db devices_safe) (complete_pairing_registration t v n k r).
Proof. unfold complete_pairing_registration. db_steps. Qed.
Lemma pairing_failure_safe t e r x : steps (on_db devices_safe) (record_pairing_failure t e r x).
Proof.
  unfold record_pairing_failure. db_steps. apply safe_pairings_update. intros p _. split; cbn; try done; lia.
Qed.
Lemma unknown_attempt_safe t r e : steps (on_db devices_safe) (log_unknown_pairing_attempt t r e).
Proof. unfold log_unknown_pairing_attempt. db_steps. Qed.

(** ** Executions *)
Inductive device_op : Type :=
| DvCreate (user_id : string) (minutes : Z)
| DvComplete (token device_id device_name public_key : string) (remote : option string)
| DvFailure (token event : string) (remote : option string) (error : string)
| DvUnknown (token : string) (remote : option string) (event : string)
| DvRevoke (db_exists : bool) (user_id device_id : string).
Definition run_device (op : device_op) : DM unit :=
  match op with
  | DvCreate u m => create_pairing_registration u m ;;; ret tt
  | DvComplete t v n k r => complete_pairing_registration t v n k r ;;; ret tt
  | DvFailure t e r x => record_pairing_failure t e r x ;;; ret tt
  | DvUnknown t r e => log_unknown_pairing_attempt t r e
  | DvRevoke b u v => revoke_device b u v ;;; ret tt
  end.
Definition device_step (w w' : world device_db) : Prop := exists op, w' = snd (run_device op w).
Definition device_runs (ops : list device_op) (w : world device_db) : world device_db :=
  fold_left (fun w op => snd (run_device op w)) ops w.
Lemma device_runs_steps ops w : rtc device_step w (device_runs ops w).
Proof.
  revert w. induction ops as [|op ops IH]; intros w; cbn; [done|]. eapply rtc_l; [by exists op|]. apply IH.
Qed.
Lemma run_device_safe op : steps (on_db devices_safe) (run_device op).
Proof.
  destruct op; cbn [run_device]; try apply unknown_attempt_safe;
    (apply steps_bind; [tc_solve| |intros; apply steps_ret; tc_solve]);
    first [apply create_pairing_safe|apply complete_pairing_safe|apply pairing_failure_safe|apply revoke_device_safe].
Qed.
Lemma device_steps_safe w w' : rtc device_step w w' -> devices_safe (w_db w) (w_db w').
Proof.
  induction 1 as [w|w1 w2 w3 [op ->] _ IH]; [done|]. etransitivity; [apply (run_device_safe op w1)|exact IH].
Qed.

(** ** Dead tokens *)
Definition dead (r : pairing_row) : Prop := pr_paired_at r <> None \/ MAX_FAILED_ATTEMPTS <= pr_failed_attempts r.
Lemma dead_not_eligible d token now r :
  devices_wf d -> In r (pairings d) -> pr_token r = token -> dead r -> eligible_registration token now d = None.
Proof.
  intros Hwf Hin Ht Hd. unfold eligible_registration. destruct (List.find _ _) as [r'|] eqn:Ef; [|done]. exfalso.
  apply find_some in Ef as [Hin' He]. unfold eligible, unused, has_key in He. bool_simpl.
  assert (r' = r) as -> by (apply (unique_inj pr_token (pairings d)); [by apply wf_tokens|done..|congruence]).
  destruct Hd as [Hp|Hf]; [by destruct (pr_paired_at r)|]. lia.
Qed.
Lemma dead_later r r' : pairing_later r r' -> dead r -> dead r'.
Proof. intros [] [H|H]; [left; auto|right; lia]. Qed.
Lemma dead_token_stays w w' r : devices_wf (w_db w) -> In r (pairings (w_db w)) -> dead r -> rtc device_step w w' ->
  forall now, eligible_registration (pr_token r) now (w_db w') = None.
Proof.
  intros Hwf Hin Hd Hs now. destruct (device_steps_safe _ _ Hs) as [H1 H2 _].
  destruct (H2 r Hin) as (r' & Hin' & Hl). eapply dead_not_eligible; [by apply H1|done|by apply Hl|by eapply dead_later].
Qed.
(** A token that is not eligible enrolls nobody. *)
Lemma complete_refused token v n k rem w : (forall now, eligible_registration token now (w_db w) = None) ->
  exists w', complete_pairing_registration token v n k rem w = (Ok None, w') /\ w_db w' = w_db w.
Proof.
  intros He. destruct w as [d tk]. unfold complete_pairing_registration, transaction, local_timestamp, bind, tick, query, gets, ret.
  cbn [w_db w_tick] in *. rewrite He. by eexists.
Qed.

(** ** What enrolling does *)
Definition active_key (u v : string) (d : device_db) : option string :=
  option_map dv_public_key_pem (List.find (fun r => is_device u v r && active r) (enrollments d)).
Definition upserted (u v n k now : string) (t : list device_row) : list device_row :=
  if existsb (is_device u v) t then
    update (is_device u v) (fun r =>
      r <| dv_device_name := n |> <| dv_public_key_pem := k |> <| dv_common_name := v |>
        <| dv_paired_at := now |> <| dv_revoked_at := None |>) t
  else insert t (DeviceRow u v n k v now None).

Lemma complete_effect token v n k rem w reg w1 :
  complete_pairing_registration token v n k rem w = (Ok (Some reg), w1) ->
  exists now r, In r (pairings (w_db w)) /\ eligible token now r = true
    /\ reg = MkRegistration (pr_token r) (pr_user_id r) (pr_expires_at r)
    /\ pairings (w_db w1) = update (has_key pr_token token) (fun r => r <| pr_paired_at := Some now |>) (pairings (w_db w))
    /\ enrollments (w_db w1) = upserted (pr_user_id r) v n (trim k) now (enrollments (w_db w)).
Proof.
  intros H. apply transaction_Ok_inv in H. unfold local_timestamp, bind, tick, query, gets, ret in H. cbn in H.
  set (now := unwrap_or _ _) in H. unfold eligible_registration in H.
  destruct (List.find (eligible token now) (pairings (w_db w))) as [r|] eqn:Ef; [|done]. cbn in H.
  apply find_some in Ef as [Hin He]. injection H as <- <-. exists now, r. repeat split; try done.
Qed.

Lemma find_app_none {A} (p : A -> bool) l x : (forall y, In y l -> p y = false) ->
  List.find p (l ++ [x]) = if p x then Some x else None.
Proof.
  intros H. induction l as [|y l IH]; cbn; [done|]. rewrite (H y) by (by left). apply IH. intros z Hz. apply H. by right.
Qed.
Lemma find_app_false {A} (p : A -> bool) l x : p x = false -> List.find p (l ++ [x]) = List.find p l.
Proof. intros H. induction l as [|y l IH]; cbn; [by rewrite H|]. by destruct (p y). Qed.
Lemma find_update_all {row} (p q : row -> bool) f t : (forall r, q r = true -> p (f r) = true) ->
  (forall r, q r = false -> p r = false) ->
  List.find p (update q f t) = option_map f (List.find q t).
Proof.
  intros H1 H2. unfold update. induction t as [|r t IH]; cbn; [done|].
  destruct (q r) eqn:Eq; [by rewrite H1|]. by rewrite H2.
Qed.
Lemma upserted_active u v n k now d d' : enrollments d' = upserted u v n k now (enrollments d) ->
  active_key u v d' = Some k.
Proof.
  intros He. unfold active_key. rewrite He. unfold upserted. destruct (existsb (is_device u v) _) eqn:Ee.
  - rewrite (find_update_all _ (is_device u v)).
    + destruct (List.find (is_device u v) (enrollments d)) eqn:Ef; [done|].
      apply existsb_exists in Ee as (r & Hin & Hr). by rewrite (find_none _ _ Ef r Hin) in Hr.
    + intros r Hr. apply andb_true_iff. split; [|done]. by apply is_device_key in Hr; apply is_device_key.
    + intros r ->. done.
  - unfold insert. rewrite find_app_none.
    + unfold is_device. cbn. by rewrite !String.eqb_refl.
    + intros r Hin. by rewrite (existsb_false _ _ Ee r Hin).
Qed.
(** A change of one device leaves the keys of the others. *)
Lemma find_update_other {row} (p q : row -> bool) f t : (forall r, q r = true -> p (f r) = false /\ p r = false) ->
  List.find p (update q f t) = List.find p t.
Proof.
  intros H. unfold update. induction t as [|r t IH]; cbn; [done|].
  destruct (q r) eqn:Eq; [destruct (H r Eq) as [-> ->]; done|]. by destruct (p r).
Qed.
Lemma other_device u v u' v' r : (u', v') <> (u, v) -> is_device u v r = true -> is_device u' v' r = false.
Proof.
  intros Hne Hr. apply not_true_iff_false. intros Hr'. apply is_device_key in Hr, Hr'. congruence.
Qed.
Lemma upserted_other u v n k now d d' u' v' : (u', v') <> (u, v) ->
  enrollments d' = upserted u v n k now (enrollments d) -> active_key u' v' d' = active_key u' v' d.
Proof.
  intros Hne He. unfold active_key. rewrite He. unfold upserted. f_equal. destruct (existsb (is_device u v) _).
  - apply find_update_other. intros r Hr.
    assert (is_device u' v' r = false) as Hr' by (by eapply other_device). rewrite Hr'. split; [|done].
    apply andb_false_iff. left. exact Hr'.
  - apply find_app_false. apply andb_false_iff. left. eapply other_device; [done|]. by apply is_device_key.
Qed.

(** C17: A pairing token enrolls one device: after a token was accepted, whatever the
    service does next, every further attempt with that token is refused and changes
    nothing. *)
Theorem token_single_use token v n k rem w reg w1 w2 v' n' k' rem' :
  devices_wf (w_db w) ->
  complete_pairing_registration token v n k rem w = (Ok (Some reg), w1) ->
  rtc device_step w1 w2 ->
  exists w3, complete_pairing_registration token v' n' k' rem' w2 = (Ok None, w3) /\ w_db w3 = w_db w2.
Proof.
  intros Hwf Hc Hs. pose proof (complete_pairing_safe token v n k rem w) as [Hwf1 _ _]. rewrite Hc in Hwf1. cbn in Hwf1.
  apply complete_effect in Hc as (now & r & Hin & He & _ & Hp & _).
  unfold eligible, unused, has_key in He. bool_simpl. apply complete_refused. intros now'.
  set (r1 := r <| pr_paired_at := Some now |>).
  assert (In r1 (pairings (w_db w1))) as Hin1.
  { rewrite Hp. apply in_update. exists r. split; [done|]. unfold has_key.
    match goal with H : pr_token r = token |- _ => rewrite H end. by rewrite String.eqb_refl. }
  replace token with (pr_token r1) by done. eapply dead_token_stays; [by apply Hwf1|exact Hin1|by left|done].
Qed.

(** C37: A pairing token survives at most five failures: once a failure reports the token as
    exhausted, whatever the service does next, the token is refused. *)
Theorem token_exhausted token ev rem err w w1 w2 v n k rem' :
  devices_wf (w_db w) ->
  record_pairing_failure token ev rem err w = (Ok true, w1) ->
  rtc device_step w1 w2 ->
  exists w3, complete_pairing_registration token v n k rem' w2 = (Ok None, w3) /\ w_db w3 = w_db w2.
Proof.
  intros Hwf Hc Hs. pose proof (pairing_failure_safe token ev rem err w) as [Hwf1 _ _]. rewrite Hc in Hwf1. cbn in Hwf1.
  assert (exists r, In r (pairings (w_db w1)) /\ pr_token r = token /\ MAX_FAILED_ATTEMPTS <= pr_failed_attempts r)
    as (r & Hin & <- & Hf).
  { unfold record_pairing_failure in Hc. inv_ok Hc. destruct (Nat.ltb 0 a0); [|done]. inv_ok Hrun1.
    unfold query in Hrun3. inv_ok Hrun3. destruct (lookup_row pr_token token (pairings (w_db s0))) as [r|] eqn:El; cbn in *; [|lia].
    apply lookup_row_Some in El as [Hin Ht]. exists r.
    unfold insert_audit_event, local_timestamp in Hrun2. inv_ok Hrun2.
    split; [done|]. split; [done|lia]. }
  apply complete_refused. intros now. eapply dead_token_stays; [by apply Hwf1|done|by right|done].
Qed.

(** C35: Enrolling a device makes exactly that device active: its key is the one it sent,
    it belongs to the user the token was issued to, and no other device changes. *)
Theorem enrollment_effect token v n k rem w reg w1 :
  complete_pairing_registration token v n k rem w = (Ok (Some reg), w1) ->
  active_device_public_key true (reg_user_id reg) v w1 = (Ok (Some (trim k)), w1)
  /\ (exists r, In r (pairings (w_db w)) /\ pr_token r = token /\ pr_user_id r = reg_user_id reg
        /\ pr_paired_at r = None /\ pr_failed_attempts r < MAX_FAILED_ATTEMPTS)
  /\ (forall u' v', (u', v') <> (reg_user_id reg, v) -> active_key u' v' (w_db w1) = active_key u' v' (w_db w)).
Proof.
  intros Hc. apply complete_effect in Hc as (now & r & Hin & He & -> & _ & Hd). cbn [reg_user_id]. split; [|split].
  - unfold active_device_public_key, query, gets. cbn [negb]. do 2 f_equal. by apply (upserted_active _ _ _ _ _ _ _ Hd).
  - exists r. unfold eligible, unused, has_key in He. bool_simpl. repeat split; try done; [|lia].
    match goal with H : is_none _ = true |- _ => by destruct (pr_paired_at r) end.
  - intros u' v' Hne. by apply (upserted_other _ _ _ _ _ _ _ _ _ Hne Hd).
Qed.

Lemma revoke_effect u v w :
  exists w1, revoke_device true u v w = (Ok (is_some (active_key u v (w_db w))), w1)
    /\ active_key u v (w_db w1) = None
    /\ (forall u' v', (u', v') <> (u, v) -> active_key u' v' (w_db w1) = active_key u' v' (w_db w)).
Proof.
  set (hit := fun r => is_device u v r && active r).
  assert (Nat.ltb 0 (changes hit (enrollments (w_db w))) = is_some (active_key u v (w_db w))) as Hch.
  { unfold active_key. fold hit. rewrite find_head. unfold changes. by destruct (List.filter hit _). }
  unfold revoke_device, local_timestamp, bind, tick, execute, ret. cbn [negb w_db w_tick fst snd].
  fold hit. set (now := unwrap_or _ _). rewrite Hch.
  assert (forall d, enrollments d = update hit (fun r => r <| dv_revoked_at := Some now |>) (enrollments (w_db w)) ->
            active_key u v d = None /\ forall u' v', (u', v') <> (u, v) -> active_key u' v' d = active_key u' v' (w_db w)) as Hd.
  { intros d Ed. unfold active_key. rewrite Ed. split.
    - destruct (List.find _ _) as [r|] eqn:Ef; [|done]. exfalso. apply find_some in Ef as [Hin Hr].
      apply in_update in Hin as (r0 & _ & ->). destruct (hit r0) eqn:Eh.
      + unfold active in Hr. cbn in Hr. by rewrite andb_false_r in Hr.
      + unfold hit in Eh. congruence.
    - intros u' v' Hne. f_equal. apply find_update_other. intros r Hr. unfold hit in Hr. bool_simpl.
      rewrite (other_device u v u' v' r) by done. split; [|done]. apply andb_false_iff. right. done. }
  destruct (is_some (active_key u v (w_db w))).
  all: eexists; split; [reflexivity|]; edestruct Hd as [H1 H2]; [|split; [|exact H2]]; [reflexivity|].
  all: exact H1.
Qed.
(** C36: A revoked device is not active until it is enrolled again: revoking reports whether
    the device was active, and afterwards it is not, while every other device is as before. *)
Theorem revocation_effect u v w :
  exists w1, revoke_device true u v w = (Ok (is_some (active_key u v (w_db w))), w1)
    /\ active_device_exists true u v w1 = (Ok false, w1)
    /\ (forall u' v', (u', v') <> (u, v) -> active_key u' v' (w_db w1) = active_key u' v' (w_db w)).
Proof.
  destruct (revoke_effect u v w) as (w1 & Hr & Hn & Ho). exists w1. split; [exact Hr|]. split; [|exact Ho].
  unfold active_device_exists, active_device_public_key, bind, query, gets, ret. cbn [negb].
  unfold active_key in Hn. by rewrite Hn.
Qed.
End Operations.

(** ** Concrete runs *)
#[local] Instance demo_local : LocalTime := {| local_offset := fun _ => 0; format_local := fun t _ => Some (show_Z t) |}.
#[local] Instance demo_crypto : DeviceCrypto := {|
  sha256_hex := fun s => s;
  urlsafe_base64 := fun l => String.concat "" (map (fun n => show_Z (Z.of_N n)) l) |}.
#[local] Instance demo_texts : JsonParser := {| parse_json := fun _ => None; json_text := fun _ => "{}"%string |}.

Definition demo_row : pairing_row := PairingRow "tok" "ann" "0" "9" None 4 None.
Definition demo_devices : world device_db := World (DeviceDb [demo_row] [] []) 0.
Definition demo_enrolled : world device_db :=
  snd (complete_pairing_registration "tok" "phone" "Phone" " key " None demo_devices).
Definition demo_failed : world device_db := snd (record_pairing_failure "tok" "bad" None "wrong key" demo_devices).
Definition demo_later : list device_op :=
  [DvRevoke true "ann" "phone"; DvFailure "tok" "bad" None "again"; DvComplete "tok" "tablet" "Tablet" "k2" None].

Lemma demo_devices_wf : devices_wf (w_db demo_devices).
Proof.
  split; cbn; [|apply NoDup_nil_2]. unfold unique. cbn. apply NoDup_cons. split; [apply not_elem_of_nil|apply NoDup_nil_2].
Qed.
Lemma token_single_use_witness :
  exists w3, complete_pairing_registration "tok" "tablet" "Tablet" "k2" None (device_runs demo_later demo_enrolled)
               = (Ok None, w3)
    /\ w_db w3 = w_db (device_runs demo_later demo_enrolled).
Proof.
  apply (token_single_use "tok" "phone" "Phone" " key " None demo_devices (MkRegistration "tok" "ann" "9") demo_enrolled).
  - exact demo_devices_wf.
  - vm_compute. reflexivity.
  - apply device_runs_steps.
Defined.
Lemma token_exhausted_witness :
  exists w3, complete_pairing_registration "tok" "phone" "Phone" "key" None (device_runs demo_later demo_failed)
               = (Ok None, w3)
    /\ w_db w3 = w_db (device_runs demo_later demo_failed).
Proof.
  apply (token_exhausted "tok" "bad" None "wrong key" demo_devices demo_failed).
  - exact demo_devices_wf.
  - vm_compute. reflexivity.
  - apply device_runs_steps.
Defined.
Lemma enrollment_effect_witness :
  active_device_public_key true "ann" "phone" demo_enrolled = (Ok (Some "key"%string), demo_enrolled)
  /\ active_key "ann" "tablet" (w_db demo_enrolled) = None.
Proof.
  destruct (enrollment_effect "tok" "phone" "Phone" " key " None demo_devices (MkRegistration "tok" "ann" "9") demo_enrolled)
    as (H1 & _ & H2); [vm_compute; reflexivity|]. split; [exact H1|]. exact (H2 "ann"%string "tablet"%string ltac:(done)).
Defined.

(** *** Behaviour the code does not mean to have *)
(** A day on which the local clock falls back an hour, from offset -04:00 to -05:00, at
    06:00 UTC; the clock stands at 05:55 UTC when the token is made and at 06:20 UTC when it
    is presented. *)
Definition two_digits (n : Z) : string := show_Z (n / 10) ++ show_Z (n mod 10).
Definition day_text (t o : Z) : string :=
  let s := (t / NANOS + o) mod 86400 in
  "2026-11-01T" ++ two_digits (s / 3600) ++ ":" ++ two_digits (s / 60 mod 60) ++ ":" ++ two_digits (s mod 60)
  ++ (if o =? -14400 then "-04:00" else "-05:00").
Definition fall_back : LocalTime := {|
  local_offset := fun k => if Nat.ltb k 10 then -14400 else -18000;
  format_local := fun t o => Some (day_text t o) |}.
Definition fall_back_clock : Env := {|
  env_now := fun k => (if Nat.ltb k 10 then 21300 else 22800) * NANOS;
  env_process_id := 77;
  env_random := fun k _ => N.of_nat k |}.

(** A pairing token can outlive its lifetime by an hour: the expiry is compared with the
    clock as text, at the local offset of each, so that after the clocks fall back a token
    made for five minutes is accepted twenty-five minutes after it was made. *)
Theorem expired_token_accepted :
  exists token w1,
    create_pairing_registration (E := fall_back_clock) (F := fall_back) "ann" 5 (World empty_device_db 0)
      = (Ok (MkRegistration token "ann" "2026-11-01T02:00:00-04:00"), w1)
    /\ fst (complete_pairing_registration (E := fall_back_clock) (F := fall_back) token "phone" "Phone" "key" None
             (World (w_db w1) 10))
      = Ok (Some (MkRegistration token "ann" "2026-11-01T02:00:00-04:00"))
    /\ env_now (Env := fall_back_clock) 10 = env_now (Env := fall_back_clock) 0 + 25 * 60 * NANOS.
Proof. eexists _, _. split; [vm_compute; reflexivity|]. split; vm_compute; reflexivity. Qed.
