(* ===== verification/MobilePairing.v ===== *)
(** * The pairing listener (mobile_devices.rs, the handlers)

    A phone presents a token, a signing request and a public key; the listener signs the
    request, enrolls the device and lets it in at the access provider.  The state is the
    device database, the count of unknown tokens, the provider and whether the listener
    was told to stop.  The certificate tools and the key parser are parameters. *)
From Stdlib Require Import ZArith Lia Bool String Ascii List.
From stdpp Require Import base tactics list strings gmap relations.
From S2P Require Import Prelude Text StrMethods Table Clock Json HttpRequest ServerConfig UsageDb MobilePolicy MobileDevices MobileDevicesProps.
From S2P Require Import Demo DemoUsage.

(** ** Tools *)
(** A finished process: whether it succeeded, its output when that is UTF-8 and with broken
    bytes replaced, its error output, and the file it wrote. *)
Record tool_output : Type := MkOutput {
  out_success : bool; out_text : option string; out_lossy : string; out_stderr : string; out_file : option string }.
Class CertTools : Type := {
  (** Why the scratch directory or a file in it could not be made at reading [k]. *)
  scratch_error : nat -> option string;
  (** [openssl] with its arguments and the files it is given; [None] when it cannot be started. *)
  openssl : nat -> list string -> list (string * string) -> option tool_output;
  (** [fs::read_to_string] of a path. *)
  cert_file : nat -> string -> option string;
  (** [VerifyingKey::from_public_key_pem]. *)
  p256_public_key : string -> bool }.

Record pairing_config : Type := MkPairingConfig {
  pc_access : CloudflareAccessConfig; pc_mobile : MobileTerminalConfig;
  pc_ca_cert_path : string; pc_ca_key_path : string; pc_advertised_base_url : string }.
Record DeviceEnrollmentRequest : Type := MkEnrollRequest {
  eq_device_id : string; eq_device_name : string; eq_csr_pem : string; eq_public_key_pem : string }.
Record DeviceEnrollmentResponse : Type := MkEnrollResponse {
  er_device_id : string; er_device_name : string; er_certificate_chain_pem : string; er_expires_at : string }.
Inductive pairing_response : Type :=
| JsonError (status : Z) (detail : string)
| Enrolled (response : DeviceEnrollmentResponse)
| Page (html : string).

Definition MAX_UNKNOWN_PAIRING_ATTEMPTS : Z := 25.
Definition PAIRING_PATH_PREFIX : string := "/client/mobile-terminal/enroll".
Definition TOKEN_REQUIRED : string := "Enrollment token is required".
Definition TOKEN_UNKNOWN : string := "Unknown, expired, or already used enrollment token".
Definition TOO_MANY : string := "Too many invalid enrollment attempts".
Definition enrollment_path (token : string) : string := PAIRING_PATH_PREFIX +:+ "/" +:+ trim token.

(** ** Texts *)
Definition request_base_url (advertised : string) (h : headers) : string :=
  let advertised := trim advertised in
  if negb (advertised =?s "") then advertised
  else
    let host := unwrap_or "127.0.0.1:19192"%string (trimmed (bind_opt (header_get "host" h) to_str)) in
    let scheme := unwrap_or "http"%string
      (bind_opt (bind_opt (header_get "x-forwarded-proto" h) to_str) (fun value =>
       let first := trim (first_part "," value) in
       if str_in first ["http"; "https"]%string then Some first else None)) in
    scheme +:+ "://" +:+ host.
Definition enrollment_url (base token : string) : string :=
  trim_end_char "/" base +:+ "/" +:+ trim_start_char "/" (enrollment_path token).
(** The links of the page and what is written into it; [json_string]: serde's string literal. *)
Definition app_link (url : string) : string := "sm-enroll://enroll?url=" +:+ percent_encode_query_value url.
Definition intent_link (url : string) : string :=
  let encoded := percent_encode_query_value url in
  "intent://enroll?url=" +:+ encoded +:+ "#Intent;scheme=sm-enroll;package=li.rajeshgo.sm;S.browser_fallback_url="
  +:+ encoded +:+ ";end".
Definition enrollment_redirect_html (json_string : string -> string) (url : string) : string :=
  "<!doctype html>" +:+ NL +:+ "<html>" +:+ NL +:+ "<head>" +:+ NL
  +:+ "  <meta charset=" +:+ QT +:+ "utf-8" +:+ QT +:+ ">" +:+ NL
  +:+ "  <meta name=" +:+ QT +:+ "viewport" +:+ QT +:+ " content=" +:+ QT +:+ "width=device-width, initial-scale=1" +:+ QT +:+ ">" +:+ NL
  +:+ "  <title>Open Session Manager</title>" +:+ NL +:+ "  <script>" +:+ NL
  +:+ "    window.location.href = " +:+ json_string (intent_link url) +:+ ";" +:+ NL
  +:+ "  </script>" +:+ NL +:+ "</head>" +:+ NL +:+ "<body>" +:+ NL
  +:+ "  <h1>Open Session Manager</h1>" +:+ NL
  +:+ "  <p>This enrollment link must be opened in the Session Manager Android app.</p>" +:+ NL
  +:+ "  <p><a href=" +:+ QT +:+ escape_html_attr (intent_link url) +:+ QT +:+ ">Open Session Manager</a></p>" +:+ NL
  +:+ "  <p><a href=" +:+ QT +:+ escape_html_attr (app_link url) +:+ QT +:+ ">Open with app link</a></p>" +:+ NL
  +:+ "  <p>If the button does not work, scan the QR again with the phone Camera app and open it in Session Manager.</p>" +:+ NL
  +:+ "  <p>Enrollment URL: <code>" +:+ escape_html url +:+ "</code></p>" +:+ NL
  +:+ "</body>" +:+ NL +:+ "</html>".

(** ** Signing requests *)
(** State the certificate tools do not touch. *)
Section Tools.
Context {D : Type} `{C : CertTools}.

Definition scratch : M (world D) unit :=
  k <- tick ;; match scratch_error k with Some e => bail e | None => ret tt end.
Definition run_openssl (args : list string) (files : list (string * string)) (failure : string) : M (world D) tool_output :=
  k <- tick ;; expect failure (openssl k args files).

Definition verify_csr_self_signature_with_openssl (csr_pem : string) : M (world D) unit :=
  output <- run_openssl ["req"; "-in"; "device.csr.pem"; "-verify"; "-noout"]%string [("device.csr.pem", csr_pem)]%string
              "failed to invoke openssl for CSR verification" ;;
  if out_success output then ret tt
  else bail ("openssl failed to verify CSR self-signature: " +:+ trim (out_stderr output)).
Definition extract_public_key_from_csr_with_openssl (csr_pem : string) : M (world D) string :=
  scratch ;;;
  verify_csr_self_signature_with_openssl csr_pem ;;;
  output <- run_openssl ["req"; "-in"; "device.csr.pem"; "-pubkey"; "-noout"]%string [("device.csr.pem", csr_pem)]%string
              "failed to invoke openssl for CSR public key extraction" ;;
  if negb (out_success output) then bail "openssl failed to read CSR public key"
  else
    text <- expect "openssl returned non-UTF-8 CSR public key" (out_text output) ;;
    ret (trim text).
Definition trim_start_text (s : string) : string := of_bytes (trim_start (bytes_of s)).
Definition validate_cloudflare_client_csr_public_key (public_key_pem : string) : M (world D) unit :=
  scratch ;;;
  output <- run_openssl ["pkey"; "-pubin"; "-in"; "device.pub.pem"; "-noout"; "-text"]%string
              [("device.pub.pem", public_key_pem)]%string
              "failed to invoke openssl for CSR public key type check" ;;
  if negb (out_success output) then bail "openssl failed to inspect CSR public key"
  else
    let text := out_lossy output in
    let has_rsa_modulus := existsb (fun line => trim_start_text line =?s "Modulus:") (lines text) in
    let has_rsa_exponent := existsb (fun line => starts_with (trim_start_text line) "Exponent:") (lines text) in
    if has_rsa_modulus && has_rsa_exponent then ret tt
    else bail "Cloudflare client certificate CSR public key must be RSA".
Definition client_ext : string :=
  NL +:+ "[client_cert]" +:+ NL +:+ "basicConstraints = critical,CA:FALSE" +:+ NL
  +:+ "keyUsage = critical, digitalSignature, keyEncipherment" +:+ NL +:+ "extendedKeyUsage = clientAuth" +:+ NL
  +:+ "subjectKeyIdentifier = hash" +:+ NL +:+ "authorityKeyIdentifier = keyid,issuer" +:+ NL.
Definition sign_csr_with_openssl (ca_cert_path ca_key_path csr_pem common_name : string) : M (world D) string :=
  scratch ;;;
  output <- run_openssl
    ["x509"; "-req"; "-in"; "device.csr.pem"; "-CA"; ca_cert_path; "-CAkey"; ca_key_path; "-CAcreateserial";
     "-CAserial"; "device.srl"; "-out"; "device.cert.pem"; "-subj"; "/CN=" +:+ common_name; "-days"; "3650"; "-sha256";
     "-extfile"; "client.ext"; "-extensions"; "client_cert"]%string
    [("device.csr.pem", csr_pem); ("client.ext", client_ext)]%string
    "failed to invoke openssl for CSR signing" ;;
  if negb (out_success output) then bail "openssl failed to sign CSR"
  else expect "failed to read signed certificate" (out_file output).
Definition build_certificate_chain_pem (certificate_pem ca_cert_path : string) : M (world D) string :=
  k <- tick ;;
  ca_cert_pem <- expect "failed to read device CA certificate" (cert_file k ca_cert_path) ;;
  ret (trim certificate_pem +:+ NL +:+ trim ca_cert_pem).
Definition validate_mobile_terminal_proof_public_key (public_key_pem : string) : M (world D) unit :=
  if p256_public_key (trim public_key_pem) then ret tt
  else bail "mobile terminal proof public key must be a P-256 public key".
End Tools.

(** ** The listener *)
Record pairing_state (R : Type) : Type := MkPairing {
  ps_devices : device_db; ps_unknown_attempts : Z; ps_remote : R; ps_stopping : bool }.
Arguments MkPairing {R} _ _ _ _.
Arguments ps_devices {R} _.
Arguments ps_unknown_attempts {R} _.
Arguments ps_remote {R} _.
Arguments ps_stopping {R} _.
#[export] Instance eta_pairing_state {R} : Eta (pairing_state R) := fun d =>
  MkPairing (ps_devices d) (ps_unknown_attempts d) (ps_remote d) (ps_stopping d).

Section Listener.
Context {R : Type} `{H : HttpAgent R} `{T : TimeCrate} `{E : Env} `{F : LocalTime} `{K : DeviceCrypto} `{J : JsonParser}
  `{C : CertTools}.
Abbreviation LM := (M (world (pairing_state R))).

Definition on_devices {A} (m : DM A) : LM A := fun w =>
  let '(r, w') := m (World (ps_devices (w_db w)) (w_tick w)) in
  (r, World ((w_db w) <| ps_devices := w_db w' |>) (w_tick w')).
Definition on_remote {A} (m : M R A) : LM A := fun w =>
  let '(r, s') := m (ps_remote (w_db w)) in (r, World ((w_db w) <| ps_remote := s' |>) (w_tick w)).

(** [u32] addition; it wraps. *)
Definition increment_unknown_attempts : LM Z :=
  execute (fun d => (d <| ps_unknown_attempts := (ps_unknown_attempts d + 1) mod 2 ^ 32 |>, O)) ;;;
  query ps_unknown_attempts.
(** The two answers to a rejected key; [.unwrap_or(false)] drops an error. *)
Definition invalid_key_response (event detail token : string) (remote_addr : option string) (error : string) : LM pairing_response :=
  recorded <- attempt (on_devices (record_pairing_failure token event remote_addr error)) ;;
  let exhausted := match recorded with inl b => b | inr _ => false end in
  ret (if exhausted then JsonError 429 TOO_MANY else JsonError 400 detail).
Definition invalid_csr_response := invalid_key_response "pairing_csr_rejected" "Invalid device CSR".
Definition invalid_public_key_response := invalid_key_response "pairing_public_key_rejected" "Invalid device public key".

Definition open_device_enrollment (json_string : string -> string) (advertised : string) (token : string) (h : headers)
    : LM pairing_response :=
  let token := trim token in
  if token =?s "" then ret (JsonError 400 TOKEN_REQUIRED)
  else
    pending <- attempt (on_devices (pending_pairing_registration token)) ;;
    match pending with
    | inl (Some _) => ret (Page (enrollment_redirect_html json_string (enrollment_url (request_base_url advertised h) token)))
    | inl None => ret (JsonError 404 TOKEN_UNKNOWN)
    | inr error => ret (JsonError 500 ("Enrollment lookup failed: " +:+ error))
    end.

Definition enrollment_name (device_id device_name : string) : string :=
  let name := chars_take 120 (join " " (split_whitespace device_name)) in
  if name =?s "" then device_id else name.
(** The part of the handler after the keys were checked. *)
Definition finish_enrollment (config : pairing_config) (token device_id device_name remote_addr : string)
    (payload : DeviceEnrollmentRequest) : LM pairing_response :=
  signed <- attempt (sign_csr_with_openssl (pc_ca_cert_path config) (pc_ca_key_path config) (eq_csr_pem payload) device_id) ;;
  match signed with
  | inr error => ret (JsonError 500 error)
  | inl certificate =>
      chain <- attempt (build_certificate_chain_pem certificate (pc_ca_cert_path config)) ;;
      match chain with
      | inr error => ret (JsonError 500 error)
      | inl certificate_chain =>
          completed <- attempt (on_devices (complete_pairing_registration token device_id device_name
                                              (eq_public_key_pem payload) (Some remote_addr))) ;;
          match completed with
          | inr error => ret (JsonError 500 error)
          | inl None => ret (JsonError 404 TOKEN_UNKNOWN)
          | inl (Some registration) =>
              synced <- attempt (on_remote (sync_device_common_name (pc_access config) device_id Allow)) ;;
              match synced with
              | inr error =>
                  discard (on_devices (revoke_device true (reg_user_id registration) device_id)) ;;;
                  ret (JsonError 500 error)
              | inl _ =>
                  execute (fun d => (d <| ps_stopping := true |>, O)) ;;;
                  ret (Enrolled (MkEnrollResponse device_id device_name certificate_chain (reg_expires_at registration)))
              end
          end
      end
  end.
Definition complete_device_enrollment (config : pairing_config) (token remote_addr : string)
    (payload : DeviceEnrollmentRequest) : LM pairing_response :=
  let token := trim token in
  if token =?s "" then ret (JsonError 400 TOKEN_REQUIRED)
  else
    let device_id := trim (eq_device_id payload) in
    if negb (valid_device_id device_id) then ret (JsonError 400 "Invalid device_id")
    else
      let device_name := enrollment_name device_id (eq_device_name payload) in
      pending <- attempt (on_devices (pending_pairing_registration token)) ;;
      match pending with
      | inr error => ret (JsonError 500 error)
      | inl None =>
          attempts <- increment_unknown_attempts ;;
          let too_many := MAX_UNKNOWN_PAIRING_ATTEMPTS <? attempts in
          discard (on_devices (log_unknown_pairing_attempt token (Some remote_addr)
            (if too_many then "too_many_unknown_attempts" else "unknown_expired_or_already_paired"))) ;;;
          ret (if too_many then JsonError 429 TOO_MANY else JsonError 404 TOKEN_UNKNOWN)
      | inl (Some registration) =>
          match find_user (reg_user_id registration) (pc_mobile config) with
          | None => ret (JsonError 403 "Enrollment user is no longer configured")
          | Some user_config =>
              if negb (interactive_shell_access user_config)
              then ret (JsonError 403 "Enrollment user is not allowed to use mobile terminal attach")
              else
                csr_key <- attempt (extract_public_key_from_csr_with_openssl (eq_csr_pem payload)) ;;
                match csr_key with
                | inr error => invalid_csr_response token (Some remote_addr) error
                | inl csr_public_key =>
                    csr_ok <- attempt (validate_cloudflare_client_csr_public_key csr_public_key) ;;
                    match csr_ok with
                    | inr error => invalid_csr_response token (Some remote_addr) error
                    | inl _ =>
                        key_ok <- attempt (validate_mobile_terminal_proof_public_key (eq_public_key_pem payload)) ;;
                        match key_ok with
                        | inr error => invalid_public_key_response token (Some remote_addr) error
                        | inl _ => finish_enrollment config token device_id device_name remote_addr payload
                        end
                    end
                end
          end
      end.
End Listener.

(** ** What a request does to the devices *)
Lemma attempt_inl_inv {S A} (m : M S A) (s s' : S) (x : A + string) :
  attempt m s = (Ok x, s') -> m s = (match x with inl a => Ok a | inr e => Err e end, s').
Proof. unfold attempt. destruct (m s) as [[a|e|] s1]; intros [= <- <-]; done. Qed.

Section Handlers.
Context {R : Type} `{H : HttpAgent R} `{T : TimeCrate} `{E : Env} `{F : LocalTime} `{K : DeviceCrypto} `{J : JsonParser}
  `{C : CertTools}.
Abbreviation LM := (M (world (pairing_state R))).

(** Specifications of the device database, on the listener's state. *)
Definition of_devices (Q : device_db -> device_db -> Prop) (d d' : pairing_state R) : Prop := Q (ps_devices d) (ps_devices d').
#[local] Instance of_devices_preorder Q : PreOrder Q -> PreOrder (of_devices Q).
Proof. intros [Hr Ht]. split; [intros d; apply Hr|intros d1 d2 d3; apply Ht]. Qed.
Lemma steps_on_devices {A} (Q : device_db -> device_db -> Prop) (m : DM A) :
  steps (on_db Q) m -> steps (on_db (of_devices Q)) (on_devices (R := R) m).
Proof.
  intros Hm w. specialize (Hm (World (ps_devices (w_db w)) (w_tick w))). unfold on_devices.
  destruct (m _) as [r w']. exact Hm.
Qed.
Lemma steps_on_remote {A} (Q : device_db -> device_db -> Prop) `{!PreOrder Q} (m : M R A) :
  steps (on_db (of_devices Q)) (on_remote m).
Proof. intros w. unfold on_remote. destruct (m _) as [r s']. unfold on_db, of_devices. cbn. reflexivity. Qed.
Lemma on_devices_inv {A} (m : DM A) w (r : outcome A) w1 : on_devices (R := R) m w = (r, w1) ->
  exists w', m (World (ps_devices (w_db w)) (w_tick w)) = (r, w') /\ ps_devices (w_db w1) = w_db w' /\ w_tick w1 = w_tick w'.
Proof. unfold on_devices. destruct (m _) as [r' w']. intros [= <- <-]. by exists w'. Qed.

(** The tools, the tokens and the audit leave the devices alone. *)
Definition same_devices (d d' : device_db) : Prop := enrollments d' = enrollments d.
#[local] Instance same_devices_preorder : PreOrder same_devices.
Proof. split; [done|]. intros ??? H1 H2. unfold same_devices in *. congruence. Qed.
Lemma same_active d d' : same_devices d d' -> forall u v, active_key u v d' = active_key u v d.
Proof. intros Hs u v. unfold active_key. by rewrite Hs. Qed.
Lemma audit_devices u v e r x : steps (on_db same_devices) (insert_audit_event u v e r x).
Proof. unfold insert_audit_event, local_timestamp. db_steps. done. Qed.
Lemma pending_devices t : steps (on_db same_devices) (pending_pairing_registration t).
Proof. unfold pending_pairing_registration, local_timestamp. db_steps. Qed.
Lemma failure_devices t e r x : steps (on_db same_devices) (record_pairing_failure t e r x).
Proof.
  unfold record_pairing_failure, local_timestamp. pose proof audit_devices. db_steps. done.
Qed.
Lemma tools_devices {A} (m : LM A) (Q : pairing_state R -> pairing_state R -> Prop) `{!PreOrder Q} :
  steps db_eq m -> steps (on_db Q) m.
Proof. by apply steps_frame. Qed.
Lemma scratch_frame {D} : steps (@db_eq D) scratch.
Proof. unfold scratch. step_through. Qed.
Lemma openssl_frame {D} a f e : steps (@db_eq D) (run_openssl a f e).
Proof. unfold run_openssl. step_through. Qed.
#[local] Hint Resolve scratch_frame openssl_frame : steps.
Lemma extract_frame {D} c : steps (@db_eq D) (extract_public_key_from_csr_with_openssl c).
Proof. unfold extract_public_key_from_csr_with_openssl, verify_csr_self_signature_with_openssl. step_through. Qed.
Lemma validate_csr_frame {D} c : steps (@db_eq D) (validate_cloudflare_client_csr_public_key c).
Proof. unfold validate_cloudflare_client_csr_public_key. step_through. Qed.
Lemma validate_key_frame {D} c : steps (@db_eq D) (validate_mobile_terminal_proof_public_key c).
Proof. unfold validate_mobile_terminal_proof_public_key. step_through. Qed.
Lemma sign_frame {D} a b c n : steps (@db_eq D) (sign_csr_with_openssl a b c n).
Proof. unfold sign_csr_with_openssl. step_through. Qed.
Lemma chain_frame {D} a b : steps (@db_eq D) (build_certificate_chain_pem a b).
Proof. unfold build_certificate_chain_pem. step_through. Qed.
#[local] Hint Resolve extract_frame validate_csr_frame validate_key_frame sign_frame chain_frame : steps.

Lemma attempt_frame_inv {D A} (m : M (world D) A) w x w1 : steps db_eq m -> attempt m w = (Ok x, w1) -> w_db w1 = w_db w.
Proof. intros Hm Ha. apply attempt_inl_inv in Ha. pose proof (Hm w) as Hw. rewrite Ha in Hw. exact Hw. Qed.
Lemma on_remote_devices {A} (m : M R A) w r w1 : on_remote m w = (r, w1) -> ps_devices (w_db w1) = ps_devices (w_db w).
Proof. unfold on_remote. destruct (m _). by intros [= <- <-]. Qed.
Lemma complete_enrollments tok v n k rem w w1 : complete_pairing_registration tok v n k rem w = (Ok None, w1) ->
  w_db w1 = w_db w.
Proof.
  intros Hc. apply transaction_Ok_inv in Hc. unfold local_timestamp, bind, tick, query, gets, ret in Hc. cbn in Hc.
  destruct (eligible_registration _ _ _); [done|]. by injection Hc as <-.
Qed.
Lemma complete_never_fails tok v n k rem w e w1 : complete_pairing_registration tok v n k rem w <> (Err e, w1).
Proof.
  unfold complete_pairing_registration, transaction, local_timestamp, bind, tick, query, gets, ret. cbn.
  destruct (eligible_registration _ _ _); done.
Qed.

(** The devices after the keys were accepted. *)
Lemma finish_effect config tok v n addr payload w r w1 :
  finish_enrollment (R := R) config tok v n addr payload w = (Ok r, w1) ->
  match r with
  | Enrolled resp => er_device_id resp = v /\ exists tk reg w',
      complete_pairing_registration tok v n (eq_public_key_pem payload) (Some addr) (World (ps_devices (w_db w)) tk)
        = (Ok (Some reg), w') /\ ps_devices (w_db w1) = w_db w'
  | _ => forall u v' k, active_key u v' (ps_devices (w_db w1)) = Some k -> active_key u v' (ps_devices (w_db w)) = Some k
  end.
Proof.
  intros Hrun. unfold finish_enrollment in Hrun. inv_ok Hrun. apply attempt_frame_inv in Hrun0; [|auto with steps].
  destruct a as [cert|e]; [|inv_ok Hrun; by rewrite Hrun0]. inv_ok Hrun. apply attempt_frame_inv in Hrun1; [|auto with steps].
  destruct a as [chain|e]; [|inv_ok Hrun; by rewrite Hrun1, Hrun0]. inv_ok Hrun. rewrite Hrun0 in Hrun1. clear Hrun0.
  apply attempt_inl_inv, on_devices_inv in Hrun2 as (w' & Hc & Hd & _). rewrite Hrun1 in Hc.
  destruct a as [[reg|]|e]; [|inv_ok Hrun|by apply complete_never_fails in Hc].
  2:{ apply complete_enrollments in Hc. cbn in Hc. by rewrite Hd, Hc. }
  inv_ok Hrun. apply attempt_inl_inv, on_remote_devices in Hrun0. destruct a as [ok|e].
  - inv_ok Hrun. match goal with He : execute _ _ = _ |- _ => apply execute_Ok_inv in He as (_ & Hw & _) end. split; [done|]. exists (w_tick s0), reg, w'.
    split; [done|]. rewrite Hw. cbn. by rewrite Hrun0.
  - unfold discard in Hrun. inv_ok Hrun.
    match goal with Ha : attempt (on_devices _) _ = _ |- _ => apply attempt_inl_inv, on_devices_inv in Ha as (w2 & Hr & Hd2 & _) end.
    intros u v' k Hk. destruct (revoke_effect (reg_user_id reg) v (World (ps_devices (w_db s2)) (w_tick s2)))
      as (w3 & Hr' & Hn & Ho). rewrite Hr' in Hr. injection Hr as _ <-. cbn [w_db] in Ho.
    rewrite Hd2 in Hk. destruct (decide ((u, v') = (reg_user_id reg, v))) as [[= -> ->]|Hne]; [congruence|].
    rewrite Ho, Hrun0, Hd in Hk by done. apply complete_effect in Hc as (now & row & _ & _ & -> & _ & Hu).
    by rewrite (upserted_other _ _ _ _ _ _ _ _ _ Hne Hu) in Hk.
Qed.

Lemma pending_effect tok w x w1 : pending_pairing_registration tok w = (x, w1) ->
  w_db w1 = w_db w /\ exists now, x = Ok (eligible_registration tok now (w_db w)).
Proof.
  unfold pending_pairing_registration, local_timestamp, bind, tick, query, gets, ret. cbn. intros [= <- <-].
  split; [done|]. by eexists.
Qed.
(** The row an eligible token names does not depend on when it is asked for. *)
Lemma eligible_same_user tok now now' d r r' : devices_wf d ->
  eligible_registration tok now d = Some r -> In r' (pairings d) -> eligible tok now' r' = true ->
  reg_user_id r = pr_user_id r'.
Proof.
  intros Hwf He Hin' He'. unfold eligible_registration in He. destruct (List.find _ _) as [r0|] eqn:Ef; [|done].
  injection He as <-. apply find_some in Ef as [Hin He]. unfold eligible, unused, has_key in He, He'. bool_simpl. cbn.
  f_equal. apply (unique_inj pr_token (pairings d)); [by apply wf_tokens|done..|congruence].
Qed.
(** An answer that enrolls nobody. *)
Definition refused (d d' : device_db) (r : pairing_response) : Prop :=
  match r with
  | Enrolled _ => False
  | _ => forall u v k, active_key u v d' = Some k -> active_key u v d = Some k
  end.
Lemma refused_same d d' r : same_devices d d' -> (forall resp, r <> Enrolled resp) -> refused d d' r.
Proof. intros Hs Hr. destruct r; cbn; [|by destruct (Hr response)|]; intros u v k; by rewrite (same_active _ _ Hs). Qed.
Lemma key_response_refused ev det tok rem err w r w1 :
  invalid_key_response (R := R) ev det tok rem err w = (Ok r, w1) ->
  refused (ps_devices (w_db w)) (ps_devices (w_db w1)) r.
Proof.
  unfold invalid_key_response. intros Hrun. inv_ok Hrun. apply refused_same; [|by destruct a as [[]|]].
  pose proof (steps_attempt _ _ (steps_on_devices same_devices _ (failure_devices tok ev rem err)) w) as Hs.
  by rewrite Hrun0 in Hs.
Qed.
Lemma unknown_token_refused tok addr w r w1 :
  (attempts <- increment_unknown_attempts (R := R) ;;
   let too_many := MAX_UNKNOWN_PAIRING_ATTEMPTS <? attempts in
   discard (on_devices (log_unknown_pairing_attempt tok (Some addr)
     (if too_many then "too_many_unknown_attempts" else "unknown_expired_or_already_paired"))) ;;;
   ret (if too_many then JsonError 429 TOO_MANY else JsonError 404 TOKEN_UNKNOWN)) w = (Ok r, w1) ->
  refused (ps_devices (w_db w)) (ps_devices (w_db w1)) r.
Proof.
  intros Hrun. apply refused_same.
  - match type of Hrun with ?m w = _ => assert (steps (on_db (of_devices same_devices)) m) as Hs end.
    { apply steps_bind; [tc_solve| |intros n; apply steps_bind; [tc_solve| |intros; apply steps_ret; tc_solve]].
      - unfold increment_unknown_attempts. db_steps. done.
      - apply steps_discard; [tc_solve|]. apply steps_on_devices, audit_devices. }
    specialize (Hs w). by rewrite Hrun in Hs.
  - inv_ok Hrun. cbv zeta in Hrun. inv_ok Hrun. intros resp. destruct (MAX_UNKNOWN_PAIRING_ATTEMPTS <? a); discriminate.
Qed.
Lemma validate_key_Ok {D} k (w w1 : world D) : validate_mobile_terminal_proof_public_key k w = (Ok tt, w1) ->
  p256_public_key (trim k) = true.
Proof. unfold validate_mobile_terminal_proof_public_key. by destruct (p256_public_key _). Qed.

(** An answer with a certificate: for the device that was presented, of the user the token
    was made for, while the token could be used. *)
Definition enrolled (config : pairing_config) (tok : string) (payload : DeviceEnrollmentRequest) (d d' : device_db)
    (resp : DeviceEnrollmentResponse) : Prop :=
  let device := trim (eq_device_id payload) in
  er_device_id resp = device /\ valid_device_id device = true /\ p256_public_key (trim (eq_public_key_pem payload)) = true
  /\ exists row now user, In row (pairings d) /\ pr_token row = trim tok /\ eligible (trim tok) now row = true
    /\ find_user (pr_user_id row) (pc_mobile config) = Some user /\ interactive_shell_access user = true
    /\ active_key (pr_user_id row) device d' = Some (trim (eq_public_key_pem payload))
    /\ (forall u' v', (u', v') <> (pr_user_id row, device) -> active_key u' v' d' = active_key u' v' d).
Lemma complete_enrolls config payload tok n rem now reg reg' d tk w' resp user : devices_wf d ->
  eligible_registration (trim tok) now d = Some reg -> find_user (reg_user_id reg) (pc_mobile config) = Some user ->
  interactive_shell_access user = true -> p256_public_key (trim (eq_public_key_pem payload)) = true ->
  er_device_id resp = trim (eq_device_id payload) -> valid_device_id (trim (eq_device_id payload)) = true ->
  complete_pairing_registration (trim tok) (trim (eq_device_id payload)) n (eq_public_key_pem payload) rem (World d tk)
    = (Ok (Some reg'), w') ->
  enrolled config tok payload d (w_db w') resp.
Proof.
  intros Hwf Hreg Eu Es Hk Hid Hv Hc. apply complete_effect in Hc as (now' & row & Hin & He & _ & _ & Hup).
  cbn [w_db] in Hin, Hup. rewrite (eligible_same_user _ _ _ _ _ _ Hwf Hreg Hin He) in Eu.
  split; [done|]. split; [done|]. split; [done|]. exists row, now', user. repeat split; try done.
  - unfold eligible, unused, has_key in He. by bool_simpl.
  - by apply (upserted_active _ _ _ _ _ _ _ Hup).
  - intros u' v' Hne. by apply (upserted_other _ _ _ _ _ _ _ _ _ Hne Hup).
Qed.

(** C9: A pairing request enrolls all or nothing.  When it answers with a certificate, the
    certificate is for the presented device, and the presented key, which is a P-256 key, is
    the active key of that device for the user the presented token was made for, who may
    open a shell; the token could still be used, and no other device changed.  When it answers anything else,
    every key that is active was active before: a failure after the device was enrolled
    takes it back. *)
Theorem pairing_all_or_nothing config tok addr payload (w : world (pairing_state R)) r w1 :
  devices_wf (ps_devices (w_db w)) ->
  complete_device_enrollment config tok addr payload w = (Ok r, w1) ->
  match r with
  | Enrolled resp => enrolled config tok payload (ps_devices (w_db w)) (ps_devices (w_db w1)) resp
  | _ => forall u v k, active_key u v (ps_devices (w_db w1)) = Some k -> active_key u v (ps_devices (w_db w)) = Some k
  end.
Proof.
  intros Hwf Hrun. enough (match r with Enrolled resp => enrolled config tok payload (ps_devices (w_db w)) (ps_devices (w_db w1)) resp
    | _ => refused (ps_devices (w_db w)) (ps_devices (w_db w1)) r end) as Hgoal by (by destruct r).
  assert (refused (ps_devices (w_db w)) (ps_devices (w_db w1)) r -> match r with
    Enrolled resp => enrolled config tok payload (ps_devices (w_db w)) (ps_devices (w_db w1)) resp
    | _ => refused (ps_devices (w_db w)) (ps_devices (w_db w1)) r end) as Href by (by destruct r).
  unfold complete_device_enrollment in Hrun. cbv zeta in Hrun. destruct (trim tok =?s ""); [inv_ok Hrun; by apply refused_same|].
  destruct (negb (valid_device_id _)) eqn:Ev; [inv_ok Hrun; by apply refused_same|]. apply negb_false_iff in Ev.
  apply bind_Ok_inv in Hrun as (a & s & Hp & Hrun).
  apply attempt_inl_inv, on_devices_inv in Hp as (w' & Hp & Hd & _). apply pending_effect in Hp as (Hw' & now & Hx).
  cbn [w_db] in Hw', Hx. rewrite <- Hd in Hw'. clear Hd. rewrite <- Hw' in Href |- *.
  destruct a as [[reg|]|e]; [|apply unknown_token_refused in Hrun; by apply Href|done].
  injection Hx as Hreg. destruct (find_user _ (pc_mobile config)) as [user|] eqn:Eu; [|inv_ok Hrun; by apply refused_same].
  destruct (interactive_shell_access user) eqn:Es; cbn [negb] in Hrun; [|inv_ok Hrun; by apply refused_same].
  apply bind_Ok_inv in Hrun as (a & s1 & Ha & Hrun). apply attempt_frame_inv in Ha; [|auto with steps]. rewrite <- Ha in Href |- *.
  destruct a as [csr|e]; [|apply key_response_refused in Hrun; by apply Href].
  apply bind_Ok_inv in Hrun as (a & s2 & Hb & Hrun). apply attempt_frame_inv in Hb; [|auto with steps]. rewrite <- Hb in Href |- *.
  destruct a as [[]|e]; [|apply key_response_refused in Hrun; by apply Href].
  apply bind_Ok_inv in Hrun as (a & s3 & Hc & Hrun). pose proof (attempt_inl_inv _ _ _ _ Hc) as Hk.
  apply attempt_frame_inv in Hc; [|auto with steps]. rewrite <- Hc in Href |- *.
  destruct a as [[]|e]; [|apply key_response_refused in Hrun; by apply Href].
  apply validate_key_Ok in Hk. apply finish_effect in Hrun. destruct r as [|resp|]; [exact Hrun| |exact Hrun].
  destruct Hrun as (Hid & tk & reg' & w2 & Hcp & Hd2). rewrite Hd2. eapply complete_enrolls; try done.
  all: rewrite Hc, Hb, Ha, Hw'; done.
Qed.
End Handlers.

(** ** Concrete runs *)
#[local] Existing Instances demo_local demo_crypto demo_texts.
Definition RSA_TEXT : string := "Modulus:" +:+ NL +:+ "Exponent: 65537".
#[local] Instance demo_tools : CertTools := {|
  scratch_error := fun _ => None;
  openssl := fun _ _ _ => Some (MkOutput true (Some "csr key"%string) RSA_TEXT "" (Some "cert"%string));
  cert_file := fun _ _ => Some "ca"%string;
  p256_public_key := fun key => key =?s "key" |}.
#[local] Instance demo_no_agent : HttpAgent unit := {| http_send := fun _ _ _ _ r => (None, r) |}.
Definition no_app : CloudflareAccessApplicationConfig := MkAccessApp false None None None.
Definition demo_access (account : option string) : CloudflareAccessConfig :=
  MkAccessConfig account None (Some "token"%string) None no_app no_app no_app no_app (Some "p1"%string) None None.
Definition demo_pairing_config (account : option string) : pairing_config :=
  MkPairingConfig (demo_access account)
    (MkMobileTerminal true None None true [("ann"%string, MkUserConfig None [] true false false false [])] 0 0 0 0 0)
    "ca.pem" "ca.key" "".
Definition demo_enroll : DeviceEnrollmentRequest := MkEnrollRequest " phone " "My  phone" "csr" " key ".
Definition demo_pairing : world (pairing_state unit) := World (MkPairing (w_db demo_devices) 0 tt false) 0.
Definition demo_pairing_run (account : option string) : outcome pairing_response * world (pairing_state unit) :=
  complete_device_enrollment (demo_pairing_config account) "tok" "10.0.0.2" demo_enroll demo_pairing.

Lemma pairing_all_or_nothing_witness :
  enrolled (demo_pairing_config None) "tok" demo_enroll (w_db demo_devices) (ps_devices (w_db (snd (demo_pairing_run None))))
    (MkEnrollResponse "phone" "My phone" ("cert" +:+ NL +:+ "ca") "9").
Proof.
  apply (pairing_all_or_nothing (demo_pairing_config None) "tok" "10.0.0.2" demo_enroll demo_pairing
    (Enrolled (MkEnrollResponse "phone" "My phone" ("cert" +:+ NL +:+ "ca") "9"))).
  - exact demo_devices_wf.
  - vm_compute. reflexivity.
Defined.
(** The provider cannot be reached: the request fails and the device is taken back. *)
Lemma demo_pairing_fails :
  fst (demo_pairing_run (Some "acct"%string))
    = Ok (JsonError 500 "Cloudflare API request failed: https://api.cloudflare.com/client/v4/accounts/acct/access/policies/p1")
  /\ active_key "ann" "phone" (ps_devices (w_db (snd (demo_pairing_run (Some "acct"%string))))) = None.
Proof. vm_compute. done. Qed.

(** *** Behaviour the code does not mean to have *)
(** A device may be named like the placeholder of the empty list, and then keeps its
    access: revoking it, the only device, takes its rule out and puts the same rule back. *)
Theorem placeholder_device_not_revoked :
  valid_device_id EMPTY_DEVICE_COMMON_NAME = true
  /\ edit_include EMPTY_DEVICE_COMMON_NAME Revoke [name_rule EMPTY_DEVICE_COMMON_NAME] = [name_rule EMPTY_DEVICE_COMMON_NAME].
Proof. split; reflexivity. Qed.
