(* ===== verification/Server.v ===== *)
(** * The state the request handlers share (http.rs, [AppState])

    The caches, replay stores and the mobile terminal's tickets and attaches, each behind a
    lock of its own, and the device database.  Readings of the outside (clock, random
    bytes, services) are numbered as in [Prelude]. *)
From Stdlib Require Import ZArith Lia Bool String Ascii List.
From stdpp Require Import base tactics list strings gmap.
From S2P Require Import Prelude Text StrMethods Table Clock Json Api ServerConfig UsageDb MobileDevices.

(** ** JSON web tokens: the [jsonwebtoken] and [http] crates *)
Record CloudflareAccessClaims : Type := MkClaims {
  cl_sub : string; cl_exp : Z; cl_iat : Z; cl_iss : string; cl_common_name : option string; cl_email : option string }.
Record validation : Type := MkValidation {
  vd_issuers : list string; vd_audience : option (list string); vd_leeway : Z; vd_nbf : bool }.
Class Jwt : Type := {
  jwk_set : Type;
  jwk : Type;
  decoding_key : Type;
  (** The key id of a token's header, when the token has a header. *)
  decode_header : string -> option (option string);
  jwks_find : jwk_set -> string -> option jwk;
  key_from_jwk : jwk -> option decoding_key;
  (** [decode]: the claims of a token that passes; it reads the clock. *)
  decode : nat -> string -> decoding_key -> validation -> option CloudflareAccessClaims;
  (** [decode] for the claims of another type, as they stand in the token. *)
  decode_claims : nat -> string -> decoding_key -> validation -> option json;
  (** [ureq::get(url).call()] and the parsed body. *)
  fetch_jwks : nat -> string -> option jwk_set }.
(** What the crate checks before it returns claims. *)
Class JwtLaws {W : Jwt} : Type := {
  signed_by : string -> decoding_key -> Prop;
  audiences : string -> list string;
  decode_signed : forall k token key v claims, decode k token key v = Some claims -> signed_by token key;
  decode_issuer : forall k token key v claims, decode k token key v = Some claims -> In (cl_iss claims) (vd_issuers v);
  decode_claims_signed : forall k token key v claims, decode_claims k token key v = Some claims -> signed_by token key;
  decode_claims_issuer : forall k token key v claims, decode_claims k token key v = Some claims ->
    exists iss, bind_opt (get_field "iss" claims) as_str = Some iss /\ In iss (vd_issuers v);
  decode_audience : forall k token key v claims l, decode k token key v = Some claims -> vd_audience v = Some l ->
    exists a, In a l /\ In a (audiences token) }.
Arguments JwtLaws : clear implicits.

Record uri : Type := MkUri {
  uri_scheme : option string; uri_host : option string; uri_authority : option string; uri_path : string;
  uri_query : option string }.
Class UriCrate : Type := { parse_uri : string -> option uri }.
(** [Instant::now]. *)
Class Monotonic : Type := { instant_now : nat -> Z }.

(** ** The mobile terminal *)
Record MobileTerminalTicket : Type := MkTicket {
  tk_ticket_id : string; tk_secret_hash : string; tk_user_id : string; tk_actor_email : string;
  tk_session_id : string; tk_provider : string; tk_node : string; tk_tmux_session : string;
  tk_tmux_socket_name : option string; tk_device_key_id : string; tk_created_at_unix : Z; tk_expires_at_unix : Z }.
Record MobileTerminalActiveAttach : Type := MkAttach {
  at_user_id : string; at_session_id : string; at_provider : string; at_device_key_id : string;
  at_started_at_unix : Z }.

Section State.
Context {W : Jwt}.
Record jwks_entry : Type := MkJwksEntry {
  je_jwks : jwk_set; je_fetched_at : Z; je_last_unknown_key_refresh : option Z }.
(** [sv_stopped]: the attaches told to stop, each through its own flag. *)
Record server : Type := MkServer {
  sv_jwks_cache : gmap string jwks_entry;
  sv_google_cache : option jwks_entry;
  sv_edge_nonces : gmap string Z;
  sv_proof_nonces : gmap string Z;
  sv_revoked_keys : gset (string * string);
  sv_tickets : gmap string MobileTerminalTicket;
  sv_active : gmap string MobileTerminalActiveAttach;
  sv_stopped : gset string;
  sv_disabled : bool;
  sv_devices : device_db;
  sv_tick : nat }.
#[export] Instance eta_server : Eta server := fun s =>
  MkServer (sv_jwks_cache s) (sv_google_cache s) (sv_edge_nonces s) (sv_proof_nonces s) (sv_revoked_keys s) (sv_tickets s) (sv_active s)
    (sv_stopped s) (sv_disabled s) (sv_devices s) (sv_tick s).
Abbreviation SM := (AM server).

Definition reading : SM nat := fun s => (inl (sv_tick s), s <| sv_tick := S (sv_tick s) |>).
(** [OffsetDateTime::now_utc().unix_timestamp()]. *)
Definition unix_now {E : Env} : SM Z := k <-! reading ;; ok (env_now k / NANOS).
(** An operation of the device database; an error is an internal one. *)
Definition on_device_db {A} (m : DM A) : SM A := fun s =>
  match m (World (sv_devices s) (sv_tick s)) with
  | (Ok a, w) => (inl a, s <| sv_devices := w_db w |> <| sv_tick := w_tick w |>)
  | (Err e, w) => (inr (ApiInternal e), s <| sv_devices := w_db w |> <| sv_tick := w_tick w |>)
  | (Panic, w) => (inr (ApiInternal "panic"), s <| sv_devices := w_db w |> <| sv_tick := w_tick w |>)
  end.
End State.
Arguments server : clear implicits.
Arguments jwks_entry : clear implicits.
