(* ===== verification/CloudflareAccess.v ===== *)
(** * The access gate (cloudflare_access.rs, http.rs)

    A request from outside needs an assertion of the access provider for the application its
    host name belongs to; a mobile request also needs an enrolled device. *)
From Stdlib Require Import ZArith Lia Bool String Ascii List.
From stdpp Require Import base tactics list strings gmap.
From S2P Require Import Prelude Text StrMethods Table Clock Json HttpRequest Api ServerConfig UsageDb MobileDevices Server.

Inductive CloudflareAccessError : Type :=
| MissingIssuer | MissingAudience | MalformedToken | MissingKeyId | InvalidIssuer | JwksFetchFailed | UnknownKeyId
| InvalidAssertion.
Inductive CloudflareAccessApplication : Type := Browser | MobileApp | NodeFallback | EmailWorker.
#[export] Instance application_eq_dec : EqDecision CloudflareAccessApplication.
Proof. solve_decision. Defined.
Record CloudflareAccessContext : Type := MkContext {
  cx_application : CloudflareAccessApplication; cx_subject : string; cx_identity : string; cx_email : option string;
  cx_common_name : option string }.
Inductive CloudflareAccessContextError : Type :=
| Disabled | IncompleteConfig | MissingIdentity | InvalidContextAssertion (e : CloudflareAccessError).
Definition from_access_error (e : CloudflareAccessError) : CloudflareAccessContextError :=
  match e with MissingIssuer | MissingAudience => IncompleteConfig | other => InvalidContextAssertion other end.

Definition application_config (a : CloudflareAccessApplication) (c : CloudflareAccessConfig) : CloudflareAccessApplicationConfig :=
  match a with Browser => browser c | MobileApp => mobile_app c | NodeFallback => node_fallback c | EmailWorker => email_worker c end.
Definition applications : list CloudflareAccessApplication := [Browser; MobileApp; NodeFallback; EmailWorker].

(** ** Host names *)
Definition nonempty (s : string) : option string := if s =?s "" then None else Some s.
Definition normalize_host_name (host : string) : option string :=
  let host := to_ascii_lowercase (trim host) in
  if host =?s "" then None
  else if starts_with host "[" then nonempty (trim_start_char "[" (first_part "]" host))
  else nonempty (first_part ":" host).
Definition configured_hostname_matches (app : CloudflareAccessApplicationConfig) (host : string) : bool :=
  match bind_opt (ap_hostname app) normalize_host_name with
  | Some configured => configured =?s host
  | None => false
  end.
Definition cloudflare_access_application_for_host (c : CloudflareAccessConfig) (host : string)
    : option CloudflareAccessApplication :=
  bind_opt (normalize_host_name host) (fun hostname =>
  List.find (fun a => let app := application_config a c in ap_enabled app && configured_hostname_matches app hostname)
    applications).
Definition cloudflare_access_has_enabled_app (c : CloudflareAccessConfig) : bool :=
  existsb (fun a => ap_enabled (application_config a c)) applications.
Definition cloudflare_access_has_enabled_app_without_hostname (c : CloudflareAccessConfig) : bool :=
  existsb (fun a => let app := application_config a c in
    ap_enabled app && is_none (bind_opt (ap_hostname app) normalize_host_name)) applications.

(** ** Assertions *)
Definition trimmed_string (value : option string) : option string := trimmed value.
Definition context_from_claims (c : CloudflareAccessConfig) (a : CloudflareAccessApplication) (claims : CloudflareAccessClaims)
    : CloudflareAccessContext + CloudflareAccessContextError :=
  if negb (ap_enabled (application_config a c)) then inr Disabled
  else
    let subject := trim (cl_sub claims) in
    let email := trimmed_string (cl_email claims) in
    let common_name := trimmed_string (cl_common_name claims) in
    let identity :=
      match a with
      | Browser => email
      | MobileApp | NodeFallback => common_name
      | EmailWorker => or_else (or_else common_name email) (nonempty subject)
      end in
    match identity with
    | Some identity => inl (MkContext a subject identity email common_name)
    | None => inr MissingIdentity
    end.

Definition DEFAULT_LEEWAY : Z := 60.
Definition JWKS_TTL : Z := 60 * 60 * NANOS.
Definition UNKNOWN_KID_REFRESH_INTERVAL : Z := 30 * NANOS.

Section Gate.
Context `{W : Jwt} `{U : UriCrate} `{I : Monotonic} `{E : Env} `{F : LocalTime} `{K : DeviceCrypto} `{J : JsonParser}.
Abbreviation SM := (AM (server W)).

Definition cloudflare_access_issuer (issuer : string) : option string :=
  bind_opt (parse_uri issuer) (fun u =>
  bind_opt (uri_scheme u) (fun scheme =>
  if negb (scheme =?s "https") then None
  else if negb (uri_path u =?s "/") && negb (uri_path u =?s "") then None
  else if is_some (uri_query u) then None
  else
    bind_opt (uri_host u) (fun host =>
    let host := to_ascii_lowercase host in
    if (host =?s "cloudflareaccess.com") || ends_with host ".cloudflareaccess.com"
    then bind_opt (uri_authority u) (fun authority => Some ("https://" +:+ authority))
    else None))).
Definition expected_cloudflare_access_issuer (issuer : string) : string + CloudflareAccessError :=
  let issuer := trim issuer in
  if issuer =?s "" then inr MissingIssuer
  else match cloudflare_access_issuer issuer with Some i => inl i | None => inr InvalidIssuer end.
Definition cloudflare_access_assertion_key_id (token : string) : string + CloudflareAccessError :=
  match decode_header token with
  | None => inr MalformedToken
  | Some kid =>
      match kid with
      | Some kid => if trim kid =?s "" then inr MissingKeyId else inl kid
      | None => inr MissingKeyId
      end
  end.
Definition access_validation (issuer audience : string) : validation :=
  MkValidation [issuer] (Some [audience]) DEFAULT_LEEWAY true.
(** [k]: the reading of the clock made by the decoder. *)
Definition verify_cloudflare_access_assertion_with_jwks (k : nat) (token issuer audience : string) (jwks : jwk_set)
    : CloudflareAccessClaims + CloudflareAccessError :=
  match expected_cloudflare_access_issuer issuer with
  | inr e => inr e
  | inl issuer =>
      let audience := trim audience in
      if audience =?s "" then inr MissingAudience
      else
        match cloudflare_access_assertion_key_id token with
        | inr e => inr e
        | inl kid =>
            match jwks_find jwks kid with
            | None => inr UnknownKeyId
            | Some key =>
                match key_from_jwk key with
                | None => inr InvalidAssertion
                | Some key =>
                    match decode k token key (access_validation issuer audience) with
                    | Some claims => inl claims
                    | None => inr InvalidAssertion
                    end
                end
            end
        end
  end.
Definition classify_cloudflare_access_assertion_with_jwks (k : nat) (c : CloudflareAccessConfig)
    (a : CloudflareAccessApplication) (token : string) (jwks : jwk_set)
    : CloudflareAccessContext + CloudflareAccessContextError :=
  let app := application_config a c in
  if negb (ap_enabled app) then inr Disabled
  else
    match expected_issuer c, expected_audience app with
    | Some issuer, Some audience =>
        match verify_cloudflare_access_assertion_with_jwks k token issuer audience jwks with
        | inl claims => context_from_claims c a claims
        | inr e => inr (from_access_error e)
        end
    | _, _ => inr IncompleteConfig
    end.

(** ** The cache of signing keys *)
Definition certs_url (issuer : string) : string := issuer +:+ "/cdn-cgi/access/certs".
Definition fetch_cloudflare_access_jwks (issuer : string) : SM ((string * jwk_set) + CloudflareAccessError) :=
  match expected_cloudflare_access_issuer issuer with
  | inr e => ok (inr e)
  | inl issuer =>
      k <-! reading ;;
      ok (match fetch_jwks k (certs_url issuer) with Some jwks => inl (issuer, jwks) | None => inr JwksFetchFailed end)
  end.
(** [now.duration_since(earlier)] is zero when the clock went back. *)
Definition since (now earlier : Z) : Z := Z.max 0 (now - earlier).
Definition cloudflare_access_cached_jwks (issuer : string) (force_refresh : bool)
    : SM (jwk_set + CloudflareAccessContextError) :=
  k <-! reading ;;
  cache <-! read sv_jwks_cache ;;
  let fresh := bind_opt (cache !! issuer) (fun e =>
    if since (instant_now k) (je_fetched_at e) <? JWKS_TTL then Some (je_jwks e) else None) in
  match (if force_refresh then None else fresh) with
  | Some jwks => ok (inl jwks)
  | None =>
      let last := bind_opt (cache !! issuer) je_last_unknown_key_refresh in
      fetched <-! fetch_cloudflare_access_jwks issuer ;;
      match fetched with
      | inr e => ok (inr (from_access_error e))
      | inl (_, jwks) =>
          k <-! reading ;;
          change (fun s => s <| sv_jwks_cache := <[issuer := MkJwksEntry jwks (instant_now k) last]> (sv_jwks_cache s) |>) ;!;
          ok (inl jwks)
      end
  end.
Definition cloudflare_access_mark_unknown_key_refresh_if_allowed (issuer : string) : SM bool :=
  cache <-! read sv_jwks_cache ;;
  match cache !! issuer with
  | None => ok false
  | Some e =>
      k <-! reading ;;
      let now := instant_now k in
      let recent := match je_last_unknown_key_refresh e with
                    | Some last => since now last <? UNKNOWN_KID_REFRESH_INTERVAL
                    | None => false
                    end in
      if recent then ok false
      else
        change (fun s => s <| sv_jwks_cache :=
          <[issuer := MkJwksEntry (je_jwks e) (je_fetched_at e) (Some now)]> (sv_jwks_cache s) |>) ;!;
        ok true
  end.
Definition classify_cloudflare_access_assertion_cached (c : CloudflareAccessConfig) (a : CloudflareAccessApplication)
    (assertion : string) : SM (CloudflareAccessContext + CloudflareAccessContextError) :=
  match expected_issuer c with
  | None => ok (inr IncompleteConfig)
  | Some issuer =>
      let app := application_config a c in
      if negb (ap_enabled app) then ok (inr Disabled)
      else if is_none (expected_audience app) then ok (inr IncompleteConfig)
      else
        match cloudflare_access_assertion_key_id assertion with
        | inr e => ok (inr (from_access_error e))
        | inl _ =>
            had_cached <-! read (fun s => is_some (sv_jwks_cache s !! issuer)) ;;
            jwks <-! cloudflare_access_cached_jwks issuer false ;;
            match jwks with
            | inr e => ok (inr e)
            | inl jwks =>
                k <-! reading ;;
                let result := classify_cloudflare_access_assertion_with_jwks k c a assertion jwks in
                match result with
                | inr (InvalidContextAssertion UnknownKeyId) =>
                    if had_cached then
                      allowed <-! cloudflare_access_mark_unknown_key_refresh_if_allowed issuer ;;
                      if (allowed : bool) then
                        refreshed <-! cloudflare_access_cached_jwks issuer true ;;
                        match refreshed with
                        | inr e => ok (inr e)
                        | inl jwks => k <-! reading ;;
                                      ok (classify_cloudflare_access_assertion_with_jwks k c a assertion jwks)
                        end
                      else ok result
                    else ok result
                | _ => ok result
                end
            end
        end
  end.

(** ** Answers *)
Definition FORBIDDEN : Z := 403.
Definition SERVICE_UNAVAILABLE : Z := 503.
Definition UNAUTHORIZED : Z := 401.
Definition cloudflare_access_required_application (a : option CloudflareAccessApplication) : api_error :=
  ApiStatus FORBIDDEN
    (match a with
     | Some MobileApp => "Cloudflare Access mobile app assertion is required"
     | Some Browser => "Cloudflare Access browser assertion is required"
     | Some NodeFallback => "Cloudflare Access node assertion is required"
     | Some EmailWorker => "Cloudflare Access worker assertion is required"
     | None => "Cloudflare Access assertion is required"
     end).
Definition cloudflare_access_error (e : CloudflareAccessContextError) : api_error :=
  match e with
  | Disabled => ApiStatus FORBIDDEN "Cloudflare Access application is disabled"
  | IncompleteConfig => ApiStatus SERVICE_UNAVAILABLE "Cloudflare Access is enabled but incomplete"
  | MissingIdentity => ApiStatus FORBIDDEN "Cloudflare Access assertion is missing required identity"
  | InvalidContextAssertion JwksFetchFailed =>
      ApiStatus SERVICE_UNAVAILABLE "Cloudflare Access assertion verifier is unavailable"
  | InvalidContextAssertion _ => ApiStatus FORBIDDEN "Invalid Cloudflare Access assertion"
  end.

(** ** Devices *)
(** A key of the configuration that is in force. *)
Definition static_key_in_force (device : string) (key : MobileTerminalDeviceKeyConfig) : bool :=
  dk_enabled key && (trim (dk_id key) =?s device) && negb (trim (dk_public_key key) =?s "").
Definition mobile_cloudflare_access_device_enrolled_for_user (c : AppConfig) (user_id device : string) : SM bool :=
  let device := trim device in
  if device =?s "" then ok false
  else
    revoked <-! read sv_revoked_keys ;;
    let static := match find_user user_id (mobile_terminal c) with
                  | Some user => existsb (fun key => static_key_in_force device key
                                            && negb (bool_decide ((user_id, trim (dk_id key)) ∈ revoked)))
                                   (registered_device_keys user)
                  | None => false
                  end in
    if static then ok true else on_device_db (active_device_exists true user_id device).
(** The loop over the users; it stops at the first. *)
Fixpoint any_user_has_device (c : AppConfig) (device : string) (users : list string) : SM bool :=
  match users with
  | [] => ok false
  | user_id :: rest =>
      enrolled <-! mobile_cloudflare_access_device_enrolled_for_user c user_id device ;;
      if (enrolled : bool) then ok true else any_user_has_device c device rest
  end.
Definition NOT_ENROLLED : api_error := ApiStatus FORBIDDEN "Cloudflare Access mobile device is not enrolled".
Definition NOT_ENROLLED_FOR_ACTOR : api_error :=
  ApiStatus FORBIDDEN "Cloudflare Access mobile device is not enrolled for actor".
Definition ensure_mobile_cloudflare_access_device_enrolled (c : AppConfig) (device : string) : SM unit :=
  let device := trim device in
  if device =?s "" then fail NOT_ENROLLED
  else
    enrolled <-! any_user_has_device c device (map fst (mt_allowed_users (mobile_terminal c))) ;;
    check enrolled NOT_ENROLLED.
Definition ensure_mobile_cloudflare_access_device_enrolled_for_user (c : AppConfig) (user_id device : string) : SM unit :=
  enrolled <-! mobile_cloudflare_access_device_enrolled_for_user c user_id device ;; check enrolled NOT_ENROLLED_FOR_ACTOR.
Definition ensure_cloudflare_access_context_allowed (c : AppConfig) (ctx : CloudflareAccessContext) : SM unit :=
  if bool_decide (cx_application ctx = MobileApp) then ensure_mobile_cloudflare_access_device_enrolled c (cx_identity ctx)
  else ok tt.

(** The user an actor is: the first whose id, email or alias it is. *)
Definition user_candidates (user_id : string) (user : MobileTerminalUserConfig) : list string :=
  to_ascii_lowercase (trim user_id)
  :: (match trimmed (us_email user) with Some email => [to_ascii_lowercase email] | None => [] end
  ++ List.filter (fun alias => negb (alias =?s "")) (map (fun alias => to_ascii_lowercase (trim alias)) (us_aliases user))).
Definition mobile_terminal_visible_user (c : AppConfig) (actor_email : string) : option (string * MobileTerminalUserConfig) :=
  let actor := to_ascii_lowercase (trim actor_email) in
  if actor =?s "" then None
  else List.find (fun kv => existsb (fun candidate => negb (candidate =?s "") && (candidate =?s actor))
                              (user_candidates (fst kv) (snd kv))) (mt_allowed_users (mobile_terminal c)).
Definition ensure_mobile_cloudflare_access_context_matches_actor (c : AppConfig) (ctx : option CloudflareAccessContext)
    (actor_email : string) : SM unit :=
  match ctx with
  | None => ok tt
  | Some ctx =>
      if negb (bool_decide (cx_application ctx = MobileApp)) then ok tt
      else
        match mobile_terminal_visible_user c actor_email with
        | None => fail NOT_ENROLLED_FOR_ACTOR
        | Some (user_id, _) => ensure_mobile_cloudflare_access_device_enrolled_for_user c user_id (cx_identity ctx)
        end
  end.
Definition ensure_mobile_cloudflare_access_context_matches_optional_actor (c : AppConfig)
    (ctx : option CloudflareAccessContext) (actor_email : option string) : SM unit :=
  match ctx, actor_email with
  | None, _ => ok tt
  | Some _, None => fail (ApiStatus UNAUTHORIZED "Authentication required")
  | Some _, Some actor => ensure_mobile_cloudflare_access_context_matches_actor c ctx actor
  end.

(** ** The gate *)
Definition ensure_cloudflare_access_application_from_parts (c : AppConfig) (h : headers) (peer : option ip_addr)
    (required : option CloudflareAccessApplication) : SM (option CloudflareAccessContext) :=
  if is_local_bypass_request h peer (ga_public_host (google_auth c)) then ok None
  else if cloudflare_access_has_enabled_app_without_hostname (cf_access c) then fail (cloudflare_access_error IncompleteConfig)
  else
    match request_hostname h with
    | None => if cloudflare_access_has_enabled_app (cf_access c) then fail (cloudflare_access_required_application required)
              else ok None
    | Some hostname =>
        match cloudflare_access_application_for_host (cf_access c) hostname with
        | None => if negb (cloudflare_access_has_enabled_app (cf_access c)) then ok None
                  else fail (cloudflare_access_required_application required)
        | Some application =>
            if match required with Some r => negb (bool_decide (r = application)) | None => false end
            then fail (cloudflare_access_required_application required)
            else
              match header_text h "cf-access-jwt-assertion" with
              | None => fail (cloudflare_access_required_application required)
              | Some assertion =>
                  classified <-! classify_cloudflare_access_assertion_cached (cf_access c) application assertion ;;
                  match classified with
                  | inr e => fail (cloudflare_access_error e)
                  | inl ctx => ensure_cloudflare_access_context_allowed c ctx ;!; ok (Some ctx)
                  end
              end
        end
    end.
End Gate.
