(* ===== verification/CloudflareAccessProps.v ===== *)
(** * Who passes the access gate *)
From Stdlib Require Import ZArith Lia Bool String Ascii List.
From stdpp Require Import base tactics list strings gmap.
From S2P Require Import Prelude Text StrMethods Table Clock Json HttpRequest Api ServerConfig UsageDb MobileDevices.
From S2P Require Import MobileDevicesProps Server CloudflareAccess Demo DemoUsage.

Section Gate.
Context `{W : Jwt} `{L : !JwtLaws W} `{U : UriCrate} `{I : Monotonic} `{E : Env} `{F : LocalTime} `{K : DeviceCrypto}
  `{J : JsonParser}.

(** The keys of an issuer: those its certificate page gave at some reading. *)
Definition keys_of_issuer (issuer : string) (jwks : jwk_set) : Prop :=
  exists k normal, expected_cloudflare_access_issuer issuer = inl normal /\ fetch_jwks k (certs_url normal) = Some jwks.
Definition keys_known (cache : gmap string (jwks_entry W)) : Prop :=
  forall issuer e, cache !! issuer = Some e -> keys_of_issuer issuer (je_jwks e).
Definition cache_ok (s : server W) : Prop := keys_known (sv_jwks_cache s).

Lemma keys_known_insert cache issuer e : keys_known cache -> keys_of_issuer issuer (je_jwks e) ->
  keys_known (<[issuer := e]> cache).
Proof. intros Hs He i e'. intros [[<- <-]|[_ Hi]]%lookup_insert_Some; [done|by eapply Hs]. Qed.
Lemma fetch_keys issuer (s : server W) r s' : fetch_cloudflare_access_jwks issuer s = (inl r, s') ->
  sv_jwks_cache s' = sv_jwks_cache s /\ forall p, r = inl p -> keys_of_issuer issuer (snd p).
Proof.
  unfold fetch_cloudflare_access_jwks, try, reading, ok. destruct (expected_cloudflare_access_issuer issuer) as [normal|e] eqn:Ei.
  - cbn. intros [= <- <-]. split; [done|]. intros p. destruct (fetch_jwks _ _) as [jwks|] eqn:Ef; [|done]. intros [= <-].
    cbn. by exists (sv_tick s), normal.
  - by intros [= <- <-].
Qed.
Lemma cached_keys issuer force (s : server W) r s' : cache_ok s ->
  cloudflare_access_cached_jwks issuer force s = (inl r, s') ->
  cache_ok s' /\ forall jwks, r = inl jwks -> keys_of_issuer issuer jwks.
Proof.
  intros Hs Hrun. unfold cloudflare_access_cached_jwks in Hrun. apply try_inl_inv in Hrun as (k & s1 & H1 & Hrun). injection H1 as <- <-.
  apply try_inl_inv in Hrun as (cache & s2 & H2 & Hrun). injection H2 as <- <-. cbn in Hrun.
  set (hit := if force then None else _) in Hrun. destruct hit as [jwks|] eqn:Eh.
  - injection Hrun as <- <-. split; [exact Hs|]. intros j [= <-]. unfold hit in Eh. destruct force; [done|].
    destruct (sv_jwks_cache s !! issuer) as [e|] eqn:Ec; [|done]. cbn in Eh.
    destruct (_ <? _); [|done]. injection Eh as <-. by apply Hs.
  - clear hit Eh. inv_api Hrun. apply fetch_keys in Hrun0 as [Hc Hp]. destruct a as [[normal jwks]|e].
    + unfold reading in Hrun. unfold try, change, ok in Hrun. cbn in Hrun. injection Hrun as <- <-. split.
      * apply keys_known_insert; [|by apply (Hp (normal, jwks))]. cbn. rewrite Hc. exact Hs.
      * intros j [= <-]. by apply (Hp (normal, jwks)).
    + injection Hrun as <- <-. split; [|done]. unfold cache_ok. rewrite Hc. exact Hs.
Qed.
Lemma mark_keys issuer (s : server W) b s' : cache_ok s ->
  cloudflare_access_mark_unknown_key_refresh_if_allowed issuer s = (inl b, s') -> cache_ok s'.
Proof.
  intros Hs. unfold cloudflare_access_mark_unknown_key_refresh_if_allowed, try, read, reading, change, ok. cbn.
  destruct (sv_jwks_cache s !! issuer) as [e|] eqn:Ec; [|by intros [= _ <-]].
  destruct (match je_last_unknown_key_refresh e with Some _ => _ | None => _ end); intros [= _ <-]; [exact Hs|].
  apply keys_known_insert; [exact Hs|exact (Hs issuer e Ec)].
Qed.
Lemma reading_keys (s : server W) k s' : reading s = (inl k, s') -> cache_ok s -> cache_ok s'.
Proof. intros [= _ <-]. done. Qed.

(** An assertion of the issuer for an audience, by a key the issuer published. *)
Definition genuine (c : CloudflareAccessConfig) (a : CloudflareAccessApplication) (token : string) : Prop :=
  exists issuer audience jwks kid key dkey,
    expected_issuer c = Some issuer /\ expected_audience (application_config a c) = Some audience
    /\ keys_of_issuer issuer jwks /\ cloudflare_access_assertion_key_id token = inl kid
    /\ jwks_find jwks kid = Some key /\ key_from_jwk key = Some dkey
    /\ signed_by token dkey /\ In (trim audience) (audiences token).
(** The identity the application goes by. *)
Definition identified (ctx : CloudflareAccessContext) : Prop :=
  match cx_application ctx with
  | Browser => cx_email ctx = Some (cx_identity ctx)
  | MobileApp | NodeFallback => cx_common_name ctx = Some (cx_identity ctx)
  | EmailWorker => cx_common_name ctx = Some (cx_identity ctx) \/ cx_email ctx = Some (cx_identity ctx)
                   \/ cx_subject ctx = cx_identity ctx
  end /\ cx_identity ctx <> ""%string.

Lemma context_identified c a claims ctx : context_from_claims c a claims = inl ctx ->
  cx_application ctx = a /\ identified ctx /\ ap_enabled (application_config a c) = true.
Proof.
  unfold context_from_claims. destruct (ap_enabled _); [|done]. cbn [negb].
  set (ident := match a with Browser => _ | _ => _ end). destruct ident as [i|] eqn:Ei; [|done]. intros [= <-].
  split; [done|]. split; [|done]. unfold identified. cbn [cx_application cx_email cx_identity cx_common_name cx_subject].
  assert (forall o t, trimmed o = Some t -> t <> ""%string) as Ht
    by (intros o t (? & _ & _ & ?)%trimmed_Some; done).
  unfold ident in Ei. unfold trimmed_string in *. destruct a; [split; [done|by eapply Ht]..|].
  destruct (trimmed (cl_common_name claims)) as [n|] eqn:En; cbn in Ei.
  { injection Ei as <-. split; [by left|by eapply Ht]. }
  destruct (trimmed (cl_email claims)) as [m|] eqn:Em; cbn in Ei.
  { injection Ei as <-. split; [by right; left|by eapply Ht]. }
  unfold nonempty in Ei. destruct (String.eqb_spec (trim (cl_sub claims)) ""); [done|]. injection Ei as <-. auto.
Qed.
Lemma classify_genuine k c a token jwks ctx issuer : expected_issuer c = Some issuer -> keys_of_issuer issuer jwks ->
  classify_cloudflare_access_assertion_with_jwks k c a token jwks = inl ctx ->
  genuine c a token /\ cx_application ctx = a /\ identified ctx /\ ap_enabled (application_config a c) = true.
Proof.
  intros Hi Hk. unfold classify_cloudflare_access_assertion_with_jwks. destruct (negb (ap_enabled _)); [done|].
  rewrite Hi. destruct (expected_audience _) as [audience|] eqn:Ea; [|done].
  destruct (verify_cloudflare_access_assertion_with_jwks k token issuer audience jwks) as [claims|e] eqn:Ev; [|done].
  intros Hc. apply context_identified in Hc. split; [|exact Hc]. unfold verify_cloudflare_access_assertion_with_jwks in Ev.
  destruct (expected_cloudflare_access_issuer issuer) as [normal|]; [|done]. cbv zeta in Ev.
  destruct (trim audience =?s ""); [done|].
  destruct (cloudflare_access_assertion_key_id token) as [kid|] eqn:Ek; [|done].
  destruct (jwks_find jwks kid) as [key|] eqn:Ef; [|done]. destruct (key_from_jwk key) as [dkey|] eqn:Ed; [|done].
  destruct (decode k token dkey _) as [claims'|] eqn:Edec; [|done].
  exists issuer, audience, jwks, kid, key, dkey. repeat split; try done; [by eapply decode_signed|].
  destruct (decode_audience _ _ _ _ _ [trim audience] Edec eq_refl) as (x & [<-|[]] & Hx). done.
Qed.

Lemma classify_cached_genuine c a token (s : server W) ctx s' : cache_ok s ->
  classify_cloudflare_access_assertion_cached c a token s = (inl (inl ctx), s') ->
  genuine c a token /\ cx_application ctx = a /\ identified ctx /\ ap_enabled (application_config a c) = true.
Proof.
  intros Hs Hrun. unfold classify_cloudflare_access_assertion_cached in Hrun.
  destruct (expected_issuer c) as [issuer|] eqn:Ei; [|done]. destruct (negb (ap_enabled _)); [done|].
  destruct (is_none _); [done|]. destruct (cloudflare_access_assertion_key_id token) as [kid|]; [|done].
  apply try_inl_inv in Hrun as (had & s1 & H1 & Hrun). injection H1 as <- <-.
  apply try_inl_inv in Hrun as (r & s2 & H2 & Hrun). apply cached_keys in H2 as [Hs2 Hk]; [|done].
  destruct r as [jwks|e]; [|done]. specialize (Hk jwks eq_refl).
  apply try_inl_inv in Hrun as (k & s3 & H3 & Hrun). injection H3 as <- <-. cbv zeta in Hrun.
  destruct (classify_cloudflare_access_assertion_with_jwks _ c a token jwks) as [ctx'|e] eqn:Ec.
  { injection Hrun as -> <-. by eapply classify_genuine. }
  destruct e as [| | |[]]; try done. destruct (is_some _); [|done].
  apply try_inl_inv in Hrun as (allowed & s4 & H4 & Hrun). apply mark_keys in H4; [|exact Hs2]. destruct allowed; [|done].
  apply try_inl_inv in Hrun as (r & s5 & H5 & Hrun). apply cached_keys in H5 as [Hs5 Hk5]; [|done].
  destruct r as [jwks'|e]; [|done]. apply try_inl_inv in Hrun as (k' & s6 & H6 & Hrun). injection H6 as <- <-.
  injection Hrun as Hrun <-. eapply classify_genuine; [done|by apply Hk5|done].
Qed.

(** A device of a user: a key of the configuration in force, or an enrolled device. *)
Definition device_of_user (c : AppConfig) (s : server W) (user_id device : string) : Prop :=
  (exists user key, find_user user_id (mobile_terminal c) = Some user /\ In key (registered_device_keys user)
     /\ static_key_in_force device key = true /\ (user_id, device) ∉ sv_revoked_keys s)
  \/ active_key user_id device (sv_devices s) <> None.
Lemma enrolled_for_user c user_id device (s : server W) s' :
  mobile_cloudflare_access_device_enrolled_for_user c user_id device s = (inl true, s') ->
  device_of_user c s user_id (trim device).
Proof.
  unfold mobile_cloudflare_access_device_enrolled_for_user. destruct (trim device =?s ""); [done|].
  intros Hrun. apply try_inl_inv in Hrun as (revoked & s1 & H1 & Hrun). injection H1 as <- <-. cbv zeta in Hrun.
  destruct (find_user user_id _) as [user|] eqn:Eu.
  - destruct (existsb _ _) eqn:Ex.
    + left. apply existsb_exists in Ex as (key & Hin & Hk). apply andb_true_iff in Hk as [Hk Hr].
      exists user, key. repeat split; try done. unfold static_key_in_force in Hk. bool_simpl.
      match goal with H : trim (dk_id key) = _ |- _ => rewrite H in * end. by apply bool_decide_eq_false in Hr.
    + right. unfold on_device_db, active_device_exists, active_device_public_key, bind, query, gets, ret in Hrun.
      cbn in Hrun. injection Hrun as Hrun <-. unfold active_key. by destruct (List.find _ _).
  - right. unfold on_device_db, active_device_exists, active_device_public_key, bind, query, gets, ret in Hrun.
    cbn in Hrun. injection Hrun as Hrun <-. unfold active_key. by destruct (List.find _ _).
Qed.

Lemma on_read_devices (m : DM bool) (s : server W) r s' : steps db_eq m -> on_device_db m s = (r, s') ->
  sv_devices s' = sv_devices s /\ sv_revoked_keys s' = sv_revoked_keys s.
Proof.
  intros Hm. unfold on_device_db. specialize (Hm (World (sv_devices s) (sv_tick s))). unfold db_eq, on_db in Hm.
  destruct (m _) as [[a|e|] w]; cbn in Hm; intros [= <- <-]; by rewrite <- Hm.
Qed.
Lemma enrolled_frame c user_id device (s : server W) r s' :
  mobile_cloudflare_access_device_enrolled_for_user c user_id device s = (r, s') ->
  sv_devices s' = sv_devices s /\ sv_revoked_keys s' = sv_revoked_keys s.
Proof.
  unfold mobile_cloudflare_access_device_enrolled_for_user. destruct (trim device =?s ""); [by intros [= _ <-]|].
  unfold try, read. cbv zeta. destruct (match find_user _ _ with Some _ => _ | None => _ end); [by intros [= _ <-]|].
  apply on_read_devices. unfold active_device_exists, active_device_public_key. step_through.
Qed.
Lemma any_user_device c device users (s : server W) s' : any_user_has_device c device users s = (inl true, s') ->
  exists user_id, In user_id users /\ device_of_user c s user_id (trim device).
Proof.
  revert s. induction users as [|u users IH]; intros s Hrun; [done|]. cbn in Hrun.
  apply try_inl_inv in Hrun as (b & s1 & H1 & Hrun). destruct b.
  - exists u. split; [by left|]. by eapply enrolled_for_user.
  - apply IH in Hrun as (u' & Hin & Hd). exists u'. split; [by right|]. apply enrolled_frame in H1 as [H1 H2].
    unfold device_of_user in *. by rewrite H1, H2 in Hd.
Qed.
Lemma allowed_device c ctx (s : server W) u s' : ensure_cloudflare_access_context_allowed c ctx s = (inl u, s') ->
  cx_application ctx = MobileApp ->
  exists user_id, In user_id (map fst (mt_allowed_users (mobile_terminal c)))
    /\ device_of_user c s user_id (trim (trim (cx_identity ctx))).
Proof.
  unfold ensure_cloudflare_access_context_allowed. intros Hrun Ha. rewrite bool_decide_eq_true_2 in Hrun by done.
  unfold ensure_mobile_cloudflare_access_device_enrolled in Hrun. cbv zeta in Hrun.
  destruct (trim (cx_identity ctx) =?s ""); [done|]. apply try_inl_inv in Hrun as (b & s1 & H1 & Hrun).
  apply check_inl_inv in Hrun as [-> ->]. by eapply any_user_device.
Qed.

(** Verifying an assertion touches neither devices nor revocations. *)
Definition same_devices_keys (s s' : server W) : Prop :=
  sv_devices s' = sv_devices s /\ sv_revoked_keys s' = sv_revoked_keys s.
#[local] Instance same_devices_keys_preorder : PreOrder same_devices_keys.
Proof. split; [done|]. intros ??? [] []. split; congruence. Qed.
Lemma classify_same c a token : asteps same_devices_keys (classify_cloudflare_access_assertion_cached c a token).
Proof.
  assert (asteps same_devices_keys reading) as Hr by (intros s; done).
  assert (forall i, asteps same_devices_keys (fetch_cloudflare_access_jwks i)) as Hf
    by (intros i; unfold fetch_cloudflare_access_jwks; api_steps).
  assert (forall i b, asteps same_devices_keys (cloudflare_access_cached_jwks i b)) as Hc
    by (intros i b; unfold cloudflare_access_cached_jwks; api_steps; done).
  assert (forall i, asteps same_devices_keys (cloudflare_access_mark_unknown_key_refresh_if_allowed i)) as Hm
    by (intros i; unfold cloudflare_access_mark_unknown_key_refresh_if_allowed; api_steps; done).
  unfold classify_cloudflare_access_assertion_cached. api_steps.
Qed.
Lemma classify_cached_frame c a token (s : server W) r s' :
  classify_cloudflare_access_assertion_cached c a token s = (r, s') ->
  sv_devices s' = sv_devices s /\ sv_revoked_keys s' = sv_revoked_keys s.
Proof.
  intros Hrun. pose proof (classify_same c a token s) as Hs. rewrite Hrun in Hs. exact Hs.
Qed.

(** C8: Only genuine requests pass the access gate.  A request that passes without an
    access context is a local one, or no application is protected.  A request that passes
    with a context presented an assertion for the application its host name belongs to, the
    one the handler asked for, signed by a key the configured issuer published and meant
    for that application; its identity is the one that application goes by; and a mobile
    request comes from a device enrolled for a configured user. *)
Theorem gate_admits_genuine c h peer required (s : server W) r s' :
  cache_ok s -> ensure_cloudflare_access_application_from_parts c h peer required s = (inl r, s') ->
  match r with
  | None => is_local_bypass_request h peer (ga_public_host (google_auth c)) = true
            \/ cloudflare_access_has_enabled_app (cf_access c) = false
  | Some ctx =>
      let a := cx_application ctx in
      (exists host token, request_hostname h = Some host
         /\ cloudflare_access_application_for_host (cf_access c) host = Some a
         /\ header_text h "cf-access-jwt-assertion" = Some token /\ genuine (cf_access c) a token)
      /\ ap_enabled (application_config a (cf_access c)) = true
      /\ (forall q, required = Some q -> q = a)
      /\ identified ctx
      /\ (a = MobileApp -> exists user_id, In user_id (map fst (mt_allowed_users (mobile_terminal c)))
            /\ device_of_user c s user_id (trim (trim (cx_identity ctx))))
  end.
Proof.
  intros Hs Hrun. unfold ensure_cloudflare_access_application_from_parts in Hrun.
  destruct (is_local_bypass_request _ _ _) eqn:El; [injection Hrun as <- <-; by left|].
  destruct (cloudflare_access_has_enabled_app_without_hostname _); [done|].
  destruct (request_hostname h) as [host|] eqn:Eh.
  2:{ destruct (cloudflare_access_has_enabled_app _) eqn:Ee; [done|]. injection Hrun as <- <-. by right. }
  destruct (cloudflare_access_application_for_host _ host) as [a|] eqn:Ea.
  2:{ destruct (cloudflare_access_has_enabled_app _) eqn:Ee; [done|]. injection Hrun as <- <-. by right. }
  destruct (match required with Some _ => _ | None => _ end) eqn:Er; [done|].
  destruct (header_text h _) as [token|] eqn:Et; [|done].
  apply try_inl_inv in Hrun as (cl & s1 & Hc & Hrun). destruct cl as [ctx|e]; [|done].
  pose proof (classify_cached_frame _ _ _ _ _ _ Hc) as [Hd Hrk].
  apply classify_cached_genuine in Hc as (Hg & Hca & Hid & Hen); [|done].
  apply try_inl_inv in Hrun as (u & s2 & Hall & Hrun). injection Hrun as <- <-. cbv zeta. rewrite Hca.
  split; [by exists host, token|]. split; [done|]. split; [|split; [done|]].
  - intros q ->. apply negb_false_iff, bool_decide_eq_true in Er. done.
  - intros ->. destruct (allowed_device _ _ _ _ _ Hall Hca) as (uid & Hin & Hdev). exists uid. split; [done|].
    unfold device_of_user in *. by rewrite Hd, Hrk in Hdev.
Qed.
End Gate.

(** ** A concrete gate *)
#[local] Existing Instances demo_local demo_crypto demo_texts.
(** Tokens are the texts of their key ids; the key of an id is the id. *)
#[local] Instance demo_jwt : Jwt := {|
  jwk_set := list string; jwk := string; decoding_key := string;
  decode_header := fun token => Some (Some token);
  jwks_find := fun set kid => List.find (fun k => k =?s kid) set;
  key_from_jwk := fun k => Some k;
  decode := fun _ token key v =>
    if (token =?s key) && bool_decide (vd_audience v = Some ["aud"%string]) then
      match vd_issuers v with i :: _ => Some (MkClaims "sub" 0 0 i (Some "phone"%string) None) | [] => None end
    else None;
  decode_claims := fun _ _ _ _ => None;
  fetch_jwks := fun _ _ => Some ["key1"%string] |}.
#[local] Instance demo_jwt_laws : JwtLaws demo_jwt.
Proof.
  refine {| signed_by := fun token key => token = key; audiences := fun _ => ["aud"%string] |}.
  - intros k token key v claims. cbn. destruct (String.eqb_spec token key); [done|done].
  - intros k token key v claims. cbn. destruct (_ && _); [|done]. destruct (vd_issuers v); [done|]. intros [= <-]. by left.
  - done.
  - done.
  - intros k token key v claims l. cbn. destruct (bool_decide_reflect (vd_audience v = Some ["aud"%string])) as [->|].
    + intros _ [= <-]. exists "aud"%string. by repeat split; left.
    + by rewrite andb_false_r.
Defined.
#[local] Instance demo_uri : UriCrate := {|
  parse_uri := fun s => Some (MkUri (Some "https"%string) (Some "team.cloudflareaccess.com"%string)
                                (Some "team.cloudflareaccess.com"%string) "/" None) |}.
#[local] Instance demo_monotonic : Monotonic := {| instant_now := fun k => Z.of_nat k * NANOS |}.
Definition demo_off : CloudflareAccessApplicationConfig := MkAccessApp false None None None.
Definition demo_gate_config : AppConfig :=
  MkAppConfig
    (MkAccessConfig None None None (Some "team.cloudflareaccess.com"%string) demo_off
       (MkAccessApp true None (Some "mobile.example.org"%string) (Some "aud"%string)) demo_off demo_off None None None)
    (MkGoogleAuth false None None None None None None [] None) (MkPublicEdge false None 0) (MkExternalAccess None None)
    (MkMobileTerminal true None None true [("ann"%string, MkUserConfig None [] true false false false [])] 0 0 0 0 0).
Definition demo_gate : server demo_jwt :=
  MkServer ∅ None ∅ ∅ ∅ ∅ ∅ ∅ false (w_db demo_enrolled) 0.
Definition demo_headers (token : string) : headers :=
  [("host", "Mobile.example.org:443"); ("cf-access-jwt-assertion", token)]%string.
Definition demo_context : CloudflareAccessContext := MkContext MobileApp "sub" "phone" None (Some "phone"%string).
Lemma demo_gate_answers :
  fst (ensure_cloudflare_access_application_from_parts demo_gate_config (demo_headers "key1") (Some (V4 10 0 0 1))
         (Some MobileApp) demo_gate) = inl (Some demo_context)
  /\ fst (ensure_cloudflare_access_application_from_parts demo_gate_config (demo_headers "key2") (Some (V4 10 0 0 1))
         (Some MobileApp) demo_gate) = inr (ApiStatus 403 "Invalid Cloudflare Access assertion")
  /\ fst (ensure_cloudflare_access_application_from_parts demo_gate_config [("host", "localhost")]%string
         (Some (V4 127 0 0 1)) (Some MobileApp) demo_gate) = inl None
  /\ fst (ensure_cloudflare_access_application_from_parts demo_gate_config [("host", "localhost")]%string
         (Some (V4 10 0 0 1)) (Some MobileApp) demo_gate)
     = inr (ApiStatus 403 "Cloudflare Access mobile app assertion is required").
Proof. vm_compute. done. Qed.
Lemma gate_admits_genuine_witness :
  genuine (cf_access demo_gate_config) MobileApp "key1" /\ device_of_user demo_gate_config demo_gate "ann" "phone".
Proof.
  pose proof (gate_admits_genuine demo_gate_config (demo_headers "key1") (Some (V4 10 0 0 1)) (Some MobileApp) demo_gate
    (Some demo_context) (snd (ensure_cloudflare_access_application_from_parts demo_gate_config (demo_headers "key1")
       (Some (V4 10 0 0 1)) (Some MobileApp) demo_gate))) as H.
  destruct H as ((host & token & _ & _ & Ht & Hg) & _ & _ & _ & Hd).
  - intros issuer e Hl. change (sv_jwks_cache demo_gate) with (∅ : gmap string (jwks_entry demo_jwt)) in Hl.
    by rewrite lookup_empty in Hl.
  - vm_compute. reflexivity.
  - vm_compute in Ht. injection Ht as <-. split; [exact Hg|]. destruct (Hd eq_refl) as (u & [<-|[]] & Hu). exact Hu.
Defined.
