(* ===== verification/PublicEdge.v ===== *)
(** * Assertions of the public edge (http.rs)

    The edge in front of the server signs each request with a time stamp and a nonce.  The
    server checks the time, the signature and that the nonce was not used, and remembers
    nonces until they expire. *)
From Stdlib Require Import ZArith Lia Bool String Ascii List.
From stdpp Require Import base tactics list strings gmap relations.
From S2P Require Import Prelude Text StrMethods Table Clock Json Floats HttpRequest Api ServerConfig UsageDb MobileDevices.
From S2P Require Import Server CloudflareAccess Demo DemoUsage.

(** The [hmac] and [base64] crates, on byte strings. *)
Class Signing : Type := {
  hmac_sha256 : string -> string -> string;
  base64_standard_decode : string -> option string;
  base64_urlsafe_decode : string -> option string }.

(** ** Comparing in constant time *)
Definition constant_time_eq (left right : list ascii) : bool :=
  if negb (Nat.eqb (length left) (length right)) then false
  else (fold_left (fun acc lr => N.lor acc (N.lxor (N_of_ascii (fst lr)) (N_of_ascii (snd lr)))) (zip left right) 0 =? 0)%N.

(** ** Nonces *)
Definition US : string := String (ascii_of_N 31) "".
(** The nonces still held and whether [key] is new; a new one is recorded. *)
Definition record_nonce (key : string) (expires_at now : Z) (nonces : gmap string Z) : bool * gmap string Z :=
  let kept := filter (fun kv => now < snd kv) nonces in
  if is_some (kept !! key) then (false, kept) else (true, <[key := Z.max expires_at (now + 1)]> kept).

Definition INVALID_EDGE_TIMESTAMP : api_error := ApiStatus FORBIDDEN "Invalid public edge timestamp".
Definition INVALID_EDGE_ASSERTION : api_error := ApiStatus FORBIDDEN "Invalid public edge assertion".
Definition public_edge_assertion_required : api_error := ApiStatus FORBIDDEN "Public edge assertion is required".
Definition public_edge_assertion_message (method path timestamp nonce : string) : string :=
  join NL ["SM-PUBLIC-EDGE-V1"%string; to_ascii_uppercase method; path; timestamp; nonce].
Definition public_edge_assertion_nonce_key (method path nonce : string) : string :=
  join US [to_ascii_uppercase method; path; nonce].

Section Edge.
Context `{W : Jwt} `{E : Env} `{G : Signing}.
Abbreviation SM := (AM (server W)).

(** The two time stamp checks; the expiry in seconds. *)
Definition validate_timestamp (invalid expired : api_error) (timestamp : string) (max_skew_seconds : Z) : SM Z :=
  match parse_f64 timestamp with
  | None => fail invalid
  | Some ts =>
      if negb (f64_is_finite ts) then fail invalid
      else
        let max_skew := f64_of_Z (clamp_u64 max_skew_seconds 5 600 60) in
        now <-! unix_now ;;
        if f64_ltb max_skew (f64_abs (f64_sub (f64_of_Z now) ts)) then fail expired
        else ok (f64_ceil_i64 (f64_add ts max_skew))
  end.
Definition validate_public_edge_timestamp : string -> Z -> SM Z :=
  validate_timestamp INVALID_EDGE_TIMESTAMP (ApiStatus FORBIDDEN "Expired public edge assertion").

Definition decode_signature (signature : string) : option string :=
  or_else (base64_standard_decode (trim signature)) (base64_urlsafe_decode (trim signature)).
Definition verify_public_edge_assertion (secret method path timestamp nonce signature : string) : SM unit :=
  signature <-! need INVALID_EDGE_ASSERTION (decode_signature signature) ;;
  let expected := hmac_sha256 secret (public_edge_assertion_message method path timestamp nonce) in
  check (constant_time_eq (bytes_of signature) (bytes_of expected)) INVALID_EDGE_ASSERTION.
Definition record_public_edge_assertion_nonce (method path nonce : string) (expires_at now : Z) : SM unit :=
  nonces <-! read sv_edge_nonces ;;
  let '(fresh, nonces) := record_nonce (public_edge_assertion_nonce_key method path nonce) expires_at now nonces in
  change (fun s => s <| sv_edge_nonces := nonces |>) ;!;
  check fresh (ApiStatus FORBIDDEN "Public edge assertion nonce was already used").

Definition ensure_public_edge_assertion_from_parts (c : AppConfig) (h : headers) (peer : option ip_addr)
    (method path : string) : SM unit :=
  let config := public_edge c in
  if negb (pe_enabled config) then ok tt
  else if is_local_bypass_request h peer (ga_public_host (google_auth c)) then ok tt
  else
    secret <-! need (ApiStatus SERVICE_UNAVAILABLE "Public edge assertion is enabled but incomplete")
                 (trimmed (pe_assertion_secret config)) ;;
    timestamp <-! need public_edge_assertion_required (header_text h "x-sm-edge-timestamp") ;;
    nonce <-! need public_edge_assertion_required (header_text h "x-sm-edge-nonce") ;;
    signature <-! need public_edge_assertion_required (header_text h "x-sm-edge-signature") ;;
    expires_at <-! validate_public_edge_timestamp timestamp (pe_assertion_max_skew_seconds config) ;;
    verify_public_edge_assertion secret method path timestamp nonce signature ;!;
    now <-! unix_now ;;
    record_public_edge_assertion_nonce method path nonce expires_at now.
End Edge.

(** ** Comparison and messages *)
Lemma N_lor_zero a b : N.lor a b = 0%N <-> a = 0%N /\ b = 0%N.
Proof. apply N.lor_eq_0_iff. Qed.
Lemma constant_time_eq_spec left right : constant_time_eq left right = true <-> left = right.
Proof.
  unfold constant_time_eq. destruct (Nat.eqb_spec (length left) (length right)) as [Hl|Hl]; cbn [negb].
  2:{ split; [done|]. intros ->. done. }
  rewrite N.eqb_eq. assert (forall acc, fold_left (fun acc lr => N.lor acc (N.lxor (N_of_ascii (fst lr)) (N_of_ascii (snd lr))))
    (zip left right) acc = 0%N <-> acc = 0%N /\ left = right) as Hf.
  { revert right Hl. induction left as [|a left IH]; intros [|b right] Hl acc; cbn in *; try done; [tauto|].
    rewrite IH by lia. rewrite N_lor_zero, N.lxor_eq_0_iff. split.
    - intros [[-> Hab] ->]. split; [done|]. f_equal. by rewrite <- (ascii_N_embedding a), <- (ascii_N_embedding b), Hab.
    - intros [-> [= -> ->]]. done. }
  rewrite Hf. tauto.
Qed.

(** Parts without the separator are told apart in a joined text. *)
Lemma bytes_of_inj a b : bytes_of a = bytes_of b -> a = b.
Proof. intros H. by rewrite <- (of_bytes_of a), H, of_bytes_of. Qed.
Lemma join_cons2 sep a b l : join sep (a :: b :: l) = a +:+ sep +:+ join sep (b :: l).
Proof. done. Qed.
Lemma join_cons_inj sep c a b la lb : sep = String c "" -> ~ In c (bytes_of a) -> ~ In c (bytes_of b) ->
  length la = length lb -> join sep (a :: la) = join sep (b :: lb) -> a = b /\ join sep la = join sep lb.
Proof.
  intros -> Ha Hb Hl. destruct la as [|x la], lb as [|y lb]; [done..|].
  rewrite !join_cons2. intros Hj. apply (f_equal bytes_of) in Hj. rewrite !bytes_of_app in Hj. cbn [bytes_of list_ascii_of_string app] in Hj.
  fold (bytes_of (join (String c "") (x :: la))) (bytes_of (join (String c "") (y :: lb))) in Hj.
    assert (split_once_bytes c (bytes_of a ++ c :: bytes_of (join (String c "") (x :: la)))
          = split_once_bytes c (bytes_of b ++ c :: bytes_of (join (String c "") (y :: lb)))) as Hs by (by rewrite Hj).
    rewrite !split_once_bytes_app in Hs by done. injection Hs as H1 H2. split; by apply bytes_of_inj.
Qed.

(** Texts as requests carry them: neither line feeds nor unit separators. *)
Definition clean (s : string) : Prop := ~ In (ascii_of_N 10) (bytes_of s) /\ ~ In (ascii_of_N 31) (bytes_of s).
Lemma visible_clean s v : to_str s = Some v -> clean v.
Proof.
  unfold to_str. destruct (forallb visible (bytes_of s)) eqn:Ev; [|done]. intros [= <-]. rewrite forallb_forall in Ev.
  split; intros Hin; apply Ev in Hin; vm_compute in Hin; done.
Qed.

(** C38: Of texts without line feeds and unit separators, what the edge signs names one
    request and what the server remembers names one use: the signed message determines the
    method (in upper case), path, time stamp and nonce, and the key of a nonce determines the
    method, path and nonce.  The key has no time stamp: requests that differ only there share
    it. *)
Theorem edge_texts_unambiguous m1 p1 t1 n1 m2 p2 t2 n2 :
  Forall clean [to_ascii_uppercase m1; p1; t1; n1; to_ascii_uppercase m2; p2; t2; n2] ->
  (public_edge_assertion_message m1 p1 t1 n1 = public_edge_assertion_message m2 p2 t2 n2 ->
     to_ascii_uppercase m1 = to_ascii_uppercase m2 /\ p1 = p2 /\ t1 = t2 /\ n1 = n2)
  /\ (public_edge_assertion_nonce_key m1 p1 n1 = public_edge_assertion_nonce_key m2 p2 n2 ->
     to_ascii_uppercase m1 = to_ascii_uppercase m2 /\ p1 = p2 /\ n1 = n2).
Proof.
  intros Hall. repeat (apply Forall_cons in Hall as [[? ?] Hall]). split; intros Hj.
  - unfold public_edge_assertion_message in Hj. apply (join_cons_inj NL (ascii_of_N 10)) in Hj as [_ Hj]; [|done|..|done].
    2-3: by apply (visible_clean "SM-PUBLIC-EDGE-V1" "SM-PUBLIC-EDGE-V1").
    apply (join_cons_inj NL (ascii_of_N 10)) in Hj as [-> Hj]; [|done..].
    apply (join_cons_inj NL (ascii_of_N 10)) in Hj as [-> Hj]; [|done..].
    apply (join_cons_inj NL (ascii_of_N 10)) in Hj as [-> Hj]; [|done..]. cbn [join] in Hj. done.
  - unfold public_edge_assertion_nonce_key in Hj. apply (join_cons_inj US (ascii_of_N 31)) in Hj as [-> Hj]; [|done..].
    apply (join_cons_inj US (ascii_of_N 31)) in Hj as [-> Hj]; [|done..]. cbn [join] in Hj. done.
Qed.
Lemma edge_texts_unambiguous_witness :
  public_edge_assertion_message "get" "/a" "1" "n" <> public_edge_assertion_message "GET" "/b" "1" "n".
Proof.
  intros Hj. destruct (edge_texts_unambiguous "get" "/a" "1" "n" "GET" "/b" "1" "n") as [H1 _].
  - repeat constructor; intros Hin; vm_compute in Hin; intuition discriminate.
  - by destruct (H1 Hj) as (_ & H2 & _).
Defined.

(** ** Replays *)
Lemma record_nonce_fresh key e now nonces nonces' : record_nonce key e now nonces = (true, nonces') ->
  nonces' !! key = Some (Z.max e (now + 1)) /\ forall e', nonces !! key = Some e' -> e' <= now.
Proof.
  unfold record_nonce. destruct (filter _ nonces !! key) as [x|] eqn:Ef; cbn [is_some]; [done|]. intros [= <-].
  split; [apply lookup_insert_eq|]. intros e' He'. rewrite map_lookup_filter_None in Ef.
  destruct Ef as [Ef|Ef]; [congruence|]. specialize (Ef e' He'). cbn in Ef. lia.
Qed.
Lemma record_nonce_keeps key e now nonces b nonces' key' e' : record_nonce key e now nonces = (b, nonces') ->
  nonces !! key' = Some e' -> now < e' -> nonces' !! key' = Some e'.
Proof.
  unfold record_nonce. intros Hr Hk Hn.
  assert (filter (fun kv : string * Z => now < snd kv) nonces !! key' = Some e') as Hf
    by (apply map_lookup_filter_Some; done).
  destruct (filter _ nonces !! key) as [x|] eqn:Ef; cbn [is_some] in Hr; injection Hr as <- <-; [done|].
  rewrite lookup_insert_ne; [done|]. intros ->. congruence.
Qed.

Section Replays.
Context `{W : Jwt} `{E : Env} `{G : Signing}.
Abbreviation SM := (AM (server W)).

(** The clock at the next reading, in seconds. *)
Definition clock (s : server W) : Z := env_now (sv_tick s) / NANOS.
(** A reading of the clock from the [n]th to before the [m]th gave [e] or later. *)
Definition passed (n m : nat) (e : Z) : Prop := exists k, (n <= k < m)%nat /\ e <= env_now k / NANOS.
(** The nonce is held until [e], or [e] has been read on the clock since the [n]th reading;
    the clock may go back. *)
Definition held (n : nat) (key : string) (e : Z) (s : server W) : Prop :=
  sv_edge_nonces s !! key = Some e \/ passed n (sv_tick s) e.
Definition holds_on (s s' : server W) : Prop :=
  (sv_tick s <= sv_tick s')%nat
  /\ forall n key e, (n <= sv_tick s)%nat -> held n key e s -> held n key e s'.
#[local] Instance holds_on_preorder : PreOrder holds_on.
Proof.
  split; [done|]. intros s1 s2 s3 [L1 H1] [L2 H2]. split; [lia|]. intros n key e Hn Hh. apply H2; [lia|]. auto.
Qed.
Lemma passed_later n m m' e : (m <= m')%nat -> passed n m e -> passed n m' e.
Proof. intros Hm (k & Hk & He). exists k. split; [lia|done]. Qed.
Lemma holds_on_frame (s s' : server W) : sv_edge_nonces s' = sv_edge_nonces s -> (sv_tick s <= sv_tick s')%nat -> holds_on s s'.
Proof.
  intros Hn Ht. split; [done|]. intros n key e _ [H|H]; [left; congruence|right]. by eapply passed_later.
Qed.
Lemma reading_holds : asteps holds_on (@reading W).
Proof. intros s. apply holds_on_frame; cbn; [done|lia]. Qed.
Lemma unix_now_run (s : server W) : unix_now s = (inl (clock s), s <| sv_tick := S (sv_tick s) |>).
Proof. done. Qed.
Lemma unix_now_holds : asteps holds_on (@unix_now W E).
Proof. unfold unix_now. pose proof reading_holds. api_steps. Qed.
(** Recording a nonce with the present time. *)
Lemma record_holds m p n e : asteps holds_on (now <-! unix_now ;; record_public_edge_assertion_nonce m p n e now).
Proof.
  intros s. unfold try. rewrite unix_now_run. unfold record_public_edge_assertion_nonce, try, read. cbn [sv_edge_nonces].
  destruct (record_nonce _ e (clock s) _) as [b nonces] eqn:Er. unfold change, check. cbn -[clock].
  assert (holds_on s (s <| sv_tick := S (sv_tick s) |> <| sv_edge_nonces := nonces |>)) as Hh; [|by destruct b].
  split; [cbn; lia|]. intros start key x Hst [Hk|Hx].
  - destruct (Z.lt_ge_cases (clock s) x).
    + left. cbn. by eapply record_nonce_keeps.
    + right. exists (sv_tick s). cbn. split; [lia|done].
  - right. eapply passed_later; [|exact Hx]. cbn. lia.
Qed.
Lemma validate_timestamp_holds a b ts skew : asteps holds_on (validate_timestamp a b ts skew).
Proof. unfold validate_timestamp. pose proof unix_now_holds. api_steps. Qed.
Lemma ensure_edge_holds c h peer m p : asteps holds_on (ensure_public_edge_assertion_from_parts c h peer m p).
Proof.
  unfold ensure_public_edge_assertion_from_parts, verify_public_edge_assertion, validate_public_edge_timestamp.
  pose proof validate_timestamp_holds. pose proof record_holds. cbv zeta. api_steps.
Qed.

(** A request carries the signature of its own message under the configured secret. *)
Definition edge_signed (c : AppConfig) (h : headers) (m p timestamp nonce : string) : Prop :=
  exists secret signature, trimmed (pe_assertion_secret (public_edge c)) = Some secret
    /\ header_text h "x-sm-edge-timestamp" = Some timestamp /\ header_text h "x-sm-edge-nonce" = Some nonce
    /\ header_text h "x-sm-edge-signature" = Some signature
    /\ decode_signature signature = Some (hmac_sha256 secret (public_edge_assertion_message m p timestamp nonce)).
(** The second in which an assertion expires. *)
Definition edge_expiry (c : AppConfig) (ts : f64) : Z :=
  f64_ceil_i64 (f64_add ts (f64_of_Z (clamp_u64 (pe_assertion_max_skew_seconds (public_edge c)) 5 600 60))).
(** What an accepted request had and left. *)
Lemma ensure_edge_accepted c h peer m p (s s' : server W) u : pe_enabled (public_edge c) = true ->
  is_local_bypass_request h peer (ga_public_host (google_auth c)) = false ->
  ensure_public_edge_assertion_from_parts c h peer m p s = (inl u, s') ->
  exists timestamp nonce ts s1,
    edge_signed c h m p timestamp nonce
    /\ parse_f64 timestamp = Some ts
    /\ holds_on s s1
    /\ (forall e', sv_edge_nonces s1 !! public_edge_assertion_nonce_key m p nonce = Some e' -> e' <= clock s1)
    /\ (sv_tick s1 < sv_tick s')%nat
    /\ sv_edge_nonces s' !! public_edge_assertion_nonce_key m p nonce = Some (Z.max (edge_expiry c ts) (clock s1 + 1)).
Proof.
  intros He Hb Hrun. unfold ensure_public_edge_assertion_from_parts in Hrun. cbv zeta in Hrun. rewrite He, Hb in Hrun.
  cbn [negb] in Hrun. apply try_inl_inv in Hrun as (secret & s0 & [Hs ->]%need_inl_inv & Hrun).
  apply try_inl_inv in Hrun as (timestamp & s0 & [Ht ->]%need_inl_inv & Hrun).
  apply try_inl_inv in Hrun as (nonce & s0 & [Hn ->]%need_inl_inv & Hrun).
  apply try_inl_inv in Hrun as (signature & s0 & [Hg ->]%need_inl_inv & Hrun).
  apply try_inl_inv in Hrun as (e & s1 & Hv & Hrun). apply try_inl_inv in Hrun as (u1 & s2 & Hm & Hrun).
  pose proof (validate_timestamp_holds INVALID_EDGE_TIMESTAMP (ApiStatus FORBIDDEN "Expired public edge assertion")
    timestamp (pe_assertion_max_skew_seconds (public_edge c)) s) as Hh. fold validate_public_edge_timestamp in Hh.
  rewrite Hv in Hh. cbn [snd] in Hh. unfold verify_public_edge_assertion in Hm.
  apply try_inl_inv in Hm as (mac & s3 & [Hd ->]%need_inl_inv & [Hc ->]%check_inl_inv).
  apply constant_time_eq_spec, bytes_of_inj in Hc.
  assert (exists ts, parse_f64 timestamp = Some ts /\ e = edge_expiry c ts) as (ts & Hts & ->).
  { unfold validate_public_edge_timestamp, validate_timestamp in Hv. destruct (parse_f64 timestamp) as [ts|]; [|done].
    destruct (negb _); [done|]. cbv zeta in Hv. apply try_inl_inv in Hv as (now & s3 & Hu & Hv). exists ts.
    split; [done|]. destruct (f64_ltb _ _); [done|]. by injection Hv as <- _. }
  exists timestamp, nonce, ts, s1. split; [exists secret, signature; by rewrite <- Hc|]. do 2 (split; [done|]).
  apply try_inl_inv in Hrun as (now & s3 & Hu & Hrun). rewrite unix_now_run in Hu. injection Hu as <- <-.
  unfold record_public_edge_assertion_nonce in Hrun. apply try_inl_inv in Hrun as (nonces & s3 & Hr & Hrun).
  injection Hr as <- <-. cbn [sv_edge_nonces] in Hrun. destruct (record_nonce _ _ _ _) as [b nonces] eqn:Er.
  apply try_inl_inv in Hrun as (u2 & s3 & Hch & [-> ->]%check_inl_inv). injection Hch as _ <-.
  apply record_nonce_fresh in Er as [Hkey Hold]. split; [exact Hold|]. split; [cbn; lia|exact Hkey].
Qed.

(** Requests come and go: a check of the edge, or anything that leaves its nonces alone. *)
Definition edge_step (s s' : server W) : Prop :=
  (exists c h peer m p, s' = snd (ensure_public_edge_assertion_from_parts c h peer m p s))
  \/ (sv_edge_nonces s' = sv_edge_nonces s /\ (sv_tick s <= sv_tick s')%nat).
Lemma edge_steps_hold s s' : rtc edge_step s s' -> holds_on s s'.
Proof.
  induction 1 as [s|s1 s2 s3 [(c & h & peer & m & p & ->)|[H1 H2]] _ IH]; [done| |].
  - etransitivity; [apply ensure_edge_holds|exact IH].
  - etransitivity; [by apply holds_on_frame|exact IH].
Qed.

(** C19: An assertion of the edge is accepted once while it is valid: when two requests
    with the same method, path and nonce are both accepted, each carries the signature of
    its own message, with its own time stamp, and after the first was accepted and before the
    second was, the server read a time on its clock at which the first had expired.  The
    clock may go back. *)
Theorem edge_nonce_single_use c h peer m p c' h' peer' m' p' u u' (s s1 s2 s3 : server W) nonce :
  pe_enabled (public_edge c) = true -> is_local_bypass_request h peer (ga_public_host (google_auth c)) = false ->
  pe_enabled (public_edge c') = true -> is_local_bypass_request h' peer' (ga_public_host (google_auth c')) = false ->
  ensure_public_edge_assertion_from_parts c h peer m p s = (inl u, s1) ->
  rtc edge_step s1 s2 ->
  ensure_public_edge_assertion_from_parts c' h' peer' m' p' s2 = (inl u', s3) ->
  to_ascii_uppercase m' = to_ascii_uppercase m -> p' = p ->
  header_text h "x-sm-edge-nonce" = Some nonce -> header_text h' "x-sm-edge-nonce" = Some nonce ->
  exists timestamp ts timestamp',
    edge_signed c h m p timestamp nonce /\ edge_signed c' h' m' p' timestamp' nonce
    /\ parse_f64 timestamp = Some ts /\ passed (sv_tick s1) (sv_tick s3) (edge_expiry c ts).
Proof.
  intros He Hb He' Hb' H1 Hs H2 Hm -> Hn Hn'.
  apply ensure_edge_accepted in H1 as (timestamp & nonce1 & ts & s0 & Hsig & Hts & _ & _ & _ & Hkey); [|done..].
  assert (nonce1 = nonce) as -> by (destruct Hsig as (? & ? & _ & _ & Hx & _); congruence).
  apply ensure_edge_accepted in H2 as (timestamp' & nonce2 & ts2 & s4 & Hsig2 & _ & Hh & Hold & Hc & _); [|done..].
  assert (nonce2 = nonce) as -> by (destruct Hsig2 as (? & ? & _ & _ & Hx & _); congruence).
  exists timestamp, ts, timestamp'. do 3 (split; [done|]).
  unfold public_edge_assertion_nonce_key in *. rewrite Hm in Hold. set (e := Z.max _ _) in Hkey.
  pose proof (edge_steps_hold _ _ Hs) as [L1 K1]. destruct Hh as [L2 K2].
  assert (held (sv_tick s1) (join US [to_ascii_uppercase m; p; nonce]) e s4) as Hheld.
  { apply K2; [lia|]. apply K1; [lia|]. by left. }
  assert (passed (sv_tick s1) (sv_tick s3) e) as (k & Hk & Hx); [|exists k; unfold e in Hx; split; [done|lia]].
  destruct Hheld as [Hx|Hx]; [|eapply passed_later; [|exact Hx]; lia]. exists (sv_tick s4). split; [lia|]. by apply Hold.
Qed.
End Replays.

(** ** Concrete requests *)
#[local] Instance demo_signing : Signing := {|
  hmac_sha256 := fun key message => key +:+ message;
  base64_standard_decode := fun s => None;
  base64_urlsafe_decode := fun s => Some ("secret" +:+ public_edge_assertion_message "GET" "/sessions" "1700000000" "n1") |}.
Definition no_application : CloudflareAccessApplicationConfig := MkAccessApp false None None None.
Definition demo_edge_config : AppConfig :=
  MkAppConfig
    (MkAccessConfig None None None None no_application no_application no_application no_application None None None)
    (MkGoogleAuth false None None None None None None [] None) (MkPublicEdge true (Some "secret"%string) 5)
    (MkExternalAccess None None) (MkMobileTerminal false None None true [] 0 0 0 0 0).
Definition demo_edge_headers : headers :=
  [("x-sm-edge-timestamp", "1700000000"); ("x-sm-edge-nonce", "n1"); ("x-sm-edge-signature", "sig")]%string.
Definition no_jwt : Jwt := {|
  jwk_set := unit; jwk := unit; decoding_key := unit; decode_header := fun _ => None; jwks_find := fun _ _ => None;
  key_from_jwk := fun _ => None; decode := fun _ _ _ _ => None; decode_claims := fun _ _ _ _ => None; fetch_jwks := fun _ _ => None |}.
Definition demo_edge_server (tick : nat) : server no_jwt := MkServer ∅ None ∅ ∅ ∅ ∅ ∅ ∅ false empty_device_db tick.
Abbreviation demo_edge_request := (ensure_public_edge_assertion_from_parts (W := no_jwt) demo_edge_config demo_edge_headers None "GET" "/sessions").
(** The clock of [demo_env] advances a second per reading: the request is accepted, then
    refused. *)
Lemma demo_edge_replay_refused :
  fst (demo_edge_request (demo_edge_server 0)) = inl tt
  /\ fst (demo_edge_request (snd (demo_edge_request (demo_edge_server 0))))
     = inr (ApiStatus 403 "Public edge assertion nonce was already used").
Proof. vm_compute. done. Qed.

(** A clock that stands still for the first request and five seconds later for the second. *)
Definition edge_clock : Env := {|
  env_now := fun k => (if Nat.ltb k 2 then 1700000000 else 1700000005) * NANOS;
  env_process_id := 77;
  env_random := fun k _ => N.of_nat k |}.
Abbreviation boundary_request :=
  (ensure_public_edge_assertion_from_parts (W := no_jwt) (E := edge_clock) demo_edge_config demo_edge_headers None "GET" "/sessions").
Definition boundary_first : server no_jwt := snd (boundary_request (demo_edge_server 0)).
Definition boundary_second : server no_jwt := snd (boundary_request boundary_first).
Lemma edge_nonce_single_use_witness :
  exists timestamp ts timestamp',
    edge_signed demo_edge_config demo_edge_headers "GET" "/sessions" timestamp "n1"
    /\ edge_signed demo_edge_config demo_edge_headers "get" "/sessions" timestamp' "n1"
    /\ parse_f64 timestamp = Some ts
    /\ passed (E := edge_clock) (sv_tick boundary_first) (sv_tick boundary_second) (edge_expiry demo_edge_config ts).
Proof.
  apply (edge_nonce_single_use (E := edge_clock) demo_edge_config demo_edge_headers None "GET" "/sessions"
    demo_edge_config demo_edge_headers None "get" "/sessions" tt tt (demo_edge_server 0) boundary_first boundary_first
    boundary_second "n1"); try reflexivity; vm_compute; reflexivity.
Defined.

(** *** Behaviour the code does not mean to have *)
(** The same assertion is accepted twice: in the last second in which its time stamp is
    still valid its nonce is already forgotten. *)
Theorem edge_replay_accepted :
  fst (boundary_request (demo_edge_server 0)) = inl tt /\ fst (boundary_request boundary_first) = inl tt.
Proof. vm_compute. done. Qed.
