(* ===== verification/DeviceAuth.v ===== *)
(** * Signed-in users (http.rs)

    A request is from a user when it carries a device token or a session cookie signed with
    the server's secret.  Hashing, base64 and the case of letters outside ASCII belong to
    crates and to the standard library's tables. *)
From Stdlib Require Import ZArith Lia Bool String Ascii List.
From stdpp Require Import base tactics list strings gmap.
From S2P Require Import Prelude Text StrMethods Table Clock Json HttpRequest Api ServerConfig UsageDb MobileDevices Server.
From S2P Require Import CloudflareAccess PublicEdge Demo DemoUsage.

Class Sha1 : Type := { sha1 : string -> string; hmac_sha1 : string -> string -> string }.
Class Base64Text : Type := { base64_urlsafe_encode : string -> string }.
(** [str::to_lowercase], with Unicode's tables. *)
Class Unicode : Type := { to_lowercase : string -> string }.
(** [OffsetDateTime::from_unix_timestamp(s)?.format(&Rfc3339)]. *)
Class UnixTime : Type := { format_unix : Z -> option string }.

Definition SESSION_COOKIE_NAME : string := "sm_auth".
Definition SESSION_COOKIE_MAX_AGE_SECONDS : Z := 60 * 60 * 24 * 14.
Definition DEVICE_TOKEN_MAX_AGE_SECONDS : Z := 60 * 60 * 24 * 14.

Record AuthenticatedUser : Type := MkUser { au_email : string; au_name : option string; au_auth_type : string }.
Record DeviceAccessPayload : Type := MkPayload {
  dp_token_type : string; dp_email : string; dp_name : option string; dp_exp : Z }.
Record IssuedDeviceAccessToken : Type := MkIssued { it_access_token : string; it_expires_at : string }.

(** The derived [Deserialize] of the payload. *)
Definition payload_of_json (v : json) : option DeviceAccessPayload :=
  bind_opt (bind_opt (get_field "type" v) as_str) (fun token_type =>
  bind_opt (bind_opt (get_field "email" v) as_str) (fun email =>
  bind_opt (bind_opt (get_field "exp" v) as_i64) (fun exp =>
  match get_field "name" v with
  | None | Some JNull => Some (MkPayload token_type email None exp)
  | Some (JString name) => Some (MkPayload token_type email (Some name) exp)
  | Some _ => None
  end))).
Definition json_i64 (z : Z) : json := JNumber (if 0 <=? z then PosInt z else NegInt z).
Definition device_payload (email name : string) (now exp : Z) : json :=
  json_object [("v", json_i64 1); ("type", JString "device_access"); ("email", JString email); ("name", JString name);
               ("iat", json_i64 now); ("exp", json_i64 exp)]%string.

(** ** Cookies of the old server *)
(** [u64::from_be_bytes(padded) as i64] of at most eight bytes. *)
Definition be_value (l : list ascii) : Z := fold_left (fun acc c => acc * 256 + Z.of_N (N_of_ascii c)) l 0.
Definition u64_as_i64 (n : Z) : Z := if n <? 2 ^ 63 then n else n - 2 ^ 64.
(** [i64] subtraction; it wraps. *)
Definition i64_sub (a b : Z) : Z := (a - b + 2 ^ 63) mod 2 ^ 64 - 2 ^ 63.

Section Auth.
Context `{W : Jwt} `{E : Env} `{G : Signing} `{H1 : Sha1} `{B : Base64Text} `{U : Unicode} `{D : UnixTime} `{J : JsonParser}.
Abbreviation SM := (AM (server W)).

Definition decode_itsdangerous_timestamp (value : string) : option Z :=
  bind_opt (base64_urlsafe_decode value) (fun bytes =>
  if Nat.ltb 8 (String.length bytes) then None else Some (u64_as_i64 (be_value (bytes_of bytes)))).
Definition itsdangerous_django_concat_key (secret : string) : string := sha1 ("itsdangerous.Signersigner" +:+ secret).
Definition verify_starlette_session_cookie (cookie secret : string) : SM (option json) :=
  match rsplit_once "." cookie with
  | None => ok None
  | Some (value, signature_b64) =>
      match rsplit_once "." value with
      | None => ok None
      | Some (payload_b64, timestamp_b64) =>
          match base64_urlsafe_decode signature_b64 with
          | None => ok None
          | Some signature =>
              if negb (signature =?s hmac_sha1 (itsdangerous_django_concat_key secret) value) then ok None
              else
                match decode_itsdangerous_timestamp timestamp_b64 with
                | None => ok None
                | Some timestamp =>
                    now <-! unix_now ;;
                    let age := i64_sub now timestamp in
                    if negb ((0 <=? age) && (age <=? SESSION_COOKIE_MAX_AGE_SECONDS)) then ok None
                    else ok (bind_opt (base64_standard_decode payload_b64) parse_json)
                end
          end
      end
  end.
Definition browser_session_user (c : AppConfig) (h : headers) : SM (option AuthenticatedUser) :=
  match cookie_value h SESSION_COOKIE_NAME, trimmed (ga_session_cookie_secret (google_auth c)) with
  | Some cookie, Some secret =>
      payload <-! verify_starlette_session_cookie cookie secret ;;
      ok (bind_opt payload (fun payload =>
          match bind_opt (get_field "google_authenticated" payload) as_bool with
          | Some true =>
              Some (MkUser (unwrap_or ""%string (bind_opt (get_field "google_email" payload) as_str))
                      (bind_opt (get_field "google_name" payload) as_str) "browser_session")
          | _ => None
          end))
  | _, _ => ok None
  end.

(** ** Device tokens *)
(** The part before the time is read: the payload of a token with a good signature. *)
Definition signed_payload (token secret : string) : option DeviceAccessPayload :=
  bind_opt (strip_prefix "smat_" token) (fun raw =>
  bind_opt (split_once "." raw) (fun parts =>
  bind_opt (base64_urlsafe_decode (snd parts)) (fun signature =>
  if negb (signature =?s hmac_sha256 secret (fst parts)) then None
  else bind_opt (base64_urlsafe_decode (fst parts)) (fun bytes => bind_opt (parse_json bytes) payload_of_json)))).
Definition device_auth_user (c : AppConfig) (h : headers) : SM (option AuthenticatedUser) :=
  match request_bearer_token h, trimmed (ga_session_cookie_secret (google_auth c)) with
  | Some token, Some secret =>
      match signed_payload token secret with
      | None => ok None
      | Some payload =>
          if negb (dp_token_type payload =?s "device_access") then ok None
          else
            now <-! unix_now ;;
            if dp_exp payload <=? now then ok None
            else
              let email := to_lowercase (trim (dp_email payload)) in
              ok (if email =?s "" then None else Some (MkUser email (dp_name payload) "device_bearer"))
      end
  | _, _ => ok None
  end.
Definition authenticated_user (c : AppConfig) (h : headers) : SM (option AuthenticatedUser) :=
  device <-! device_auth_user c h ;;
  match device with Some user => ok (Some user) | None => browser_session_user c h end.
Definition request_actor_email_from_parts (c : AppConfig) (h : headers) (peer : option ip_addr) : SM (option string) :=
  user <-! authenticated_user c h ;;
  ok (match user with
      | Some user => Some (to_ascii_lowercase (trim (au_email user)))
      | None => if is_local_bypass_request h peer (ga_public_host (google_auth c)) then Some "local_bypass"%string else None
      end).

Definition issue_device_access_token (c : AppConfig) (email name : string) : SM (option IssuedDeviceAccessToken) :=
  match trimmed (ga_session_cookie_secret (google_auth c)) with
  | None => ok None
  | Some secret =>
      now <-! unix_now ;;
      let exp := now + DEVICE_TOKEN_MAX_AGE_SECONDS in
      if negb (in_i64 exp) then ok None
      else
        let payload_b64 := base64_urlsafe_encode (json_text (device_payload email name now exp)) in
        let signature := base64_urlsafe_encode (hmac_sha256 secret payload_b64) in
        ok (option_map (fun text =>
              MkIssued ("smat_" +:+ payload_b64 +:+ "." +:+ signature)
                (match strip_suffix "Z" text with Some stripped => stripped +:+ "+00:00" | None => text end))
              (format_unix exp))
  end.

(** ** The session gate *)
Definition ensure_session_allowed_from_parts (c : AppConfig) (h : headers) (peer : option ip_addr) (path : string) : SM unit :=
  let auth := google_auth c in
  if negb (requested auth) then ok tt
  else if is_local_bypass_request h peer (ga_public_host auth) then ok tt
  else if negb (ready auth) then fail (ApiAuth SERVICE_UNAVAILABLE "Google auth is enabled but incomplete" None)
  else
    user <-! authenticated_user c h ;;
    check (is_some user) (ApiAuth UNAUTHORIZED "Authentication required" (Some (google_login_redirect path))).
Definition allowlisted_google_email (c : AppConfig) (email : string) : bool :=
  let email := to_ascii_lowercase (trim email) in
  negb (email =?s "") && existsb (fun value => eq_ignore_ascii_case (trim value) email) (ga_allowlist_emails (google_auth c)).
Definition allowed_google_audiences (c : AppConfig) : gset string :=
  list_to_set (omap trimmed [ga_client_id (google_auth c); ga_android_client_id (google_auth c)]).
End Auth.
