(* ===== verification/GoogleAuth.v ===== *)
(** * Exchanging a Google token for a device token (google_auth.rs, http.rs)

    A phone presents an ID token of Google's; the server verifies it against Google's
    published keys, which it caches, and gives a device token of its own. *)
From Stdlib Require Import ZArith Lia Bool String Ascii List.
From stdpp Require Import base tactics list strings gmap.
From S2P Require Import Prelude Text StrMethods Table Clock Json HttpRequest Api ServerConfig UsageDb MobileDevices.
From S2P Require Import MobileDevicesProps Server CloudflareAccess CloudflareAccessProps PublicEdge DeviceAuth Demo DemoUsage.

Definition GOOGLE_ID_TOKEN_JWKS_URL : string := "https://www.googleapis.com/oauth2/v3/certs".
Record GoogleIdTokenClaims : Type := MkGoogleClaims {
  gc_aud : string; gc_exp : Z; gc_iat : Z; gc_iss : string; gc_sub : string; gc_email : option string;
  gc_email_verified : bool; gc_name : option string }.
Inductive GoogleIdTokenError : Type :=
| GoogleMalformedToken | GoogleMissingKeyId | GoogleJwksFetchFailed | GoogleUnknownKeyId | GoogleInvalidToken.

(** ** Claims *)
Definition deserialize_email_verified (value : option json) : option bool :=
  match value with
  | None | Some JNull => Some false
  | Some (JBool b) => Some b
  | Some (JString s) => Some (eq_ignore_ascii_case (trim s) "true")
  | Some _ => None
  end.
(** An [Option<String>] field. *)
Definition optional_text (value : option json) : option (option string) :=
  match value with None | Some JNull => Some None | Some (JString s) => Some (Some s) | Some _ => None end.
Definition google_claims_of_json (v : json) : option GoogleIdTokenClaims :=
  bind_opt (bind_opt (get_field "aud" v) as_str) (fun aud =>
  bind_opt (bind_opt (get_field "exp" v) as_u64) (fun exp =>
  bind_opt (bind_opt (get_field "iat" v) as_u64) (fun iat =>
  bind_opt (bind_opt (get_field "iss" v) as_str) (fun iss =>
  bind_opt (bind_opt (get_field "sub" v) as_str) (fun sub =>
  bind_opt (optional_text (get_field "email" v)) (fun email =>
  bind_opt (deserialize_email_verified (get_field "email_verified" v)) (fun verified =>
  bind_opt (optional_text (get_field "name" v)) (fun name =>
  Some (MkGoogleClaims aud exp iat iss sub email verified name))))))))).

Definition google_validation : validation :=
  MkValidation ["accounts.google.com"; "https://accounts.google.com"]%string None 0 false.
Definition GOOGLE_JWKS_TTL : Z := 60 * 60 * NANOS.
Definition GOOGLE_REFRESH_INTERVAL : Z := 30 * NANOS.

Section Google.
Context `{W : Jwt} `{U : UriCrate} `{I : Monotonic} `{E : Env} `{F : LocalTime} `{K : DeviceCrypto} `{J : JsonParser}
  `{G : Signing} `{B : Base64Text} `{D : UnixTime}.
Abbreviation SM := (AM (server W)).

Definition google_id_token_key_id (token : string) : string + GoogleIdTokenError :=
  match decode_header token with
  | None => inr GoogleMalformedToken
  | Some (Some kid) => if trim kid =?s "" then inr GoogleMissingKeyId else inl kid
  | Some None => inr GoogleMissingKeyId
  end.
Definition verify_google_id_token_with_jwks (token : string) (jwks : jwk_set) : SM (GoogleIdTokenClaims + GoogleIdTokenError) :=
  match google_id_token_key_id token with
  | inr e => ok (inr e)
  | inl kid =>
      match jwks_find jwks kid with
      | None => ok (inr GoogleUnknownKeyId)
      | Some key =>
          match key_from_jwk key with
          | None => ok (inr GoogleInvalidToken)
          | Some key =>
              k <-! reading ;;
              match bind_opt (decode_claims k token key google_validation) google_claims_of_json with
              | None => ok (inr GoogleInvalidToken)
              | Some claims =>
                  now <-! unix_now ;;
                  if negb (in_i64 (gc_iat claims)) || (now <? gc_iat claims) then ok (inr GoogleInvalidToken)
                  else ok (inl claims)
              end
          end
      end
  end.
Definition fetch_google_id_token_jwks : SM (jwk_set + GoogleIdTokenError) :=
  k <-! reading ;;
  ok (match fetch_jwks k GOOGLE_ID_TOKEN_JWKS_URL with Some jwks => inl jwks | None => inr GoogleJwksFetchFailed end).
Definition google_id_token_cached_jwks (force_refresh : bool) : SM (jwk_set + GoogleIdTokenError) :=
  k <-! reading ;;
  cache <-! read sv_google_cache ;;
  let fresh := bind_opt cache (fun e =>
    if since (instant_now k) (je_fetched_at e) <? GOOGLE_JWKS_TTL then Some (je_jwks e) else None) in
  match (if force_refresh then None else fresh) with
  | Some jwks => ok (inl jwks)
  | None =>
      fetched <-! fetch_google_id_token_jwks ;;
      match fetched with
      | inr e => ok (inr e)
      | inl jwks =>
          k <-! reading ;;
          change (fun s => s <| sv_google_cache :=
            Some (MkJwksEntry jwks (instant_now k) (bind_opt cache je_last_unknown_key_refresh)) |>) ;!;
          ok (inl jwks)
      end
  end.
Definition google_id_token_mark_unknown_key_refresh_if_allowed : SM bool :=
  cache <-! read sv_google_cache ;;
  match cache with
  | None => ok false
  | Some e =>
      k <-! reading ;;
      let now := instant_now k in
      let recent := match je_last_unknown_key_refresh e with
                    | Some last => since now last <? GOOGLE_REFRESH_INTERVAL
                    | None => false
                    end in
      if recent then ok false
      else
        change (fun s => s <| sv_google_cache := Some (MkJwksEntry (je_jwks e) (je_fetched_at e) (Some now)) |>) ;!;
        ok true
  end.
Definition verify_google_id_token_cached (token : string) : SM (GoogleIdTokenClaims + GoogleIdTokenError) :=
  match google_id_token_key_id token with
  | inr e => ok (inr e)
  | inl _ =>
      had_cached <-! read (fun s => is_some (sv_google_cache s)) ;;
      jwks <-! google_id_token_cached_jwks false ;;
      match jwks with
      | inr e => ok (inr e)
      | inl jwks =>
          result <-! verify_google_id_token_with_jwks token jwks ;;
          match result with
          | inr GoogleUnknownKeyId =>
              if (had_cached : bool) then
                allowed <-! google_id_token_mark_unknown_key_refresh_if_allowed ;;
                if (allowed : bool) then
                  refreshed <-! google_id_token_cached_jwks true ;;
                  match refreshed with
                  | inr e => ok (inr e)
                  | inl jwks => verify_google_id_token_with_jwks token jwks
                  end
                else ok result
              else ok result
          | _ => ok result
          end
      end
  end.

(** ** The exchange *)
Record DeviceGoogleAuthResponse : Type := MkGoogleResponse {
  gr_access_token : string; gr_expires_at : string; gr_email : string; gr_name : string }.
(** [id_token]: the token of the request's JSON body. *)
Definition auth_device_google (c : AppConfig) (h : headers) (peer : option ip_addr) (method path id_token : string)
    : SM DeviceGoogleAuthResponse :=
  access <-! ensure_cloudflare_access_application_from_parts c h peer (Some MobileApp) ;;
  ensure_public_edge_assertion_from_parts c h peer method path ;!;
  if negb (ready (google_auth c)) then fail (ApiStatus SERVICE_UNAVAILABLE "Google auth is not configured")
  else
    verified <-! verify_google_id_token_cached (trim id_token) ;;
    match verified with
    | inr _ => fail (ApiStatus UNAUTHORIZED "Invalid Google ID token")
    | inl info =>
        if negb (bool_decide (trim (gc_aud info) ∈ allowed_google_audiences c))
        then fail (ApiStatus UNAUTHORIZED "Google ID token audience is not allowed")
        else
          let email := to_ascii_lowercase (trim (unwrap_or ""%string (gc_email info))) in
          if negb (gc_email_verified info) || negb (allowlisted_google_email c email)
          then fail (ApiStatus FORBIDDEN "Google account is not allowlisted")
          else
            ensure_mobile_cloudflare_access_context_matches_actor c access email ;!;
            let name := unwrap_or email (trimmed (gc_name info)) in
            issued <-! issue_device_access_token c email name ;;
            issued <-! need (ApiStatus SERVICE_UNAVAILABLE "Device auth signing is not configured") issued ;;
            ok (MkGoogleResponse (it_access_token issued) (it_expires_at issued) email name)
    end.
End Google.

(** ** What the exchange gives *)
(** What the crates promise: base64 reads back what it wrote, in its own alphabet, and
    [serde_json] reads back the object of texts and integers it wrote. *)
Class TokenLaws {G : Signing} {B : Base64Text} {J : JsonParser} : Prop := {
  base64_roundtrip : forall bytes, base64_urlsafe_decode (base64_urlsafe_encode bytes) = Some bytes;
  base64_alphabet : forall bytes, ~ In "."%char (bytes_of (base64_urlsafe_encode bytes));
  payload_roundtrip : forall email name now exp, in_i64 exp = true ->
    parse_json (json_text (device_payload email name now exp)) = Some (device_payload email name now exp) }.
Arguments TokenLaws : clear implicits.

Section Exchange.
Context `{W : Jwt} `{L : !JwtLaws W} `{U : UriCrate} `{I : Monotonic} `{E : Env} `{F : LocalTime} `{K : DeviceCrypto} `{J : JsonParser}
  `{G : Signing} `{B : Base64Text} `{D : UnixTime} `{C : Unicode} `{TL : !TokenLaws G B J}.

Lemma strip_prefix_app a b : strip_prefix a (a +:+ b) = Some b.
Proof.
  unfold strip_prefix. assert (String.prefix a (a +:+ b) = true) as ->.
  { induction a as [|c a IH]; [by destruct b|].
    change (String c a +:+ b) with (String c (a +:+ b)). cbn [String.prefix]. by destruct (ascii_dec c c). }
  f_equal. rewrite bytes_of_app. assert (String.length a = length (bytes_of a)) as ->.
  { induction a as [|c a IH]; cbn; [done|]. by f_equal. }
  rewrite drop_app_length. apply of_bytes_of.
Qed.
Lemma payload_fields email name now exp : in_i64 exp = true ->
  payload_of_json (device_payload email name now exp) = Some (MkPayload "device_access" email (Some name) exp).
Proof.
  intros He. assert (device_payload email name now exp = JObject [("email", JString email); ("exp", json_i64 exp);
    ("iat", json_i64 now); ("name", JString name); ("type", JString "device_access"); ("v", json_i64 1)]%string) as -> by reflexivity.
  assert (as_i64 (json_i64 exp) = Some exp) as Hx.
  { unfold json_i64, as_i64. unfold in_i64 in He. bool_simpl. destruct (Z.leb_spec 0 exp); [|done].
    destruct (Z.leb_spec exp I64_MAX); [done|lia]. }
  unfold payload_of_json, get_field. cbn -[as_i64 json_i64]. by rewrite Hx.
Qed.
Lemma issued_signed secret email name now exp : in_i64 exp = true ->
  let payload_b64 := base64_urlsafe_encode (json_text (device_payload email name now exp)) in
  signed_payload ("smat_" +:+ payload_b64 +:+ "." +:+ base64_urlsafe_encode (hmac_sha256 secret payload_b64)) secret
  = Some (MkPayload "device_access" email (Some name) exp).
Proof.
  intros He. cbv zeta. set (b := base64_urlsafe_encode (json_text _)). unfold signed_payload.
  rewrite strip_prefix_app. cbn [bind_opt].
  assert (split_once "." (b +:+ "." +:+ base64_urlsafe_encode (hmac_sha256 secret b))
    = Some (b, base64_urlsafe_encode (hmac_sha256 secret b))) as -> by (apply split_once_app, base64_alphabet).
  cbn [bind_opt fst snd]. rewrite base64_roundtrip. cbn [bind_opt]. rewrite String.eqb_refl. cbn [negb].
  unfold b. rewrite base64_roundtrip. cbn [bind_opt]. rewrite payload_roundtrip by done. cbn [bind_opt]. by apply payload_fields.
Qed.
(** An issued token is its user's until it expires. *)
Lemma issued_token_accepted c email name (s s1 : server W) issued h (s2 : server W) :
  issue_device_access_token c email name s = (inl (Some issued), s1) ->
  request_bearer_token h = Some (it_access_token issued) ->
  clock s2 < clock s + DEVICE_TOKEN_MAX_AGE_SECONDS -> to_lowercase (trim email) <> ""%string ->
  fst (device_auth_user c h s2) = inl (Some (MkUser (to_lowercase (trim email)) (Some name) "device_bearer")).
Proof.
  intros Hi Hb Hc Hl. unfold issue_device_access_token in Hi. unfold device_auth_user. rewrite Hb.
  destruct (trimmed _) as [secret|]; [|done]. apply try_inl_inv in Hi as (now & s3 & Hu & Hi).
  rewrite unix_now_run in Hu. injection Hu as <- <-. cbv zeta in Hi. destruct (in_i64 _) eqn:Ee; [|done]. cbn [negb] in Hi.
  destruct (format_unix _) as [text|]; [|done]. injection Hi as <- <-. cbn [it_access_token].
  rewrite issued_signed by done. cbn [dp_token_type dp_exp dp_email dp_name].
  rewrite String.eqb_refl. cbn [negb].
  unfold try. rewrite unix_now_run. destruct (Z.leb_spec (clock s + DEVICE_TOKEN_MAX_AGE_SECONDS) (clock s2)); [lia|].
  cbn. by destruct (String.eqb_spec (to_lowercase (trim email)) "").
Qed.

(** A token Google signed, with a key it published, and what it says: [claims] is read from
    the token itself, decoded with that key. *)
Definition google_genuine (token : string) (claims : GoogleIdTokenClaims) : Prop :=
  exists k jwks kid key dkey k' body, fetch_jwks k GOOGLE_ID_TOKEN_JWKS_URL = Some jwks
    /\ google_id_token_key_id token = inl kid /\ jwks_find jwks kid = Some key /\ key_from_jwk key = Some dkey
    /\ signed_by token dkey /\ decode_claims k' token dkey google_validation = Some body
    /\ google_claims_of_json body = Some claims.
Definition google_keys (jwks : jwk_set) : Prop := exists k, fetch_jwks k GOOGLE_ID_TOKEN_JWKS_URL = Some jwks.
Definition google_cache_ok (s : server W) : Prop := forall e, sv_google_cache s = Some e -> google_keys (je_jwks e).

Lemma verify_google_sound token jwks (s s' : server W) claims : google_keys jwks ->
  verify_google_id_token_with_jwks token jwks s = (inl (inl claims), s') ->
  google_genuine token claims /\ In (gc_iss claims) (vd_issuers google_validation).
Proof.
  intros [k0 Hk] Hrun. unfold verify_google_id_token_with_jwks in Hrun.
  destruct (google_id_token_key_id token) as [kid|] eqn:Ek; [|done]. destruct (jwks_find jwks kid) as [key|] eqn:Ef; [|done].
  destruct (key_from_jwk key) as [dkey|] eqn:Ed; [|done]. apply try_inl_inv in Hrun as (k & s1 & Hr & Hrun).
  injection Hr as <- <-. destruct (decode_claims _ token dkey _) as [v|] eqn:Ev; [|done]. cbn [bind_opt] in Hrun.
  destruct (google_claims_of_json v) as [cl|] eqn:Ec; [|done]. apply try_inl_inv in Hrun as (now & s2 & Hu & Hrun).
  rewrite unix_now_run in Hu. injection Hu as <- <-. destruct (_ || _) eqn:Eo; [done|]. injection Hrun as -> <-.
  split.
  - eexists k0, jwks, kid, key, dkey, _, v. split_and!; try done. by eapply decode_claims_signed.
  - destruct (decode_claims_issuer _ _ _ _ _ Ev) as (iss & Hi & Hin). unfold google_claims_of_json in Ec.
    destruct (bind_opt (get_field "aud" v) as_str); [|done]. destruct (bind_opt (get_field "exp" v) as_u64); [|done].
    destruct (bind_opt (get_field "iat" v) as_u64); [|done]. rewrite Hi in Ec. cbn [bind_opt] in Ec.
    destruct (bind_opt (get_field "sub" v) as_str); [|done]. cbn [bind_opt] in Ec.
    destruct (optional_text (get_field "email" v)); [|done]. cbn [bind_opt] in Ec.
    destruct (deserialize_email_verified _); [|done]. cbn [bind_opt] in Ec.
    destruct (optional_text (get_field "name" v)); [|done]. cbn [bind_opt] in Ec. injection Ec as <-. exact Hin.
Qed.
Lemma google_cached_keys force (s s' : server W) r : google_cache_ok s -> google_id_token_cached_jwks force s = (inl r, s') ->
  google_cache_ok s' /\ forall jwks, r = inl jwks -> google_keys jwks.
Proof.
  intros Hs Hrun. unfold google_id_token_cached_jwks in Hrun. apply try_inl_inv in Hrun as (k & s1 & H1 & Hrun).
  injection H1 as <- <-. apply try_inl_inv in Hrun as (cache & s2 & H2 & Hrun). injection H2 as <- <-. cbn in Hrun.
  set (hit := if force then None else _) in Hrun. destruct hit as [jwks|] eqn:Eh.
  - injection Hrun as <- <-. split; [exact Hs|]. intros j [= <-]. unfold hit in Eh. destruct force; [done|].
    destruct (sv_google_cache s) as [e|] eqn:Ec; [|done]. cbn in Eh. destruct (_ <? _); [|done]. injection Eh as <-. by apply Hs.
  - clear hit Eh. apply try_inl_inv in Hrun as (f & s3 & Hf & Hrun). unfold fetch_google_id_token_jwks in Hf.
    apply try_inl_inv in Hf as (k & s4 & Hk & Hf). injection Hk as <- <-. injection Hf as <- <-.
    destruct (fetch_jwks _ GOOGLE_ID_TOKEN_JWKS_URL) as [jwks|] eqn:Ef.
    + assert (google_keys jwks) as Hg by (eexists; exact Ef).
      unfold reading, try, change, ok in Hrun. injection Hrun as <- <-. split; [|by intros j [= <-]].
      intros e. cbn. intros [= <-]. exact Hg.
    + injection Hrun as <- <-. split; [exact Hs|done].
Qed.
Lemma google_mark_keys (s s' : server W) b : google_cache_ok s ->
  google_id_token_mark_unknown_key_refresh_if_allowed s = (inl b, s') -> google_cache_ok s'.
Proof.
  intros Hs Hrun. unfold google_id_token_mark_unknown_key_refresh_if_allowed in Hrun.
  apply try_inl_inv in Hrun as (cache & s2 & H2 & Hrun). injection H2 as <- <-.
  destruct (sv_google_cache s) as [e|] eqn:Ec; [|by injection Hrun as _ <-].
  unfold reading, try, change, ok in Hrun. cbv zeta in Hrun.
  destruct (match je_last_unknown_key_refresh e with Some _ => _ | None => _ end); injection Hrun as _ <-; [exact Hs|].
  intros e'. cbn. intros [= <-]. cbn. by apply Hs.
Qed.
Lemma verify_google_frame token jwks (s s' : server W) r : verify_google_id_token_with_jwks token jwks s = (inl r, s') ->
  sv_google_cache s' = sv_google_cache s.
Proof.
  unfold verify_google_id_token_with_jwks. destruct (google_id_token_key_id token); [|by intros [= _ <-]].
  destruct (jwks_find _ _); [|by intros [= _ <-]]. destruct (key_from_jwk _); [|by intros [= _ <-]].
  unfold try, reading. destruct (bind_opt _ google_claims_of_json); [|by intros [= _ <-]].
  unfold unix_now, try, reading, ok. destruct (_ || _); by intros [= _ <-].
Qed.
Lemma verify_cached_sound token (s s' : server W) claims : google_cache_ok s ->
  verify_google_id_token_cached token s = (inl (inl claims), s') ->
  google_genuine token claims /\ In (gc_iss claims) (vd_issuers google_validation).
Proof.
  intros Hs Hrun. unfold verify_google_id_token_cached in Hrun. destruct (google_id_token_key_id token) as [kid|]; [|done].
  apply try_inl_inv in Hrun as (had & s1 & H1 & Hrun). injection H1 as <- <-.
  apply try_inl_inv in Hrun as (r & s2 & H2 & Hrun). apply google_cached_keys in H2 as [Hs2 Hk]; [|done].
  destruct r as [jwks|e]; [|done]. apply try_inl_inv in Hrun as (v & s3 & H3 & Hrun).
  pose proof (verify_google_frame _ _ _ _ _ H3) as Hfr. destruct v as [cl|e].
  { injection Hrun as -> <-. apply verify_google_sound in H3 as (Hg & Hi); [done|by apply Hk]. }
  destruct e; try done. destruct (is_some _); [|done].
  apply try_inl_inv in Hrun as (allowed & s4 & H4 & Hrun). apply google_mark_keys in H4; [|unfold google_cache_ok; by rewrite Hfr].
  destruct allowed; [|done]. apply try_inl_inv in Hrun as (r & s5 & H5 & Hrun). apply google_cached_keys in H5 as [_ Hk5]; [|done].
  destruct r as [jwks'|e]; [|done]. apply verify_google_sound in Hrun as (Hg & Hi); [done|by apply Hk5].
Qed.

(** The exchange's own steps leave Google's keys alone. *)
Definition same_google (s s' : server W) : Prop := sv_google_cache s' = sv_google_cache s.
#[local] Instance same_google_preorder : PreOrder same_google.
Proof. split; [done|]. intros ??? H1 H2. unfold same_google in *. congruence. Qed.
Lemma reading_google : asteps same_google (@reading W).
Proof. by intros s. Qed.
Lemma device_db_google {A} (m : DM A) : asteps same_google (on_device_db m).
Proof. intros s. unfold on_device_db. by destruct (m _) as [[] ?]. Qed.
#[local] Hint Resolve reading_google device_db_google : asteps.
Lemma gate_google c h peer r : asteps same_google (ensure_cloudflare_access_application_from_parts c h peer r).
Proof.
  assert (forall i, asteps same_google (fetch_cloudflare_access_jwks i))
    by (intros i; unfold fetch_cloudflare_access_jwks; api_steps).
  assert (forall i b, asteps same_google (cloudflare_access_cached_jwks i b))
    by (intros i b; unfold cloudflare_access_cached_jwks; api_steps; done).
  assert (forall i, asteps same_google (cloudflare_access_mark_unknown_key_refresh_if_allowed i))
    by (intros i; unfold cloudflare_access_mark_unknown_key_refresh_if_allowed; api_steps; done).
  assert (forall u d, asteps same_google (mobile_cloudflare_access_device_enrolled_for_user c u d))
    by (intros u d; unfold mobile_cloudflare_access_device_enrolled_for_user; api_steps).
  assert (forall d us, asteps same_google (any_user_has_device c d us))
    by (intros d us; induction us; cbn [any_user_has_device]; api_steps).
  unfold ensure_cloudflare_access_application_from_parts, classify_cloudflare_access_assertion_cached,
    ensure_cloudflare_access_context_allowed, ensure_mobile_cloudflare_access_device_enrolled. api_steps.
Qed.
Lemma edge_google c h peer m p : asteps same_google (ensure_public_edge_assertion_from_parts c h peer m p).
Proof.
  unfold ensure_public_edge_assertion_from_parts, validate_public_edge_timestamp, validate_timestamp,
    verify_public_edge_assertion, record_public_edge_assertion_nonce, unix_now. api_steps.
Qed.

(** Readings of the clock only go forward. *)
Definition ticks_up (s s' : server W) : Prop := (sv_tick s <= sv_tick s')%nat.
#[local] Instance ticks_up_preorder : PreOrder ticks_up.
Proof. split; [intros ?; unfold ticks_up; lia|]. intros ???. unfold ticks_up. lia. Qed.
Lemma reading_ticks : asteps ticks_up (@reading W).
Proof. intros s. unfold ticks_up. cbn. lia. Qed.
Definition db_ticks_up (w w' : world device_db) : Prop := (w_tick w <= w_tick w')%nat.
#[local] Instance db_ticks_up_preorder : PreOrder db_ticks_up.
Proof. split; [by intros w; unfold db_ticks_up|]. intros ???. unfold db_ticks_up. lia. Qed.
Lemma query_ticks_up {A} (f : device_db -> A) : steps db_ticks_up (query f).
Proof. intros w. unfold db_ticks_up. cbn. lia. Qed.
#[local] Hint Resolve query_ticks_up : steps.
Lemma device_db_ticks {A} (m : DM A) : steps db_ticks_up m -> asteps ticks_up (on_device_db m).
Proof.
  intros Hm s. specialize (Hm (World (sv_devices s) (sv_tick s))). unfold on_device_db, db_ticks_up, ticks_up in *.
  by destruct (m _) as [[] w].
Qed.
Lemma active_exists_ticks_up u d : steps db_ticks_up (active_device_exists true u d).
Proof. unfold active_device_exists, active_device_public_key. step_through. Qed.
#[local] Hint Resolve reading_ticks device_db_ticks active_exists_ticks_up : asteps.
Lemma enrolled_ticks c u d : asteps ticks_up (mobile_cloudflare_access_device_enrolled_for_user c u d).
Proof. unfold mobile_cloudflare_access_device_enrolled_for_user. api_steps. Qed.
#[local] Hint Resolve enrolled_ticks : asteps.
Lemma change_ticks (f : server W -> server W) : (forall s, sv_tick (f s) = sv_tick s) -> asteps ticks_up (change f).
Proof. intros Hf. apply asteps_change. intros s. unfold ticks_up. rewrite Hf. lia. Qed.
#[local] Hint Extern 3 (asteps ticks_up (change _)) => (apply change_ticks; intros; reflexivity) : asteps.
Lemma gate_ticks c h peer r : asteps ticks_up (ensure_cloudflare_access_application_from_parts c h peer r).
Proof.
  assert (forall i, asteps ticks_up (fetch_cloudflare_access_jwks i))
    by (intros i; unfold fetch_cloudflare_access_jwks; api_steps).
  assert (forall i b, asteps ticks_up (cloudflare_access_cached_jwks i b))
    by (intros i b; unfold cloudflare_access_cached_jwks; api_steps).
  assert (forall i, asteps ticks_up (cloudflare_access_mark_unknown_key_refresh_if_allowed i))
    by (intros i; unfold cloudflare_access_mark_unknown_key_refresh_if_allowed; api_steps).
  assert (forall d us, asteps ticks_up (any_user_has_device c d us))
    by (intros d us; induction us; cbn [any_user_has_device]; api_steps).
  unfold ensure_cloudflare_access_application_from_parts, classify_cloudflare_access_assertion_cached,
    ensure_cloudflare_access_context_allowed, ensure_mobile_cloudflare_access_device_enrolled. api_steps.
Qed.
Lemma edge_ticks c h peer m p : asteps ticks_up (ensure_public_edge_assertion_from_parts c h peer m p).
Proof.
  unfold ensure_public_edge_assertion_from_parts, validate_public_edge_timestamp, validate_timestamp,
    verify_public_edge_assertion, record_public_edge_assertion_nonce, unix_now. api_steps.
Qed.
Lemma verify_ticks token : asteps ticks_up (verify_google_id_token_cached token).
Proof.
  assert (forall b, asteps ticks_up (google_id_token_cached_jwks b))
    by (intros b; unfold google_id_token_cached_jwks, fetch_google_id_token_jwks; api_steps).
  assert (forall j, asteps ticks_up (verify_google_id_token_with_jwks token j))
    by (intros j; unfold verify_google_id_token_with_jwks, unix_now; api_steps).
  unfold verify_google_id_token_cached, google_id_token_mark_unknown_key_refresh_if_allowed. api_steps.
Qed.
Lemma context_ticks c ctx actor : asteps ticks_up (ensure_mobile_cloudflare_access_context_matches_actor c ctx actor).
Proof.
  unfold ensure_mobile_cloudflare_access_context_matches_actor, ensure_mobile_cloudflare_access_device_enrolled_for_user. api_steps.
Qed.
Lemma issue_ticks c email name (s s' : server W) tok :
  issue_device_access_token c email name s = (inl (Some tok), s') -> sv_tick s' = S (sv_tick s).
Proof.
  unfold issue_device_access_token. destruct (trimmed _); [|done]. unfold try. rewrite unix_now_run. cbv zeta.
  destruct (in_i64 _); [|done]. cbn [negb]. destruct (format_unix _); [|done]. by intros [= _ <-].
Qed.

(** C18: A device token is given to the right person only, and works.  When the exchange
    answers with a token, Google signed the ID token presented, with a key it published, and
    that token itself says: it is Google's, for one of the configured clients, and its address
    is verified; the address answered is that one, in lower case, and is on the list; and the
    device token authenticates requests as that person, counted from a reading of the clock
    during the exchange, until it expires.  The keys cached before have to be Google's. *)
Theorem google_exchange_sound c h peer method path id_token (s s' : server W) resp :
  google_cache_ok s ->
  auth_device_google c h peer method path id_token s = (inl resp, s') ->
  (exists info, google_genuine (trim id_token) info
     /\ trim (gc_aud info) ∈ allowed_google_audiences c /\ gc_email_verified info = true
     /\ In (gc_iss info) (vd_issuers google_validation)
     /\ gr_email resp = to_ascii_lowercase (trim (unwrap_or ""%string (gc_email info)))
     /\ gr_name resp = unwrap_or (gr_email resp) (trimmed (gc_name info)))
  /\ allowlisted_google_email c (gr_email resp) = true
  /\ (exists s1 : server W, (sv_tick s <= sv_tick s1 < sv_tick s')%nat /\ forall bearer (s2 : server W),
        request_bearer_token bearer = Some (gr_access_token resp) ->
        clock s2 < clock s1 + DEVICE_TOKEN_MAX_AGE_SECONDS -> to_lowercase (trim (gr_email resp)) <> ""%string ->
        fst (device_auth_user c bearer s2)
          = inl (Some (MkUser (to_lowercase (trim (gr_email resp))) (Some (gr_name resp)) "device_bearer"))).
Proof.
  intros Hs Hrun. unfold auth_device_google in Hrun.
  apply try_inl_inv in Hrun as (access & s1 & H1 & Hrun). pose proof (gate_google c h peer (Some MobileApp) s) as Hg1.
  rewrite H1 in Hg1. apply try_inl_inv in Hrun as (u & s2 & H2 & Hrun). pose proof (edge_google c h peer method path s1) as Hg2.
  rewrite H2 in Hg2. cbn [snd] in Hg1, Hg2. unfold same_google in Hg1, Hg2.
  destruct (negb (ready _)); [done|]. apply try_inl_inv in Hrun as (v & s3 & H3 & Hrun). destruct v as [info|e]; [|done].
  pose proof H3 as H3'. apply verify_cached_sound in H3 as [Hgen Hiss]; [|unfold google_cache_ok; by rewrite Hg2, Hg1].
  destruct (negb (bool_decide _)) eqn:Ea; [done|]. cbv zeta in Hrun. destruct (_ || _) eqn:Eo; [done|].
  apply orb_false_iff in Eo as [Ev El]. apply negb_false_iff in Ea, Ev, El. apply bool_decide_eq_true in Ea.
  apply try_inl_inv in Hrun as (u2 & s4 & H4 & Hrun). apply try_inl_inv in Hrun as (issued & s5 & H5 & Hrun).
  apply try_inl_inv in Hrun as (tok & s6 & [-> ->]%need_inl_inv & Hrun). injection Hrun as <- <-.
  cbn [gr_email gr_name gr_access_token]. split; [by exists info|]. split; [done|].
  exists s4. split; [|intros bearer sx Hb Hc Hl; by eapply issued_token_accepted].
  pose proof (gate_ticks c h peer (Some MobileApp) s) as T1. pose proof (edge_ticks c h peer method path s1) as T2.
  pose proof (verify_ticks (trim id_token) s2) as T3.
  pose proof (context_ticks c access (to_ascii_lowercase (trim (unwrap_or ""%string (gc_email info)))) s3) as T4.
  rewrite H1 in T1. rewrite H2 in T2. rewrite H3' in T3. rewrite H4 in T4. cbn [snd] in T1, T2, T3, T4.
  unfold ticks_up in *. apply issue_ticks in H5. lia.
Qed.
End Exchange.

(** ** A concrete exchange *)
#[local] Existing Instances demo_local demo_crypto demo_uri demo_monotonic.
Definition hex_text (s : string) : string :=
  of_bytes (flat_map (fun c => [upper_hex (N_of_ascii c / 16); upper_hex (N_of_ascii c mod 16)]) (bytes_of s)).
Fixpoint unhex_bytes (l : list ascii) : option (list ascii) :=
  match l with
  | [] => Some []
  | a :: b :: r => bind_opt (hex_value a) (fun h => bind_opt (hex_value b) (fun l =>
                   option_map (cons (ascii_of_N (h * 16 + l))) (unhex_bytes r)))
  | _ => None
  end.
Definition unhex (s : string) : option string := option_map of_bytes (unhex_bytes (bytes_of s)).
Lemma unhex_hex s : unhex (hex_text s) = Some s.
Proof.
  unfold unhex, hex_text. rewrite bytes_of_bytes.
  assert (forall l, unhex_bytes (flat_map (fun c => [upper_hex (N_of_ascii c / 16); upper_hex (N_of_ascii c mod 16)]) l) = Some l) as Hl.
  { assert (forall c, match hex_value (upper_hex (N_of_ascii c / 16)), hex_value (upper_hex (N_of_ascii c mod 16)) with
      | Some h, Some l => Ascii.eqb (ascii_of_N (h * 16 + l)) c | _, _ => false end = true) as Hb
      by (apply forall_bytes; vm_compute; reflexivity).
    induction l as [|c l IH]; [done|]. cbn [flat_map app unhex_bytes]. specialize (Hb c).
    destruct (hex_value (upper_hex (N_of_ascii c / 16))); [|done]. destruct (hex_value (upper_hex (N_of_ascii c mod 16))); [|done].
    cbn [bind_opt]. rewrite IH. by apply Ascii.eqb_eq in Hb as ->. }
  rewrite Hl. cbn. by rewrite of_bytes_of.
Qed.
Lemma hex_chars s c : In c (bytes_of (hex_text s)) -> c <> "."%char /\ c <> ","%char.
Proof.
  unfold hex_text. rewrite bytes_of_bytes. intros (d & _ & Hc)%in_flat_map.
  assert (forall d, forallb (fun c => negb (Ascii.eqb c ".") && negb (Ascii.eqb c ","))
    [upper_hex (N_of_ascii d / 16); upper_hex (N_of_ascii d mod 16)] = true) as Hb by (apply forall_bytes; vm_compute; reflexivity).
  specialize (Hb d). rewrite forallb_forall in Hb. apply Hb in Hc. apply andb_true_iff in Hc as [H1 H2].
  split; intros ->; done.
Qed.

Definition text_field (key : string) (v : json) : string := unwrap_or ""%string (bind_opt (get_field key v) as_str).
Definition number_field (key : string) (v : json) : string :=
  match get_field key v with Some (JNumber (PosInt n)) | Some (JNumber (NegInt n)) => show_Z n | _ => ""%string end.
Definition payload_text (v : json) : string :=
  hex_text (text_field "email" v) +:+ "," +:+ hex_text (text_field "name" v) +:+ ","
  +:+ hex_text (number_field "iat" v) +:+ "," +:+ hex_text (number_field "exp" v).
Definition read_payload (s : string) : option json :=
  bind_opt (split_once "," s) (fun p => bind_opt (split_once "," (snd p)) (fun q => bind_opt (split_once "," (snd q)) (fun r =>
  bind_opt (unhex (fst p)) (fun email => bind_opt (unhex (fst q)) (fun name =>
  bind_opt (bind_opt (unhex (fst r)) demo_parse) (fun now => bind_opt (bind_opt (unhex (snd r)) demo_parse) (fun exp =>
  Some (device_payload email name now exp)))))))).
#[local] Instance demo_payloads : JsonParser := {| parse_json := read_payload; json_text := payload_text |}.
#[local] Instance demo_hex_signing : Signing := {|
  hmac_sha256 := fun key message => key +:+ message;
  base64_standard_decode := fun _ => None;
  base64_urlsafe_decode := unhex |}.
#[local] Instance demo_base64 : Base64Text := {| base64_urlsafe_encode := hex_text |}.
#[local] Instance demo_unicode : Unicode := {| to_lowercase := to_ascii_lowercase |}.
#[local] Instance demo_unix : UnixTime := {| format_unix := fun z => Some (show_Z z) |}.
Lemma demo_token_laws : TokenLaws demo_hex_signing demo_base64 demo_payloads.
Proof.
  split; [apply unhex_hex|intros b Hin; by apply hex_chars in Hin as [? _]|]. intros email name now exp _.
  assert (payload_text (device_payload email name now exp)
    = hex_text email +:+ "," +:+ hex_text name +:+ "," +:+ hex_text (show_Z now) +:+ "," +:+ hex_text (show_Z exp)) as Ht.
  { unfold payload_text, number_field. change (get_field "iat" (device_payload email name now exp)) with (Some (json_i64 now)).
    change (get_field "exp" (device_payload email name now exp)) with (Some (json_i64 exp)).
    unfold json_i64. destruct (0 <=? now), (0 <=? exp); reflexivity. }
  cbn [json_text demo_payloads parse_json]. rewrite Ht. unfold read_payload.
  assert (forall s, ~ In ","%char (bytes_of (hex_text s))) as Hc by (intros x Hin; by apply hex_chars in Hin as [_ ?]).
  do 3 (rewrite split_once_joined by (apply Hc); cbn [bind_opt fst snd]).
  rewrite !unhex_hex. cbn [bind_opt]. by rewrite !demo_roundtrip.
Qed.

(** Google's tokens are the texts of their key ids. *)
Definition demo_google_claims : json :=
  JObject [("aud", JString "client"); ("email", JString "Ann@Example.org"); ("email_verified", JString "True");
           ("exp", JNumber (PosInt 4102444800)); ("iat", JNumber (PosInt 1600000000));
           ("iss", JString "accounts.google.com"); ("name", JString "Ann"); ("sub", JString "1")]%string.
#[local] Instance demo_google_jwt : Jwt := {|
  jwk_set := list string; jwk := string; decoding_key := string;
  decode_header := fun token => Some (Some token);
  jwks_find := fun set kid => List.find (fun k => k =?s kid) set;
  key_from_jwk := fun k => Some k;
  decode := fun _ _ _ _ => None;
  decode_claims := fun _ token key v =>
    if (token =?s key) && str_in "accounts.google.com" (vd_issuers v) then Some demo_google_claims else None;
  fetch_jwks := fun _ _ => Some ["key1"%string] |}.
#[local] Instance demo_google_laws : JwtLaws demo_google_jwt.
Proof.
  refine {| signed_by := fun token key => token = key; audiences := fun _ => [] |}; try done.
  - intros k token key v claims. cbn. destruct (String.eqb_spec token key); [done|done].
  - intros k token key v claims. cbn. destruct (String.eqb_spec token key); [|done].
    destruct (str_in _ _) eqn:Ei; [|done]. intros [= <-]. exists "accounts.google.com"%string. split; [done|].
    unfold str_in in Ei. apply existsb_exists in Ei as (x & Hin & ->%String.eqb_eq). done.
Defined.
Definition no_access : CloudflareAccessConfig :=
  MkAccessConfig None None None None no_application no_application no_application no_application None None None.
Definition demo_google_config : AppConfig :=
  MkAppConfig no_access
    (MkGoogleAuth true (Some "sm.example.org"%string) None (Some "client"%string) None (Some "cs"%string) (Some "uri"%string)
       ["ann@example.org"%string] (Some "secret"%string))
    (MkPublicEdge false None 0) (MkExternalAccess None None) (MkMobileTerminal false None None true [] 0 0 0 0 0).
Definition demo_google_server : server demo_google_jwt := MkServer ∅ None ∅ ∅ ∅ ∅ ∅ ∅ false empty_device_db 0.
Definition demo_exchange : (DeviceGoogleAuthResponse + api_error) * server demo_google_jwt :=
  auth_device_google demo_google_config [("host", "sm.example.org")]%string None "POST" "/auth/device/google" " key1 " demo_google_server.
Definition demo_response : DeviceGoogleAuthResponse :=
  match fst demo_exchange with inl resp => resp | inr _ => MkGoogleResponse "" "" "" "" end.
Lemma google_exchange_sound_witness :
  (exists info, google_genuine "key1" info /\ gc_email_verified info = true) /\ allowlisted_google_email demo_google_config (gr_email demo_response) = true.
Proof.
  pose proof demo_token_laws.
  destruct (google_exchange_sound demo_google_config [("host", "sm.example.org")]%string None "POST" "/auth/device/google" " key1 "
    demo_google_server (snd demo_exchange) demo_response) as ((info & H1 & _ & Hv & _) & H2 & _).
  - intros e. done.
  - vm_compute. reflexivity.
  - split; [exists info; exact (conj H1 Hv)|exact H2].
Defined.
Lemma demo_exchange_works :
  fst (device_auth_user demo_google_config [("authorization", "bearer " +:+ gr_access_token demo_response)]%string demo_google_server)
  = inl (Some (MkUser "ann@example.org" (Some "Ann"%string) "device_bearer")).
Proof. vm_compute. reflexivity. Qed.
