(* ===== verification/MobileTickets.v ===== *)
(** * Mobile terminal tickets (http.rs)

    A phone asks for a ticket with a signature of its device key, redeems the ticket on a
    web socket, and is attached to the session's terminal until it leaves, its device is
    revoked or the mobile terminal is switched off.  Each handler is a program whose
    sections are the stretches it runs under one lock (the ticket store's lock is held over
    the last section of issuing and of redeeming a ticket). *)
From Stdlib Require Import ZArith Lia Bool String Ascii List.
From stdpp Require Import base tactics list strings gmap relations.
From S2P Require Import Prelude Text StrMethods Table Clock Json HttpRequest Api ServerConfig UsageDb MobileDevices.
From S2P Require Import Server CloudflareAccess PublicEdge DeviceAuth.

(** ** Sessions, as the registry gives them *)
Record session_view : Type := MkSession {
  sn_id : string; sn_provider : string; sn_node : string; sn_status : string; sn_completion_status : option string;
  sn_tmux_session : string; sn_tmux_socket_name : option string }.
(** The registry's answers at a reading: [None] is an error. *)
Class Sessions : Type := {
  get_session : nat -> string -> option (option session_view);
  agent_registration : nat -> string -> option (option string) }.
(** The device policy's synchronisation ([MobilePolicy.sync_device_common_name]): the error,
    if any; and [p256]'s verification of a signature over a message. *)
Class TerminalServices : Type := {
  sync_revoke : nat -> string -> option string;
  p256_key : string -> bool;
  p256_signature : string -> bool;
  p256_verify : string -> string -> string -> bool }.

Definition normalized_status (status : string) : string :=
  if status =?s "starting" then "running"
  else if str_in status ["waiting_input"; "waiting_permission"; "error"]%string then "idle"
  else status.
Definition completion_status_is_retired (status : option string) : bool :=
  match status with Some s => str_in s ["retired"; "killed"]%string | None => false end.
Definition is_stopped (session : session_view) : bool :=
  (normalized_status (sn_status session) =?s "stopped") || completion_status_is_retired (sn_completion_status session).
(** Whether a session can be attached to, or why not. *)
Definition attach_descriptor_payload (session : session_view) : option string :=
  if is_stopped session then Some "Session is stopped"%string
  else if sn_provider session =?s "codex-app" then Some "Attach not supported for Codex app sessions"%string
  else if trim (sn_tmux_session session) =?s "" then Some "Session has no tmux session"%string
  else None.

(** ** Addresses and messages *)
Definition normalize_mobile_terminal_path_prefix (value : string) : string :=
  let prefix := trim value in
  if (prefix =?s "") || (prefix =?s "/") then ""%string
  else
    let prefix := if starts_with prefix "/" then prefix else "/" +:+ prefix in
    trim_end_char "/" prefix.
Definition mobile_terminal_public_http_path_prefix (c : AppConfig) (route_prefix : option string) : string :=
  match route_prefix with
  | Some prefix => normalize_mobile_terminal_path_prefix prefix
  | None =>
      match or_else (or_else (trimmed (mt_public_path_prefix (mobile_terminal c)))
                             (trimmed (ex_public_http_path_prefix (external_access c))))
                    (trimmed (ga_public_path_prefix (google_auth c))) with
      | Some prefix => normalize_mobile_terminal_path_prefix prefix
      | None => ""%string
      end
  end.
Definition mobile_terminal_ws_url (c : AppConfig) (route_prefix : option string) : option string :=
  let mt := mobile_terminal c in
  match trimmed (mt_ws_url mt) with
  | Some configured =>
      if mt_require_tls mt && negb (starts_with (to_ascii_lowercase configured) "wss://") then None else Some configured
  | None =>
      option_map (fun host =>
        let host_lower := to_ascii_lowercase host in
        let scheme := if negb (mt_require_tls mt) && (starts_with host_lower "localhost"
                        || starts_with host_lower "127.0.0.1" || starts_with host_lower "testserver")
                      then "ws"%string else "wss"%string in
        scheme +:+ "://" +:+ host +:+ mobile_terminal_public_http_path_prefix c route_prefix +:+ "/client/terminal")
        (or_else (trimmed (ex_public_http_host (external_access c))) (trimmed (ga_public_host (google_auth c))))
  end.
Definition mobile_terminal_attach_ticket_path (c : AppConfig) (session_id : string) (route_prefix : option string) : string :=
  mobile_terminal_public_http_path_prefix c route_prefix +:+ "/client/sessions/" +:+ session_id +:+ "/attach-ticket".
Definition mobile_terminal_request_path_prefix (path route_suffix : string) : option string :=
  let path := trim_end_char "/" path in
  let suffix := trim_end_char "/" route_suffix in
  if path =?s suffix then None
  else bind_opt (strip_suffix suffix path) (fun prefix => nonempty (normalize_mobile_terminal_path_prefix prefix)).
Definition mobile_terminal_ticket_message (method path session_id actor_email device_key_id timestamp nonce : string) : string :=
  join NL ["SM-MOBILE-TERMINAL-TICKET-V1"%string; to_ascii_uppercase method; path; session_id;
           to_ascii_lowercase actor_email; device_key_id; timestamp; nonce].
Definition mobile_terminal_ws_message (ticket_id session_id actor_email device_key_id nonce : string) : string :=
  join NL ["SM-MOBILE-TERMINAL-WS-V1"%string; ticket_id; session_id; to_ascii_lowercase actor_email; device_key_id; nonce].
Definition mobile_terminal_proof_nonce_key (user_id device_key_id session_id nonce : string) : string :=
  join US [user_id; device_key_id; session_id; nonce].

(** Characters [tmux] takes as part of a name. *)
Definition safe_target (extra : list ascii) (s : string) : bool :=
  forallb (fun ch => is_ascii_alphanumeric ch || existsb (Ascii.eqb ch) extra) (bytes_of s).
Definition validate_mobile_terminal_tmux_target (tmux_session : string) (tmux_socket_name : option string) : unit + api_error :=
  if (tmux_session =?s "") || negb (safe_target ["_"; "."; ":"; "@"; "-"]%char tmux_session)
  then inr (ApiStatus FORBIDDEN "Unsafe tmux session target")
  else match tmux_socket_name with
       | Some socket => if negb (safe_target ["_"; "."; "-"]%char socket)
                        then inr (ApiStatus FORBIDDEN "Unsafe tmux socket target") else inl tt
       | None => inl tt
       end.
Definition mobile_terminal_user_can_disable (user : MobileTerminalUserConfig) : bool :=
  us_mobile_terminal_owner user || us_can_disable_mobile_terminal user || us_owner user.

(** ** Limits *)
Record limits : Type := MkLimits { max_global : Z; max_user : Z; max_session : Z }.
Definition attach_limits (c : AppConfig) : limits :=
  let mt := mobile_terminal c in
  MkLimits (clamp_usize (mt_max_concurrent_attaches_global mt) 1 64 4)
    (clamp_usize (mt_max_concurrent_attaches_per_user mt) 1 16 1)
    (clamp_usize (mt_max_concurrent_attaches_per_session mt) 1 16 1).
Definition count {A} (p : A -> bool) (m : gmap string A) : Z :=
  Z.of_nat (size (filter (fun kv => p (snd kv) = true) m)).
Definition total {A} (m : gmap string A) : Z := Z.of_nat (size m).
Definition of_user (u : string) (a : MobileTerminalActiveAttach) : bool := at_user_id a =?s u.
Definition of_session (n : string) (a : MobileTerminalActiveAttach) : bool := at_session_id a =?s n.
Definition TOO_MANY_REQUESTS : Z := 429.
Definition CONFLICT : Z := 409.
(** The refusal a number of attaches calls for. *)
Definition limit_error (l : limits) (all user session : Z) : option api_error :=
  if max_global l <=? all then Some (ApiStatus TOO_MANY_REQUESTS "Too many active mobile attaches")
  else if max_user l <=? user then Some (ApiStatus TOO_MANY_REQUESTS "Too many active mobile attaches for user")
  else if max_session l <=? session then Some (ApiStatus TOO_MANY_REQUESTS "Session already has an active mobile attach")
  else None.
Definition enforce_mobile_terminal_active_limits (c : AppConfig) (active : gmap string MobileTerminalActiveAttach)
    (ticket : MobileTerminalTicket) : option api_error :=
  limit_error (attach_limits c) (total active) (count (of_user (tk_user_id ticket)) active)
    (count (of_session (tk_session_id ticket)) active).

(** ** What handlers answer *)
(** [tr_expires_at]: the second the text [expires_at] of the answer names. *)
Record MobileAttachTicketResponse : Type := MkTicketResponse {
  tr_ticket_id : string; tr_ticket_secret : string; tr_device_key_id : string; tr_ws_url : string; tr_expires_at : Z }.
Inductive answer : Type :=
| TicketIssued (response : MobileAttachTicketResponse)
| Detached (ticket : MobileTerminalTicket) (attach_id : string)
| TerminalDisabled (active_attaches_terminated : Z)
| DeviceRevoked (user_id device_key_id : string) (already_revoked : bool) (pending_tickets_revoked active_attaches_terminated : Z)
    (runtime_only : bool).
Record MobileTerminalAuthFrame : Type := MkFrame {
  fr_ticket_id : option string; fr_ticket_secret : option string; fr_device_key_id : option string;
  fr_nonce : option string; fr_signature : option string }.
Record request : Type := MkRequest {
  rq_headers : headers; rq_peer : option ip_addr; rq_method : string; rq_target : string; rq_path : string }.

Section Handlers.
Context `{W : Jwt} `{U : UriCrate} `{I : Monotonic} `{E : Env} `{F : LocalTime} `{K : DeviceCrypto} `{J : JsonParser}
  `{G : Signing} `{H1 : Sha1} `{C : Unicode} `{N : Sessions} `{V : TerminalServices}.
Context (c : AppConfig) (terminal_secret : string).
Abbreviation SM := (AM (server W)).
Abbreviation handler := (prog (server W) (answer + api_error)).

(** ** Device keys *)
Definition static_keys_available (user_id : string) (user : MobileTerminalUserConfig) (revoked : gset (string * string)) : bool :=
  existsb (fun key => dk_enabled key && negb (trim (dk_id key) =?s "") && negb (trim (dk_public_key key) =?s "")
                      && negb (bool_decide ((user_id, trim (dk_id key)) ∈ revoked))) (registered_device_keys user).
(** [.unwrap_or(a)]. *)
Definition or_value {A} (a : A) (m : SM A) : SM A :=
  fun s => match m s with (inl x, s') => (inl x, s') | (inr _, s') => (inl a, s') end.
Definition mobile_terminal_user_has_available_registered_device (user_id : string) (user : MobileTerminalUserConfig) : SM bool :=
  revoked <-! read sv_revoked_keys ;;
  if static_keys_available user_id user revoked then ok true
  else or_value false (on_device_db (user_has_active_device true user_id)).
Definition mobile_terminal_user_device_exists (user_id device_key_id : string) : SM bool :=
  if match find_user user_id (mobile_terminal c) with
     | Some user => existsb (fun key => trim (dk_id key) =?s device_key_id) (registered_device_keys user)
     | None => false
     end
  then ok true else or_value false (on_device_db (device_exists true user_id device_key_id)).
Definition mobile_terminal_device_revoked (user_id device_key_id : string) : SM bool :=
  read (fun s => bool_decide ((user_id, device_key_id) ∈ sv_revoked_keys s)).
(** The key of a device that is not revoked: of the configuration, else of the database. *)
Definition device_key_of (user_id : string) (user : MobileTerminalUserConfig) (device_key_id : string) : SM (option string) :=
  match List.find (fun key => dk_enabled key && (trim (dk_id key) =?s device_key_id)
                              && negb (trim (dk_public_key key) =?s "")) (registered_device_keys user) with
  | Some key => ok (Some (dk_public_key key))
  | None => on_device_db (active_device_public_key true user_id device_key_id)
  end.
Definition SIGNATURE_INVALID : api_error := ApiStatus UNAUTHORIZED "Invalid device signature".
Definition verify_mobile_terminal_p256_signature (public_key signature message : string) : SM unit :=
  let signature := trim signature in
  if signature =?s "" then fail (ApiStatus UNAUTHORIZED "Missing device signature")
  else
    bytes <-! need (ApiStatus UNAUTHORIZED "Invalid device signature encoding")
                (or_else (base64_standard_decode signature) (base64_urlsafe_decode signature)) ;;
    check (p256_key (trim public_key)) (ApiStatus UNAUTHORIZED "Invalid device public key") ;!;
    check (p256_signature bytes) SIGNATURE_INVALID ;!;
    check (p256_verify (trim public_key) bytes message) SIGNATURE_INVALID.

(** ** Switches *)
Definition mobile_terminal_enabled (s : server W) : bool := mt_enabled (mobile_terminal c) && negb (sv_disabled s).
Definition ensure_mobile_terminal_ticket_runtime_enabled : SM unit :=
  disabled <-! read sv_disabled ;; check (negb disabled) (ApiStatus FORBIDDEN "Mobile terminal attach is disabled").
Definition ensure_enabled : SM unit :=
  enabled <-! read mobile_terminal_enabled ;; check enabled (ApiStatus FORBIDDEN "mobile terminal attach is disabled").

(** ** Who asks *)
Definition with_actor (r : request) (k : string -> handler) : handler :=
  access <-- ensure_cloudflare_access_application_from_parts c (rq_headers r) (rq_peer r) (Some MobileApp) ;;
  _ <-- ensure_public_edge_assertion_from_parts c (rq_headers r) (rq_peer r) (rq_method r) (rq_target r) ;;
  actor_email <-- (actor <-! request_actor_email_from_parts c (rq_headers r) (rq_peer r) ;;
                   need (ApiStatus UNAUTHORIZED "Authentication required") actor) ;;
  _ <-- ensure_mobile_cloudflare_access_context_matches_actor c access actor_email ;;
  k actor_email.
Definition lookup_session (identifier : string) : SM (option session_view) :=
  k <-! reading ;; need (ApiInternal "session store") (get_session k identifier).
Definition resolve_session_or_registry_role (identifier : string) : SM (option session_view) :=
  found <-! lookup_session identifier ;;
  match found with
  | Some session => ok (Some session)
  | None =>
      k <-! reading ;;
      registration <-! need (ApiInternal "session store") (agent_registration k identifier) ;;
      match registration with Some session_id => lookup_session session_id | None => ok None end
  end.

(** ** Issuing a ticket *)
Record MobileTerminalAuthorization : Type := MkAuthorization {
  az_user_id : string; az_device_key_id : string; az_ws_url : string; az_tmux_session : string;
  az_tmux_socket_name : option string; az_proof_nonce : string; az_proof_nonce_expires_at_unix : Z }.
Definition validate_mobile_terminal_timestamp : string -> Z -> SM Z :=
  validate_timestamp (ApiStatus UNAUTHORIZED "Invalid device timestamp") (ApiStatus UNAUTHORIZED "Expired device signature").
(** The checks that read only the configuration and the session. *)
Definition authorize_target (route_prefix : option string) (session : session_view) (actor_email : string)
    : (string * (string * MobileTerminalUserConfig)) + api_error :=
  if negb (mt_enabled (mobile_terminal c)) then inr (ApiStatus FORBIDDEN "Mobile terminal attach is disabled")
  else if is_stopped session then inr (ApiStatus CONFLICT "Session is not running")
  else
    match mobile_terminal_ws_url c route_prefix with
    | None => inr (ApiStatus FORBIDDEN "mobile terminal public HTTPS host is not configured")
    | Some ws_url =>
        match mobile_terminal_visible_user c actor_email with
        | None => inr (ApiStatus FORBIDDEN "mobile terminal user is not configured")
        | Some (user_id, user) =>
            if negb (interactive_shell_access user) then inr (ApiStatus FORBIDDEN "interactive shell access is not enabled")
            else inl (ws_url, (user_id, user))
        end
    end.
Definition DEVICE_NOT_REGISTERED : api_error := ApiStatus UNAUTHORIZED "Device key is not registered".
Definition authorize_mobile_terminal_ticket_request (h : headers) (route_prefix : option string) (session : session_view)
    (actor_email : string) (k : MobileTerminalAuthorization -> handler) : handler :=
  target <-- of_result (authorize_target route_prefix session actor_email) ;;
  let '(ws_url, (user_id, user)) := target in
  let requested := header_text h "x-sm-device-key-id" in
  _ <-- (available <-! mobile_terminal_user_has_available_registered_device user_id user ;;
         if (available : bool) then ok tt
         else
           known <-! match requested with Some d => mobile_terminal_user_device_exists user_id d | None => ok false end ;;
           fail (if (known : bool) then DEVICE_NOT_REGISTERED
                 else ApiStatus FORBIDDEN "registered mobile device key is required")) ;;
  proof <-- (match attach_descriptor_payload session with
             | Some message => fail (ApiStatus FORBIDDEN message)
             | None => ok tt
             end ;!;
             let tmux_session := trim (sn_tmux_session session) in
             let tmux_socket_name := trimmed (sn_tmux_socket_name session) in
             of_result (validate_mobile_terminal_tmux_target tmux_session tmux_socket_name) ;!;
             match requested, header_text h "x-sm-device-timestamp", header_text h "x-sm-device-nonce",
                   header_text h "x-sm-device-signature" with
             | Some device_key_id, Some timestamp, Some nonce, Some signature =>
                 expires_at <-! validate_mobile_terminal_timestamp timestamp
                                  (mt_device_signature_max_skew_seconds (mobile_terminal c)) ;;
                 revoked <-! mobile_terminal_device_revoked user_id device_key_id ;;
                 check (negb revoked) DEVICE_NOT_REGISTERED ;!;
                 ok (MkAuthorization user_id device_key_id ws_url tmux_session tmux_socket_name nonce expires_at,
                     (timestamp, signature))
             | _, _, _, _ => fail (ApiStatus UNAUTHORIZED "Device key proof is required")
             end) ;;
  let '(authorization, (timestamp, signature)) := proof in
  _ <-- (key <-! device_key_of user_id user (az_device_key_id authorization) ;;
         key <-! need DEVICE_NOT_REGISTERED key ;;
         verify_mobile_terminal_p256_signature key signature
           (mobile_terminal_ticket_message "POST" (mobile_terminal_attach_ticket_path c (sn_id session) route_prefix)
              (sn_id session) actor_email (az_device_key_id authorization) timestamp (az_proof_nonce authorization))) ;;
  k authorization.

Definition record_mobile_terminal_proof_nonce (user_id device_key_id session_id nonce : string) (expires_at now : Z) : SM unit :=
  nonces <-! read sv_proof_nonces ;;
  let '(fresh, nonces) := record_nonce (mobile_terminal_proof_nonce_key user_id device_key_id session_id nonce) expires_at now nonces in
  change (fun s => s <| sv_proof_nonces := nonces |>) ;!;
  check fresh (ApiStatus UNAUTHORIZED "Device signature nonce was already used").
Definition random_token (byte_len : nat) : SM string := k <-! reading ;; ok (urlsafe_base64 (fill_bytes k byte_len)).
Definition mobile_terminal_secret_hash (ticket_secret : string) : string :=
  String.concat "" (map (fun b => show_hex2 (N_of_ascii b)) (bytes_of (hmac_sha256 terminal_secret ticket_secret))).
Definition cleanup_mobile_terminal_tickets (now : Z) (tickets : gmap string MobileTerminalTicket) : gmap string MobileTerminalTicket :=
  filter (fun kv => now < tk_expires_at_unix (snd kv)) tickets.
Definition of_device (user_id device_key_id : string) (t : MobileTerminalTicket) : bool :=
  (tk_user_id t =?s user_id) && (tk_device_key_id t =?s device_key_id).
Definition store_ticket (now : Z) (ticket : MobileTerminalTicket) : SM unit :=
  change (fun s => s <| sv_tickets :=
    filter (fun kv => of_device (tk_user_id ticket) (tk_device_key_id ticket) (snd kv) = false)
      (cleanup_mobile_terminal_tickets now (sv_tickets s)) |>) ;!;
  tickets <-! read sv_tickets ;;
  active <-! read sv_active ;;
  match limit_error (attach_limits c) (total tickets + total active)
          (count (fun t => tk_user_id t =?s tk_user_id ticket) tickets + count (of_user (tk_user_id ticket)) active)
          (count (fun t => tk_session_id t =?s tk_session_id ticket) tickets + count (of_session (tk_session_id ticket)) active) with
  | Some e => fail e
  | None =>
      ensure_mobile_terminal_ticket_runtime_enabled ;!;
      change (fun s => s <| sv_tickets := <[tk_ticket_id ticket := ticket]> (sv_tickets s) |>)
  end.
(** The section under the lock of the tickets.  Drawing the ticket's id and secret touches
    nothing that is shared: it belongs to the section it precedes. *)
Definition issue_ticket (actor_email : string) (session : session_view) (az : MobileTerminalAuthorization) (now : Z)
    : SM MobileAttachTicketResponse :=
  let expires_at := now + clamp_u64 (mt_ticket_ttl_seconds (mobile_terminal c)) 5 300 30 in
  id <-! random_token 18 ;;
  ticket_secret <-! random_token 40 ;;
  let ticket_id := "att_" +:+ id in
  store_ticket now
    (MkTicket ticket_id (mobile_terminal_secret_hash ticket_secret) (az_user_id az) actor_email (sn_id session)
       (sn_provider session) (sn_node session) (az_tmux_session az) (az_tmux_socket_name az) (az_device_key_id az)
       now expires_at) ;!;
  ok (MkTicketResponse ticket_id ticket_secret (az_device_key_id az) (az_ws_url az) expires_at).
Definition create_mobile_attach_ticket (r : request) (session_id : string) : handler :=
  with_actor r (fun actor_email =>
  session <-- (found <-! resolve_session_or_registry_role session_id ;; need (ApiNotFound "Session not found") found) ;;
  let route_prefix := mobile_terminal_request_path_prefix (rq_path r)
                        ("/client/sessions/" +:+ sn_id session +:+ "/attach-ticket") in
  _ <-- ensure_mobile_terminal_ticket_runtime_enabled ;;
  authorize_mobile_terminal_ticket_request (rq_headers r) route_prefix session actor_email (fun az =>
  now <-- (now <-! unix_now ;;
           record_mobile_terminal_proof_nonce (az_user_id az) (az_device_key_id az) (sn_id session) (az_proof_nonce az)
             (az_proof_nonce_expires_at_unix az) now ;!; ok now) ;;
  response <-- issue_ticket actor_email session az now ;;
  Ret (inl (TicketIssued response)))).

(** ** Redeeming a ticket *)
Definition TICKET_INVALID : api_error := ApiStatus UNAUTHORIZED "Attach ticket is invalid or expired".
Definition validate_mobile_terminal_ticket_secret (ticket : MobileTerminalTicket) (ticket_id ticket_secret device_key_id : string)
    : unit + api_error :=
  if negb (tk_ticket_id ticket =?s ticket_id) then inr TICKET_INVALID
  else if negb (tk_device_key_id ticket =?s device_key_id) then inr (ApiStatus UNAUTHORIZED "Attach ticket device mismatch")
  else if negb (constant_time_eq (bytes_of (tk_secret_hash ticket)) (bytes_of (mobile_terminal_secret_hash ticket_secret)))
  then inr (ApiStatus UNAUTHORIZED "Attach ticket secret mismatch")
  else inl tt.
Definition mobile_terminal_ticket_for_consume (ticket_id ticket_secret device_key_id : string) (now : Z) : SM MobileTerminalTicket :=
  tickets <-! read sv_tickets ;;
  ticket <-! need TICKET_INVALID (tickets !! ticket_id) ;;
  of_result (validate_mobile_terminal_ticket_secret ticket ticket_id ticket_secret device_key_id) ;!;
  if tk_expires_at_unix ticket <=? now then
    change (fun s => s <| sv_tickets := delete ticket_id (sv_tickets s) |>) ;!;
    fail (ApiStatus UNAUTHORIZED "Attach ticket is expired or consumed")
  else ok ticket.
(** The section under the locks of the tickets and of the attaches. *)
Definition attach_ticket (ticket_id ticket_secret device_key_id : string) (now : Z) : SM (MobileTerminalTicket * string) :=
  current <-! mobile_terminal_ticket_for_consume ticket_id ticket_secret device_key_id now ;;
  active <-! read sv_active ;;
  match enforce_mobile_terminal_active_limits c active current with
  | Some e => fail e
  | None =>
      change (fun s => s <| sv_tickets := delete ticket_id (sv_tickets s) |>) ;!;
      attach_id <-! random_token 16 ;;
      change (fun s => s <| sv_active :=
        <[attach_id := MkAttach (tk_user_id current) (tk_session_id current) (tk_provider current)
                         (tk_device_key_id current) now]> (sv_active s) |>) ;!;
      ok (current, attach_id)
  end.
Definition NOT_ALLOWED_TO_ATTACH : api_error := ApiStatus FORBIDDEN "User is no longer allowed to attach".
Definition NOT_ATTACHABLE : api_error := ApiStatus CONFLICT "Session is no longer attachable".
Definition frame_fields (frame : MobileTerminalAuthFrame) : option (string * string * string * string * string) :=
  match trimmed (fr_ticket_id frame), trimmed (fr_ticket_secret frame), trimmed (fr_device_key_id frame),
        trimmed (fr_nonce frame), trimmed (fr_signature frame) with
  | Some ticket_id, Some ticket_secret, Some device_key_id, Some nonce, Some signature =>
      Some (ticket_id, ticket_secret, device_key_id, nonce, signature)
  | _, _, _, _, _ => None
  end.
Definition consume_mobile_terminal_ticket (frame : MobileTerminalAuthFrame)
    (k : MobileTerminalTicket -> string -> handler) : handler :=
  _ <-- ensure_enabled ;;
  fields <-- need (ApiStatus UNAUTHORIZED "Invalid terminal auth frame") (frame_fields frame) ;;
  let '(ticket_id, ticket_secret, device_key_id, nonce, signature) := fields in
  now <-- unix_now ;;
  ticket <-- mobile_terminal_ticket_for_consume ticket_id ticket_secret device_key_id now ;;
  user <-- (user <-! need NOT_ALLOWED_TO_ATTACH (mobile_terminal_visible_user c (tk_actor_email ticket)) ;;
            check (fst user =?s tk_user_id ticket) NOT_ALLOWED_TO_ATTACH ;!;
            revoked <-! mobile_terminal_device_revoked (tk_user_id ticket) device_key_id ;;
            check (negb revoked) (ApiStatus UNAUTHORIZED "Device key is no longer registered") ;!;
            ok (snd user)) ;;
  _ <-- (key <-! device_key_of (tk_user_id ticket) user device_key_id ;;
         key <-! need (ApiStatus UNAUTHORIZED "Device key is no longer registered") key ;;
         verify_mobile_terminal_p256_signature key signature
           (mobile_terminal_ws_message (tk_ticket_id ticket) (tk_session_id ticket) (tk_actor_email ticket) device_key_id nonce)) ;;
  _ <-- (found <-! lookup_session (tk_session_id ticket) ;;
         session <-! need NOT_ATTACHABLE found ;;
         check (negb (is_stopped session)) NOT_ATTACHABLE ;!;
         match attach_descriptor_payload session with
         | Some message => fail (ApiStatus FORBIDDEN message)
         | None => ok tt
         end ;!;
         of_result (validate_mobile_terminal_tmux_target (tk_tmux_session ticket) (tk_tmux_socket_name ticket))) ;;
  _ <-- ensure_enabled ;;
  attached <-- attach_ticket ticket_id ticket_secret device_key_id now ;;
  k (fst attached) (snd attached).
Definition remove_mobile_terminal_active_attach (attach_id : string) : SM unit :=
  change (fun s => s <| sv_active := delete attach_id (sv_active s) |>).
(** The web socket: the attach lasts from redeeming the ticket to the end of the bridge. *)
Definition mobile_terminal_websocket (frame : MobileTerminalAuthFrame) : handler :=
  _ <-- ensure_enabled ;;
  consume_mobile_terminal_ticket frame (fun ticket attach_id =>
  _ <-- remove_mobile_terminal_active_attach attach_id ;;
  Ret (inl (Detached ticket attach_id))).

(** ** Switching off *)
Definition disable_mobile_terminal (r : request) : handler :=
  with_actor r (fun actor_email =>
  let refused := ApiStatus FORBIDDEN "User is not allowed to disable mobile terminal attach" in
  _ <-- (user <-! need refused (mobile_terminal_visible_user c actor_email) ;;
         check (interactive_shell_access (snd user) && mobile_terminal_user_can_disable (snd user)) refused) ;;
  _ <-- change (fun s => s <| sv_disabled := true |>) ;;
  _ <-- change (fun s => s <| sv_tickets := ∅ |>) ;;
  stopped <-- (active <-! read sv_active ;;
               change (fun s => s <| sv_active := ∅ |> <| sv_stopped := dom active ∪ sv_stopped s |>) ;!;
               ok (total active)) ;;
  Ret (inl (TerminalDisabled stopped))).

(** ** Revoking a device *)
Definition DEVICE_NOT_FOUND : api_error := ApiNotFound "Mobile terminal device not found".
Definition owners_of_key (device_key_id : string) : list string :=
  map fst (List.filter (fun kv => existsb (fun key => trim (dk_id key) =?s device_key_id) (registered_device_keys (snd kv)))
             (mt_allowed_users (mobile_terminal c))).
Definition resolve_mobile_terminal_revoke_target (actor_user_id : string) (owner_view : bool) (device_key_id : string)
    (requested_user_id : option string) : SM string :=
  match trimmed requested_user_id with
  | Some requested =>
      if negb (requested =?s actor_user_id) && negb owner_view
      then fail (ApiStatus FORBIDDEN "User is not allowed to revoke this mobile terminal device")
      else
        exists_ <-! mobile_terminal_user_device_exists requested device_key_id ;;
        if (exists_ : bool) then ok requested else fail DEVICE_NOT_FOUND
  | None =>
      own <-! mobile_terminal_user_device_exists actor_user_id device_key_id ;;
      if (own : bool) then ok actor_user_id
      else if negb owner_view then fail DEVICE_NOT_FOUND
      else
        dynamic <-! or_value [] (on_device_db (list_active_devices_for_users true
                      (list_to_set (map fst (mt_allowed_users (mobile_terminal c)))))) ;;
        let matches := fold_left (fun acc d =>
          if (dv_device_id d =?s device_key_id) && negb (str_in (dv_user_id d) acc) then acc ++ [dv_user_id d] else acc)
          dynamic (owners_of_key device_key_id) in
        match matches with
        | [] => fail DEVICE_NOT_FOUND
        | [user_id] => ok user_id
        | _ => fail (ApiStatus CONFLICT "Mobile terminal device id matches multiple users; specify user_id")
        end
  end.
Definition attach_of_device (user_id device_key_id : string) (a : MobileTerminalActiveAttach) : bool :=
  (at_user_id a =?s user_id) && (at_device_key_id a =?s device_key_id).
Definition revoke_key (user_id device_key_id : string) : SM bool :=
  revoked <-! read sv_revoked_keys ;;
  change (fun s => s <| sv_revoked_keys := {[ (user_id, device_key_id) ]} ∪ sv_revoked_keys s |>) ;!;
  ok (bool_decide ((user_id, device_key_id) ∈ revoked)).
Definition revoke_tickets (user_id device_key_id : string) : SM Z :=
  before <-! read sv_tickets ;;
  change (fun s => s <| sv_tickets := filter (fun kv => of_device user_id device_key_id (snd kv) = false) (sv_tickets s) |>) ;!;
  after <-! read sv_tickets ;;
  ok (total before - total after).
Definition revoke_attaches (user_id device_key_id : string) : SM Z :=
  active <-! read sv_active ;;
  let matches := filter (fun kv => attach_of_device user_id device_key_id (snd kv) = true) active in
  change (fun s => s <| sv_active := filter (fun kv => attach_of_device user_id device_key_id (snd kv) = false) (sv_active s) |>
                     <| sv_stopped := dom matches ∪ sv_stopped s |>) ;!;
  ok (total matches).
Definition revoke_mobile_terminal_device (r : request) (device_key_id : string) (query_user_id : option string) : handler :=
  access <-- ensure_cloudflare_access_application_from_parts c (rq_headers r) (rq_peer r) (Some MobileApp) ;;
  _ <-- ensure_public_edge_assertion_from_parts c (rq_headers r) (rq_peer r) (rq_method r) (rq_target r) ;;
  let device_key_id := trim device_key_id in
  let refused := ApiStatus FORBIDDEN "User is not allowed to manage mobile terminal devices" in
  actor_email <-- (check (negb (device_key_id =?s "")) (ApiStatus 400 "Mobile terminal device id is required") ;!;
                   actor <-! request_actor_email_from_parts c (rq_headers r) (rq_peer r) ;;
                   need (ApiStatus UNAUTHORIZED "Authentication required") actor) ;;
  _ <-- ensure_mobile_cloudflare_access_context_matches_actor c access actor_email ;;
  actor <-- (user <-! need refused (mobile_terminal_visible_user c actor_email) ;;
             check (interactive_shell_access (snd user)) refused ;!; ok user) ;;
  target_user_id <-- resolve_mobile_terminal_revoke_target (fst actor) (mobile_terminal_user_can_disable (snd actor))
                       device_key_id query_user_id ;;
  _ <-- (k <-! reading ;;
         match sync_revoke k device_key_id with Some e => fail (ApiInternal e) | None => ok tt end) ;;
  persisted_revoked <-- on_device_db (revoke_device true target_user_id device_key_id) ;;
  already_revoked <-- revoke_key target_user_id device_key_id ;;
  pending <-- revoke_tickets target_user_id device_key_id ;;
  stops <-- revoke_attaches target_user_id device_key_id ;;
  Ret (inl (DeviceRevoked target_user_id device_key_id (already_revoked && negb persisted_revoked) pending stops
              (negb persisted_revoked))).

(** ** The requests *)
Inductive terminal_request : handler -> Prop :=
| request_ticket r session_id : terminal_request (create_mobile_attach_ticket r session_id)
| request_attach frame : terminal_request (mobile_terminal_websocket frame)
| request_disable r : terminal_request (disable_mobile_terminal r)
| request_revoke r device_key_id user_id : terminal_request (revoke_mobile_terminal_device r device_key_id user_id).
End Handlers.
