(* ===== verification/MobileTicketsProps.v ===== *)
(** * What the mobile terminal promises while requests interleave

    Revoking a device and switching the terminal off are final, a ticket is redeemed once,
    and the limits on attaches hold, whatever threads run between the sections of a
    handler. *)
From Stdlib Require Import ZArith Lia Bool String Ascii List.
From stdpp Require Import base tactics list strings gmap relations.
From S2P Require Import Prelude Text StrMethods Table Clock Json HttpRequest Api ServerConfig UsageDb MobileDevices.
From S2P Require Import MobileDevicesProps Server CloudflareAccess CloudflareAccessProps PublicEdge DeviceAuth MobileTickets.
From S2P Require Import Demo DemoUsage.

Section Proofs.
Context `{W : Jwt} `{U : UriCrate} `{I : Monotonic} `{E : Env} `{F : LocalTime} `{K : DeviceCrypto} `{J : JsonParser}
  `{G : Signing} `{H1 : Sha1} `{C : Unicode} `{N : Sessions} `{V : TerminalServices}.
Context (c : AppConfig) (terminal_secret : string).
Abbreviation handler := (prog (server W) (answer + api_error)).

(** ** Sections that leave the terminal's state alone *)
Definition quiet (s s' : server W) : Prop :=
  sv_tickets s' = sv_tickets s /\ sv_active s' = sv_active s /\ sv_revoked_keys s' = sv_revoked_keys s
  /\ sv_disabled s' = sv_disabled s /\ (sv_tick s <= sv_tick s')%nat.
#[local] Instance quiet_preorder : PreOrder quiet.
Proof.
  split; [by intros s; repeat split|]. intros s1 s2 s3 (A1 & A2 & A3 & A4 & A5) (B1 & B2 & B3 & B4 & B5).
  unfold quiet. repeat split; try congruence. lia.
Qed.
Lemma reading_quiet : asteps quiet (@reading W).
Proof. intros s. repeat split; cbn; lia. Qed.
Lemma unix_now_quiet : asteps quiet (@unix_now W E).
Proof. unfold unix_now. pose proof reading_quiet. api_steps. Qed.
(** Database operations read the clock forwards. *)
Definition ticks_on (w w' : world device_db) : Prop := (w_tick w <= w_tick w')%nat.
#[local] Instance ticks_on_preorder : PreOrder ticks_on.
Proof. split; [by intros w; unfold ticks_on|]. intros ???. unfold ticks_on. lia. Qed.
Lemma device_db_quiet {A} (m : DM A) : steps ticks_on m -> asteps quiet (on_device_db m).
Proof.
  intros Hm s. specialize (Hm (World (sv_devices s) (sv_tick s))). unfold on_device_db, ticks_on in *.
  destruct (m _) as [[] w]; cbn in *; by repeat split.
Qed.
Lemma query_ticks {A} (f : device_db -> A) : steps ticks_on (query f).
Proof. intros w. unfold ticks_on. cbn. lia. Qed.
Lemma execute_ticks (f : device_db -> device_db * nat) : steps ticks_on (execute f).
Proof. intros w. unfold ticks_on. cbn. lia. Qed.
Lemma tick_ticks : steps ticks_on (@tick device_db).
Proof. intros w. unfold ticks_on. cbn. lia. Qed.
#[local] Hint Resolve query_ticks execute_ticks tick_ticks : steps.
Lemma revoke_device_ticks u d : steps ticks_on (revoke_device true u d).
Proof. unfold revoke_device, insert_audit_event, local_timestamp. step_through. Qed.
Lemma active_key_ticks u d : steps ticks_on (active_device_public_key true u d).
Proof. unfold active_device_public_key. step_through. Qed.
Lemma active_exists_ticks u d : steps ticks_on (active_device_exists true u d).
Proof. unfold active_device_exists. pose proof active_key_ticks. step_through. Qed.
Lemma has_active_ticks u : steps ticks_on (user_has_active_device true u).
Proof. unfold user_has_active_device. step_through. Qed.
Lemma device_exists_ticks u d : steps ticks_on (device_exists true u d).
Proof. unfold device_exists. step_through. Qed.
Lemma list_active_ticks us : steps ticks_on (list_active_devices_for_users true us).
Proof. unfold list_active_devices_for_users. step_through. Qed.
Lemma or_value_quiet {A} (a : A) m : asteps quiet m -> asteps quiet (or_value a m).
Proof. intros Hm s. specialize (Hm s). unfold or_value. by destruct (m s) as [[] ?]. Qed.
#[local] Hint Resolve reading_quiet unix_now_quiet device_db_quiet active_key_ticks active_exists_ticks has_active_ticks
  device_exists_ticks list_active_ticks revoke_device_ticks or_value_quiet : asteps.

Lemma gate_quiet h peer r : asteps quiet (ensure_cloudflare_access_application_from_parts c h peer r).
Proof.
  assert (forall i, asteps quiet (fetch_cloudflare_access_jwks i))
    by (intros i; unfold fetch_cloudflare_access_jwks; api_steps).
  assert (forall i b, asteps quiet (cloudflare_access_cached_jwks i b))
    by (intros i b; unfold cloudflare_access_cached_jwks; api_steps; by repeat split).
  assert (forall i, asteps quiet (cloudflare_access_mark_unknown_key_refresh_if_allowed i))
    by (intros i; unfold cloudflare_access_mark_unknown_key_refresh_if_allowed; api_steps; by repeat split).
  assert (forall u d, asteps quiet (mobile_cloudflare_access_device_enrolled_for_user c u d))
    by (intros u d; unfold mobile_cloudflare_access_device_enrolled_for_user; api_steps).
  assert (forall d us, asteps quiet (any_user_has_device c d us))
    by (intros d us; induction us; cbn [any_user_has_device]; api_steps).
  unfold ensure_cloudflare_access_application_from_parts, classify_cloudflare_access_assertion_cached,
    ensure_cloudflare_access_context_allowed, ensure_mobile_cloudflare_access_device_enrolled. api_steps.
Qed.
Lemma matches_quiet ctx actor : asteps quiet (ensure_mobile_cloudflare_access_context_matches_actor c ctx actor).
Proof.
  unfold ensure_mobile_cloudflare_access_context_matches_actor, ensure_mobile_cloudflare_access_device_enrolled_for_user,
    mobile_cloudflare_access_device_enrolled_for_user. api_steps.
Qed.
Lemma timestamp_quiet a b t k : asteps quiet (validate_timestamp (W := W) a b t k).
Proof. unfold validate_timestamp. api_steps. Qed.
Lemma edge_quiet h peer m p : asteps quiet (ensure_public_edge_assertion_from_parts (W := W) c h peer m p).
Proof.
  unfold ensure_public_edge_assertion_from_parts, validate_public_edge_timestamp, verify_public_edge_assertion,
    record_public_edge_assertion_nonce. pose proof timestamp_quiet. api_steps; by repeat split.
Qed.
Lemma actor_quiet h peer : asteps quiet (request_actor_email_from_parts (W := W) c h peer).
Proof.
  unfold request_actor_email_from_parts, authenticated_user, device_auth_user, browser_session_user,
    verify_starlette_session_cookie. api_steps.
Qed.
Lemma session_quiet i : asteps quiet (lookup_session (W := W) i).
Proof. unfold lookup_session. api_steps. Qed.
Lemma resolve_quiet i : asteps quiet (resolve_session_or_registry_role (W := W) i).
Proof. unfold resolve_session_or_registry_role. pose proof session_quiet. api_steps. Qed.
Lemma exists_quiet u d : asteps quiet (mobile_terminal_user_device_exists (W := W) c u d).
Proof. unfold mobile_terminal_user_device_exists. api_steps. Qed.
Lemma available_quiet u user : asteps quiet (mobile_terminal_user_has_available_registered_device (W := W) u user).
Proof. unfold mobile_terminal_user_has_available_registered_device. api_steps. Qed.
Lemma key_quiet u user d : asteps quiet (device_key_of (W := W) u user d).
Proof. unfold device_key_of. api_steps. Qed.
Lemma verify_quiet k s m : asteps quiet (verify_mobile_terminal_p256_signature (W := W) k s m).
Proof. unfold verify_mobile_terminal_p256_signature. api_steps. Qed.
Lemma enabled_quiet : asteps quiet (ensure_enabled (W := W) c).
Proof. unfold ensure_enabled. api_steps. Qed.
Lemma runtime_quiet : asteps quiet (ensure_mobile_terminal_ticket_runtime_enabled (W := W)).
Proof. unfold ensure_mobile_terminal_ticket_runtime_enabled. api_steps. Qed.
Lemma nonce_quiet u d n x e k : asteps quiet (record_mobile_terminal_proof_nonce (W := W) u d n x e k).
Proof. unfold record_mobile_terminal_proof_nonce. api_steps; by repeat split. Qed.
Lemma target_quiet a o d q : asteps quiet (resolve_mobile_terminal_revoke_target (W := W) c a o d q).
Proof. unfold resolve_mobile_terminal_revoke_target. pose proof exists_quiet. api_steps. Qed.
#[local] Hint Resolve gate_quiet matches_quiet timestamp_quiet edge_quiet actor_quiet session_quiet resolve_quiet exists_quiet
  available_quiet key_quiet verify_quiet enabled_quiet runtime_quiet nonce_quiet target_quiet : asteps.

(** ** The history *)
(** The tickets issued and whose they are, the ids that cannot come back, the devices revoked,
    those whose tickets and those whose attaches were taken, how far switching off got, and
    whether an id was drawn that had been drawn before. *)
Record history : Type := MkHistory {
  hi_issued : gmap string (string * string); hi_dead : gset string; hi_revoked : gset (string * string);
  hi_swept : gset (string * string); hi_cleared : gset (string * string); hi_phase : nat;
  hi_clash : bool }.
#[local] Instance eta_history : Eta history := fun h =>
  MkHistory (hi_issued h) (hi_dead h) (hi_revoked h) (hi_swept h) (hi_cleared h) (hi_phase h) (hi_clash h).
(** A device whose tickets are taken loses every ticket issued before. *)
Record later (h h' : history) : Prop := {
  la_issued : hi_issued h ⊆ hi_issued h';
  la_dead : hi_dead h ⊆ hi_dead h';
  la_revoked : hi_revoked h ⊆ hi_revoked h';
  la_swept : hi_swept h ⊆ hi_swept h';
  la_cleared : hi_cleared h ⊆ hi_cleared h';
  la_phase : (hi_phase h <= hi_phase h')%nat;
  la_clash : hi_clash h = true -> hi_clash h' = true;
  la_sweep : forall ud id, ud ∉ hi_swept h -> ud ∈ hi_swept h' -> hi_issued h !! id = Some ud -> id ∈ hi_dead h' }.
#[local] Instance later_preorder : PreOrder later.
Proof.
  split; [by intros h; split|]. intros h1 h2 h3 [A1 A2 A3 A4 A5 A6 AC A7] [B1 B2 B3 B4 B5 B6 BC B7].
  split; try (by etransitivity); [by auto|]. intros ud id Hn Hs Hi. destruct (decide (ud ∈ hi_swept h2)) as [Hd|Hd].
  - apply B2. by eapply A7.
  - eapply B7; [done..|]. by eapply lookup_weaken.
Qed.

(** The id that is drawn at a reading, and that those of the first [n] readings differ. *)
Definition token_id (k : nat) : string := "att_" +:+ urlsafe_base64 (fill_bytes k 18).
Definition distinct_ids (n : nat) : Prop :=
  forall k1 k2, (k1 < n)%nat -> (k2 < n)%nat -> token_id k1 = token_id k2 -> k1 = k2.
Lemma distinct_before n n' : (n <= n')%nat -> distinct_ids n' -> distinct_ids n.
Proof. intros Hn Hd k1 k2 H1' H2. apply Hd; lia. Qed.
(** The limits on the attaches. *)
Definition within_limits (active : gmap string MobileTerminalActiveAttach) : Prop :=
  total active <= max_global (attach_limits c)
  /\ (forall u, count (of_user u) active <= max_user (attach_limits c))
  /\ (forall n, count (of_session n) active <= max_session (attach_limits c)).
Record inv (h : history) (s : server W) : Prop := {
  iv_tickets : forall id t, sv_tickets s !! id = Some t ->
    tk_ticket_id t = id /\ is_Some (hi_issued h !! id)
    /\ (hi_clash h = false -> hi_issued h !! id = Some (tk_user_id t, tk_device_key_id t) /\ id ∉ hi_dead h);
  iv_issued : forall id ud, hi_issued h !! id = Some ud -> exists k, (k < sv_tick s)%nat /\ id = token_id k;
  iv_dead : forall id, id ∈ hi_dead h -> is_Some (hi_issued h !! id);
  iv_revoked : hi_revoked h ⊆ sv_revoked_keys s;
  iv_swept : hi_swept h ⊆ hi_revoked h;
  iv_cleared : hi_cleared h ⊆ hi_swept h;
  iv_gone : hi_clash h = false -> forall aid a, sv_active s !! aid = Some a -> (at_user_id a, at_device_key_id a) ∉ hi_cleared h;
  iv_disabled : (1 <= hi_phase h)%nat -> sv_disabled s = true;
  iv_no_tickets : (2 <= hi_phase h)%nat -> sv_tickets s = ∅;
  iv_no_attaches : (3 <= hi_phase h)%nat -> sv_active s = ∅;
  iv_limits : within_limits (sv_active s);
  iv_clash : hi_clash h = true -> ~ distinct_ids (sv_tick s) }.
(** What an answer says of the history. *)
Definition answered (h : history) (a : answer + api_error) : Prop :=
  match a with
  | inl (TerminalDisabled _) => (3 <= hi_phase h)%nat
  | inl (DeviceRevoked u d _ _ _ _) => (u, d) ∈ hi_cleared h
  | inl (Detached t _) => tk_ticket_id t ∈ hi_dead h
  | _ => True
  end.
Lemma answered_mono h h' a : later h h' -> answered h a -> answered h' a.
Proof. intros [] Ha. destruct a as [[]|]; cbn in *; try done; [set_solver|lia|set_solver]. Qed.

(** Fewer tickets and fewer attaches keep it. *)
Lemma count_mono {A} (p : A -> bool) (m m' : gmap string A) : m' ⊆ m -> count p m' <= count p m.
Proof. intros H. unfold count. apply Nat2Z.inj_le, map_subseteq_size, map_filter_subseteq_mono. done. Qed.
Lemma total_mono {A} (m m' : gmap string A) : m' ⊆ m -> total m' <= total m.
Proof. intros H. unfold total. apply Nat2Z.inj_le, map_subseteq_size. done. Qed.
Lemma within_mono m m' : m' ⊆ m -> within_limits m -> within_limits m'.
Proof.
  intros Hm (H1' & H2 & H3). split; [|split].
  - pose proof (total_mono m m' Hm). lia.
  - intros u. pose proof (count_mono (of_user u) m m' Hm). specialize (H2 u). lia.
  - intros n. pose proof (count_mono (of_session n) m m' Hm). specialize (H3 n). lia.
Qed.
Definition shrinks (s s' : server W) : Prop :=
  sv_tickets s' ⊆ sv_tickets s /\ sv_active s' ⊆ sv_active s /\ sv_revoked_keys s' = sv_revoked_keys s
  /\ sv_disabled s' = sv_disabled s /\ (sv_tick s <= sv_tick s')%nat.
Lemma empty_subseteq {A} (m : gmap string A) : m ⊆ ∅ -> m = ∅.
Proof. intros H. apply map_empty. intros i. destruct (m !! i) as [x|] eqn:Ei; [|done]. eapply lookup_weaken in Ei; [|done]. done. Qed.
Lemma inv_shrinks h s s' : shrinks s s' -> inv h s -> inv h s'.
Proof.
  intros (T1 & T2 & T3 & T4 & T5) [I1 I2 I3 I4 I5 I6 I7 I8 I9 I10 I11 I12]. split; try done.
  - intros id t Ht. apply I1. by eapply lookup_weaken.
  - intros id ud Hi. destruct (I2 id ud Hi) as (k & Hk & ->). exists k. split; [lia|done].
  - by rewrite T3.
  - intros Hc aid a Ha. eapply I7; [done|]. by eapply lookup_weaken.
  - by rewrite T4.
  - intros Hp. apply empty_subseteq. by rewrite <- (I9 Hp).
  - intros Hp. apply empty_subseteq. by rewrite <- (I10 Hp).
  - by eapply within_mono.
  - intros Hc Hd. apply (I12 Hc). by eapply distinct_before.
Qed.
Lemma quiet_shrinks s s' : quiet s s' -> shrinks s s'.
Proof. intros (A1 & A2 & A3 & A4 & A5). unfold shrinks. rewrite A1, A2. by repeat split. Qed.
Lemma inv_quiet h s s' : quiet s s' -> inv h s -> inv h s'.
Proof. intros Hq. by apply inv_shrinks, quiet_shrinks. Qed.

Abbreviation keeps := (keeps_all later inv answered).
Lemma keeps_quiet {A} h (m : AM (server W) A) (k : A -> handler) :
  asteps quiet m -> (forall h' a, later h h' -> keeps h' (k a)) -> keeps h (atomically m k).
Proof. intros Hm Hk. eapply (keeps_all_frame later inv answered quiet); [done|apply inv_quiet|done|done]. Qed.

(** ** The sections that change it *)
(** A ticket joins the store.  Its id is new, or two readings gave one id. *)
Lemma inv_store h s k t : inv h s -> sv_disabled s = false -> tk_ticket_id t = token_id k -> (k < sv_tick s)%nat ->
  (forall ud, hi_issued h !! tk_ticket_id t = Some ud -> exists k', (k' < k)%nat /\ tk_ticket_id t = token_id k') ->
  exists h', later h h' /\ inv h' (s <| sv_tickets := <[tk_ticket_id t := t]> (sv_tickets s) |>).
Proof.
  intros [I1 I2 I3 I4 I5 I6 I7 I8 I9 I10 I11 I12] Hd Hk Hlt Hold.
  assert (Hphase : (2 <= hi_phase h)%nat -> False).
  { intros Hp. assert (sv_disabled s = true) by (apply I8; lia). congruence. }
  destruct (hi_issued h !! tk_ticket_id t) as [ud|] eqn:Hi.
  - exists (h <| hi_clash := true |>). split; [by split|]. split; cbn; try done.
    + intros id t' [[<- <-]|[Hne Hl]]%lookup_insert_Some; [by rewrite Hi|]. destruct (I1 id t' Hl) as (H1' & H2 & _). done.
    + intros _ Hdist. destruct (Hold ud eq_refl) as (k' & Hk' & He). rewrite Hk in He.
      assert (k = k') by (apply Hdist; [done|lia|done]). lia.
  - exists (h <| hi_issued := <[tk_ticket_id t := (tk_user_id t, tk_device_key_id t)]> (hi_issued h) |>). split.
    { split; cbn; try done. by apply insert_subseteq. }
    split; cbn; try done.
    + intros id t' [[<- <-]|[Hne Hl]]%lookup_insert_Some.
      * rewrite lookup_insert_eq. split; [done|]. split; [done|]. intros _. split; [done|]. intros Hdead.
        destruct (I3 _ Hdead). congruence.
      * rewrite lookup_insert_ne by done. by apply I1.
    + intros id ud [[<- <-]|[_ Hl]]%lookup_insert_Some; [by exists k|]. by eapply I2.
    + intros id Hdead. destruct (decide (id = tk_ticket_id t)) as [->|]; [by rewrite lookup_insert_eq|].
      rewrite lookup_insert_ne by done. by apply I3.
Qed.

(** A section is kept when some later history fits what it leaves. *)
Lemma keeps_section {A} h (m : AM (server W) A) (k : A -> handler) :
  (forall h1 s, later h h1 -> inv h1 s -> exists h2, later h1 h2 /\ inv h2 (snd (m s))
     /\ forall a, fst (m s) = inl a -> keeps h2 (k a)) ->
  keeps h (atomically m k).
Proof. by apply keeps_all_atomically. Qed.
Lemma keeps_shrinking {A} h (m : AM (server W) A) (k : A -> handler) :
  asteps shrinks m -> (forall h' a, later h h' -> keeps h' (k a)) -> keeps h (atomically m k).
Proof. intros Hm Hk. eapply (keeps_all_frame later inv answered shrinks); [done|by intros; eapply inv_shrinks|done|done]. Qed.
Lemma keeps_answer h a : answered h a -> keeps h (Ret a).
Proof. done. Qed.
#[local] Instance shrinks_preorder : PreOrder shrinks.
Proof.
  split; [by intros s; repeat split|]. intros s1 s2 s3 (A1 & A2 & A3 & A4 & A5) (B1 & B2 & B3 & B4 & B5).
  split; [by etransitivity|]. split; [by etransitivity|]. repeat split; try congruence. lia.
Qed.

(** Who asks: four sections that change nothing of the terminal. *)
Lemma keeps_with_actor h r (k : string -> handler) :
  (forall h' e, later h h' -> keeps h' (k e)) -> keeps h (with_actor c r k).
Proof.
  intros Hk. unfold with_actor. apply keeps_quiet; [auto with asteps|]. intros h1 access L1.
  apply keeps_quiet; [auto with asteps|]. intros h2 _ L2. apply keeps_quiet; [api_steps|]. intros h3 e L3.
  apply keeps_quiet; [api_steps|]. intros h4 _ L4. apply Hk. by repeat (etransitivity; [eassumption|]).
Qed.

(** ** Issuing a ticket *)
Lemma store_ticket_inv h s now t k : inv h s -> tk_ticket_id t = token_id k -> (k < sv_tick s)%nat ->
  (forall ud, hi_issued h !! tk_ticket_id t = Some ud -> exists k', (k' < k)%nat /\ tk_ticket_id t = token_id k') ->
  exists h', later h h' /\ inv h' (snd (store_ticket c now t s)).
Proof.
  intros Hs Hid Hk Hold. unfold store_ticket. cbn.
  set (s1 := s <| sv_tickets := _ |>).
  assert (inv h s1) as Hs1.
  { eapply inv_shrinks; [|done]. repeat split; cbn; try done.
    etransitivity; apply map_filter_subseteq. }
  destruct (limit_error _ _ _ _); cbn; [by exists h|].
  unfold ensure_mobile_terminal_ticket_runtime_enabled, try, check. cbn.
  destruct (sv_disabled s) eqn:Hd; cbn; [by exists h|].
  by apply (inv_store h s1 k t Hs1).
Qed.
Lemma issue_ticket_keeps h e n az now :
  keeps h (atomically (issue_ticket c terminal_secret e n az now) (fun r => Ret (inl (TicketIssued r)))).
Proof.
  apply keeps_section. intros h1 s L1 Hs. unfold issue_ticket, random_token, reading. cbn.
  set (t := MkTicket _ _ _ _ _ _ _ _ _ _ _ _). set (s2 := s <| sv_tick := _ |> <| sv_tick := _ |>).
  destruct (store_ticket_inv h1 s2 now t (sv_tick s)) as (h2 & L2 & Hs2).
  - eapply inv_quiet; [|done]. repeat split; cbn; lia.
  - done.
  - cbn. lia.
  - intros ud Hi. by apply (iv_issued h1 s Hs _ ud).
  - exists h2. split; [done|]. unfold try. destruct (store_ticket c now t s2) as [[[]|err] s3]; cbn in *; split; done.
Qed.
Lemma authorize_keeps h hd rp n e (k : MobileTerminalAuthorization -> handler) :
  (forall h' az, later h h' -> keeps h' (k az)) -> keeps h (authorize_mobile_terminal_ticket_request c hd rp n e k).
Proof.
  intros Hk. unfold authorize_mobile_terminal_ticket_request. apply keeps_quiet; [api_steps|].
  intros h1 [ws_url [user_id user]] L1. apply keeps_quiet; [api_steps|]. intros h2 _ L2.
  apply keeps_quiet; [unfold validate_mobile_terminal_timestamp, mobile_terminal_device_revoked; api_steps|].
  intros h3 [az [ts sg]] L3. apply keeps_quiet; [api_steps|]. intros h4 _ L4. apply Hk.
  by repeat (etransitivity; [eassumption|]).
Qed.
Lemma create_ticket_keeps h r i : keeps h (create_mobile_attach_ticket c terminal_secret r i).
Proof.
  unfold create_mobile_attach_ticket. apply keeps_with_actor. intros h1 e L1.
  apply keeps_quiet; [api_steps|]. intros h2 n L2. apply keeps_quiet; [auto with asteps|]. intros h3 _ L3.
  apply authorize_keeps. intros h4 az L4. apply keeps_quiet; [api_steps|]. intros h5 now L5. apply issue_ticket_keeps.
Qed.

(** ** Redeeming a ticket *)
Lemma for_consume_shrinks i sec d now : asteps shrinks (mobile_terminal_ticket_for_consume (W := W) terminal_secret i sec d now).
Proof. unfold mobile_terminal_ticket_for_consume. api_steps. repeat split; cbn; try done. apply delete_subseteq. Qed.
Lemma for_consume_inv i sec d now (s s' : server W) t :
  mobile_terminal_ticket_for_consume terminal_secret i sec d now s = (inl t, s') ->
  s' = s /\ sv_tickets s !! i = Some t /\ tk_ticket_id t = i /\ tk_device_key_id t = d.
Proof.
  unfold mobile_terminal_ticket_for_consume. intros Hr. inv_api Hr.
  unfold validate_mobile_terminal_ticket_secret in *.
  destruct (tk_expires_at_unix _ <=? now); inv_api Hr. 
  repeat match goal with Hx : (if ?b then _ else _) = _ |- _ => destruct b eqn:?; [discriminate|] end.
  bool_simpl. done.
Qed.

(** One attach more, when the limits allow one more. *)
Lemma size_insert_le {A} (m : gmap string A) i x : (size (<[i := x]> m) <= S (size m))%nat.
Proof. rewrite map_size_insert. destruct (m !! i); cbn; lia. Qed.
Lemma count_insert {A} (p : A -> bool) (m : gmap string A) i x :
  count p (<[i := x]> m) <= count p m + (if p x then 1 else 0).
Proof.
  unfold count. rewrite map_filter_insert. cbn. destruct (p x) eqn:Hp; rewrite ?Hp.
  - rewrite decide_True by done. pose proof (size_insert_le (filter (fun kv : string * A => p (snd kv) = true) m) i x). lia.
  - rewrite decide_False by done.
    pose proof (count_mono p m (delete i m) (delete_subseteq m i)) as Hc. unfold count in Hc. lia.
Qed.
Lemma within_insert active t i a : within_limits active ->
  enforce_mobile_terminal_active_limits c active t = None ->
  at_user_id a = tk_user_id t -> at_session_id a = tk_session_id t -> within_limits (<[i := a]> active).
Proof.
  intros (G1 & G2 & G3) He Hu Hn. unfold enforce_mobile_terminal_active_limits, limit_error in He.
  destruct (max_global _ <=? _) eqn:E1 in He; [done|]. destruct (max_user _ <=? _) eqn:E2 in He; [done|].
  destruct (max_session _ <=? _) eqn:E3 in He; [done|]. apply Z.leb_gt in E1, E2, E3. split; [|split].
  - unfold total in *. pose proof (size_insert_le active i a). lia.
  - intros u. pose proof (count_insert (of_user u) active i a) as Hc. unfold of_user in Hc at 3. rewrite Hu in Hc.
    specialize (G2 u). destruct (tk_user_id t =?s u) eqn:Eu; [|lia]. apply String.eqb_eq in Eu as <-. lia.
  - intros n. pose proof (count_insert (of_session n) active i a) as Hc. unfold of_session in Hc at 3. rewrite Hn in Hc.
    specialize (G3 n). destruct (tk_session_id t =?s n) eqn:En; [|lia]. apply String.eqb_eq in En as <-. lia.
Qed.

(** A ticket leaves the store for good and its device is attached: [h0] is the history when
    the ticket's device was found not revoked. *)
Lemma inv_attach h0 h s t aid now : later h0 h -> inv h s -> sv_tickets s !! tk_ticket_id t = Some t ->
  (hi_clash h = false -> hi_issued h0 !! tk_ticket_id t = Some (tk_user_id t, tk_device_key_id t)
     /\ (tk_user_id t, tk_device_key_id t) ∉ hi_swept h0) ->
  enforce_mobile_terminal_active_limits c (sv_active s) t = None ->
  let h' := h <| hi_dead := {[ tk_ticket_id t ]} ∪ hi_dead h |> in
  let s' := s <| sv_tickets := delete (tk_ticket_id t) (sv_tickets s) |>
              <| sv_active := <[aid := MkAttach (tk_user_id t) (tk_session_id t) (tk_provider t) (tk_device_key_id t) now]>
                                (sv_active s) |> in
  later h h' /\ inv h' s'.
Proof.
  intros L0 [I1 I2 I3 I4 I5 I6 I7 I8 I9 I10 I11 I12] Ht Hown He h' s'.
  destruct (I1 _ _ Ht) as (_ & Hi & Hnd).
  assert (hi_clash h = false -> (tk_user_id t, tk_device_key_id t) ∉ hi_swept h) as Hns'.
  { intros Hc Hsw. destruct (Hown Hc) as [Hi0 Hns]. apply (Hnd Hc). by eapply (la_sweep _ _ L0). }
  assert (hi_phase h < 2)%nat as Hph.
  { destruct (decide (2 <= hi_phase h)%nat) as [Hge|]; [|lia]. rewrite (I9 Hge) in Ht. done. }
  split.
  { unfold h'. split; cbn; try done. apply union_subseteq_r. }
  split; cbn; try done; try lia.
  - intros id t' [Hne Hl]%lookup_delete_Some. destruct (I1 id t' Hl) as (? & ? & H2). split; [done|]. split; [done|].
    intros Hc. destruct (H2 Hc) as [? Hx]. split; [done|]. rewrite elem_of_union, elem_of_singleton. by intros [Heq|?]; [apply Hne|].
  - intros id [->%elem_of_singleton|Hid]%elem_of_union; [done|by apply I3].
  - intros Hc aid' a [[_ <-]|[_ Ha]]%lookup_insert_Some; [|by eapply I7]. cbn. specialize (Hns' Hc). clear -Hns' I6. set_solver.
  - by eapply within_insert.
Qed.

(** What a thread knows of a ticket whose device it found not revoked. *)
Definition cleared_to_attach (h : history) (id d : string) : Prop :=
  hi_clash h = false -> exists u, hi_issued h !! id = Some (u, d) /\ (u, d) ∉ hi_swept h.
Lemma no_clash_before h h' : later h h' -> hi_clash h' = false -> hi_clash h = false.
Proof. intros L Hc. destruct (hi_clash h) eqn:E'; [|done]. by rewrite (la_clash _ _ L) in Hc. Qed.
Lemma attach_keeps h0 h i sec d now (k : MobileTerminalTicket * string -> handler) :
  later h0 h -> cleared_to_attach h0 i d ->
  (forall h' t aid, tk_ticket_id t ∈ hi_dead h' -> keeps h' (k (t, aid))) ->
  keeps h (atomically (attach_ticket c terminal_secret i sec d now) k).
Proof.
  intros L0 Hcl Hk. apply keeps_section. intros h1 s L1 Hs.
  pose proof (for_consume_shrinks i sec d now s) as Hsh. unfold attach_ticket, try.
  destruct (mobile_terminal_ticket_for_consume terminal_secret i sec d now s) as [[t|e] s1] eqn:Hr; cbn in Hsh |- *; cycle 1.
  { exists h1. split; [done|]. split; [by eapply inv_shrinks|done]. }
  apply for_consume_inv in Hr as (-> & Ht & <- & <-).
  assert (later h0 h1) as L01 by (by transitivity h).
  assert (hi_clash h1 = false -> hi_issued h0 !! tk_ticket_id t = Some (tk_user_id t, tk_device_key_id t)
            /\ (tk_user_id t, tk_device_key_id t) ∉ hi_swept h0) as Hown.
  { intros Hc. destruct (Hcl (no_clash_before _ _ L01 Hc)) as (u & Hi0 & Hns).
    destruct (iv_tickets h1 s Hs _ _ Ht) as (_ & _ & Hi'). destruct (Hi' Hc) as [Hi1 _].
    pose proof (lookup_weaken _ _ _ _ Hi0 (la_issued _ _ L01)) as Hi2. assert (u = tk_user_id t) as -> by congruence. done. }
  destruct (enforce_mobile_terminal_active_limits c (sv_active s) t) eqn:He; cbn.
  { exists h1. done. }
  set (aid := urlsafe_base64 _).
  destruct (inv_attach h0 h1 s t aid now) as [L2 Hs2]; [done..|].
  eexists. split; [exact L2|]. split.
  - eapply inv_quiet; [|exact Hs2]. repeat split; cbn; lia.
  - intros a [= <-]. apply Hk. cbn. set_solver.
Qed.
Lemma consume_keeps h frame (k : MobileTerminalTicket -> string -> handler) :
  (forall h' t aid, tk_ticket_id t ∈ hi_dead h' -> keeps h' (k t aid)) ->
  keeps h (consume_mobile_terminal_ticket c terminal_secret frame k).
Proof.
  intros Hk. unfold consume_mobile_terminal_ticket.
  apply keeps_quiet; [auto with asteps|]. intros h1 _ L1. apply keeps_quiet; [api_steps|].
  intros h2 [[[[i sec] d] nonce] sg] L2. apply keeps_quiet; [auto with asteps|]. intros h3 now L3.
  apply keeps_section. intros h4 s L4 Hs.
  pose proof (for_consume_shrinks i sec d now s) as Hsh.
  destruct (mobile_terminal_ticket_for_consume terminal_secret i sec d now s) as [[t|e] s1] eqn:Hr; cbn in Hsh |- *; cycle 1.
  { exists h4. split; [done|]. split; [by eapply inv_shrinks|done]. }
  apply for_consume_inv in Hr as (-> & Ht & <- & <-). destruct (iv_tickets h4 s Hs _ _ Ht) as (_ & _ & Hi).
  exists h4. split; [done|]. split; [done|]. intros ? [= <-].
  apply keeps_section. intros h5 s5 L5 Hs5.
  match goal with |- context [snd (?m s5)] => set (section := m) end.
  assert (asteps quiet section) as Hq by (unfold section, mobile_terminal_device_revoked; api_steps).
  exists h5. split; [done|]. split; [by eapply inv_quiet; [apply Hq|]|]. intros user Hrun.
  assert (cleared_to_attach h5 (tk_ticket_id t) (tk_device_key_id t)) as Hc.
  { intros Hnc. exists (tk_user_id t). split.
    { eapply lookup_weaken; [apply Hi; by eapply no_clash_before|apply L5]. }
    destruct (section s5) as [r s6] eqn:Es. cbn in Hrun. subst r. unfold section, mobile_terminal_device_revoked in Es.
    inv_api Es. rewrite negb_true_iff in *. intros Hsw. apply (iv_swept _ _ Hs5), (iv_revoked _ _ Hs5) in Hsw.
    rewrite bool_decide_eq_false in *. done. }
  apply keeps_quiet; [api_steps|]. intros h6 _ L6. apply keeps_quiet; [api_steps|]. intros h7 _ L7.
  apply keeps_quiet; [auto with asteps|]. intros h8 _ L8.
  eapply attach_keeps; [|exact Hc|intros h' t' aid; apply Hk]. by repeat (etransitivity; [eassumption|]).
Qed.
Lemma remove_shrinks i : asteps shrinks (remove_mobile_terminal_active_attach (W := W) i).
Proof. intros s. repeat split; cbn; try done. apply delete_subseteq. Qed.
Lemma websocket_keeps h frame : keeps h (mobile_terminal_websocket c terminal_secret frame).
Proof.
  unfold mobile_terminal_websocket. apply keeps_quiet; [auto with asteps|]. intros h1 _ L1. apply consume_keeps.
  intros h2 t aid Hd. apply keeps_shrinking; [apply remove_shrinks|]. intros h3 _ L3. apply keeps_answer. cbn. by apply L3.
Qed.

(** ** Switching off *)
Definition at_phase (n : nat) (h : history) : history := h <| hi_phase := Nat.max n (hi_phase h) |>.
Lemma later_phase n h : later h (at_phase n h).
Proof. split; cbn; try done. lia. Qed.
Lemma inv_switch_off h s : inv h s -> inv (at_phase 1 h) (s <| sv_disabled := true |>).
Proof. intros []. split; cbn; try done; intros Hp; [apply iv_no_tickets0|apply iv_no_attaches0]; lia. Qed.
Lemma inv_drop_tickets h s : inv h s -> (1 <= hi_phase h)%nat -> inv (at_phase 2 h) (s <| sv_tickets := ∅ |>).
Proof. intros [] Hp. split; cbn; try done; intros Hq; [by apply iv_disabled0|apply iv_no_attaches0; lia]. Qed.
Lemma within_empty : within_limits ∅.
Proof.
  assert (forall v hi d : Z, 1 <= hi -> 0 <= clamp_usize v 1 hi d) as Hc.
  { intros v hi d Hhi. pose proof (clamp_range v 1 hi d Hhi). unfold clamp_usize. lia. }
  unfold within_limits, attach_limits, total, count. cbn [max_global max_user max_session].
  split; [|split; intros ?; rewrite map_filter_empty]; rewrite map_size_empty; apply Hc; lia.
Qed.
Lemma inv_drop_attaches h s stopped : inv h s -> (2 <= hi_phase h)%nat ->
  inv (at_phase 3 h) (s <| sv_active := ∅ |> <| sv_stopped := stopped |>).
Proof.
  intros [] Hp. split; cbn; try done; try (intros _; by auto with lia).
  apply within_empty.
Qed.
Lemma disable_keeps h r : keeps h (disable_mobile_terminal c r).
Proof.
  unfold disable_mobile_terminal. apply keeps_with_actor. intros h1 e L1. apply keeps_quiet; [api_steps|]. intros h2 _ L2.
  apply keeps_section. intros h3 s3 L3 Hs3. exists (at_phase 1 h3). split; [apply later_phase|].
  split; [by apply inv_switch_off|]. intros _ _.
  apply keeps_section. intros h4 s4 L4 Hs4. exists (at_phase 2 h4). split; [apply later_phase|].
  assert (1 <= hi_phase h4)%nat by (apply la_phase in L4; cbn in L4; lia).
  split; [by apply inv_drop_tickets|]. intros _ _.
  apply keeps_section. intros h5 s5 L5 Hs5. exists (at_phase 3 h5). split; [apply later_phase|].
  assert (2 <= hi_phase h5)%nat by (apply la_phase in L5; cbn in L5; lia).
  split; [by apply inv_drop_attaches|]. intros n _. apply keeps_answer. cbn. lia.
Qed.

(** ** Revoking a device *)
Definition issued_to (u d : string) (h : history) : gset string := dom (filter (fun kv => snd kv = (u, d)) (hi_issued h)).
Lemma elem_of_issued_to u d h id : id ∈ issued_to u d h <-> hi_issued h !! id = Some (u, d).
Proof.
  unfold issued_to. rewrite elem_of_dom. split.
  - intros [ud [Hl Hu]%map_lookup_filter_Some]. cbn in Hu. by subst.
  - intros Hl. exists (u, d). by apply map_lookup_filter_Some.
Qed.
Lemma of_device_spec u d t : of_device u d t = true <-> (tk_user_id t, tk_device_key_id t) = (u, d).
Proof. unfold of_device. rewrite andb_true_iff, !String.eqb_eq. split; [by intros [-> ->]|by intros [= -> ->]]. Qed.
Lemma attach_of_device_spec u d a : attach_of_device u d a = true <-> (at_user_id a, at_device_key_id a) = (u, d).
Proof. unfold attach_of_device. rewrite andb_true_iff, !String.eqb_eq. split; [by intros [-> ->]|by intros [= -> ->]]. Qed.

Definition with_revoked (u d : string) (h : history) : history := h <| hi_revoked := {[ (u, d) ]} ∪ hi_revoked h |>.
Lemma inv_revoke_key h s u d : inv h s ->
  later h (with_revoked u d h) /\ inv (with_revoked u d h) (snd (revoke_key u d s)).
Proof.
  intros []. split; split; cbn; try done; [apply union_subseteq_r|by apply union_mono_l|].
  etransitivity; [done|apply union_subseteq_r].
Qed.
Definition with_swept (u d : string) (h : history) : history :=
  h <| hi_swept := {[ (u, d) ]} ∪ hi_swept h |> <| hi_dead := issued_to u d h ∪ hi_dead h |>.
Lemma inv_revoke_tickets h s u d : inv h s -> (u, d) ∈ hi_revoked h ->
  later h (with_swept u d h) /\ inv (with_swept u d h) (snd (revoke_tickets u d s)).
Proof.
  intros [I1 I2 I3 I4 I5 I6 I7 I8 I9 I10 I11 I12] Hr. split.
  - split; cbn; try done; try apply union_subseteq_r. intros ud id Hn Hs Hi.
    apply elem_of_union in Hs as [->%elem_of_singleton|]; [|done]. apply elem_of_union_l. by apply elem_of_issued_to.
  - split; cbn; try done.
    + intros id t [Ht Hof]%map_lookup_filter_Some. destruct (I1 id t Ht) as (? & ? & Hnd). split; [done|]. split; [done|].
      intros Hc. destruct (Hnd Hc) as [Hi ?]. split; [done|]. rewrite elem_of_union, elem_of_issued_to. intros [Hud|]; [|done]. cbn in Hof.
      enough (of_device u d t = true) by congruence. apply of_device_spec. congruence.
    + intros id [Hid|Hid]%elem_of_union; [|by apply I3]. apply elem_of_issued_to in Hid. by rewrite Hid.
    + apply union_subseteq. split; [by apply singleton_subseteq_l|done].
    + etransitivity; [done|apply union_subseteq_r].
    + intros Hp. rewrite (I9 Hp). apply map_filter_empty.
Qed.
Definition with_cleared (u d : string) (h : history) : history := h <| hi_cleared := {[ (u, d) ]} ∪ hi_cleared h |>.
Lemma inv_revoke_attaches h s u d : inv h s -> (u, d) ∈ hi_swept h ->
  later h (with_cleared u d h) /\ inv (with_cleared u d h) (snd (revoke_attaches u d s)).
Proof.
  intros [I1 I2 I3 I4 I5 I6 I7 I8 I9 I10 I11 I12] Hr. split.
  - split; cbn; try done. apply union_subseteq_r.
  - split; cbn; try done.
    + apply union_subseteq. split; [by apply singleton_subseteq_l|done].
    + intros Hc aid a [Ha Hof]%map_lookup_filter_Some. cbn in Hof. rewrite elem_of_union, elem_of_singleton.
      intros [Hud|Hud]; [|by eapply I7]. apply attach_of_device_spec in Hud. congruence.
    + intros Hp. rewrite (I10 Hp). apply map_filter_empty.
    + eapply within_mono; [apply map_filter_subseteq|done].
Qed.
Lemma revoke_keeps h r d q : keeps h (revoke_mobile_terminal_device c r d q).
Proof.
  unfold revoke_mobile_terminal_device. apply keeps_quiet; [auto with asteps|]. intros h1 access L1.
  apply keeps_quiet; [auto with asteps|]. intros h2 _ L2. apply keeps_quiet; [api_steps|]. intros h3 e L3.
  apply keeps_quiet; [api_steps|]. intros h4 _ L4. apply keeps_quiet; [api_steps|]. intros h5 actor L5.
  apply keeps_quiet; [auto with asteps|]. intros h6 u L6. apply keeps_quiet; [api_steps|]. intros h7 _ L7.
  apply keeps_quiet; [api_steps|]. intros h8 persisted L8. set (dk := trim d).
  apply keeps_section. intros h9 s9 L9 Hs9. destruct (inv_revoke_key h9 s9 u dk Hs9) as [La Ha].
  exists (with_revoked u dk h9). split; [done|]. split; [done|]. intros already _.
  apply keeps_section. intros hA sA LA HsA.
  assert ((u, dk) ∈ hi_revoked hA) as Hr by (apply LA; cbn; apply elem_of_union_l, elem_of_singleton; done).
  destruct (inv_revoke_tickets hA sA u dk HsA Hr) as [Lb Hb].
  exists (with_swept u dk hA). split; [done|]. split; [done|]. intros pending _.
  apply keeps_section. intros hB sB LB HsB.
  assert ((u, dk) ∈ hi_swept hB) as Hw by (apply LB; cbn; apply elem_of_union_l, elem_of_singleton; done).
  destruct (inv_revoke_attaches hB sB u dk HsB Hw) as [Lc Hc].
  exists (with_cleared u dk hB). split; [done|]. split; [done|]. intros stops _. apply keeps_answer. cbn.
  apply elem_of_union_l, elem_of_singleton. done.
Qed.

(** ** Every request keeps it *)
Lemma request_keeps h p : terminal_request c terminal_secret p -> keeps h p.
Proof. intros []; [apply create_ticket_keeps|apply websocket_keeps|apply disable_keeps|apply revoke_keeps]. Qed.
(** The server before its first request. *)
Definition fresh (s : server W) : Prop := sv_tickets s = ∅ /\ sv_active s = ∅.
Definition no_history : history := MkHistory ∅ ∅ ∅ ∅ ∅ 0 false.
Lemma inv_fresh s : fresh s -> inv no_history s.
Proof. intros [Ht Ha]. split; cbn; try done; try lia; rewrite ?Ht, ?Ha; try done; try set_solver. apply within_empty. Qed.
(** The threads and the state requests lead to from there. *)
Definition reachable (s : server W) (ps : list handler) (s' : server W) : Prop :=
  fresh s /\ rtc (pool_step (terminal_request c terminal_secret)) ([], s) (ps, s').
Lemma reachable_inv s ps s' : reachable s ps s' ->
  exists h, inv h s' /\ (forall p, In p ps -> keeps h p) /\ forall a, In (Ret a) ps -> answered h a.
Proof.
  intros [Hf Hsteps].
  destruct (pool_keeps later inv answered answered_mono _ no_history [] s ps s' request_keeps) as (h & _ & Hps & Hs);
    [done|by apply inv_fresh|done|].
  exists h. split; [done|]. split; [done|]. intros a Ha. exact (Hps _ Ha).
Qed.
Lemma no_clash h s : inv h s -> distinct_ids (sv_tick s) -> hi_clash h = false.
Proof. intros Hs Hd. destruct (hi_clash h) eqn:Hc; [|done]. by destruct (iv_clash h s Hs Hc). Qed.
(** No ticket in the store has an id that was redeemed. *)
Lemma dead_ticket h s id : inv h s -> distinct_ids (sv_tick s) -> id ∈ hi_dead h -> sv_tickets s !! id = None.
Proof.
  intros Hs Hd Hdead. destruct (sv_tickets s !! id) as [t|] eqn:Ht; [|done].
  destruct (iv_tickets h s Hs _ _ Ht) as (_ & _ & Hnd). by destruct (Hnd (no_clash h s Hs Hd)).
Qed.
(** A web socket that is being served: its ticket was redeemed. *)
Definition served (t : MobileTerminalTicket) (aid : string) : handler :=
  (_ <-- remove_mobile_terminal_active_attach aid ;; Ret (inl (Detached t aid))).

(** ** What the terminal promises *)
(** C3: Once a device's revocation is answered the device is attached to no terminal, and it
    stays so whatever requests were under way when the revocation came and whatever requests
    come after it, as long as the random source has given no ticket id twice. *)
Theorem revocation_is_final s ps s' u d already pending stops only :
  reachable s ps s' -> distinct_ids (sv_tick s') ->
  In (Ret (inl (DeviceRevoked u d already pending stops only))) ps ->
  forall aid a, sv_active s' !! aid = Some a -> (at_user_id a, at_device_key_id a) <> (u, d).
Proof.
  intros Hreach Hd Hin aid a Ha Heq. destruct (reachable_inv s ps s' Hreach) as (h & Hs & _ & Hans).
  specialize (Hans _ Hin). cbn in Hans. rewrite <- Heq in Hans.
  by apply (iv_gone h s' Hs (no_clash h s' Hs Hd) aid a Ha).
Qed.
(** C20: Once switching the mobile terminal off is answered there is no ticket left to redeem
    and no attach, and it stays so, whatever requests were under way. *)
Theorem disable_is_final s ps s' stopped :
  reachable s ps s' -> In (Ret (inl (TerminalDisabled stopped))) ps ->
  sv_disabled s' = true /\ sv_tickets s' = ∅ /\ sv_active s' = ∅.
Proof.
  intros Hreach Hin. destruct (reachable_inv s ps s' Hreach) as (h & Hs & _ & Hans).
  specialize (Hans _ Hin). cbn in Hans.
  split; [apply (iv_disabled h s' Hs)|split; [apply (iv_no_tickets h s' Hs)|apply (iv_no_attaches h s' Hs)]]; lia.
Qed.
(** C22: A ticket that was redeemed is gone for good: from the moment its web socket is served
    its id names no ticket of the store, so nobody attaches with it again, as long as the
    random source has given no ticket id twice. *)
Theorem redeemed_ticket_gone s ps s' t aid :
  reachable s ps s' -> distinct_ids (sv_tick s') ->
  In (served t aid) ps \/ In (Ret (inl (Detached t aid))) ps -> sv_tickets s' !! tk_ticket_id t = None.
Proof.
  intros Hreach Hd Hin. destruct (reachable_inv s ps s' Hreach) as (h & Hs & Hps & Hans). destruct Hin as [Hin|Hin].
  - specialize (Hps _ Hin h s' (reflexivity h) Hs) as (h2 & _ & Hdead & Hs2). cbn in Hdead.
    by apply (dead_ticket h2 _ (tk_ticket_id t) Hs2).
  - by apply (dead_ticket h s' (tk_ticket_id t) Hs Hd (Hans _ Hin)).
Qed.
(** C21: However requests interleave, the attaches stay within the limits of the
    configuration: in all, of each user and of each session. *)
Theorem attach_limits_kept s ps s' :
  reachable s ps s' ->
  total (sv_active s') <= max_global (attach_limits c)
  /\ (forall u, count (of_user u) (sv_active s') <= max_user (attach_limits c))
  /\ (forall n, count (of_session n) (sv_active s') <= max_session (attach_limits c)).
Proof. intros Hreach. destruct (reachable_inv s ps s' Hreach) as (h & Hs & _ & _). apply (iv_limits h s' Hs). Qed.
End Proofs.

(** ** Concrete runs *)
#[local] Existing Instances demo_local demo_texts.
#[local] Instance demo_tokens : DeviceCrypto := {|
  sha256_hex := fun s => s;
  urlsafe_base64 := fun l => String.concat "" (map show_hex2 l) |}.
(** The ids of the first readings, pair by pair. *)
Lemma demo_distinct : distinct_ids 100.
Proof.
  assert (Hall : forallb (fun k1 => forallb (fun k2 => Nat.eqb k1 k2 || negb (token_id k1 =?s token_id k2)) (seq 0 100)) (seq 0 100) = true)
    by (vm_compute; reflexivity).
  intros k1 k2 Hk1 Hk2 He. rewrite forallb_forall in Hall.
  assert (Hrow := Hall k1). rewrite in_seq, forallb_forall in Hrow. assert (Hcell := Hrow ltac:(lia) k2). rewrite in_seq in Hcell.
  specialize (Hcell ltac:(lia)). rewrite He, String.eqb_refl, orb_false_r in Hcell. by apply Nat.eqb_eq.
Qed.
#[local] Instance demo_any_uri : UriCrate := {| parse_uri := fun _ => None |}.
#[local] Instance demo_seconds : Monotonic := {| instant_now := fun k => Z.of_nat k * NANOS |}.
#[local] Instance demo_macs : Signing := {|
  hmac_sha256 := fun key message => key +:+ message; base64_standard_decode := fun s => Some s;
  base64_urlsafe_decode := fun s => Some s |}.
#[local] Instance demo_sha1 : Sha1 := {| sha1 := fun s => s; hmac_sha1 := fun key message => key +:+ message |}.
#[local] Instance demo_cases : Unicode := {| to_lowercase := to_ascii_lowercase |}.
#[local] Instance demo_registry : Sessions := {|
  get_session := fun _ i => Some (Some (MkSession i "claude" "primary" "running" None "tmux1" None));
  agent_registration := fun _ _ => Some None |}.
#[local] Instance demo_services : TerminalServices := {|
  sync_revoke := fun _ _ => None; p256_key := fun _ => true; p256_signature := fun _ => true;
  p256_verify := fun _ _ _ => true |}.
Definition demo_terminal_config : AppConfig :=
  MkAppConfig
    (MkAccessConfig None None None None no_application no_application no_application no_application None None None)
    (MkGoogleAuth false None None None None None None [] None) (MkPublicEdge false None 0)
    (MkExternalAccess None None)
    (MkMobileTerminal true (Some "wss://sm.example/client/terminal"%string) None true
       [("ann"%string, MkUserConfig (Some "local_bypass"%string) [] true true false false [MkDeviceKey "phone" "key" true])] 0 0 0 0 0).
Definition demo_terminal : server no_jwt := MkServer ∅ None ∅ ∅ ∅ ∅ ∅ ∅ false empty_device_db 0.
Definition demo_terminal_request : request :=
  MkRequest [("host", "localhost"); ("x-sm-device-key-id", "phone"); ("x-sm-device-timestamp", "1700000000");
             ("x-sm-device-nonce", "n1"); ("x-sm-device-signature", "sig")]%string
    (Some (V4 127 0 0 1)) "POST" "/client/sessions/s1/attach-ticket" "/client/sessions/s1/attach-ticket".
Abbreviation demo_handler := (prog (server no_jwt) (answer + api_error)).
Definition demo_ticket_request : demo_handler :=
  create_mobile_attach_ticket demo_terminal_config "hidden" demo_terminal_request "s1".
Definition demo_run (p : list (choice (answer + api_error))) := schedule p ([], demo_terminal).
Definition demo_attach : demo_handler :=
  mobile_terminal_websocket demo_terminal_config "hidden"
    (MkFrame (Some (token_id 3)) (Some (urlsafe_base64 (fill_bytes 4 40))) (Some "phone") (Some "n2") (Some "sig"))%string.
Definition demo_revoke : demo_handler := revoke_mobile_terminal_device demo_terminal_config demo_terminal_request "phone" None.
Definition demo_disable : demo_handler := disable_mobile_terminal demo_terminal_config demo_terminal_request.
(** The phone is attached. *)
Definition demo_attached : list (choice (answer + api_error)) :=
  Accept demo_ticket_request :: repeat (Run 0) 12 ++ Accept demo_attach :: repeat (Run 1) 10.
Definition demo_revoked : list (choice (answer + api_error)) := demo_attached ++ Accept demo_revoke :: repeat (Run 2) 12.
Definition demo_disabled : list (choice (answer + api_error)) := demo_attached ++ Accept demo_disable :: repeat (Run 2) 9.
(** How each thread stands, the number of attaches and that of tickets. *)
Inductive standing : Type := Running | Answered | Refused (e : api_error).
Definition demo_view (p : list (choice (answer + api_error))) : list standing * Z * Z :=
  let x := demo_run p in
  (map (fun p => match p with Ret (inl _) => Answered | Ret (inr e) => Refused e | Step _ _ => Running end) (fst x),
   total (sv_active (snd x)), total (sv_tickets (snd x))).
Abbreviation demo_reached p :=
  (rtc (pool_step (terminal_request demo_terminal_config "hidden")) ([], demo_terminal) (fst (demo_run p), snd (demo_run p))).
Lemma demo_requests p : (forall r, In (Accept r) p -> In r [demo_ticket_request; demo_attach; demo_revoke; demo_disable]) ->
  demo_reached p.
Proof.
  intros Hp. rewrite <- surjective_pairing. apply schedule_steps.
  intros r Hr. destruct (Hp r Hr) as [<-|[<-|[<-|[<-|[]]]]]; constructor.
Qed.
Lemma in_accept_runs (r : demo_handler) i n p : In (Accept r) (repeat (Run i) n ++ p) -> In (Accept r) p.
Proof. intros [Hin|]%in_app_iff; [|done]. apply repeat_spec in Hin. done. Qed.
Lemma attached_requests : (forall p r, In (Accept r) (demo_attached ++ p) ->
  r = demo_ticket_request \/ r = demo_attach \/ In (Accept r) p).
Proof.
  intros p r [[= <-]|Hr]; [by left|]. rewrite <- app_assoc in Hr. apply in_accept_runs in Hr.
  destruct Hr as [[= <-]|Hr]; [by right; left|]. apply in_accept_runs in Hr. by right; right.
Qed.
Lemma revoked_reached : demo_reached demo_revoked.
Proof.
  apply demo_requests. intros r [->|[->|[[= <-]|Hr]]]%attached_requests; [by left|by right; left|by right; right; left|].
  rewrite <- (app_nil_r (repeat _ _)) in Hr. by apply in_accept_runs in Hr.
Qed.
Lemma disabled_reached : demo_reached demo_disabled.
Proof.
  apply demo_requests. intros r [->|[->|[[= <-]|Hr]]]%attached_requests; [by left|by right; left|by right; right; right; left|].
  rewrite <- (app_nil_r (repeat _ _)) in Hr. by apply in_accept_runs in Hr.
Qed.
Lemma detached_reached : demo_reached (demo_attached ++ [Run 1]).
Proof. apply demo_requests. intros r [->|[->|[|[]]]]%attached_requests; [by left|by right; left|done]. Qed.
Lemma demo_distinct_run p : Nat.leb (sv_tick (snd (demo_run p))) 100 = true -> distinct_ids (sv_tick (snd (demo_run p))).
Proof. intros Hp%Nat.leb_le. eapply distinct_before; [exact Hp|apply demo_distinct]. Qed.
Lemma demo_fresh : fresh demo_terminal.
Proof. done. Qed.
Lemma demo_terminal_views :
  demo_view demo_attached = ([Answered; Running], 1, 0)
  /\ demo_view demo_revoked = ([Answered; Running; Answered], 0, 0)
  /\ demo_view demo_disabled = ([Answered; Running; Answered], 0, 0).
Proof. vm_compute. done. Qed.
(** The phone found itself not revoked, then was revoked, and asks to attach: refused. *)
Lemma demo_race :
  demo_view (Accept demo_ticket_request :: repeat (Run 0) 12 ++ Accept demo_attach :: repeat (Run 1) 9
             ++ Accept demo_revoke :: repeat (Run 2) 12 ++ [Run 1])
  = ([Answered; Refused TICKET_INVALID; Answered], 0, 0).
Proof. vm_compute. reflexivity. Qed.

Lemma answered_at p i (a : answer + api_error) : fst (demo_run p) !! i = Some (Ret a) -> In (Ret a) (fst (demo_run p)).
Proof. intros Hi. apply list_elem_of_In. by eapply list_elem_of_lookup_2. Qed.
Lemma revocation_is_final_witness :
  demo_view demo_revoked = ([Answered; Running; Answered], 0, 0)
  /\ forall aid a, sv_active (snd (demo_run demo_revoked)) !! aid = Some a ->
       (at_user_id a, at_device_key_id a) <> ("ann", "phone")%string.
Proof.
  split; [vm_compute; reflexivity|]. apply (revocation_is_final demo_terminal_config "hidden" demo_terminal _ _
           "ann" "phone" false 0 1 true (conj demo_fresh revoked_reached)).
  { by apply demo_distinct_run. }
  apply (answered_at _ 2). vm_compute. reflexivity.
Defined.
Lemma disable_is_final_witness :
  sv_disabled (snd (demo_run demo_disabled)) = true /\ sv_tickets (snd (demo_run demo_disabled)) = ∅
  /\ sv_active (snd (demo_run demo_disabled)) = ∅.
Proof.
  apply (disable_is_final demo_terminal_config "hidden" demo_terminal _ _ 1 (conj demo_fresh disabled_reached)).
  apply (answered_at _ 2). vm_compute. reflexivity.
Defined.
Definition demo_redeemed : MobileTerminalTicket :=
  MkTicket (token_id 3) (mobile_terminal_secret_hash "hidden" (urlsafe_base64 (fill_bytes 4 40))) "ann" "local_bypass" "s1" "claude" "primary" "tmux1" None "phone" 1700000002 1700000032.
Lemma redeemed_ticket_gone_witness : sv_tickets (snd (demo_run (demo_attached ++ [Run 1]))) !! tk_ticket_id demo_redeemed = None.
Proof.
  apply (redeemed_ticket_gone demo_terminal_config "hidden" demo_terminal _ _
           demo_redeemed (urlsafe_base64 (fill_bytes 7 16)) (conj demo_fresh detached_reached)); [by apply demo_distinct_run|].
  right. apply (answered_at _ 1). vm_compute. reflexivity.
Defined.
Lemma attach_limits_kept_witness :
  total (sv_active (snd (demo_run demo_revoked))) <= max_global (attach_limits demo_terminal_config).
Proof.
  refine (proj1 (attach_limits_kept demo_terminal_config "hidden" demo_terminal _ _ (conj demo_fresh revoked_reached))).
Defined.
